(* ===== verification/_CoqProject ===== *)
-Q . S2P
Prelude.v
PyFloat.v
PyVal.v
Errors.v
Schema.v
Tools.v
Risk.v
Sizing.v
Validation.v
Swings.v
OrderBlocks.v
Liquidity.v
Vwap.v
Filters.v
Monad.v
Server.v
RateLimit.v
RestClient.v
Broker.v
Tables.v
Db.v
Sample.v
Writer.v
Feed.v
Signing.v
Klines.v
History.v
Engine.v
AuditLog.v
EmergencyLog.v
Credentials.v
Accounts.v
RiskPolicy.v
Orders.v
Close.v
Pending.v
OrdersSpec.v
EmergencyStop.v
CloseSpec.v
Approve.v
PlaceSpec.v
Alarms.v
AlarmsSpec.v
Screener.v
Migrations.v
EmergencyRun.v
Annotations.v
Lock.v
Ticker.v
Pipeline.v
Market.v
Worker.v
Handlers.v
HandlersSpec.v
Startup.v
Launcher.v
Adapter.v
Config.v
