(* ===== verification/Prelude.v ===== *)
(** * Verification of rasattrading-mcp

    rasattrading-mcp is a trading daemon for language-model agents.  An adapter speaks
    MCP on stdio and forwards each tool call over HTTP to a daemon on the same host; the
    daemon follows the market data of Binance, computes price-action analyses and
    alerts, and places orders on accounts under risk policies.  Everything under
    [src/src/rasattrading_mcp/] that decides something is modelled here as executable
    definitions; this header says which file models what, what the theorems show, and
    what the model leaves out.  Paths below are relative to that directory.

    ** The parts and their files

    Foundations.  [Prelude] has the result type, association lists and the lemmas all
    share; [PyFloat] is binary64 arithmetic with Python's operators, NaN kept; [PyVal]
    the values of JSON and untyped arguments; [Errors] the codes of [errors.py] and
    [numeric.py]; [Monad] computations over a state that may raise, with the two logics
    used everywhere: [steps R m] (every run of [m], failing or not, is in the preorder
    [R]) and [wp].

    Requests.  [Schema] is [schema_lite.py], [Tools] the registry of [tools.py],
    [Server] the readiness machine, the gates of [/rpc] and the dispatcher ([daemon/]
    [readiness.py], [server.py], [handlers.py]).  [Handlers] is what each of the 39
    handlers reads of its parameters and does; [HandlersSpec] what a request can change.

    Pure rules.  [Risk] ([accuracy.py], [risk.py]), [Sizing] ([position_sizing.py]),
    [Validation] ([storage/order_validation.py]), and of [pa/]: [Swings], [OrderBlocks]
    ([obfvg.py]), [Liquidity], [Vwap], and [Filters], the filter language of
    [screener.py].

    The store.  [Tables] and [Db] are the tables as one record, transactions that roll
    back, and the world the services run in ([storage/db.py], [state.py]); [Writer] the
    queue of writes and its one writer, whose steps interleave with its callers;
    [Migrations] the schema as migrations and their runner; [AuditLog], [EmergencyLog],
    [Credentials], [Accounts], [RiskPolicy] the services of [storage/] of these names.

    Orders.  [Broker] is the protocol of [data/order_broker.py] and its Binance
    implementation, [Signing] its signed URLs; [Orders] and [Close] are
    [storage/orders.py], [Market] its [PipelineMarketFeed] over the data pipeline;
    [Pending] and [Approve] the approval queue of [pa/alarms.py] and its handler;
    [OrdersSpec] is the contract of all order operations (what is recorded and sent),
    [PlaceSpec] that of placing one order, gates and settled record included, and of
    approvals, [CloseSpec] that of closing; [EmergencyStop] and [EmergencyRun] are
    [emergency_stop.py], a process that needs no daemon.

    Market data.  [RateLimit], [RestClient] ([data/binance_client.py]), [Feed] (clock
    and universe), [Klines] (with [storage/retention.py]), [Ticker] ([miniticker.py]),
    and [Pipeline] ([futures.py], [liquidation_ws.py], [pipeline.py]).

    Analysis and alarms.  [History] and [Engine] are [pa/analysis.py], [Alarms] is
    [pa/alarms.py] with its contract in [AlarmsSpec], [Screener] the scan, [Worker] and
    [Annotations] the files of [pa/] of these names.

    Processes.  [Lock] is the lock file shared by rival daemons, cut into steps that
    interleave; [Startup] is [DaemonRunner] of [daemon/main.py]: its start, life and
    shutdown; [Launcher] is [adapter/launcher.py]; [Adapter] a tool call from the agent
    through [adapter/main.py] and [transport.py] to the daemon and back, with
    [envelope.py] and the health page; [Config] is [config.py] and the command lines.
    [Sample] is a concrete outside at which theorems are instantiated.

    ** How they interact

    States nest as in the daemon: the world (store, closed flag, outside, the calls made
    to the exchange so far) is in [services] (clock, universe, queue, counters of the
    analyses), which are in [pipeline] (pollers, ticker cache), which is in [runner]
    (lock file, readiness, running parts).  [on_ext], [in_store], [in_services],
    [in_db], [in_pipeline] lift an operation to the next state, and [in_orders] runs an
    operation of the order service with the pipeline as its market.  Interfaces are classes:
    [Ext] (clock and random ids), [SecretStore], [OrderBroker], [MarketFeed], [Rest],
    [Notifier], and the configurations; [Broker], [Credentials] and [Market] implement
    three of them.  Proofs compose through relations: [quiet], [proposing], [untraded] say what a
    component leaves alone, and an instance of [WRel] (with [WCancel] where cancelling is
    allowed) or [OrderFrame] makes the walkers
    [walk], [owalk], [pwalk] prove it along a program.

    ** What the theorems show

    - Orders: placing one is a step of a specification that also says what the record
      is after the exchange's reply, refusal or silence ([place_order_refines]); each
      submission follows the record of its order, once per key
      ([submissions_recorded_once], [retry_never_submits]); whatever operations run,
      approvals and closings included, nothing is sent or cancelled for a paper account
      ([paper_never_submits]); the row that is added passed validation, market gates,
      balance and caps, with its own terms ([new_order_gated], [new_oco_gated]); closed
      means sold ([closed_means_sold]), and an emergency stop, no dry run, that exits
      with 0 stopped every account ([emergency_exit_zero]).
    - Who can order: [requests_trade_only_by_order] for one request (otherwise nothing is
      sent and nothing is cancelled), and
      [life_orders_only_by_request] over the whole life of a daemon; nobody while prices
      are stale ([no_orders_on_stale_prices]); alarms and scans
      only propose ([alarms_only_propose], [scan_lists]); approvals are decided once and
      settle ([pending_decided_once], [pending_states_flow], [approval_settles]).
    - Requests: every gate ([rpc_gated]), the validator against its declarative meaning
      ([validate_params_iff]), that handlers understand whatever conforms
      ([arguments_decoded]), and that the agent is shown what its call did
      ([agent_sees_the_daemon]).
    - Data: stored candles were closed on the server's clock ([candles_closed]), every row
      of the futures context says what an answer or a message of the exchange told
      ([futures_context_sound]), a scan lists what matches and says of it what its context
      says ([scan_lists]), the ticker cache, the REST client and its budget
      ([get_answers], [window_budget]), zones and blocks.
    - Records: immutable analyses refine an append-only history ([history_refines]);
      migrations execute their statements once, in order, and converge
      ([migrations_applied_once], [upgrades_converge]); two intact audit logs with one last
      hash are the same, up to the separator of the hashed fields ([tamper_evidence]);
      annotations come back; each entry of the emergency log is taken over, with what it
      says, once ([reconcile_once]).
    - The store: interleaved writes are serial ([writes_serialized]) and the writer
      answers every caller ([writer_drains]), which is why the services may run a write
      as one step.
    - Processes: one holder of the lock as long as no stale lock is taken over
      ([lock_exclusive], and [takeover_doubles] for the takeover), starts that are whole or
      nothing, but for a database that cannot be opened, which hangs them
      ([starts_whole_or_not]), and termination of analyses that evaluate alerts
      that ask for analyses ([analysis_terminates]).
    Examples named in the findings of the development show behaviour that a comment or a
    document denies, such as [starting_daemon_replaced] or [silent_symbol_stays_fresh].

    ** Conventions and bounds

    Errors are their codes; messages are not modelled.  Times are whole seconds, except
    in [RateLimit] and [RestClient] (nanoseconds).  Strings are code points below 256.
    JSON columns hold their decoded value, and SELECT without ORDER BY is in rowid order.
    [sum] is that of Python 3.11.  A section under an asyncio lock, a write and a turn of a
    worker task are whole steps; only [Lock] and [Writer] interleave inside an
    operation.  Fuel appears where a loop has no structural bound, with a theorem that
    enough of it is reached: the waiting loop of [RateLimit]
    ([acquire_terminates]), turns of the queue ([await_completes]), steps of
    the writer ([writer_drains]), placeholders of a command ([substitute_enough]), the
    nesting of analyses and alerts (one more than the budget, [analysis_terminates]),
    pages of a scan ([pages_cover]); the retries of [RestClient], [Lock] and [Launcher] are counted
    as in the code.

    ** Not modelled

    Third-party code is a parameter: SHA-256, DPAPI and keyring, aiohttp, websockets,
    SQLite's files, the float formatting of Python, [shlex], processes, the stdio server
    of the MCP library, argparse.  The rendering of data to JSON (every [to_dict] but
    that of the envelope), texts of messages, logging, signal handlers and status
    pages of the services decide nothing and are left out.  An operation of the order service reads the ticker cache as it was when
    the operation began. *)

From Stdlib Require Import Sorted.
From stdpp Require Export base tactics list strings option numbers gmap.

(** ** Results: a value, or the exception that escapes

    The exceptions the modelled code raises or lets escape.  [RasatError] is the
    canonical error of [errors.py] and carries its code; the others are the
    built-in exceptions of Python, of [sqlite3], and of [aiohttp] ([ClientError]). *)

Inductive exn {C : Type} : Type :=
| RasatError (code : C)
| TimeoutError
| IntegrityError
| InterfaceError
| OperationalError
| ClientError
| ZeroDivisionError
| OverflowError
| TypeError
| ValueError
| KeyError
| IndexError
| AttributeError
| RuntimeError.
Arguments exn : clear implicits.

#[export] Instance exn_eq_dec {C} `{EqDecision C} : EqDecision (exn C).
Proof. solve_decision. Defined.

Inductive res {E A : Type} : Type :=
| Ok (a : A)
| Err (e : E).
Arguments res : clear implicits.

#[export] Instance res_ret {E} : MRet (res E) := λ A a, Ok a.
#[export] Instance res_bind {E} : MBind (res E) := λ A B f m,
  match m with Ok a => f a | Err e => Err e end.
#[export] Instance res_fmap {E} : FMap (res E) := λ A B f m,
  match m with Ok a => Ok (f a) | Err e => Err e end.

Definition is_ok {E A} (r : res E A) : bool :=
  match r with Ok _ => true | Err _ => false end.

(** [when b r]: run the check [r] only under the condition [b]
    (an [if] statement without [else]). *)
Definition when {E} (b : bool) (r : res E unit) : res E unit :=
  if b then r else Ok tt.

(** [raise_if b e]: [if b: raise e]. *)
Definition raise_if {E} (b : bool) (e : E) : res E unit :=
  if b then Err e else Ok tt.

(** A check for every element, in order ([for x in l: f(x)]). *)
Fixpoint res_iter {E A} (f : A → res E unit) (l : list A) : res E unit :=
  match l with [] => Ok tt | x :: l' => _ ← f x; res_iter f l' end.

Section ResultLemmas.
Context {E : Type}.

Lemma res_bind_Ok {A B} (m : res E A) (f : A → res E B) b :
  (m ≫= f) = Ok b ↔ ∃ a, m = Ok a ∧ f a = Ok b.
Proof.
  destruct m as [a|e]; simpl; naive_solver.
Qed.

Lemma res_bind_Err {A B} (m : res E A) (f : A → res E B) e :
  (m ≫= f) = Err e ↔ m = Err e ∨ ∃ a, m = Ok a ∧ f a = Err e.
Proof.
  destruct m as [a|e']; simpl; naive_solver.
Qed.

Lemma res_iter_Ok {A} (f : A → res E unit) l :
  res_iter f l = Ok tt ↔ ∀ x, x ∈ l → f x = Ok tt.
Proof.
  induction l as [|x l IH]; simpl; [set_solver|]. rewrite res_bind_Ok. split.
  - intros ([] & Hx & Hl) y [->|Hy]%elem_of_cons; [done|]. by apply IH.
  - intros H. exists tt. split; [apply H; left|]. apply IH. intros; apply H; by right.
Qed.

Lemma raise_if_Ok (b : bool) (e : E) u : raise_if b e = Ok u ↔ b = false.
Proof. destruct b, u; naive_solver. Qed.

Lemma raise_if_Err (b : bool) (e e' : E) : raise_if b e = Err e' ↔ b = true ∧ e = e'.
Proof. destruct b; naive_solver. Qed.

Lemma when_Ok (b : bool) (r : res E unit) u : when b r = Ok u ↔ (b = true → r = Ok tt).
Proof. destruct b, u; simpl; naive_solver. Qed.
End ResultLemmas.

(** Peel a hypothesis [m = Ok a] (or [= Err e]) where [m] is a chain of binds
    and checks. *)
Ltac inv_res :=
  repeat match goal with
  | H : _ ∧ _ |- _ => destruct H
  | H : ∃ _, _ |- _ => destruct H
  | H : (_ ≫= _) = Ok _ |- _ => apply res_bind_Ok in H
  | H : raise_if _ _ = Ok _ |- _ => apply raise_if_Ok in H
  | H : raise_if _ _ = Err _ |- _ => apply raise_if_Err in H
  | H : Ok _ = Ok _ |- _ => injection H as H
  | H : Err _ = Err _ |- _ => injection H as H
  | H : Ok _ = Err _ |- _ => discriminate H
  | H : Err _ = Ok _ |- _ => discriminate H
  | H : mret _ = Ok _ |- _ => unfold mret, res_ret in H
  end; subst.

(** ** Booleans *)

Lemma negb_orb_false a b : a || b = false ↔ a = false ∧ b = false.
Proof. destruct a, b; naive_solver. Qed.

(** Turn boolean equations about connectives into propositional ones. *)
Ltac inv_bool :=
  repeat match goal with
  | H : _ || _ = false |- _ => apply orb_false_iff in H as [? ?]
  | H : _ && _ = true |- _ => apply andb_true_iff in H as [? ?]
  | H : negb _ = true |- _ => apply negb_true_iff in H
  | H : negb _ = false |- _ => apply negb_false_iff in H
  | H : bool_decide _ = true |- _ => apply bool_decide_eq_true_1 in H
  | H : bool_decide _ = false |- _ => apply bool_decide_eq_false_1 in H
  end.

(** ** Lists *)

Definition list_last_opt {A} (l : list A) : option A := last l.

(** [update_where p f l]: SQL's [UPDATE ... SET f WHERE p]. *)
Definition update_where {A} (p : A → bool) (f : A → A) (l : list A) : list A :=
  (λ x, if p x then f x else x) <$> l.

(** The rows an [UPDATE] or [DELETE] matches: sqlite's [rowcount]. *)
Definition count_where {A} (p : A → bool) (l : list A) : nat :=
  length (List.filter p l).

Definition delete_where {A} (p : A → bool) (l : list A) : list A :=
  List.filter (λ x, negb (p x)) l.

Section ListLemmas.
Context {A : Type}.
Implicit Types (p : A → bool) (l : list A).

Lemma length_update_where p f l : length (update_where p f l) = length l.
Proof. apply length_fmap. Qed.

Lemma update_where_lookup p f l i :
  update_where p f l !! i = (λ x, if p x then f x else x) <$> (l !! i).
Proof. apply list_lookup_fmap. Qed.

Lemma update_where_app p f l1 l2 :
  update_where p f (l1 ++ l2) = update_where p f l1 ++ update_where p f l2.
Proof. apply fmap_app. Qed.

Lemma update_where_none p f l :
  Forall (λ x, p x = false) l → update_where p f l = l.
Proof.
  unfold update_where. induction 1 as [|x l Hx _ IH]; [done|].
  rewrite fmap_cons, IH. by rewrite Hx.
Qed.

Lemma map_update_where {B} (g : A → B) p f l :
  (∀ x, g (f x) = g x) → map g (update_where p f l) = map g l.
Proof.
  intros Hg. unfold update_where, fmap. induction l as [|x l IH]; simpl; [done|].
  rewrite IH. destruct (p x); by rewrite ?Hg.
Qed.

Lemma update_where_ext p q f l :
  (∀ x, x ∈ l → p x = q x) → update_where p f l = update_where q f l.
Proof.
  unfold update_where, fmap. induction l as [|x l IH]; simpl; intros Hpq; [done|].
  rewrite (Hpq x) by (by left). f_equal. apply IH. intros y Hy. apply Hpq. by right.
Qed.

Lemma update_where_twice p q f l :
  update_where q f (update_where p f l) =
  (λ x, let y := if p x then f x else x in if q y then f y else y) <$> l.
Proof. unfold update_where, fmap. induction l as [|x l IH]; simpl; [done|]. by rewrite IH. Qed.

Lemma count_where_0 p l : count_where p l = 0 ↔ Forall (λ x, p x = false) l.
Proof.
  unfold count_where. induction l as [|x l IH]; simpl; [split; [constructor|done]|].
  rewrite Forall_cons. destruct (p x) eqn:E; simpl; naive_solver.
Qed.

Lemma elem_of_update_where p f l x :
  x ∈ update_where p f l ↔ ∃ y, y ∈ l ∧ x = (if p y then f y else y).
Proof. unfold update_where. rewrite list_elem_of_fmap. naive_solver. Qed.

Lemma find_Some_elem p l x : List.find p l = Some x → x ∈ l ∧ p x = true.
Proof. intros H%List.find_some. by rewrite list_elem_of_In. Qed.

Lemma find_None_Forall p l : List.find p l = None ↔ Forall (λ x, p x = false) l.
Proof.
  induction l as [|x l IH]; simpl; [split; [constructor|done]|].
  rewrite Forall_cons. destruct (p x) eqn:E; naive_solver.
Qed.

Lemma elem_of_filter_b p l x : x ∈ List.filter p l ↔ x ∈ l ∧ p x = true.
Proof. rewrite !list_elem_of_In. apply List.filter_In. Qed.
End ListLemmas.

(** [ORDER BY key ASC], stable. *)
Section OrderBy.
Context {A : Type} (key : A → Z).

Fixpoint insert_by (x : A) (l : list A) : list A :=
  match l with
  | [] => [x]
  | y :: l' => if (key x <=? key y)%Z then x :: l else y :: insert_by x l'
  end.

Definition order_by (l : list A) : list A := foldr insert_by [] l.

Lemma insert_by_snoc x r l :
  (key x <= key r)%Z → insert_by x (l ++ [r]) = insert_by x l ++ [r].
Proof.
  intros Hx. induction l as [|y l IH]; simpl.
  - by rewrite (proj2 (Z.leb_le _ _) Hx).
  - destruct (key x <=? key y)%Z; [done|]. by rewrite IH.
Qed.

(** A row inserted with a key above all others comes last. *)
Lemma order_by_snoc l r :
  Forall (λ x, key x <= key r)%Z l → order_by (l ++ [r]) = order_by l ++ [r].
Proof.
  induction 1 as [|x l Hx _ IH]; simpl; [done|]. unfold order_by in *. by rewrite IH, insert_by_snoc.
Qed.

Lemma elem_of_insert_by x y l : x ∈ insert_by y l ↔ x = y ∨ x ∈ l.
Proof.
  induction l as [|z l IH]; simpl; [set_solver|].
  destruct (key y <=? key z)%Z; set_solver.
Qed.

Lemma elem_of_order_by x l : x ∈ order_by l ↔ x ∈ l.
Proof.
  induction l as [|y l IH]; simpl; [done|]. unfold order_by in *. rewrite elem_of_insert_by. set_solver.
Qed.

Lemma length_order_by l : length (order_by l) = length l.
Proof.
  assert (∀ x m, length (insert_by x m) = S (length m)) as Hi.
  { intros x m. induction m as [|y m IH]; simpl; [done|].
    destruct (key x <=? key y)%Z; simpl; congruence. }
  induction l as [|x l IH]; simpl; [done|]. unfold order_by in *. by rewrite Hi, IH.
Qed.

Lemma insert_by_ordered x l :
  StronglySorted (λ x y, key x <= key y)%Z l → StronglySorted (λ x y, key x <= key y)%Z (insert_by x l).
Proof.
  induction 1 as [|y l Hl IH Hy]; simpl; [by repeat constructor|].
  destruct (key x <=? key y)%Z eqn:E; [apply Z.leb_le in E|apply Z.leb_gt in E].
  - constructor; [by constructor|]. constructor; [done|]. eapply Forall_impl; [exact Hy|]. simpl. lia.
  - constructor; [done|]. apply Forall_forall. intros z [->|Hz]%elem_of_insert_by; [lia|].
    rewrite Forall_forall in Hy. by apply Hy.
Qed.

Lemma order_by_ordered l : StronglySorted (λ x y, key x <= key y)%Z (order_by l).
Proof. induction l as [|x l IH]; simpl; [constructor|by apply insert_by_ordered]. Qed.

(** The last row has the largest key. *)
Lemma last_order_by l z : last (order_by l) = Some z → Forall (λ x, key x <= key z)%Z l.
Proof.
  intros Hz. apply Forall_forall. intros x Hx%elem_of_order_by. revert Hz Hx.
  induction (order_by_ordered l) as [|y m Hm IH Hy]; [done|].
  rewrite last_cons. destruct (last m) as [z'|] eqn:E; intros [= ->] Hx.
  - apply elem_of_cons in Hx as [->|Hx]; [|by apply IH].
    rewrite Forall_forall in Hy. apply Hy. apply last_Some in E as [m' ->]. set_solver.
  - apply last_None in E as ->. apply list_elem_of_singleton in Hx as ->. lia.
Qed.

Lemma order_by_sorted l : StronglySorted (λ x y, key x < key y)%Z l → order_by l = l.
Proof.
  induction 1 as [|x l _ IH Hx]; [done|]. simpl. unfold order_by in *. rewrite IH.
  destruct l as [|y l]; [done|]. simpl. inversion_clear Hx.
  by rewrite (proj2 (Z.leb_le _ _)) by lia.
Qed.
End OrderBy.

Create HintDb rasat.
Create Rewrite HintDb rasat.
#[export] Hint Rewrite @length_update_where @update_where_app : rasat.
#[export] Hint Resolve elem_of_filter_b : rasat.

(** ** Strings: the [str] methods the code uses

    A character is a code point below 256; changing case is modelled for ASCII
    letters only. *)

Module Str.
Definition is_space (c : Ascii.ascii) : bool :=
  let n := Ascii.nat_of_ascii c in
  ((9 <=? n) && (n <=? 13) || (28 <=? n) && (n <=? 32) || (n =? 133) || (n =? 160))%nat.

(** [ch.isalnum()], including the Latin-1 letters and numeric signs. *)
Definition is_alnum (c : Ascii.ascii) : bool :=
  let n := Ascii.nat_of_ascii c in
  ((48 <=? n) && (n <=? 57) || (65 <=? n) && (n <=? 90) || (97 <=? n) && (n <=? 122)
   || (n =? 170) || (n =? 178) || (n =? 179) || (n =? 181) || (n =? 185) || (n =? 186)
   || (188 <=? n) && (n <=? 190)
   || (192 <=? n) && (n <=? 255) && negb (n =? 215) && negb (n =? 247))%nat.

Fixpoint filter (p : Ascii.ascii → bool) (s : string) : string :=
  match s with
  | EmptyString => EmptyString
  | String c s' => if p c then String c (filter p s') else filter p s'
  end.

Fixpoint all (p : Ascii.ascii → bool) (s : string) : bool :=
  match s with EmptyString => true | String c s' => p c && all p s' end.

(** [s[:n]] *)
Fixpoint take (n : nat) (s : string) : string :=
  match n, s with
  | S n', String c s' => String c (take n' s')
  | _, _ => EmptyString
  end.

Lemma length_take n s : String.length (take n s) ≤ n.
Proof. revert s; induction n as [|n IH]; intros [|c s]; simpl; try lia. specialize (IH s). lia. Qed.

Lemma all_app p s t : all p (s +:+ t) = all p s && all p t.
Proof. induction s as [|c s IH]; simpl; [done|]. by rewrite IH, andb_assoc. Qed.

Lemma all_take p n s : all p s = true → all p (take n s) = true.
Proof.
  revert s; induction n as [|n IH]; intros [|c s]; simpl; try done.
  rewrite !andb_true_iff. naive_solver.
Qed.

Lemma all_filter p s : all p (filter p s) = true.
Proof. induction s as [|c s IH]; simpl; [done|]. destruct (p c) eqn:E; simpl; [by rewrite E|done]. Qed.

(** Fields separated by a character neither of them holds. *)
Definition lacks (c : Ascii.ascii) : string → bool := all (λ c', negb (Ascii.eqb c' c)).

Lemma cut_inj c a b x y :
  lacks c a = true → lacks c b = true →
  a +:+ String c x = b +:+ String c y → a = b ∧ x = y.
Proof.
  unfold lacks. revert b. induction a as [|h a IH]; intros [|h' b]; simpl;
    rewrite ?andb_true_iff, ?negb_true_iff.
  - naive_solver.
  - intros _ [Hc _] [= <- _]. by rewrite Ascii.eqb_refl in Hc.
  - intros [Hc _] _ [= -> _]. by rewrite Ascii.eqb_refl in Hc.
  - intros [_ Ha] [_ Hb] [= -> H]. destruct (IH b Ha Hb H). by subst.
Qed.

(** The same, from the right. *)
Lemma cut_inj_r c a b x y :
  lacks c x = true → lacks c y = true →
  a +:+ String c x = b +:+ String c y → a = b ∧ x = y.
Proof.
  assert (∀ s t, lacks c (s +:+ String c t) = false) as Hbar.
  { intros s t. unfold lacks. rewrite all_app. simpl. rewrite Ascii.eqb_refl. simpl. by rewrite andb_false_r. }
  intros Hx Hy. revert b. induction a as [|h a IH]; intros [|h' b]; simpl; intros E; simplify_eq; [done|..].
  - by rewrite Hbar in Hx.
  - by rewrite Hbar in Hy.
  - destruct (IH b) as [-> ->]; done.
Qed.

Lemma all_impl p q s : (∀ c, p c = true → q c = true) → all p s = true → all q s = true.
Proof.
  intros Hpq. induction s as [|c s IH]; simpl; [done|]. rewrite !andb_true_iff. naive_solver.
Qed.

Definition upper_char (c : Ascii.ascii) : Ascii.ascii :=
  let n := Ascii.nat_of_ascii c in
  if ((97 <=? n) && (n <=? 122))%nat then Ascii.ascii_of_nat (n - 32) else c.

Definition lower_char (c : Ascii.ascii) : Ascii.ascii :=
  let n := Ascii.nat_of_ascii c in
  if ((65 <=? n) && (n <=? 90))%nat then Ascii.ascii_of_nat (n + 32) else c.

Fixpoint map (f : Ascii.ascii → Ascii.ascii) (s : string) : string :=
  match s with
  | EmptyString => EmptyString
  | String c s' => String (f c) (map f s')
  end.

Definition upper : string → string := map upper_char.
Definition lower : string → string := map lower_char.

Fixpoint lstrip (s : string) : string :=
  match s with
  | EmptyString => EmptyString
  | String c s' => if is_space c then lstrip s' else s
  end.

Fixpoint rstrip (s : string) : string :=
  match s with
  | EmptyString => EmptyString
  | String c s' =>
      match rstrip s' with
      | EmptyString => if is_space c then EmptyString else String c EmptyString
      | r => String c r
      end
  end.

Definition strip (s : string) : string := rstrip (lstrip s).

Definition empty (s : string) : bool := String.eqb s EmptyString.

Definition starts_with (p s : string) : bool := String.prefix p s.
End Str.

(** Sorting by a string key; keys that are equal keep their order. *)
Fixpoint insert_symbol {A} (x : string * A) (l : list (string * A)) : list (string * A) :=
  match l with
  | [] => [x]
  | y :: l' => if String.leb x.1 y.1 then x :: l else y :: insert_symbol x l'
  end.
Definition sort_symbols {A} (l : list (string * A)) : list (string * A) := foldr insert_symbol [] l.

Lemma elem_of_insert_symbol {A} (x y : string * A) l : x ∈ insert_symbol y l ↔ x = y ∨ x ∈ l.
Proof.
  induction l as [|z l IH]; simpl; [set_solver|]. destruct (String.leb _ _); rewrite !elem_of_cons; [done|].
  rewrite IH. tauto.
Qed.

Lemma elem_of_sort_symbols {A} (x : string * A) l : x ∈ sort_symbols l ↔ x ∈ l.
Proof. induction l as [|y l IH]; simpl; [done|]. by rewrite elem_of_insert_symbol, elem_of_cons, IH. Qed.

Lemma delete_where_perm {A} (p : A → bool) (l l' : list A) : l ≡ₚ l' → delete_where p l ≡ₚ delete_where p l'.
Proof.
  unfold delete_where. induction 1; simpl; [done| | |by etrans].
  - by destruct (negb (p _)); [f_equiv|].
  - destruct (negb (p _)), (negb (p _)); try done. apply Permutation_swap.
Qed.
