(* ===== verification/PyFloat.v ===== *)
(** Python's [float]: IEEE-754 binary64, through the Standard Library's
    executable specification [SpecFloat] (no axioms).  Each operator is the
    Python one: division by zero raises, [int(x)] of an infinity raises,
    comparisons with NaN are false, [min] keeps its first argument on ties. *)

From Stdlib Require Export ZArith SpecFloat.
From S2P Require Import Prelude.

Abbreviation float := spec_float.
Definition prec : Z := 53.
Definition emax : Z := 1024.

#[export] Instance float_eq_dec : EqDecision float.
Proof. solve_decision. Defined.

Definition fadd : float → float → float := SFadd prec emax.
Definition fsub : float → float → float := SFsub prec emax.
Definition fmul : float → float → float := SFmul prec emax.
Definition fabs : float → float := SFabs.
Definition flt : float → float → bool := SFltb.
Definition fle : float → float → bool := SFleb.
Definition fgt (x y : float) : bool := flt y x.
Definition fge (x y : float) : bool := fle y x.
Definition feq : float → float → bool := SFeqb.

Declare Scope pyfloat_scope.
Delimit Scope pyfloat_scope with F.
Infix "+" := fadd : pyfloat_scope.
Infix "-" := fsub : pyfloat_scope.
Infix "*" := fmul : pyfloat_scope.
Infix "<?" := flt : pyfloat_scope.
Infix "<=?" := fle : pyfloat_scope.
Infix ">?" := fgt (at level 70) : pyfloat_scope.
Infix ">=?" := fge (at level 70) : pyfloat_scope.
Infix "=?" := feq : pyfloat_scope.

Definition fzero : float := S754_zero false.
Definition finf : float := S754_infinity false.
Definition fnan : float := S754_nan.

(** The integer [z] as a float, rounded to nearest even (infinite when too big). *)
Definition fZ (z : Z) : float := binary_normalize prec emax z 0 false.
(** The literal [n / d] with [n], [d] exactly representable: one correct rounding. *)
Definition fQ (n d : Z) : float := SFdiv prec emax (fZ n) (fZ d).

(** The decimal [m * 10^e], correctly rounded ([float("...")] of a literal): the
    quotient is computed on exact integers before the single rounding.  Exponents
    far outside the binary64 range are cut off before the power is computed. *)
Definition fdec (neg : bool) (m : Z) (ndigits : Z) (e : Z) : float :=
  if (m =? 0)%Z then S754_zero neg
  else if (400 <? ndigits + e)%Z then S754_infinity neg
  else if (ndigits + e <? -400)%Z then S754_zero neg
  else if (0 <=? e)%Z then
    match binary_normalize prec emax (m * 10 ^ e) 0 false with
    | S754_finite _ mm ee => S754_finite neg mm ee
    | S754_zero _ => S754_zero neg
    | _ => S754_infinity neg
    end
  else
    let '(q, e', l) := SFdiv_core_binary prec emax m 0 (10 ^ (- e)) 0 in
    binary_round_aux prec emax neg q e' l.

Definition isfinite (x : float) : bool :=
  match x with S754_zero _ | S754_finite _ _ _ => true | _ => false end.
Definition isnan (x : float) : bool :=
  match x with S754_nan => true | _ => false end.
Definition isinf (x : float) : bool :=
  match x with S754_infinity _ => true | _ => false end.
(** [bool(x)] *)
Definition ftruthy (x : float) : bool :=
  match x with S754_zero _ => false | _ => true end.

Section Raising.
Context {C : Type}.
Implicit Types (x y : float).

(** [float(z)] for an [int]: [OverflowError] beyond the float range. *)
Definition float_of_int (z : Z) : res (exn C) float :=
  let x := fZ z in if isfinite x then Ok x else Err OverflowError.

(** [x / y] *)
Definition fdiv (x y : float) : res (exn C) float :=
  match y with
  | S754_zero _ => Err ZeroDivisionError
  | _ => Ok (SFdiv prec emax x y)
  end.

(** [math.floor(x)] *)
Definition ffloor (x : float) : res (exn C) Z :=
  match x with
  | S754_zero _ => Ok 0%Z
  | S754_infinity _ => Err OverflowError
  | S754_nan => Err ValueError
  | S754_finite s m e =>
      let z := if s then Zneg m else Zpos m in
      Ok (if (0 <=? e)%Z then Z.shiftl z e else Z.div z (2 ^ (- e)))
  end.

(** [int(x)]: towards zero. *)
Definition ftrunc (x : float) : res (exn C) Z :=
  match x with
  | S754_zero _ => Ok 0%Z
  | S754_infinity _ => Err OverflowError
  | S754_nan => Err ValueError
  | S754_finite s m e =>
      let a := if (0 <=? e)%Z then Z.shiftl (Zpos m) e else Z.div (Zpos m) (2 ^ (- e)) in
      Ok (if s then - a else a)%Z
  end.

(** [round(x)]: to the nearest integer, ties to even. *)
Definition fround (x : float) : res (exn C) Z :=
  match x with
  | S754_zero _ => Ok 0%Z
  | S754_infinity _ => Err OverflowError
  | S754_nan => Err ValueError
  | S754_finite s m e =>
      let z := if s then Zneg m else Zpos m in
      Ok (if (0 <=? e)%Z then Z.shiftl z e
          else let d := (2 ^ (- e))%Z in
               let q := Z.div z d in
               match Z.compare (2 * Z.modulo z d) d with
               | Lt => q
               | Gt => q + 1
               | Eq => if Z.even q then q else q + 1
               end)%Z
  end.
End Raising.

(** [round(x, n)]: the decimal with [n] places nearest to the exact value, ties to
    even, as a float. *)
Definition fround_digits (n : Z) (x : float) : float :=
  match x with
  | S754_finite s m e =>
      if (0 <=? e)%Z then x
      else
        let den := (2 ^ (- e))%Z in
        let num := (Zpos m * 10 ^ n)%Z in
        let q := Z.div num den in
        let k := match Z.compare (2 * Z.modulo num den) den with
                 | Lt => q
                 | Gt => (q + 1)%Z
                 | Eq => if Z.even q then q else (q + 1)%Z
                 end in
        fdec s k 0 (- n)
  | _ => x
  end.

(** [min(x, y)] and [max(x, y)] *)
Definition fmin (x y : float) : float := if flt y x then y else x.
Definition fmax (x y : float) : float := if flt x y then y else x.

(** [min(l)] and [max(l)] of a non-empty list [x :: l]. *)
Definition fmin_list (x : float) (l : list float) : float := foldl fmin x l.
Definition fmax_list (x : float) (l : list float) : float := foldl fmax x l.

(** [sum(l)]: the left-to-right sum of Python 3.11 (3.12 compensates the rounding). *)
Definition fsum (l : list float) : float := foldl fadd fzero l.

(** ** The order of floats

    Every non-NaN float has a key in lexicographically ordered triples, so that
    order facts reduce to linear arithmetic. *)

Definition fkey (x : float) : Z * Z * Z :=
  match x with
  | S754_nan => (0, 0, 0)
  | S754_zero _ => (0, 0, 0)
  | S754_infinity s => ((if s then -2 else 2), 0, 0)
  | S754_finite false m e => (1, e, Zpos m)
  | S754_finite true m e => (-1, - e, Zneg m)
  end%Z.

Definition klt (a b : Z * Z * Z) : Prop :=
  let '(a1, a2, a3) := a in let '(b1, b2, b3) := b in
  (a1 < b1 ∨ (a1 = b1 ∧ (a2 < b2 ∨ (a2 = b2 ∧ a3 < b3))))%Z.

Lemma fcompare_spec x y :
  isnan x = false → isnan y = false →
  ∃ c, SFcompare x y = Some c ∧
    match c with
    | Lt => klt (fkey x) (fkey y)
    | Gt => klt (fkey y) (fkey x)
    | Eq => fkey x = fkey y
    end.
Proof.
  destruct x as [s1|s1| |s1 m1 e1], y as [s2|s2| |s2 m2 e2]; intros Hx Hy;
    try discriminate; simpl;
    try (destruct s1; try destruct s2; eexists; (split; [reflexivity|]); simpl; lia || done).
  destruct s1, s2; try (eexists; (split; [reflexivity|]); simpl; lia).
  - destruct (Z.compare_spec e1 e2); eexists; (split; [reflexivity|]); simpl; [|lia..].
    subst. change (Pos.compare_cont Eq m1 m2) with (Pos.compare m1 m2).
    destruct (Pos.compare_spec m1 m2); subst; simpl; lia || done.
  - destruct (Z.compare_spec e1 e2); eexists; (split; [reflexivity|]); simpl; [|lia..].
    subst. change (Pos.compare_cont Eq m1 m2) with (Pos.compare m1 m2).
    destruct (Pos.compare_spec m1 m2); subst; simpl; lia || done.
Qed.

Lemma klt_irrefl a : ¬ klt a a.
Proof. destruct a as [[? ?] ?]; simpl; lia. Qed.

Lemma klt_trans a b c : klt a b → klt b c → klt a c.
Proof. destruct a as [[? ?] ?], b as [[? ?] ?], c as [[? ?] ?]; simpl; lia. Qed.

Lemma klt_total a b : klt a b ∨ a = b ∨ klt b a.
Proof.
  destruct a as [[a1 a2] a3], b as [[b1 b2] b3]; simpl.
  destruct (Z.lt_trichotomy a1 b1) as [?|[->|?]]; [lia| |lia].
  destruct (Z.lt_trichotomy a2 b2) as [?|[->|?]]; [lia| |lia].
  destruct (Z.lt_trichotomy a3 b3) as [?|[->|?]]; [lia| |lia].
  right; left; done.
Qed.

Lemma flt_spec x y :
  flt x y = true ↔ isnan x = false ∧ isnan y = false ∧ klt (fkey x) (fkey y).
Proof.
  unfold flt, SFltb. destruct (isnan x) eqn:Hx.
  { destruct x; try discriminate. simpl. naive_solver. }
  destruct (isnan y) eqn:Hy.
  { destruct y; try discriminate. destruct x; simpl; naive_solver. }
  destruct (fcompare_spec x y Hx Hy) as (c & -> & Hc).
  destruct c; split; try done.
  - intros (_ & _ & H). rewrite Hc in H. by apply klt_irrefl in H.
  - intros (_ & _ & H). destruct (klt_irrefl (fkey x)). by eapply klt_trans.
Qed.

Lemma fle_spec x y :
  fle x y = true ↔ isnan x = false ∧ isnan y = false ∧ ¬ klt (fkey y) (fkey x).
Proof.
  unfold fle, SFleb. destruct (isnan x) eqn:Hx.
  { destruct x; try discriminate. simpl. naive_solver. }
  destruct (isnan y) eqn:Hy.
  { destruct y; try discriminate. destruct x; simpl; naive_solver. }
  destruct (fcompare_spec x y Hx Hy) as (c & -> & Hc).
  destruct c; split; try done.
  - intros _. split_and!; [done..|]. rewrite Hc. apply klt_irrefl.
  - intros _. split_and!; [done..|]. intros H. destruct (klt_irrefl (fkey x)).
    by eapply klt_trans.
  - naive_solver.
Qed.

Lemma isfinite_not_nan x : isfinite x = true → isnan x = false.
Proof. by destruct x. Qed.

Lemma flt_irrefl x : flt x x = false.
Proof.
  apply not_true_iff_false. rewrite flt_spec. intros (_ & _ & H).
  by apply klt_irrefl in H.
Qed.

Lemma fle_refl x : isnan x = false → fle x x = true.
Proof. intros H. apply fle_spec. split_and!; [done..|]. apply klt_irrefl. Qed.

Lemma flt_trans x y z : flt x y = true → flt y z = true → flt x z = true.
Proof. rewrite !flt_spec. intros (?&?&?) (?&?&?). split_and!; [done..|by eapply klt_trans]. Qed.

Lemma fle_trans x y z : fle x y = true → fle y z = true → fle x z = true.
Proof.
  rewrite !fle_spec. intros (?&?&H1) (?&?&H2). split_and!; [done..|]. intros Hk.
  destruct (klt_total (fkey y) (fkey x)) as [?|[Heq|?]]; [done|by rewrite Heq in H2|].
  apply H2. by eapply klt_trans.
Qed.

Lemma fle_flt_trans x y z : fle x y = true → flt y z = true → flt x z = true.
Proof.
  rewrite fle_spec, !flt_spec. intros (?&?&H1) (?&?&H2). split_and!; [done..|].
  destruct (klt_total (fkey y) (fkey x)) as [?|[Heq|?]]; [done|by rewrite <-Heq|].
  by eapply klt_trans.
Qed.

Lemma flt_fle_trans x y z : flt x y = true → fle y z = true → flt x z = true.
Proof.
  rewrite fle_spec, !flt_spec. intros (?&?&?) (?&?&H2). split_and!; [done..|].
  destruct (klt_total (fkey y) (fkey z)) as [?|[Heq|?]]; [by eapply klt_trans|by rewrite <-Heq|done].
Qed.

Lemma flt_fle x y : flt x y = true → fle x y = true.
Proof.
  rewrite flt_spec, fle_spec. intros (?&?&H). split_and!; [done..|].
  intros Hk. destruct (klt_irrefl (fkey x)). by eapply klt_trans.
Qed.

(** On numbers (no NaN) a failed [<] is a [>=]. *)
Lemma flt_false_fle x y :
  isnan x = false → isnan y = false → flt x y = false → fle y x = true.
Proof.
  intros Hx Hy H. apply fle_spec. split_and!; [done..|]. intros Hk.
  assert (flt x y = true) by by apply flt_spec. congruence.
Qed.

Lemma fle_false_flt x y :
  isnan x = false → isnan y = false → fle x y = false → flt y x = true.
Proof.
  intros Hx Hy H. apply flt_spec. split_and!; [done..|].
  destruct (klt_total (fkey y) (fkey x)) as [?|[Heq|Hk]]; [done|exfalso..].
  - assert (fle x y = true) as H'; [|congruence].
    apply fle_spec. split_and!; [done..|]. rewrite Heq. apply klt_irrefl.
  - assert (fle x y = true) as H'; [|congruence].
    apply fle_spec. split_and!; [done..|]. intros ?.
    destruct (klt_irrefl (fkey x)). by eapply klt_trans.
Qed.

Lemma fle_antisym_lt x y : fle x y = true → flt y x = false.
Proof.
  rewrite fle_spec. intros (?&?&H). apply not_true_iff_false.
  rewrite flt_spec. naive_solver.
Qed.

Lemma flt_not_fle x y : flt x y = true → fle y x = false.
Proof.
  intros H. apply not_true_iff_false. intros H'. apply fle_antisym_lt in H'. congruence.
Qed.

Lemma flt_asym x y : flt x y = true → flt y x = false.
Proof. intros H. apply fle_antisym_lt. by apply flt_fle. Qed.

Lemma flt_not_nan x y : flt x y = true → isnan x = false ∧ isnan y = false.
Proof. rewrite flt_spec. naive_solver. Qed.

Lemma fle_not_nan x y : fle x y = true → isnan x = false ∧ isnan y = false.
Proof. rewrite fle_spec. naive_solver. Qed.

(** The smaller of two numbers is below both. *)
Lemma fmin_le_l x y : isnan x = false → fle (fmin x y) x = true.
Proof.
  intros Hx. unfold fmin. destruct (flt y x) eqn:E; [by apply flt_fle|by apply fle_refl].
Qed.

Lemma fmin_le_r x y : isnan x = false → isnan y = false → fle (fmin x y) y = true.
Proof.
  intros Hx Hy. unfold fmin. destruct (flt y x) eqn:E; [by apply fle_refl|].
  by apply flt_false_fle.
Qed.

#[export] Hint Resolve isfinite_not_nan flt_irrefl fle_refl flt_fle flt_false_fle
  fle_false_flt fle_trans : rasat.

(** ** Signs

    [fnonneg x]: [x] is a number with the sign bit clear.  Rounding never makes a
    NaN out of a non-negative mantissa, so products and sums of such numbers
    stay numbers. *)

Definition fnonneg (x : float) : bool :=
  match x with
  | S754_nan => false
  | S754_zero s | S754_infinity s | S754_finite s _ _ => negb s
  end.

Lemma shr_1_nonneg r : (0 ≤ shr_m r → 0 ≤ shr_m (shr_1 r))%Z.
Proof. destruct r as [m b1 b2]; simpl. destruct m as [|[p|p|]|[p|p|]]; simpl; lia. Qed.

Lemma iter_shr_nonneg n r : (0 ≤ shr_m r → 0 ≤ shr_m (SpecFloat.iter_pos shr_1 n r))%Z.
Proof. revert r. induction n; intros r Hr; simpl; auto using shr_1_nonneg. Qed.

Lemma shr_fexp_nonneg m e l : (0 ≤ m → 0 ≤ shr_m (shr_fexp prec emax m e l).1)%Z.
Proof.
  intros Hm. unfold shr_fexp, shr.
  assert (0 ≤ shr_m (shr_record_of_loc m l))%Z by (by destruct l as [|[]]).
  case_match; simpl; auto using iter_shr_nonneg.
Qed.

Lemma round_nearest_even_nonneg m l : (0 ≤ m → 0 ≤ round_nearest_even m l)%Z.
Proof. destruct l as [|[]]; simpl; try case_match; lia. Qed.

Lemma binary_round_aux_nonneg m e l :
  (0 ≤ m)%Z → fnonneg (binary_round_aux prec emax false m e l) = true.
Proof.
  intros Hm. unfold binary_round_aux.
  pose proof (shr_fexp_nonneg m e l Hm) as H1.
  destruct (shr_fexp prec emax m e l) as [r1 e1]; simpl in H1.
  pose proof (shr_fexp_nonneg _ e1 loc_Exact
    (round_nearest_even_nonneg _ (loc_of_shr_record r1) H1)) as H2.
  destruct (shr_fexp prec emax (round_nearest_even _ _) e1 loc_Exact) as [r2 e2]; simpl in H2.
  destruct (shr_m r2); [done| |lia]. by case_match.
Qed.

Lemma fpos_inv x :
  flt fzero x = true → x = S754_infinity false ∨ ∃ m e, x = S754_finite false m e.
Proof. destruct x as [|[]| |[]]; try done; eauto. Qed.

Lemma fpos_nonneg x : flt fzero x = true → fnonneg x = true.
Proof. by intros [->|(?&?&->)]%fpos_inv. Qed.

Lemma fnonneg_not_nan x : fnonneg x = true → isnan x = false.
Proof. by destruct x. Qed.

Lemma fmul_nonneg x y :
  fnonneg x = true → isfinite y = true → flt fzero y = true →
  fnonneg (fmul x y) = true.
Proof.
  intros Hx Hf [->|(m&e&->)]%fpos_inv; [done|].
  destruct x as [[]|[]| |[]]; try done. simpl. by apply binary_round_aux_nonneg.
Qed.

Lemma fadd_nonneg x y :
  fnonneg x = true → fnonneg y = true → fnonneg (fadd x y) = true.
Proof.
  intros Hx Hy. destruct x as [[]|[]| |[]], y as [[]|[]| |[]]; try done.
  simpl. unfold binary_round. destruct (shl_align _ _ _) as [mz ez].
  by apply binary_round_aux_nonneg.
Qed.

Lemma fmul_finite_not_nan x y :
  isfinite x = true → isfinite y = true → isnan (fmul x y) = false.
Proof.
  destruct x as [s1|s1| |s1 m1 e1], y as [s2|s2| |s2 m2 e2]; try done.
  intros _ _. unfold fmul. simpl. unfold binary_round_aux.
  pose proof (shr_fexp_nonneg (Zpos (m1 * m2)) (e1 + e2) loc_Exact ltac:(done)) as H1.
  destruct (shr_fexp prec emax (Zpos (m1 * m2)) _ _) as [r1 k1]; simpl in H1.
  pose proof (shr_fexp_nonneg _ k1 loc_Exact
    (round_nearest_even_nonneg _ (loc_of_shr_record r1) H1)) as H2.
  destruct (shr_fexp prec emax (round_nearest_even _ _) k1 loc_Exact) as [r2 k2]; simpl in H2.
  destruct (shr_m r2); [done| |lia]. by case_match.
Qed.

#[export] Hint Resolve fpos_nonneg fnonneg_not_nan fmul_nonneg fadd_nonneg
  fmul_finite_not_nan : rasat.

(** Literals of the source. *)
Example fQ_0001 : fQ 1 1000 = S754_finite false 4611686018427388 (-62).
Proof. vm_compute. reflexivity. Qed.
Example ffloor_neg : ffloor (C := unit) (fQ (-5) 2) = Ok (-3)%Z.
Proof. vm_compute. reflexivity. Qed.
Example fround_half_even :
  (fround (C := unit) (fQ 5 2), fround (C := unit) (fQ 7 2)) = (Ok 2%Z, Ok 4%Z).
Proof. vm_compute. reflexivity. Qed.

Example fround_digits_ok :
  (fround_digits 1 (fQ 1 4), fround_digits 1 (fQ 3 4), fround_digits 1 (fdec false 35 2 (-2)))
  = (fdec false 2 1 (-1), fdec false 8 1 (-1), fdec false 3 1 (-1)).
Proof. vm_compute. reflexivity. Qed.
