(* ===== verification/PyVal.v ===== *)
(** Dynamically typed Python values, as they arrive from JSON or from an
    untyped argument, with the built-in operations the code applies to them. *)

From Stdlib Require Import ZArith Ascii String.
From stdpp Require Import pretty.
From S2P Require Import Prelude PyFloat.
Local Open Scope string_scope.

(** A [dict] is its list of items, in insertion order, with distinct keys. *)
Inductive pyval : Type :=
| PNone
| PBool (b : bool)
| PInt (z : Z)
| PFloat (x : float)
| PStr (s : string)
| PList (l : list pyval)
| PDict (d : list (string * pyval)).

Section PyvalInd.
Variable P : pyval → Prop.
Hypothesis HNone : P PNone.
Hypothesis HBool : ∀ b, P (PBool b).
Hypothesis HInt : ∀ z, P (PInt z).
Hypothesis HFloat : ∀ x, P (PFloat x).
Hypothesis HStr : ∀ s, P (PStr s).
Hypothesis HList : ∀ l, Forall P l → P (PList l).
Hypothesis HDict : ∀ d, Forall (λ kv, P kv.2) d → P (PDict d).

Fixpoint pyval_ind' (v : pyval) : P v :=
  match v with
  | PNone => HNone
  | PBool b => HBool b
  | PInt z => HInt z
  | PFloat x => HFloat x
  | PStr s => HStr s
  | PList l => HList l ((fix go l := match l return Forall P l with
      | [] => Forall_nil_2 _
      | x :: l' => Forall_cons_2 _ _ _ (pyval_ind' x) (go l') end) l)
  | PDict d => HDict d ((fix go d := match d return Forall (λ kv, P kv.2) d with
      | [] => Forall_nil_2 _
      | (k, x) :: d' => Forall_cons_2 (λ kv, P kv.2) (k, x) d' (pyval_ind' x) (go d') end) d)
  end.
End PyvalInd.

(** [d.get(k)] / [d[k]] on the items of a dict. *)
Fixpoint assoc {A} (k : string) (d : list (string * A)) : option A :=
  match d with
  | [] => None
  | (k', v) :: d' => if String.eqb k' k then Some v else assoc k d'
  end.

(** [d[k] = v]: replaces in place, or appends. *)
Fixpoint assoc_set {A} (k : string) (v : A) (d : list (string * A)) : list (string * A) :=
  match d with
  | [] => [(k, v)]
  | (k', v') :: d' =>
      if String.eqb k' k then (k, v) :: d' else (k', v') :: assoc_set k v d'
  end.

Definition has_key {A} (k : string) (d : list (string * A)) : bool :=
  match assoc k d with Some _ => true | None => false end.

Definition str_in (s : string) (l : list string) : bool :=
  existsb (String.eqb s) l.

Arguments str_in : simpl never.

Lemma str_in_spec s l : str_in s l = true ↔ s ∈ l.
Proof.
  unfold str_in. rewrite existsb_exists, list_elem_of_In. split.
  - by intros (x & ? & ->%String.eqb_eq).
  - intros H. exists s. by rewrite String.eqb_refl.
Qed.

Lemma assoc_elem {A} k (v : A) d : assoc k d = Some v → (k, v) ∈ d.
Proof.
  induction d as [|[k' v'] d IH]; simpl; [done|].
  destruct (String.eqb k' k) eqn:E; intros H.
  - apply String.eqb_eq in E as ->. simplify_eq. left.
  - right. auto.
Qed.

Lemma assoc_is_Some {A} k (d : list (string * A)) : is_Some (assoc k d) ↔ k ∈ map fst d.
Proof.
  induction d as [|[k' v'] d IH]; simpl.
  - split; [by intros [? ?]|by intros ?%not_elem_of_nil].
  - rewrite elem_of_cons. destruct (String.eqb_spec k' k) as [->|Hne]; [naive_solver|].
    rewrite IH. naive_solver.
Qed.

Lemma assoc_set_same {A} k (v : A) d : assoc k (assoc_set k v d) = Some v.
Proof.
  induction d as [|[k' v'] d IH]; simpl; [by rewrite String.eqb_refl|].
  destruct (String.eqb k' k) eqn:E; simpl; [by rewrite String.eqb_refl|by rewrite E].
Qed.

Lemma assoc_set_other {A} k k' (v : A) d :
  k ≠ k' → assoc k' (assoc_set k v d) = assoc k' d.
Proof.
  intros Hne. induction d as [|[k1 v1] d IH]; simpl.
  - apply String.eqb_neq in Hne. by rewrite Hne.
  - destruct (String.eqb k1 k) eqn:E; simpl.
    + apply String.eqb_eq in E as ->. apply String.eqb_neq in Hne. by rewrite Hne.
    + by rewrite IH.
Qed.

(** [bool(v)] *)
Definition truthy (v : pyval) : bool :=
  match v with
  | PNone => false
  | PBool b => b
  | PInt z => negb (z =? 0)%Z
  | PFloat x => ftruthy x
  | PStr s => negb (Str.empty s)
  | PList l => match l with [] => false | _ => true end
  | PDict d => match d with [] => false | _ => true end
  end.

(** ** [float(s)] for a string *)

Module FloatLiteral.
Definition digit_of (c : ascii) : option Z :=
  let n := nat_of_ascii c in
  if ((48 <=? n) && (n <=? 57))%nat then Some (Z.of_nat (n - 48)) else None.

Definition starts_digit (s : string) : bool :=
  match s with String c _ => if digit_of c then true else false | _ => false end.

(** Digits with single underscores between them. *)
Fixpoint digits (acc : Z) (n : Z) (s : string) : Z * Z * string :=
  match s with
  | EmptyString => (acc, n, s)
  | String c s' =>
      match digit_of c with
      | Some d => digits (acc * 10 + d)%Z (n + 1)%Z s'
      | None =>
          if Ascii.eqb c "_" && (0 <? n)%Z && starts_digit s'
          then digits acc n s' else (acc, n, s)
      end
  end.

Definition sign (s : string) : bool * string :=
  match s with
  | String c s' => if Ascii.eqb c "-" then (true, s')
                   else if Ascii.eqb c "+" then (false, s') else (false, s)
  | _ => (false, s)
  end.

Definition exponent (s : string) : option Z :=
  match s with
  | EmptyString => Some 0%Z
  | String c s' =>
      if Ascii.eqb (Str.lower_char c) "e" then
        let '(neg, s1) := sign s' in
        let '(v, n, rest) := digits 0 0 s1 in
        if ((0 <? n)%Z && Str.empty rest) then Some (if neg then (- v)%Z else v) else None
      else None
  end.

Definition decimal (neg : bool) (s : string) : option float :=
  let '(ip, ni, s1) := digits 0 0 s in
  let '(m, nf, s2) :=
    match s1 with
    | String c s' => if Ascii.eqb c "."
                     then let '(m, n, r) := digits ip 0 s' in (m, n, r)
                     else (ip, 0%Z, s1)
    | _ => (ip, 0%Z, s1)
    end in
  if (ni + nf =? 0)%Z then None else
  match exponent s2 with
  | Some e => Some (fdec neg m (ni + nf) (e - nf))
  | None => None
  end.

Definition parse (s0 : string) : option float :=
  let '(neg, s) := sign (Str.strip s0) in
  let l := Str.lower s in
  if String.eqb l "inf" || String.eqb l "infinity" then Some (S754_infinity neg)
  else if String.eqb l "nan" then Some S754_nan
  else decimal neg s.
End FloatLiteral.

(** [float(v)]: [TypeError] for [None] and containers, [ValueError] for a string
    that is no number, [OverflowError] for an integer too large. *)
Definition py_float {C} (v : pyval) : res (exn C) float :=
  match v with
  | PNone | PList _ | PDict _ => Err TypeError
  | PBool b => Ok (fZ (if b then 1 else 0))
  | PInt z => float_of_int z
  | PFloat x => Ok x
  | PStr s => match FloatLiteral.parse s with Some x => Ok x | None => Err ValueError end
  end.

(** [int(v)]: towards zero for a float; a string is its digits. *)
Definition py_int {C} (v : pyval) : res (exn C) Z :=
  match v with
  | PNone | PList _ | PDict _ => Err TypeError
  | PBool b => Ok (if b then 1 else 0)%Z
  | PInt z => Ok z
  | PFloat x => ftrunc x
  | PStr s =>
      let '(neg, s') := FloatLiteral.sign (Str.strip s) in
      let '(z, n, rest) := FloatLiteral.digits 0 0 s' in
      if (0 <? n)%Z && Str.empty rest then Ok (if neg then (- z)%Z else z) else Err ValueError
  end.

Example py_int_ok :
  py_int (C:=unit) (PStr " -1_0 ") = Ok (-10)%Z ∧ py_int (C:=unit) (PStr "1.0") = Err ValueError ∧
  py_int (C:=unit) (PFloat finf) = Err OverflowError.
Proof. vm_compute. done. Qed.

Example parse_ok :
  FloatLiteral.parse " 1_0.5e-1 " = Some (fQ 105 100) ∧
  FloatLiteral.parse "1__0" = None ∧ FloatLiteral.parse "." = None ∧
  FloatLiteral.parse "-Infinity" = Some (S754_infinity true) ∧
  FloatLiteral.parse "0.1" = Some (fQ 1 10) ∧
  FloatLiteral.parse "1e23" = Some (S754_finite false 5960464477539062 24).
Proof. vm_compute. done. Qed.

(** ** [json.dumps(v, ensure_ascii=False, sort_keys=True)]

    [float_repr] stands for CPython's shortest-repr printer of floats. *)

Section JsonDumps.
Context (float_repr : float → string).

Definition hex_digit (n : nat) : ascii :=
  ascii_of_nat (if (n <? 10)%nat then 48 + n else 87 + n).

Definition escape_char (c : ascii) : string :=
  let n := nat_of_ascii c in
  if (n =? 34)%nat then String "\" (String c EmptyString)
  else if (n =? 92)%nat then "\\"
  else if (n =? 10)%nat then "\n"
  else if (n =? 13)%nat then "\r"
  else if (n =? 9)%nat then "\t"
  else if (n =? 8)%nat then "\b"
  else if (n =? 12)%nat then "\f"
  else if (n <? 32)%nat then "\u00" +:+ String (hex_digit (n / 16)) (String (hex_digit (n mod 16)) EmptyString)
  else String c EmptyString.

Fixpoint escape (s : string) : string :=
  match s with
  | EmptyString => EmptyString
  | String c s' => escape_char c +:+ escape s'
  end.

Definition dq : string := String (ascii_of_nat 34) EmptyString.
Definition quote (s : string) : string := dq +:+ escape s +:+ dq.

Fixpoint join (sep : string) (l : list string) : string :=
  match l with
  | [] => EmptyString
  | [s] => s
  | s :: l' => s +:+ sep +:+ join sep l'
  end.

Fixpoint insert_key (kv : string * string) (l : list (string * string)) :=
  match l with
  | [] => [kv]
  | kv' :: l' => if String.leb kv.1 kv'.1 then kv :: l else kv' :: insert_key kv l'
  end.

Definition sort_keys (l : list (string * string)) : list (string * string) :=
  foldr insert_key [] l.

Fixpoint json_dumps (v : pyval) : string :=
  match v with
  | PNone => "null"
  | PBool true => "true"
  | PBool false => "false"
  | PInt z => pretty z
  | PFloat x => match x with
                | S754_nan => "NaN"
                | S754_infinity true => "-Infinity"
                | S754_infinity false => "Infinity"
                | _ => float_repr x
                end
  | PStr s => quote s
  | PList l => "[" +:+ join ", " (map json_dumps l) +:+ "]"
  | PDict d =>
      "{" +:+ join ", " (map (λ kv, quote kv.1 +:+ ": " +:+ kv.2)
                  (sort_keys (map (λ kv, (kv.1, json_dumps kv.2)) d))) +:+ "}"
  end.
End JsonDumps.

(** ** Printed integers *)

Definition digit_or_dash (c : ascii) : bool :=
  Ascii.eqb c "-" || (48 <=? nat_of_ascii c)%nat && (nat_of_ascii c <=? 57)%nat.

Lemma pretty_N_go_digits n s :
  Str.all digit_or_dash s = true → Str.all digit_or_dash (pretty_N_go n s) = true.
Proof.
  revert s. induction (N.lt_wf_0 n) as [n _ IH]; intros s Hs.
  destruct (decide (n = 0%N)) as [->|Hn]; [by rewrite pretty_N_go_0|].
  rewrite pretty_N_go_step by lia. apply IH; [apply N.div_lt; lia|].
  simpl. rewrite Hs, andb_true_r. unfold pretty_N_char. by repeat case_match.
Qed.

Lemma pretty_Z_digits (z : Z) : Str.all digit_or_dash (pretty z) = true.
Proof.
  assert (∀ n : N, Str.all digit_or_dash (pretty n) = true) as Hn.
  { intros n. unfold pretty, pretty_N. case_decide; [done|]. by apply pretty_N_go_digits. }
  destruct z as [|p|p]; [done|apply (Hn (Npos p))|].
  change (pretty (Zneg p)) with (String "-" (pretty (Npos p))).
  change (digit_or_dash "-" && Str.all digit_or_dash (pretty (Npos p)) = true). apply (Hn (Npos p)).
Qed.

Lemma pretty_Z_lacks_bar (z : Z) : Str.lacks "|" (pretty z) = true.
Proof.
  eapply Str.all_impl; [|apply pretty_Z_digits]. intros c H. unfold digit_or_dash in H.
  destruct (Ascii.eqb c "|") eqn:E; [|done]. apply Ascii.eqb_eq in E as ->. done.
Qed.

(** ** [a == b]

    Numbers compare exactly across [bool], [int] and [float]; a dict compares
    without regard to the order of its items. *)

(** A float equal to the integer [z], exactly. *)
Definition float_is_int (x : float) (z : Z) : bool :=
  match x with
  | S754_zero _ => (z =? 0)%Z
  | S754_finite s m e =>
      let v := if s then Zneg m else Zpos m in
      if (0 <=? e)%Z then (Z.shiftl v e =? z)%Z else (v =? z * 2 ^ (- e))%Z
  | _ => false
  end.

(** The integer a [bool] or an [int] is. *)
Definition int_like (v : pyval) : option Z :=
  match v with PBool b => Some (if b then 1 else 0)%Z | PInt z => Some z | _ => None end.

Fixpoint py_eq (a b : pyval) {struct a} : bool :=
  match a, b with
  | PNone, PNone => true
  | PBool _, _ | PInt _, _ =>
      match int_like a, int_like b, b with
      | Some x, Some y, _ => (x =? y)%Z
      | Some x, None, PFloat y => float_is_int y x
      | _, _, _ => false
      end
  | PFloat x, PFloat y => feq x y
  | PFloat x, _ => match int_like b with Some y => float_is_int x y | None => false end
  | PStr s, PStr t => String.eqb s t
  | PList l, PList l' =>
      (fix go l l' := match l, l' with
         | [], [] => true
         | x :: l, y :: l' => py_eq x y && go l l'
         | _, _ => false
         end) l l'
  | PDict d, PDict d' =>
      Nat.eqb (length d) (length d') &&
      forallb (λ kv, match assoc kv.1 d' with Some y => py_eq kv.2 y | None => false end) d
  | _, _ => false
  end.

Example py_eq_numbers :
  py_eq (PInt 1) (PFloat (fZ 1)) = true ∧ py_eq (PBool true) (PInt 1) = true ∧
  py_eq (PFloat fnan) (PFloat fnan) = false ∧ py_eq (PStr "a") (PInt 1) = false ∧
  py_eq (PInt (2 ^ 53 + 1)) (PFloat (fZ (2 ^ 53 + 1))) = false.
Proof. vm_compute. done. Qed.
