(* ===== verification/Errors.v ===== *)
(** [errors.py] and [numeric.py]: the canonical error codes, their HTTP status,
    and the validation of finite numbers. *)

From Stdlib Require Import ZArith.
From S2P Require Import Prelude PyFloat PyVal.

Inductive ErrorCode :=
| INTERNAL_ERROR | INVALID_REQUEST | UNAUTHORIZED | NOT_READY | TOOL_NOT_FOUND
| INVALID_SYMBOL | STALE_DATA | RATE_LIMITED | TIMEOUT | INSUFFICIENT_BALANCE
| PIPELINE_UNAVAILABLE | ACCOUNT_NOT_FOUND | ACCOUNT_EXISTS | ACCOUNT_IN_USE
| ACCOUNT_NO_CREDENTIALS | CREDENTIAL_STORE_UNAVAILABLE | CREDENTIAL_DECRYPT_FAILED
| RISK_LIMIT_EXCEEDED | SYMBOL_NOT_ALLOWED | OVERRIDE_NOT_AVAILABLE
| TRADING_NOT_ENABLED | FILTER_VIOLATION | ORDER_REJECTED | ORDER_EXPIRED
| ORDER_UNKNOWN | ORDER_RECONCILE_REQUIRED | ORDER_NOT_FOUND | NOT_IMPLEMENTED
| NOT_FOUND.

#[export] Instance ErrorCode_eq_dec : EqDecision ErrorCode.
Proof. solve_decision. Defined.

Abbreviation pyexn := (exn ErrorCode).
Abbreviation result := (res pyexn).

(** [raise RasatError(code, ...)]; the human-readable message is not modelled. *)
Definition raise {A} (c : ErrorCode) : result A := Err (RasatError c).
Definition reject_if (b : bool) (c : ErrorCode) : result unit :=
  raise_if b (RasatError c).

(** [[f(x) for x in l]] and a loop with an accumulator, where [f] may raise. *)
Fixpoint res_map {A B} (f : A → result B) (l : list A) : result (list B) :=
  match l with
  | [] => Ok []
  | x :: l' => y ← f x; ys ← res_map f l'; Ok (y :: ys)
  end.

Fixpoint res_fold {A B} (f : B → A → result B) (b : B) (l : list A) : result B :=
  match l with
  | [] => Ok b
  | x :: l' => b' ← f b x; res_fold f b' l'
  end.

Lemma reject_if_Ok b c u : reject_if b c = Ok u ↔ b = false.
Proof. apply raise_if_Ok. Qed.

Definition http_status_for (c : ErrorCode) : Z :=
  match c with
  | UNAUTHORIZED => 401
  | INVALID_REQUEST => 400
  | TOOL_NOT_FOUND => 404
  | RATE_LIMITED => 429
  | NOT_READY => 503
  | TIMEOUT => 504
  | STALE_DATA => 409
  | INVALID_SYMBOL => 422
  | INSUFFICIENT_BALANCE => 409
  | PIPELINE_UNAVAILABLE => 503
  | ACCOUNT_NOT_FOUND => 404
  | NOT_FOUND => 404
  | ACCOUNT_EXISTS => 409
  | ACCOUNT_IN_USE => 409
  | ACCOUNT_NO_CREDENTIALS => 409
  | CREDENTIAL_STORE_UNAVAILABLE => 503
  | CREDENTIAL_DECRYPT_FAILED => 500
  | RISK_LIMIT_EXCEEDED => 422
  | SYMBOL_NOT_ALLOWED => 422
  | OVERRIDE_NOT_AVAILABLE => 409
  | TRADING_NOT_ENABLED => 409
  | FILTER_VIOLATION => 422
  | ORDER_REJECTED => 422
  | ORDER_EXPIRED => 422
  | ORDER_UNKNOWN => 500
  | ORDER_RECONCILE_REQUIRED => 409
  | ORDER_NOT_FOUND => 404
  | INTERNAL_ERROR | NOT_IMPLEMENTED => 500
  end.

(** ** numeric.py *)

Definition require_finite (value : pyval) : result float :=
  match value with
  | PNone | PBool _ => raise INVALID_REQUEST
  | _ =>
      match py_float value with
      | Ok num => if isfinite num then Ok num else raise INVALID_REQUEST
      | Err TypeError | Err ValueError => raise INVALID_REQUEST
      | Err e => Err e
      end
  end.

Definition require_positive (value : pyval) : result float :=
  num ← require_finite value;
  if fle num fzero then raise INVALID_REQUEST else Ok num.

Arguments require_finite : simpl never.
Arguments require_positive : simpl never.

Lemma require_finite_Ok v x : require_finite v = Ok x → isfinite x = true.
Proof.
  unfold require_finite. intros H. repeat case_match; simplify_eq/=; done.
Qed.

Lemma require_finite_float x :
  require_finite (PFloat x) = if isfinite x then Ok x else raise INVALID_REQUEST.
Proof. done. Qed.

(** The failures of [require_finite]: the canonical error, or the
    [OverflowError] of [float(n)] on an integer beyond the float range, which
    the [except (TypeError, ValueError)] clause does not catch. *)
Lemma require_finite_Err v e :
  require_finite v = Err e →
  e = RasatError INVALID_REQUEST ∨
  (e = OverflowError ∧ ∃ z, v = PInt z ∧ isfinite (fZ z) = false).
Proof.
  unfold require_finite, py_float, float_of_int, raise. intros H.
  destruct v; simpl in H; try (simplify_eq; by left).
  - destruct (isfinite (fZ z)) eqn:Hz; simpl in H.
    + rewrite Hz in H. simplify_eq.
    + simplify_eq. eauto.
  - destruct (isfinite x); simplify_eq. by left.
  - destruct (FloatLiteral.parse s) as [f|]; simpl in H; [|simplify_eq; by left].
    destruct (isfinite f); simplify_eq. by left.
Qed.

Lemma require_positive_Ok v x :
  require_positive v = Ok x → isfinite x = true ∧ flt fzero x = true.
Proof.
  unfold require_positive. intros (a & Hf%require_finite_Ok & H)%res_bind_Ok.
  destruct (fle a fzero) eqn:E; [done|]. simplify_eq.
  split; [done|]. apply fle_false_flt; auto with rasat.
Qed.

Lemma require_positive_float x :
  isfinite x = true → flt fzero x = true → require_positive (PFloat x) = Ok x.
Proof.
  intros Hx Hp. unfold require_positive. rewrite require_finite_float, Hx. simpl.
  by rewrite (flt_not_fle _ _ Hp).
Qed.

(** An integer that does not fit a float escapes the validation as
    [OverflowError], not as the canonical error. *)
Example require_finite_huge_int :
  require_finite (PInt (10 ^ 400)) = Err OverflowError.
Proof. vm_compute. reflexivity. Qed.

(** The exceptions one by one, a [RasatError] by its code. *)
Ltac destruct_exn e := destruct e; [match goal with c : ErrorCode |- _ => destruct c end|..].
