(* ===== verification/Schema.v ===== *)
(** [schema_lite.py]: the validator of tool parameters, and the declarative
    meaning of the schema subset it implements. *)

From Stdlib Require Import ZArith String.
From S2P Require Import Prelude PyFloat PyVal Errors.
Local Open Scope string_scope.
Local Open Scope list_scope.

(** ** Schemas

    The JSON Schema subset as a record per node.  [None] and empty lists are absent
    keywords; [closed] is [additionalProperties: False]. *)

Inductive schema_type := TObject | TArray | TString | TNumber | TInteger | TBoolean.

Record limits := mk_limits {
  minimum : option Z;
  maximum : option Z;
  exclusiveMinimum : option Z;
  exclusiveMaximum : option Z;
  minLength : option nat;
  maxLength : option nat }.

Definition no_limits : limits := mk_limits None None None None None None.

Inductive schema :=
| Schema (type : option schema_type) (enum : option (list string)) (lim : limits)
    (properties : list (string * schema)) (required : list string) (closed : bool)
    (items : option schema).

Section SchemaInd.
Variable P : schema → Prop.
Hypothesis HSchema : ∀ ty enum lim props req closed items,
  Forall (λ ks, P ks.2) props → (∀ it, items = Some it → P it) →
  P (Schema ty enum lim props req closed items).

Fixpoint schema_ind' (s : schema) : P s :=
  match s with
  | Schema ty enum lim props req closed items =>
      HSchema ty enum lim props req closed items
        ((fix go ps := match ps return Forall (λ ks, P ks.2) ps with
          | [] => Forall_nil_2 _
          | (k, sub) :: ps' => Forall_cons_2 (λ ks, P ks.2) (k, sub) ps' (schema_ind' sub) (go ps')
          end) props)
        (match items return ∀ it, items = Some it → P it with
         | Some sub => λ it H, eq_rect sub P (schema_ind' sub) it (f_equal (λ o, default sub o) H)
         | None => λ it H, match eq_ind None (λ o, match o with None => True | _ => False end) I _ H with end
         end)
  end.
End SchemaInd.

(** ** The validator *)

(** Always accepted in tool parameters. *)
Definition TRANSPORT_FIELDS : list string := ["request_id"; "idempotency_key"].

Definition invalid : result unit := raise INVALID_REQUEST.

(** [if key in schema and cond(schema[key]): error] *)
Definition against {A} (limit : option A) (violated : A → bool) : result unit :=
  match limit with Some l => reject_if (violated l) INVALID_REQUEST | None => Ok tt end.

(** [float(value)] comes first: an integer beyond the float range raises there. *)
Definition _check_number (integer : bool) (lim : limits) (value : pyval) : result unit :=
  match value with
  | PInt _ | PFloat _ =>
      num ← py_float value;
      _ ← reject_if (negb (isfinite num)) INVALID_REQUEST;
      _ ← reject_if (integer && negb (match value with PInt _ => true | _ => false end)) INVALID_REQUEST;
      _ ← against (minimum lim) (λ m, flt num (fZ m));
      _ ← against (maximum lim) (λ m, fgt num (fZ m));
      _ ← against (exclusiveMinimum lim) (λ m, fle num (fZ m));
      against (exclusiveMaximum lim) (λ m, fge num (fZ m))
  | _ => invalid
  end.

Definition check_enum (enum : option (list string)) (value : pyval) : result unit :=
  against enum (λ allowed, negb (match value with PStr s => str_in s allowed | _ => false end)).

(** Fields that are neither declared nor transport-level. *)
Definition extra_fields (props : list (string * schema)) (d : list (string * pyval)) : bool :=
  existsb (λ kv, negb (has_key kv.1 props) && negb (str_in kv.1 TRANSPORT_FIELDS)) d.

Fixpoint _validate (s : schema) (value : pyval) : result unit :=
  match s with
  | Schema type enum lim props required closed items =>
      _ ← check_enum enum value;
      match type with
      | Some TObject =>
          match value with
          | PDict d =>
              _ ← when closed (reject_if (extra_fields props d) INVALID_REQUEST);
              _ ← res_iter (λ ks, match assoc ks.1 d with
                                  | Some x => _validate ks.2 x
                                  | None => Ok tt
                                  end) props;
              reject_if (existsb (λ k, negb (has_key k d)) required) INVALID_REQUEST
          | _ => invalid
          end
      | Some TArray =>
          match value with
          | PList l => match items with Some it => res_iter (_validate it) l | None => Ok tt end
          | _ => invalid
          end
      | Some TString =>
          match value with
          | PStr t =>
              _ ← against (minLength lim) (λ n, (String.length t <? n)%nat);
              against (maxLength lim) (λ n, (n <? String.length t)%nat)
          | _ => invalid
          end
      | Some TNumber => _check_number false lim value
      | Some TInteger => _check_number true lim value
      | Some TBoolean => match value with PBool _ => Ok tt | _ => invalid end
      | None => Ok tt
      end
  end.

Definition validate_params (params : pyval) (s : schema) : result unit := _validate s params.

(** ** What a schema means *)

Definition enum_ok (enum : option (list string)) (v : pyval) : Prop :=
  ∀ allowed, enum = Some allowed → ∃ s, v = PStr s ∧ s ∈ allowed.

(** The float a number stands for, when there is one. *)
Definition number_of (integer : bool) (v : pyval) : option float :=
  match v with
  | PInt z => if isfinite (fZ z) then Some (fZ z) else None
  | PFloat x => if integer then None else if isfinite x then Some x else None
  | _ => None
  end.

Definition in_limits (lim : limits) (x : float) : Prop :=
  (∀ m, minimum lim = Some m → flt x (fZ m) = false) ∧
  (∀ m, maximum lim = Some m → flt (fZ m) x = false) ∧
  (∀ m, exclusiveMinimum lim = Some m → fle x (fZ m) = false) ∧
  (∀ m, exclusiveMaximum lim = Some m → fle (fZ m) x = false).

Inductive conforms : schema → pyval → Prop :=
| conforms_any enum lim props req closed items v :
    enum_ok enum v → conforms (Schema None enum lim props req closed items) v
| conforms_object enum lim props req closed items d :
    enum_ok enum (PDict d) →
    (closed = true → ∀ k x, (k, x) ∈ d → has_key k props = true ∨ k ∈ TRANSPORT_FIELDS) →
    (∀ k sub x, (k, sub) ∈ props → assoc k d = Some x → conforms sub x) →
    (∀ k, k ∈ req → is_Some (assoc k d)) →
    conforms (Schema (Some TObject) enum lim props req closed items) (PDict d)
| conforms_array enum lim props req closed items l :
    enum_ok enum (PList l) →
    (∀ it, items = Some it → ∀ x, x ∈ l → conforms it x) →
    conforms (Schema (Some TArray) enum lim props req closed items) (PList l)
| conforms_string enum lim props req closed items t :
    enum_ok enum (PStr t) →
    (∀ n, minLength lim = Some n → (n ≤ String.length t)%nat) →
    (∀ n, maxLength lim = Some n → (String.length t ≤ n)%nat) →
    conforms (Schema (Some TString) enum lim props req closed items) (PStr t)
| conforms_number enum lim props req closed items v x :
    enum_ok enum v → number_of false v = Some x → in_limits lim x →
    conforms (Schema (Some TNumber) enum lim props req closed items) v
| conforms_integer enum lim props req closed items v x :
    enum_ok enum v → number_of true v = Some x → in_limits lim x →
    conforms (Schema (Some TInteger) enum lim props req closed items) v
| conforms_boolean enum lim props req closed items b :
    enum_ok enum (PBool b) →
    conforms (Schema (Some TBoolean) enum lim props req closed items) (PBool b).

(** ** The validator decides conformance *)

Lemma against_Ok {A} (limit : option A) violated :
  against limit violated = Ok tt ↔ ∀ l, limit = Some l → violated l = false.
Proof. unfold against. destruct limit; [rewrite reject_if_Ok|]; naive_solver. Qed.

Lemma check_enum_Ok enum v : check_enum enum v = Ok tt ↔ enum_ok enum v.
Proof.
  unfold check_enum, enum_ok. rewrite against_Ok. split; intros H allowed Ha; specialize (H _ Ha).
  - apply negb_false_iff in H. destruct v; try done. apply str_in_spec in H. eauto.
  - destruct H as (s & -> & Hin). apply negb_false_iff, str_in_spec, Hin.
Qed.

Lemma check_number_Ok integer lim v :
  _check_number integer lim v = Ok tt ↔ ∃ x, number_of integer v = Some x ∧ in_limits lim x.
Proof.
  assert (∀ num, (_ ← against (minimum lim) (λ m, flt num (fZ m));
      _ ← against (maximum lim) (λ m, fgt num (fZ m));
      _ ← against (exclusiveMinimum lim) (λ m, fle num (fZ m));
      against (exclusiveMaximum lim) (λ m, fge num (fZ m))) = Ok tt ↔ in_limits lim num) as Hlim.
  { intros num. unfold in_limits, fgt, fge. rewrite <- !against_Ok. repeat setoid_rewrite res_bind_Ok.
    split; [intros ([] & ? & [] & ? & [] & ? & ?)|intros (? & ? & ? & ?)]; eauto 10. }
  unfold _check_number. destruct v; try (split; [done|by intros (? & ? & _)]); simpl.
  - unfold float_of_int. destruct (isfinite (fZ z)) eqn:E; simpl.
    + rewrite E, andb_false_r. simpl. rewrite Hlim. naive_solver.
    + split; [done|by intros (? & ? & _)].
  - destruct (isfinite x) eqn:E, integer; simpl; try (split; [done|by intros (? & ? & _)]).
    rewrite Hlim. naive_solver.
Qed.

Lemma required_fields_Ok req (d : list (string * pyval)) :
  reject_if (existsb (λ k, negb (has_key k d)) req) INVALID_REQUEST = Ok tt ↔
  ∀ k, k ∈ req → is_Some (assoc k d).
Proof.
  rewrite reject_if_Ok, <- not_true_iff_false, existsb_exists. split.
  - intros Hn k Hk. destruct (assoc k d) eqn:E; [eauto|]. destruct Hn. exists k.
    rewrite <- list_elem_of_In. unfold has_key. by rewrite E.
  - intros H (k & Hk & Hneg). rewrite <- list_elem_of_In in Hk. destruct (H k Hk) as [x Hx].
    unfold has_key in Hneg. by rewrite Hx in Hneg.
Qed.

Lemma closed_Ok closed props (d : list (string * pyval)) :
  when closed (reject_if (extra_fields props d) INVALID_REQUEST) = Ok tt ↔
  (closed = true → ∀ k x, (k, x) ∈ d → has_key k props = true ∨ k ∈ TRANSPORT_FIELDS).
Proof.
  unfold extra_fields. rewrite when_Ok. split; intros H Hc; specialize (H Hc).
  - intros k x Hin. rewrite reject_if_Ok, <- not_true_iff_false, existsb_exists in H.
    destruct (has_key k props) eqn:E; [by left|right]. apply str_in_spec.
    destruct (str_in k TRANSPORT_FIELDS) eqn:F; [done|]. destruct H. exists (k, x).
    rewrite <- list_elem_of_In. simpl. by rewrite E, F.
  - apply reject_if_Ok, not_true_iff_false. rewrite existsb_exists. intros ([k x] & Hin & Hneg).
    rewrite <- list_elem_of_In in Hin. simpl in Hneg. inv_bool. destruct (H k x Hin) as [E|E].
    + by rewrite E in *.
    + apply str_in_spec in E. by rewrite E in *.
Qed.

(** C34: the validator accepts exactly the values its schema describes: types,
    enumerations, bounds, lengths, required fields and, for a closed object, no
    undeclared field besides the transport ones — at every depth. *)
Theorem validate_params_iff s v : validate_params v s = Ok tt ↔ conforms s v.
Proof.
  unfold validate_params. revert v. induction s as [ty enum lim props req closed items Hp Hi] using schema_ind'.
  intros v. simpl. rewrite res_bind_Ok. split.
  - intros ([] & He%check_enum_Ok & H). destruct ty as [[]|]; [..|by constructor].
    + destruct v; try done. apply res_bind_Ok in H as ([] & Hc & H).
      apply res_bind_Ok in H as ([] & Hf & Hr). constructor; [done|by apply closed_Ok| |by apply required_fields_Ok].
      intros k sub x Hin Hx. rewrite res_iter_Ok in Hf. specialize (Hf _ Hin). simpl in Hf. rewrite Hx in Hf.
      rewrite Forall_forall in Hp. by apply (Hp _ Hin).
    + destruct v; try done. constructor; [done|]. intros it -> x Hx.
      apply (Hi it eq_refl). by eapply res_iter_Ok.
    + destruct v; try done. apply res_bind_Ok in H as ([] & Hmin & Hmax). rewrite against_Ok in Hmin, Hmax.
      constructor; [done| |]; intros n Hn; [specialize (Hmin n Hn)|specialize (Hmax n Hn)];
        by apply Nat.ltb_ge.
    + apply check_number_Ok in H as (x & ? & ?). by econstructor.
    + apply check_number_Ok in H as (x & ? & ?). by econstructor.
    + destruct v; try done. by constructor.
  - intros Hv. inversion Hv; subst; exists tt; (split; [by apply check_enum_Ok|]); try done.
    + apply res_bind_Ok. exists tt. split; [by apply closed_Ok|]. apply res_bind_Ok. exists tt.
      split; [|by apply required_fields_Ok]. apply res_iter_Ok. intros [k sub] Hin. simpl.
      destruct (assoc k d) as [x|] eqn:E; [|done]. rewrite Forall_forall in Hp. apply (Hp _ Hin). eauto.
    + destruct items as [it|]; [|done]. apply res_iter_Ok. intros x Hx. apply (Hi it eq_refl). eauto.
    + apply res_bind_Ok. exists tt. rewrite !against_Ok.
      split; intros n Hn; apply Nat.ltb_ge; eauto.
    + apply check_number_Ok. eauto.
    + apply check_number_Ok. eauto.
Qed.

(** The failures: the canonical error, or the [OverflowError] of [float(n)], which
    the schema check does not turn into one. *)
Example huge_integer_overflows lim :
  _check_number true lim (PInt (10 ^ 400)) = Err OverflowError.
Proof. reflexivity. Qed.
