(* ===== verification/Tools.v ===== *)
(** [tools.py]: the registry of tools, each with the schema of its parameters.
    Descriptions and defaults are text for the client; handlers apply defaults. *)

From Stdlib Require Import ZArith String.
From S2P Require Import Prelude PyFloat PyVal Errors Schema.
Local Open Scope string_scope.
Local Open Scope list_scope.

(** ** Schema literals *)

Definition node (ty : schema_type) (enum : option (list string)) (lim : limits) : schema :=
  Schema (Some ty) enum lim [] [] false None.
Definition a_string : schema := node TString None no_limits.
Definition a_text (lo : nat) (hi : option nat) : schema :=
  node TString None (mk_limits None None None None (Some lo) hi).
Definition one_of (allowed : list string) : schema := node TString (Some allowed) no_limits.
Definition a_number (lim : limits) : schema := node TNumber None lim.
Definition an_integer (lim : limits) : schema := node TInteger None lim.
Definition a_boolean : schema := node TBoolean None no_limits.
Definition list_of (it : schema) : schema := Schema (Some TArray) None no_limits [] [] false (Some it).
Definition any_object : schema := node TObject None no_limits.
Definition open_object (props : list (string * schema)) (required : list string) : schema :=
  Schema (Some TObject) None no_limits props required false None.
Definition closed_object (props : list (string * schema)) (required : list string) : schema :=
  Schema (Some TObject) None no_limits props required true None.

(** [base.update(extra)] *)
Definition update {A} (base extra : list (string * A)) : list (string * A) :=
  foldl (λ d kv, assoc_set kv.1 kv.2 d) base extra.

Definition _pa_schema (extra : list (string * schema)) : schema :=
  closed_object (update
    [("symbol", a_string); ("timeframe", a_string);
     ("lookback", an_integer (mk_limits (Some 20%Z) (Some 1000%Z) None None None None));
     ("request_id", a_string); ("idempotency_key", a_string)] extra) ["symbol"; "timeframe"].

Definition _alarm_schema (extra : list (string * schema)) : schema :=
  closed_object (update [("request_id", a_string); ("idempotency_key", a_string)] extra) [].

(** ** The registry *)

Record ToolSpec := mk_tool {
  name : string;
  input_schema : schema;
  allowed_before_ready : bool }.

(** Registered specs by name, in the order of registration. *)
Definition ToolRegistry : Type := list (string * ToolSpec).

Definition registry_register (tools : ToolRegistry) (spec : ToolSpec) : result ToolRegistry :=
  if has_key (name spec) tools then Err ValueError else Ok (assoc_set (name spec) spec tools).

(** ** The tools *)

Definition ping_tool : ToolSpec :=
  mk_tool "ping"
    (closed_object [("request_id", a_string);
       ("idempotency_key", a_string)] []) true.

Definition get_readiness_tool : ToolSpec :=
  mk_tool "get_readiness"
    (closed_object [("request_id", a_string);
       ("idempotency_key", a_string)] []) true.

Definition get_candles_tool : ToolSpec :=
  mk_tool "get_candles"
    (closed_object [("symbol", a_string);
       ("timeframe", a_string);
       ("limit", an_integer (mk_limits (Some 1%Z) (Some 1000%Z) None None None None));
       ("source", one_of ["spot"; "futures"]);
       ("request_id", a_string);
       ("idempotency_key", a_string)] ["symbol"; "timeframe"]) false.

Definition get_ticker_tool : ToolSpec :=
  mk_tool "get_ticker"
    (closed_object [("symbol", a_string);
       ("request_id", a_string);
       ("idempotency_key", a_string)] ["symbol"]) false.

Definition add_account_tool : ToolSpec :=
  mk_tool "add_account"
    (closed_object [("label", a_text 1 (Some 200));
       ("api_key", a_text 1 None);
       ("api_secret", a_text 1 None);
       ("tags", list_of (a_string));
       ("market", one_of ["spot"]);
       ("request_id", a_string);
       ("idempotency_key", a_string)] ["label"]) false.

Definition list_accounts_tool : ToolSpec :=
  mk_tool "list_accounts"
    (closed_object [("request_id", a_string);
       ("idempotency_key", a_string)] []) false.

Definition remove_account_tool : ToolSpec :=
  mk_tool "remove_account"
    (closed_object [("account_id", a_text 1 None);
       ("request_id", a_string);
       ("idempotency_key", a_string)] ["account_id"]) false.

Definition enable_real_trading_tool : ToolSpec :=
  mk_tool "enable_real_trading"
    (closed_object [("account_id", a_text 1 None);
       ("request_id", a_string);
       ("idempotency_key", a_string)] ["account_id"]) false.

Definition set_risk_policy_tool : ToolSpec :=
  mk_tool "set_risk_policy"
    (closed_object [("account_id", a_text 1 None);
       ("max_notional_per_order", a_number (mk_limits None None (Some 0%Z) None None None));
       ("max_aggregate_exposure", a_number (mk_limits None None (Some 0%Z) None None None));
       ("allowed_symbols", list_of (a_text 1 None));
       ("clear_max_notional", a_boolean);
       ("clear_max_exposure", a_boolean);
       ("clear_allowed_symbols", a_boolean);
       ("request_id", a_string);
       ("idempotency_key", a_string)] ["account_id"]) false.

Definition override_risk_policy_tool : ToolSpec :=
  mk_tool "override_risk_policy"
    (closed_object [("account_id", a_text 1 None);
       ("scope", one_of ["next_order"]);
       ("reason", a_text 1 None);
       ("idempotency_key", a_text 1 None);
       ("expires_at", an_integer no_limits);
       ("request_id", a_string)] ["account_id"; "reason"]) false.

Definition get_risk_policy_tool : ToolSpec :=
  mk_tool "get_risk_policy"
    (closed_object [("account_id", a_text 1 None);
       ("request_id", a_string);
       ("idempotency_key", a_string)] ["account_id"]) false.

Definition get_symbol_info_tool : ToolSpec :=
  mk_tool "get_symbol_info"
    (closed_object [("symbol", a_string);
       ("request_id", a_string);
       ("idempotency_key", a_string)] ["symbol"]) false.

Definition calculate_position_size_tool : ToolSpec :=
  mk_tool "calculate_position_size"
    (closed_object [("symbol", a_string);
       ("account_balance", a_number (mk_limits None None (Some 0%Z) None None None));
       ("risk_pct", a_number (mk_limits None (Some 1%Z) (Some 0%Z) None None None));
       ("entry", a_number (mk_limits None None (Some 0%Z) None None None));
       ("stop_loss", a_number (mk_limits None None (Some 0%Z) None None None));
       ("side", one_of ["BUY"; "SELL"]);
       ("fee_rate", a_number (mk_limits (Some 0%Z) None None None None None));
       ("request_id", a_string);
       ("idempotency_key", a_string)] ["symbol"; "account_balance"; "risk_pct"; "entry"; "stop_loss"]) false.

Definition execute_on_accounts_tool : ToolSpec :=
  mk_tool "execute_on_accounts"
    (closed_object [("account_ids", list_of (a_text 1 None));
       ("tags", list_of (a_text 1 None));
       ("symbol", a_string);
       ("side", one_of ["BUY"; "SELL"]);
       ("entry", a_number (mk_limits None None (Some 0%Z) None None None));
       ("stop_loss", a_number (mk_limits None None (Some 0%Z) None None None));
       ("risk_pct", a_number (mk_limits None (Some 1%Z) (Some 0%Z) None None None));
       ("order_type", one_of ["MARKET"; "LIMIT"]);
       ("idempotency_key", a_text 1 None);
       ("request_id", a_string)] ["symbol"; "side"; "entry"; "stop_loss"; "risk_pct"; "idempotency_key"]) false.

Definition place_order_tool : ToolSpec :=
  mk_tool "place_order"
    (closed_object [("account_id", a_text 1 None);
       ("symbol", a_string);
       ("side", one_of ["BUY"; "SELL"]);
       ("order_type", one_of ["MARKET"; "LIMIT"; "STOP_LOSS_LIMIT"]);
       ("quantity", a_number (mk_limits None None (Some 0%Z) None None None));
       ("price", a_number (mk_limits None None (Some 0%Z) None None None));
       ("stop_price", a_number (mk_limits None None (Some 0%Z) None None None));
       ("idempotency_key", a_text 1 None);
       ("request_id", a_string)] ["account_id"; "symbol"; "side"; "quantity"; "idempotency_key"]) false.

Definition place_oco_order_tool : ToolSpec :=
  mk_tool "place_oco_order"
    (closed_object [("account_id", a_text 1 None);
       ("symbol", a_string);
       ("side", one_of ["BUY"; "SELL"]);
       ("quantity", a_number (mk_limits None None (Some 0%Z) None None None));
       ("price", a_number (mk_limits None None (Some 0%Z) None None None));
       ("stop_price", a_number (mk_limits None None (Some 0%Z) None None None));
       ("stop_limit_price", a_number (mk_limits None None (Some 0%Z) None None None));
       ("idempotency_key", a_text 1 None);
       ("request_id", a_string)] ["account_id"; "symbol"; "side"; "quantity"; "price"; "stop_price"; "stop_limit_price"; "idempotency_key"]) false.

Definition close_all_positions_tool : ToolSpec :=
  mk_tool "close_all_positions"
    (closed_object [("account_id", a_string);
       ("request_id", a_string);
       ("idempotency_key", a_string)] ["account_id"]) false.

Definition disable_real_trading_tool : ToolSpec :=
  mk_tool "disable_real_trading"
    (closed_object [("account_id", a_string);
       ("request_id", a_string);
       ("idempotency_key", a_string)] ["account_id"]) false.

Definition get_total_exposure_tool : ToolSpec :=
  mk_tool "get_total_exposure"
    (closed_object [("request_id", a_string);
       ("idempotency_key", a_string)] []) false.

Definition get_account_balance_tool : ToolSpec :=
  mk_tool "get_account_balance"
    (closed_object [("account_id", a_text 1 None);
       ("request_id", a_string);
       ("idempotency_key", a_string)] ["account_id"]) false.

Definition get_open_orders_tool : ToolSpec :=
  mk_tool "get_open_orders"
    (closed_object [("account_id", a_text 1 None);
       ("request_id", a_string);
       ("idempotency_key", a_string)] ["account_id"]) false.

Definition get_unprotected_positions_tool : ToolSpec :=
  mk_tool "get_unprotected_positions"
    (closed_object [("request_id", a_string);
       ("idempotency_key", a_string)] []) false.

Definition get_audit_log_tool : ToolSpec :=
  mk_tool "get_audit_log"
    (closed_object [("limit", an_integer (mk_limits (Some 1%Z) (Some 500%Z) None None None None));
       ("request_id", a_string);
       ("idempotency_key", a_string)] []) false.

Definition get_market_structure_tool : ToolSpec :=
  mk_tool "get_market_structure"
    (_pa_schema []) false.

Definition get_liquidity_zones_tool : ToolSpec :=
  mk_tool "get_liquidity_zones"
    (_pa_schema [("include_mitigated", a_boolean)]) false.

Definition get_order_blocks_tool : ToolSpec :=
  mk_tool "get_order_blocks"
    (_pa_schema [("include_mitigated", a_boolean)]) false.

Definition get_full_analysis_tool : ToolSpec :=
  mk_tool "get_full_analysis"
    (_pa_schema [("include_mitigated", a_boolean)]) false.

Definition annotate_chart_tool : ToolSpec :=
  mk_tool "annotate_chart"
    (closed_object [("symbol", a_string);
       ("timeframe", a_string);
       ("annotations", list_of (any_object));
       ("created_by", a_string);
       ("request_id", a_string);
       ("idempotency_key", a_string)] ["symbol"; "timeframe"; "annotations"]) false.

Definition get_chart_annotations_tool : ToolSpec :=
  mk_tool "get_chart_annotations"
    (closed_object [("symbol", a_string);
       ("timeframe", a_string);
       ("request_id", a_string);
       ("idempotency_key", a_string)] ["symbol"; "timeframe"]) false.

Definition clear_annotations_tool : ToolSpec :=
  mk_tool "clear_annotations"
    (closed_object [("symbol", a_string);
       ("timeframe", a_string);
       ("request_id", a_string);
       ("idempotency_key", a_string)] ["symbol"; "timeframe"]) false.

Definition scan_market_tool : ToolSpec :=
  mk_tool "scan_market"
    (closed_object [("filters", list_of (any_object));
       ("combine", one_of ["AND"; "OR"]);
       ("sort_by", one_of ["symbol"; "price_change"; "volume_change"]);
       ("limit", an_integer (mk_limits (Some 1%Z) (Some 250%Z) None None None None));
       ("cursor", an_integer no_limits);
       ("timeframe", a_string);
       ("request_id", a_string);
       ("idempotency_key", a_string)] ["filters"]) false.

Definition create_alert_tool : ToolSpec :=
  mk_tool "create_alert"
    (_alarm_schema [("symbol", a_string);
       ("timeframe", a_string);
       ("condition", list_of (any_object));
       ("cooldown_seconds", an_integer (mk_limits (Some 0%Z) None None None None None));
       ("note", a_string);
       ("order_spec", open_object [("account_id", a_text 1 None);
           ("symbol", a_text 1 None);
           ("side", one_of ["BUY"; "SELL"]);
           ("order_type", one_of ["market"; "limit"]);
           ("entry", a_number (mk_limits None None (Some 0%Z) None None None));
           ("stop_loss", a_number (mk_limits None None (Some 0%Z) None None None));
           ("risk_pct", a_number (mk_limits None (Some 1%Z) (Some 0%Z) None None None))] ["account_id"; "symbol"; "side"; "risk_pct"])]) false.

Definition create_composite_alert_tool : ToolSpec :=
  mk_tool "create_composite_alert"
    (_alarm_schema [("clauses", list_of (open_object [("symbol", a_string);
             ("timeframe", a_string);
             ("filters", list_of (any_object))] ["symbol"; "timeframe"; "filters"]));
       ("combine", one_of ["AND"; "OR"]);
       ("cooldown_seconds", an_integer (mk_limits (Some 0%Z) None None None None None));
       ("note", a_string)]) false.

Definition list_alerts_tool : ToolSpec :=
  mk_tool "list_alerts"
    (_alarm_schema []) false.

Definition delete_alert_tool : ToolSpec :=
  mk_tool "delete_alert"
    (_alarm_schema [("alert_id", a_text 1 None)]) false.

Definition get_triggered_alerts_tool : ToolSpec :=
  mk_tool "get_triggered_alerts"
    (_alarm_schema [("alert_id", a_string);
       ("limit", an_integer (mk_limits (Some 1%Z) (Some 500%Z) None None None None));
       ("cursor", an_integer no_limits)]) false.

Definition get_pending_orders_tool : ToolSpec :=
  mk_tool "get_pending_orders"
    (_alarm_schema [("status", one_of ["awaiting_approval"; "approved"; "executing"; "rejected"; "executed"; "reconcile_required"; "expired"]);
       ("limit", an_integer (mk_limits (Some 1%Z) (Some 500%Z) None None None None))]) false.

Definition approve_pending_order_tool : ToolSpec :=
  mk_tool "approve_pending_order"
    (_alarm_schema [("order_id", a_text 1 None)]) false.

Definition reject_pending_order_tool : ToolSpec :=
  mk_tool "reject_pending_order"
    (_alarm_schema [("order_id", a_text 1 None);
       ("reason", a_string)]) false.

Definition registrations : list ToolSpec :=
  [ping_tool; get_readiness_tool; get_candles_tool; get_ticker_tool;
   add_account_tool; list_accounts_tool; remove_account_tool; enable_real_trading_tool;
   set_risk_policy_tool; override_risk_policy_tool; get_risk_policy_tool; get_symbol_info_tool;
   calculate_position_size_tool; execute_on_accounts_tool; place_order_tool; place_oco_order_tool;
   close_all_positions_tool; disable_real_trading_tool; get_total_exposure_tool; get_account_balance_tool;
   get_open_orders_tool; get_unprotected_positions_tool; get_audit_log_tool; get_market_structure_tool;
   get_liquidity_zones_tool; get_order_blocks_tool; get_full_analysis_tool; annotate_chart_tool;
   get_chart_annotations_tool; clear_annotations_tool; scan_market_tool; create_alert_tool;
   create_composite_alert_tool; list_alerts_tool; delete_alert_tool; get_triggered_alerts_tool;
   get_pending_orders_tool; approve_pending_order_tool; reject_pending_order_tool].

(** [REGISTRY] once the module is imported. *)
Definition REGISTRY : result ToolRegistry := res_fold registry_register [] registrations.

Definition registry : ToolRegistry := match REGISTRY with Ok r => r | Err _ => [] end.

Definition registry_names : list string := map fst registry.

(** Importing the module raises nothing: no tool is registered twice. *)
Lemma REGISTRY_ok : REGISTRY = Ok registry.
Proof. reflexivity. Qed.

(** What holds of every registered tool is checked on the list. *)
Lemma registry_forall (p : string * ToolSpec → bool) n spec :
  forallb p registry = true → assoc n registry = Some spec → p (n, spec) = true.
Proof. rewrite forallb_forall. intros Hall H%assoc_elem%list_elem_of_In. by apply Hall. Qed.

Lemma registry_spec_name n spec : assoc n registry = Some spec → name spec = n.
Proof.
  intros H. apply String.eqb_eq.
  by apply (registry_forall (λ ns, String.eqb (name ns.2) ns.1) n spec).
Qed.

(** Before the daemon is ready only the two liveness tools may be called. *)
Lemma early_tools n spec :
  assoc n registry = Some spec → allowed_before_ready spec = true → n ∈ ["ping"; "get_readiness"].
Proof.
  intros H Hb. apply str_in_spec.
  apply (registry_forall (λ ns, negb (allowed_before_ready ns.2) || str_in ns.1 ["ping"; "get_readiness"])) in H;
    [|reflexivity]. simpl in H. by rewrite Hb in H.
Qed.

(** Every schema is a closed object. *)
Lemma schemas_closed n spec :
  assoc n registry = Some spec →
  ∃ props req, input_schema spec = closed_object props req.
Proof.
  intros H.
  apply (registry_forall (λ ns, match input_schema ns.2 with
    | Schema (Some TObject) None (mk_limits None None None None None None) _ _ true None => true
    | _ => false end)) in H; [|reflexivity].
  simpl in H. repeat (case_match; try discriminate). unfold closed_object, no_limits. eauto.
Qed.

#[global] Opaque registry.
