(* ===== verification/Risk.v ===== *)
(** [accuracy.py] (core correctness checks, never bypassed) and [risk.py]
    (tolerance band, strict policy caps). *)

From Stdlib Require Import ZArith String.
From S2P Require Import Prelude PyFloat PyVal Errors.
Local Open Scope string_scope.

Definition FRESHNESS_FRESH : string := "fresh".
Definition FRESHNESS_STALE : string := "stale".

(** [(side or "BUY").upper()] *)
Definition side_norm (side : option string) : string :=
  Str.upper (match side with
             | None => "BUY"
             | Some s => if Str.empty s then "BUY" else s
             end).

(** [isinstance(v, str) and v] *)
Definition nonempty_str (v : pyval) : option string :=
  match v with PStr s => if Str.empty s then None else Some s | _ => None end.

Module Accuracy.

Definition check_symbol_valid (symbol : pyval) (universe : option (list string)) : result unit :=
  match nonempty_str symbol with
  | None => raise INVALID_SYMBOL
  | Some s =>
      match universe with
      | None => raise INVALID_SYMBOL
      | Some u => reject_if (negb (str_in s u)) INVALID_SYMBOL
      end
  end.

Definition check_price_fresh (freshness : option string) : result unit :=
  reject_if (negb (bool_decide (freshness = Some FRESHNESS_FRESH))) STALE_DATA.

Definition check_stop_direction (side : option string) (entry stop_loss : float) : result unit :=
  let normalized := side_norm side in
  if String.eqb normalized "BUY" then
    reject_if (fge stop_loss entry) INVALID_REQUEST
  else if String.eqb normalized "SELL" then
    reject_if (fle stop_loss entry) INVALID_REQUEST
  else raise INVALID_REQUEST.

Definition check_sufficient_balance (available_quote required_quote : float) : result unit :=
  reject_if (fgt required_quote available_quote) INSUFFICIENT_BALANCE.

Lemma check_price_fresh_Ok f u : check_price_fresh f = Ok u ↔ f = Some FRESHNESS_FRESH.
Proof.
  unfold check_price_fresh, reject_if. rewrite raise_if_Ok, negb_false_iff.
  apply bool_decide_eq_true.
Qed.

Lemma check_stop_direction_Ok side entry stop u :
  isnan entry = false → isnan stop = false →
  check_stop_direction side entry stop = Ok u →
  (side_norm side = "BUY" ∧ flt stop entry = true) ∨
  (side_norm side = "SELL" ∧ flt entry stop = true).
Proof.
  unfold check_stop_direction, reject_if, fge. intros He Hs H.
  destruct (String.eqb_spec (side_norm side) "BUY") as [HB|HB].
  - left. rewrite raise_if_Ok in H. split; [done|].
    by apply fle_false_flt.
  - destruct (String.eqb_spec (side_norm side) "SELL") as [HS|HS]; [|done].
    right. rewrite raise_if_Ok in H. split; [done|]. by apply fle_false_flt.
Qed.
End Accuracy.

(** ** risk.py *)

Module RiskCaps.

Definition DEFAULT_TOLERANCE_PCT : float := fQ 2 100.

Definition within_tolerance (value target tolerance_pct : pyval) : result bool :=
  value ← require_finite value;
  target ← require_finite target;
  tolerance_pct ← require_finite tolerance_pct;
  if flt tolerance_pct fzero then raise INVALID_REQUEST
  else if feq target fzero then Ok (feq value fzero)
  else
    let band := fmul (fabs target) tolerance_pct in
    Ok (fle (fabs (fsub value target)) band).

(** The keys of the policy dict that [enforce_policy_caps] reads. *)
Record caps := mk_caps {
  max_notional_per_order : option float;
  max_aggregate_exposure : option float;
  allowed_symbols : list string }.

Definition check_cap (value : float) (cap : option float) : result unit :=
  match cap with
  | None => Ok tt
  | Some c =>
      cap ← require_finite (PFloat c);
      reject_if (fgt value cap) RISK_LIMIT_EXCEEDED
  end.

(** [not allowed or symbol in allowed] *)
Definition symbol_allowed (s : string) (allowed : list string) : bool :=
  match allowed with [] => true | _ => str_in s allowed end.

Definition enforce_policy_caps (symbol : pyval) (notional : float) (policy : caps)
    (aggregate_exposure : option float) : result unit :=
  match nonempty_str symbol with
  | None => raise INVALID_REQUEST
  | Some s =>
      notional ← require_finite (PFloat notional);
      _ ← reject_if (fle notional fzero) INVALID_REQUEST;
      _ ← reject_if (negb (symbol_allowed s (allowed_symbols policy))) SYMBOL_NOT_ALLOWED;
      _ ← check_cap notional (max_notional_per_order policy);
      match aggregate_exposure with
      | None => Ok tt
      | Some e =>
          e ← require_finite (PFloat e);
          check_cap e (max_aggregate_exposure policy)
      end
  end.

(** What the caps promise: an exact bound, no tolerance. *)
Definition within_cap (value : float) (cap : option float) : Prop :=
  match cap with
  | None => True
  | Some c => isfinite c = true ∧ fle value c = true
  end.

Definition caps_respected (symbol : string) (notional : float) (policy : caps)
    (aggregate_exposure : option float) : Prop :=
  (isfinite notional = true ∧ flt fzero notional = true) ∧
  (allowed_symbols policy = [] ∨ symbol ∈ allowed_symbols policy) ∧
  within_cap notional (max_notional_per_order policy) ∧
  match aggregate_exposure with
  | None => True
  | Some e => isfinite e = true ∧ within_cap e (max_aggregate_exposure policy)
  end.

Lemma check_cap_Ok v cap u :
  isfinite v = true → check_cap v cap = Ok u ↔ within_cap v cap.
Proof.
  intros Hv. destruct cap as [c|]; simpl; [|by destruct u].
  rewrite require_finite_float. destruct (isfinite c) eqn:Hc; simpl; [|naive_solver].
  unfold reject_if, fgt. rewrite raise_if_Ok. split.
  - intros H. split; [done|]. auto with rasat.
  - intros [_ H]. by apply fle_antisym_lt.
Qed.

Lemma allowed_Ok s allowed u :
  reject_if (negb (symbol_allowed s allowed)) SYMBOL_NOT_ALLOWED = Ok u
  ↔ allowed = [] ∨ s ∈ allowed.
Proof.
  unfold reject_if. rewrite raise_if_Ok, negb_false_iff. unfold symbol_allowed.
  destruct allowed as [|a l]; [naive_solver|]. rewrite str_in_spec. naive_solver.
Qed.

Lemma nonempty_str_PStr s : s ≠ EmptyString → nonempty_str (PStr s) = Some s.
Proof. intros H. simpl. unfold Str.empty. by apply String.eqb_neq in H as ->. Qed.

(** C38: [enforce_policy_caps] passes exactly when the order and the aggregate
    exposure are within every cap of the policy, compared exactly (no tolerance),
    the symbol is allowed and every number is finite. *)
Theorem enforce_policy_caps_iff s notional policy agg :
  s ≠ EmptyString →
  enforce_policy_caps (PStr s) notional policy agg = Ok tt
  ↔ caps_respected s notional policy agg.
Proof.
  intros Hs. unfold enforce_policy_caps, caps_respected.
  rewrite nonempty_str_PStr by done.
  rewrite require_finite_float. destruct (isfinite notional) eqn:Hn; [|naive_solver].
  simpl. rewrite res_bind_Ok. unfold reject_if at 1. setoid_rewrite raise_if_Ok.
  split.
  - intros ([] & Hp & ([] & Ha & ([] & Hc & H)%res_bind_Ok)%res_bind_Ok).
    apply allowed_Ok in Ha. apply check_cap_Ok in Hc; [|done].
    split_and!; [done|by apply fle_false_flt; auto with rasat|done|done|].
    destruct agg as [e|]; [|done]. rewrite require_finite_float in H.
    destruct (isfinite e) eqn:He; [|done]. simpl in H.
    by apply check_cap_Ok in H.
  - intros ([_ Hp] & Ha & Hc & H). exists tt. split; [by apply flt_not_fle|].
    apply res_bind_Ok. exists tt. split; [by apply allowed_Ok|].
    apply res_bind_Ok. exists tt. split; [by apply check_cap_Ok|].
    destruct agg as [e|]; [|done]. destruct H as [He H].
    rewrite require_finite_float, He. simpl. by apply check_cap_Ok.
Qed.

Lemma enforce_policy_caps_iff_witness :
  enforce_policy_caps (PStr "BTCUSDT") (fZ 50) (mk_caps (Some (fZ 50)) None ["BTCUSDT"]) None = Ok tt
  ↔ caps_respected "BTCUSDT" (fZ 50) (mk_caps (Some (fZ 50)) None ["BTCUSDT"]) None.
Proof.
  exact (enforce_policy_caps_iff "BTCUSDT" (fZ 50)
    (mk_caps (Some (fZ 50)) None ["BTCUSDT"]) None ltac:(discriminate)).
Defined.
End RiskCaps.
