(* ===== verification/Sizing.v ===== *)
(** [position_sizing.py]: exchangeInfo filters and risk-based position size. *)

From Stdlib Require Import ZArith String.
From S2P Require Import Prelude PyFloat PyVal Errors Risk.
Local Open Scope string_scope.

Definition DEFAULT_FEE_RATE : float := fQ 1 1000.
Definition _EPS : float := fQ 1 1000000000.

Record SymbolFilters := mk_filters {
  f_symbol : string;
  base_asset : string;
  quote_asset : string;
  f_status : string;
  step_size : float;
  min_qty : float;
  max_qty : float;
  min_notional : float;
  tick_size : float;
  min_price : float;
  max_price : float }.

(** ** Parsing an exchangeInfo entry *)

Section FromExchangeInfo.
(** Python's [str(v)] of a value that is not a string. *)
Context (str_of_other : pyval → string).

Definition py_str (v : pyval) : string :=
  match v with PStr s => s | _ => str_of_other v end.

(** [v.get(k)] on a dict; any other value has no [get]. *)
Definition py_get (k : string) (v : pyval) : result (option pyval) :=
  match v with PDict d => Ok (assoc k d) | _ => Err AttributeError end.

(** The dict comprehension over [entry["filters"]]: the last filter of a type
    wins; a type that cannot be hashed raises, any other that is not a string is never
    looked up. *)
Fixpoint index_filters (l : list pyval) (acc : list (string * pyval))
    : result (list (string * pyval)) :=
  match l with
  | [] => Ok acc
  | f :: l' =>
      t ← py_get "filterType" f;
      match t with
      | Some (PStr s) => index_filters l' (assoc_set s f acc)
      | Some (PList _) | Some (PDict _) => Err TypeError
      | _ => index_filters l' acc
      end
  end.

Definition _num (filters : list (string * pyval)) (fname key : string) (default : float)
    : result float :=
  let f := match assoc fname filters with
           | Some v => if truthy v then v else PDict []
           | None => PDict []
           end in
  raw ← py_get key f;
  match raw with
  | None | Some PNone => Ok default
  | Some (PStr EmptyString) => Ok default
  | Some v => py_float v
  end.

Definition get_str (k : string) (entry : list (string * pyval)) : string :=
  match assoc k entry with Some v => py_str v | None => EmptyString end.

Definition from_exchange_info (entry : list (string * pyval)) : result SymbolFilters :=
  fl ← match assoc "filters" entry with
       | None => Ok []
       | Some (PList l) => Ok l
       | Some _ => Err TypeError
       end;
  filters ← index_filters fl [];
  step ← _num filters "LOT_SIZE" "stepSize" fzero;
  minq ← _num filters "LOT_SIZE" "minQty" fzero;
  maxq ← _num filters "LOT_SIZE" "maxQty" finf;
  n1 ← _num filters "NOTIONAL" "minNotional" fzero;
  minn ← (if ftruthy n1 then Ok n1 else _num filters "MIN_NOTIONAL" "minNotional" fzero);
  tick ← _num filters "PRICE_FILTER" "tickSize" fzero;
  minp ← _num filters "PRICE_FILTER" "minPrice" fzero;
  maxp ← _num filters "PRICE_FILTER" "maxPrice" finf;
  Ok (mk_filters (get_str "symbol" entry) (get_str "baseAsset" entry)
        (get_str "quoteAsset" entry) (get_str "status" entry)
        step minq maxq minn tick minp maxp).
End FromExchangeInfo.

(** ** Rounding to the lot size *)

Definition round_down_to_step (value step : float) : result float :=
  if fle step fzero then Ok value
  else
    q ← fdiv value step;
    k ← ffloor (fadd q _EPS);
    kf ← float_of_int k;
    Ok (fmul kf step).

Record sized := mk_sized {
  sz_symbol : string;
  sz_side : string;
  sz_account_balance : float;
  sz_risk_pct : float;
  sz_risk_amount : float;
  sz_risk_per_unit : float;
  sz_entry : float;
  sz_stop_loss : float;
  sz_quantity : float;
  sz_notional : float;
  sz_estimated_fee : float;
  sz_total_required : float;
  sz_fee_rate : float;
  sz_filters : SymbolFilters }.

Definition calculate_position_size (symbol account_balance risk_pct entry stop_loss : pyval)
    (filters : SymbolFilters) (side : option string) (fee_rate : pyval) : result sized :=
  match nonempty_str symbol with
  | None => raise INVALID_REQUEST
  | Some symbol =>
    account_balance ← require_finite account_balance;
    risk_pct ← require_finite risk_pct;
    entry ← require_finite entry;
    stop_loss ← require_finite stop_loss;
    fee_rate ← require_finite fee_rate;
    _ ← Accuracy.check_stop_direction side entry stop_loss;
    _ ← reject_if (fle risk_pct fzero || fgt risk_pct (fZ 1)) INVALID_REQUEST;
    _ ← reject_if (fle account_balance fzero) INVALID_REQUEST;
    _ ← reject_if (fle entry fzero || fle stop_loss fzero) INVALID_REQUEST;
    _ ← reject_if (flt fee_rate fzero) INVALID_REQUEST;
    _ ← reject_if (flt entry (min_price filters) || fgt entry (max_price filters))
          FILTER_VIOLATION;
    let risk_amount := fmul account_balance risk_pct in
    let risk_per_unit := fabs (fsub entry stop_loss) in
    raw_qty ← fdiv risk_amount risk_per_unit;
    balance_cap_qty ← fdiv account_balance (fmul entry (fadd (fZ 1) fee_rate));
    qty ← round_down_to_step (fmin raw_qty balance_cap_qty) (step_size filters);
    let notional := fmul qty entry in
    let fee := fmul notional fee_rate in
    _ ← reject_if (fle qty fzero || flt qty (min_qty filters)) FILTER_VIOLATION;
    _ ← reject_if (fgt qty (max_qty filters)) FILTER_VIOLATION;
    _ ← reject_if (flt notional (min_notional filters)) FILTER_VIOLATION;
    _ ← Accuracy.check_sufficient_balance account_balance (fadd notional fee);
    Ok (mk_sized symbol (side_norm side) account_balance risk_pct risk_amount risk_per_unit
          entry stop_loss qty notional fee (fadd notional fee) fee_rate filters)
  end.

(** ** Properties *)

(** Filters as the exchange publishes them: a positive finite step, numbers
    (possibly infinite) elsewhere. *)
Definition wf_filters (f : SymbolFilters) : Prop :=
  isfinite (step_size f) = true ∧ flt fzero (step_size f) = true ∧
  isnan (min_qty f) = false ∧ isnan (max_qty f) = false ∧
  isnan (min_notional f) = false ∧
  isnan (min_price f) = false ∧ isnan (max_price f) = false.

(** A rounded quantity is an integer number of steps, and a number. *)
Lemma round_down_to_step_Ok value step q :
  isfinite step = true → flt fzero step = true →
  round_down_to_step value step = Ok q →
  ∃ k, float_of_int (C := ErrorCode) k = Ok (fZ k) ∧ q = fmul (fZ k) step ∧ isnan q = false.
Proof.
  intros Hf Hp. unfold round_down_to_step. rewrite (flt_not_fle _ _ Hp).
  intros (x & _ & (k & _ & (kf & Hk & [= <-])%res_bind_Ok)%res_bind_Ok)%res_bind_Ok.
  exists k. unfold float_of_int in *. destruct (isfinite (fZ k)) eqn:E; [|done].
  simplify_eq. auto with rasat.
Qed.

(** The exchange's rules and the balance rule for a sized order. *)
Definition order_fits (f : SymbolFilters) (balance qty entry fee_rate : float) : Prop :=
  let notional := fmul qty entry in
  (fle (min_price f) entry = true ∧ fle entry (max_price f) = true) ∧
  (flt fzero qty = true ∧ fle (min_qty f) qty = true ∧ fle qty (max_qty f) = true) ∧
  fle (min_notional f) notional = true ∧
  fle (fadd notional (fmul notional fee_rate)) balance = true.

Definition stop_protects (side : string) (entry stop : float) : Prop :=
  (side = "BUY" ∧ flt stop entry = true) ∨ (side = "SELL" ∧ flt entry stop = true).

(** Peel the checks of a validation that succeeded. *)
Ltac peel H :=
  repeat first
  [ let x := fresh "x" in let Hx := fresh "Hx" in
    apply res_bind_Ok in H as (x & Hx & H);
    first [ apply reject_if_Ok in Hx; clear x | idtac ] ].

(** C40: a sized order is safe: its stop is on the protecting side of the entry, it
    satisfies every exchange filter, its quantity is a whole number of lot steps,
    and its cost with the fee is within the balance. *)
Theorem calculate_position_size_safe symbol balance risk entry stop f side fee r :
  wf_filters f →
  calculate_position_size symbol balance risk entry stop f side fee = Ok r →
  flt fzero (sz_fee_rate r) = true →
  stop_protects (sz_side r) (sz_entry r) (sz_stop_loss r) ∧
  order_fits f (sz_account_balance r) (sz_quantity r) (sz_entry r) (sz_fee_rate r) ∧
  ∃ k, sz_quantity r = fmul (fZ k) (step_size f).
Proof.
  intros (Hsf & Hsp & Hnminq & Hnmaxq & Hnn & Hnminp & Hnmaxp) H Hfee.
  unfold calculate_position_size in H. destruct (nonempty_str symbol) as [s|]; [|done].
  peel H. injection H as <-; simpl in *.
  repeat match goal with
  | H : require_finite _ = Ok _ |- _ => apply require_finite_Ok in H
  | H : _ || _ = false |- _ => apply orb_false_iff in H as [? ?]
  end.
  match goal with H : round_down_to_step _ _ = Ok _ |- _ =>
    destruct (round_down_to_step_Ok _ _ _ Hsf Hsp H) as (k & _ & Hq & Hqn) end.
  match goal with H : Accuracy.check_stop_direction _ _ _ = Ok _ |- _ =>
    apply Accuracy.check_stop_direction_Ok in H; [|by auto with rasat..] end.
  unfold fgt in *. split_and!; [done| |eauto].
  match goal with H : fle ?q fzero = false, Hq : ?q = fmul (fZ k) _ |- _ =>
    assert (flt fzero q = true) as Hqp by (apply fle_false_flt; auto with rasat) end.
  match goal with H : fle ?en fzero = false |- context [order_fits _ _ _ ?en _] =>
    assert (flt fzero en = true) as Hep by (apply fle_false_flt; auto with rasat) end.
  unfold order_fits. split_and!.
  all: try by (apply flt_false_fle; auto 10 with rasat).
  all: try done.
Qed.

Definition sample_filters : SymbolFilters :=
  mk_filters "BTCUSDT" "BTC" "USDT" "TRADING" (fQ 1 1000) (fQ 1 1000) (fZ 1000) (fZ 10)
    (fQ 1 100) (fQ 1 100) (fZ 1000000).

Lemma sample_filters_wf : wf_filters sample_filters.
Proof. by vm_compute. Qed.

Lemma calculate_position_size_safe_witness :
  match calculate_position_size (PStr "BTCUSDT") (PInt 1000) (PFloat (fQ 1 100)) (PInt 100)
          (PInt 90) sample_filters (Some "BUY") (PFloat (fQ 1 1000)) with
  | Ok r => flt fzero (sz_quantity r) = true ∧
      stop_protects (sz_side r) (sz_entry r) (sz_stop_loss r)
  | Err _ => False
  end.
Proof.
  destruct (calculate_position_size (PStr "BTCUSDT") (PInt 1000) (PFloat (fQ 1 100)) (PInt 100)
          (PInt 90) sample_filters (Some "BUY") (PFloat (fQ 1 1000))) as [r|e] eqn:E.
  - assert (flt fzero (sz_fee_rate r) = true) as Hfee.
    { vm_compute in E. injection E as <-. vm_compute. reflexivity. }
    destruct (calculate_position_size_safe _ _ _ _ _ _ _ _ r sample_filters_wf E Hfee)
      as (H1 & (_ & (H2 & _) & _) & _).
    split; [exact H2|exact H1].
  - vm_compute in E. discriminate E.
Defined.

(** "Round [value] DOWN" holds up to [_EPS]: just below a multiple of the step
    the result is above the value. *)
Theorem round_down_to_step_can_exceed :
  ∃ value q, isfinite value = true ∧
    round_down_to_step value (fZ 1) = Ok q ∧ fgt q value = true.
Proof. exists (fQ 9999999999 10000000000), (fZ 1). vm_compute. done. Qed.
