(* ===== verification/Validation.v ===== *)
(** [storage/order_validation.py]: the shared validator that runs before every
    broker call. *)

From Stdlib Require Import ZArith String.
From S2P Require Import Prelude PyFloat PyVal Errors Risk Sizing.
Local Open Scope string_scope.

Definition SIDES : list string := ["BUY"; "SELL"].
Definition ORDER_TYPES : list string := ["MARKET"; "LIMIT"; "STOP_LOSS_LIMIT"; "OCO"].
Definition _ALIGN_EPS : float := fQ 1 1000000.

Definition normalize_side (side : pyval) : result string :=
  match side with
  | PStr s =>
      if Str.empty (Str.strip s) then raise INVALID_REQUEST
      else
        let side_n := Str.upper (Str.strip s) in
        if str_in side_n SIDES then Ok side_n else raise INVALID_REQUEST
  | _ => raise INVALID_REQUEST
  end.

Definition normalize_order_type (order_type : pyval) : result string :=
  match order_type with
  | PStr s =>
      if Str.empty (Str.strip s) then raise INVALID_REQUEST
      else
        let ot := Str.upper (Str.strip s) in
        if str_in ot ORDER_TYPES then Ok ot else raise INVALID_REQUEST
  | _ => raise INVALID_REQUEST
  end.

Definition _require_positive_optional (value : pyval) : result (option float) :=
  match value with
  | PNone => Ok None
  | _ => x ← require_positive value; Ok (Some x)
  end.

Definition _check_filters_finite (f : SymbolFilters) : result unit :=
  reject_if (negb (forallb isfinite
    [step_size f; min_qty f; max_qty f; min_notional f; tick_size f; min_price f; max_price f]))
    FILTER_VIOLATION.

(** [require o]: the value of a field that the order type needs. *)
Definition required (o : option float) : result float :=
  match o with Some x => Ok x | None => raise INVALID_REQUEST end.

(** The stop must be on the far side of the market price, when one is given. *)
Definition check_stop_vs_market (side_n : string) (stop : float) (market_price : option float)
    : result unit :=
  match market_price with
  | None => Ok tt
  | Some m =>
      _ ← reject_if (String.eqb side_n "SELL" && fge stop m) INVALID_REQUEST;
      reject_if (String.eqb side_n "BUY" && fle stop m) INVALID_REQUEST
  end.

Definition check_conditional (side_n ot : string) (price stop_price stop_limit_price market_price : option float)
    : result unit :=
  if String.eqb ot "LIMIT" then _ ← required price; Ok tt
  else if String.eqb ot "STOP_LOSS_LIMIT" then
    _ ← required price;
    stop ← required stop_price;
    check_stop_vs_market side_n stop market_price
  else if String.eqb ot "OCO" then
    price ← required price;
    stop ← required stop_price;
    limit ← required stop_limit_price;
    _ ← (if String.eqb side_n "SELL" then
           _ ← reject_if (fge limit stop) INVALID_REQUEST;
           reject_if (fle price stop) INVALID_REQUEST
         else
           _ ← reject_if (fle limit stop) INVALID_REQUEST;
           reject_if (fge price stop) INVALID_REQUEST);
    check_stop_vs_market side_n stop market_price
  else Ok tt.

(** [abs(x - round(x)) > _ALIGN_EPS] *)
Definition misaligned (x : float) : result bool :=
  k ← fround x;
  kf ← float_of_int k;
  Ok (fgt (fabs (fsub x kf)) _ALIGN_EPS).

Definition check_price_filter (f : SymbolFilters) (pval : option float) : result unit :=
  match pval with
  | None => Ok tt
  | Some p =>
      _ ← reject_if (flt p (min_price f) || fgt p (max_price f)) FILTER_VIOLATION;
      if ftruthy (tick_size f) && fgt (tick_size f) fzero then
        ticks ← fdiv (fsub p (min_price f)) (tick_size f);
        bad ← misaligned ticks;
        reject_if bad FILTER_VIOLATION
      else Ok tt
  end.

Definition check_filters (f : SymbolFilters) (qty : float)
    (price stop_price stop_limit_price notional : option float) : result unit :=
  _ ← _check_filters_finite f;
  _ ← reject_if (flt qty (min_qty f)) FILTER_VIOLATION;
  _ ← reject_if (fgt qty (max_qty f)) FILTER_VIOLATION;
  _ ← (if ftruthy (step_size f) && fgt (step_size f) fzero then
         steps ← fdiv qty (step_size f);
         bad ← misaligned steps;
         reject_if bad FILTER_VIOLATION
       else Ok tt);
  _ ← check_price_filter f price;
  _ ← check_price_filter f stop_price;
  _ ← check_price_filter f stop_limit_price;
  n ← required notional;
  reject_if (flt n (min_notional f)) FILTER_VIOLATION.

Record validated := mk_validated {
  v_side : string;
  v_order_type : string;
  v_quantity : float;
  v_price : option float;
  v_stop_price : option float;
  v_stop_limit_price : option float;
  v_notional : option float }.

Definition validate_execution_order (side order_type quantity price stop_price stop_limit_price : pyval)
    (filters : option SymbolFilters) (market_price : pyval) : result validated :=
  side_n ← normalize_side side;
  ot ← normalize_order_type order_type;
  qty ← require_positive quantity;
  price ← _require_positive_optional price;
  stop_price ← _require_positive_optional stop_price;
  stop_limit_price ← _require_positive_optional stop_limit_price;
  market_price ← _require_positive_optional market_price;
  _ ← check_conditional side_n ot price stop_price stop_limit_price market_price;
  let reference := match price with Some _ => price | None => market_price end in
  let notional := (λ r, fmul qty r) <$> reference in
  _ ← match filters with
      | None => Ok tt
      | Some f => check_filters f qty price stop_price stop_limit_price notional
      end;
  Ok (mk_validated side_n ot qty price stop_price stop_limit_price notional).

(** ** The contract of the validator *)

Definition num_pos (x : float) : Prop := isfinite x = true ∧ flt fzero x = true.
Definition opt_pos (o : option float) : Prop := ∀ x, o = Some x → num_pos x.

(** Price geometry of each order type. *)
Definition stop_beyond_market (side : string) (stop : float) (m : option float) : Prop :=
  ∀ p, m = Some p →
    (side = "SELL" → flt stop p = true) ∧ (side = "BUY" → flt p stop = true).

Definition geometry_ok (side ot : string) (price stop limit market : option float) : Prop :=
  (ot = "LIMIT" → is_Some price) ∧
  (ot = "STOP_LOSS_LIMIT" → is_Some price ∧ ∃ s, stop = Some s ∧ stop_beyond_market side s market) ∧
  (ot = "OCO" → ∃ p s l, price = Some p ∧ stop = Some s ∧ limit = Some l ∧
     (side = "SELL" → flt l s = true ∧ flt s p = true) ∧
     (side = "BUY" → flt p s = true ∧ flt s l = true) ∧
     stop_beyond_market side s market).

Definition aligned (x : float) : Prop := misaligned x = Ok false.

Definition price_in_filter (f : SymbolFilters) (p : float) : Prop :=
  fle (min_price f) p = true ∧ fle p (max_price f) = true ∧
  (flt fzero (tick_size f) = true →
   ∃ t, fdiv (C := ErrorCode) (fsub p (min_price f)) (tick_size f) = Ok t ∧ aligned t).

Definition filters_ok (f : SymbolFilters) (qty : float) (prices : list (option float))
    (notional : option float) : Prop :=
  fle (min_qty f) qty = true ∧ fle qty (max_qty f) = true ∧
  (flt fzero (step_size f) = true →
   ∃ s, fdiv (C := ErrorCode) qty (step_size f) = Ok s ∧ aligned s) ∧
  (∀ p, Some p ∈ prices → price_in_filter f p) ∧
  ∃ n, notional = Some n ∧ (isnan n = false → fle (min_notional f) n = true).

Record order_ok (v : validated) (filters : option SymbolFilters) (market : option float) : Prop := {
  ok_side : v_side v = "BUY" ∨ v_side v = "SELL";
  ok_type : v_order_type v ∈ ORDER_TYPES;
  ok_qty : num_pos (v_quantity v);
  ok_prices : opt_pos (v_price v) ∧ opt_pos (v_stop_price v) ∧ opt_pos (v_stop_limit_price v);
  ok_geometry : geometry_ok (v_side v) (v_order_type v) (v_price v) (v_stop_price v)
                  (v_stop_limit_price v) market;
  ok_notional : v_notional v =
    (λ r, fmul (v_quantity v) r) <$> (match v_price v with Some _ => v_price v | None => market end);
  ok_filters : ∀ f, filters = Some f →
    filters_ok f (v_quantity v) [v_price v; v_stop_price v; v_stop_limit_price v] (v_notional v) }.

(** ** Lemmas, one per check *)

Lemma normalize_side_Ok v s : normalize_side v = Ok s → s = "BUY" ∨ s = "SELL".
Proof.
  unfold normalize_side. intros H. repeat case_match; simplify_eq.
  match goal with H : str_in _ _ = true |- _ => apply str_in_spec in H end.
  unfold SIDES in *. set_solver.
Qed.

Lemma normalize_order_type_Ok v s : normalize_order_type v = Ok s → s ∈ ORDER_TYPES.
Proof.
  unfold normalize_order_type. intros H. repeat case_match; simplify_eq.
  by apply str_in_spec.
Qed.

Lemma require_positive_optional_Ok v o : _require_positive_optional v = Ok o → opt_pos o.
Proof.
  intros H x ->. destruct v; simpl in H; try done;
    apply res_bind_Ok in H as (y & Hy%require_positive_Ok & [= ->]); done.
Qed.

Lemma required_Ok o x : required o = Ok x ↔ o = Some x.
Proof. destruct o; simpl; naive_solver. Qed.

Lemma opt_pos_not_nan x : opt_pos (Some x) → isnan x = false.
Proof. intros Ho. destruct (Ho x eq_refl). by apply isfinite_not_nan. Qed.
#[local] Hint Resolve opt_pos_not_nan : rasat.

Lemma check_stop_vs_market_Ok side s m u :
  isnan s = false → opt_pos m →
  check_stop_vs_market side s m = Ok u → stop_beyond_market side s m.
Proof.
  intros Hs Hm H p ->. simpl in H. unfold fge in H.
  apply res_bind_Ok in H as ([] & H1%reject_if_Ok & H2%reject_if_Ok).
  assert (isnan p = false) by by apply opt_pos_not_nan.
  split; intros ->; simpl in *; by apply fle_false_flt.
Qed.

Lemma check_conditional_Ok side ot price stop limit market u :
  opt_pos price → opt_pos stop → opt_pos limit → opt_pos market →
  (side = "BUY" ∨ side = "SELL") →
  check_conditional side ot price stop limit market = Ok u →
  geometry_ok side ot price stop limit market.
Proof.
  intros Hp Hs Hl Hm Hside H. unfold check_conditional, fge in H.
  destruct (String.eqb_spec ot "LIMIT") as [->|H1].
  { peel H. apply required_Ok in Hx as ->. by split_and!. }
  destruct (String.eqb_spec ot "STOP_LOSS_LIMIT") as [->|H2].
  { peel H. apply required_Ok in Hx as ->, Hx0 as ->. split_and!; try done. intros _.
    split; [done|]. exists x0. eauto using check_stop_vs_market_Ok with rasat. }
  destruct (String.eqb_spec ot "OCO") as [->|H3]; [|by split_and!].
  peel H. apply required_Ok in Hx as ->, Hx0 as ->, Hx1 as ->.
  split_and!; try done. intros _. exists x, x0, x1.
  apply check_stop_vs_market_Ok in H; [|by auto with rasat..].
  destruct Hside as [-> | ->]; simpl in Hx2; peel Hx2; apply reject_if_Ok in Hx2;
    split_and!; try done; intros _; split; apply fle_false_flt; auto with rasat.
Qed.

Lemma check_price_filter_Ok f p u :
  isnan (min_price f) = false → isnan (max_price f) = false → opt_pos (Some p) →
  check_price_filter f (Some p) = Ok u → price_in_filter f p.
Proof.
  intros Hmin Hmax Hp%opt_pos_not_nan H. simpl in H. unfold fgt in H. peel H.
  apply orb_false_iff in Hx as [H1 H2].
  split_and!; [by apply flt_false_fle..|]. intros Ht.
  assert (ftruthy (tick_size f) = true) as Htr by (by destruct (tick_size f)).
  rewrite Htr, Ht in H. simpl in H. peel H. apply reject_if_Ok in H as ->. eauto.
Qed.

Lemma check_filters_Ok f qty p s l n u :
  num_pos qty → opt_pos p → opt_pos s → opt_pos l →
  check_filters f qty p s l n = Ok u → filters_ok f qty [p; s; l] n.
Proof.
  intros [Hq _] Hp Hs Hl H. unfold check_filters in H. peel H.
  unfold _check_filters_finite in *.
  repeat match goal with H : reject_if _ _ = Ok _ |- _ => apply reject_if_Ok in H end.
  apply negb_false_iff in Hx. simpl in Hx. inv_bool. apply required_Ok in Hx6.
  unfold fgt in *. split_and!.
  - auto with rasat.
  - auto with rasat.
  - intros Ht. assert (ftruthy (step_size f) = true) as Htr by (by destruct (step_size f)).
    rewrite Htr, Ht in Hx2. simpl in Hx2. peel Hx2. apply reject_if_Ok in Hx2 as ->. eauto.
  - intros q Hin. rewrite !elem_of_cons, elem_of_nil in Hin.
    destruct Hin as [<-|[<-|[<-|[]]]]; eapply check_price_filter_Ok; eauto with rasat.
  - eexists. split; [exact Hx6|]. auto with rasat.
Qed.

(** An order that passes validation has a known side and type, a positive
    finite quantity and prices, the price geometry of its type against the market,
    the notional of the code, and satisfies every exchange filter. *)
Theorem validate_execution_order_sound side ot qty price stop limit filters market v :
  validate_execution_order side ot qty price stop limit filters market = Ok v →
  ∃ m, _require_positive_optional market = Ok m ∧ order_ok v filters m.
Proof.
  intros H. unfold validate_execution_order in H. peel H. injection H as <-.
  apply normalize_side_Ok in Hx. apply normalize_order_type_Ok in Hx0.
  apply require_positive_Ok in Hx1.
  pose proof (require_positive_optional_Ok _ _ Hx2) as Hp2.
  pose proof (require_positive_optional_Ok _ _ Hx3) as Hp3.
  pose proof (require_positive_optional_Ok _ _ Hx4) as Hp4.
  pose proof (require_positive_optional_Ok _ _ Hx5) as Hp5.
  exists x5. split; [done|]. constructor; simpl; auto.
  - eauto using check_conditional_Ok.
  - intros f ->. eapply check_filters_Ok; eauto.
Qed.

Lemma validate_execution_order_sound_witness :
  match validate_execution_order (PStr "buy") (PStr "limit") (PFloat (fQ 5 10)) (PInt 100) PNone
          PNone (Some sample_filters) (PInt 101) with
  | Ok v => ∃ m, _require_positive_optional (PInt 101) = Ok m ∧
              order_ok v (Some sample_filters) m
  | Err _ => False
  end.
Proof.
  destruct (validate_execution_order (PStr "buy") (PStr "limit") (PFloat (fQ 5 10)) (PInt 100) PNone
          PNone (Some sample_filters) (PInt 101)) as [v|e] eqn:E.
  - exact (validate_execution_order_sound _ _ _ _ _ _ _ _ v E).
  - vm_compute in E. discriminate E.
Defined.
