(* ===== verification/Swings.v ===== *)
(** [pa/swings.py]: the closed-candle rule, fractal swings, and the break of
    structure state machine.  Pure functions of the candle list. *)

From Stdlib Require Import ZArith String.
From S2P Require Import Prelude PyFloat PyVal Errors.
Local Open Scope string_scope.
Local Open Scope list_scope.

(** A row of [candles], as [_read_candles] returns it. *)
Record candle := mk_candle {
  c_open_time : Z;
  c_open : float;
  c_high : float;
  c_low : float;
  c_close : float;
  c_volume : option float }.

(** [TIMEFRAME_SECONDS] of [config.py]. *)
Definition TIMEFRAME_SECONDS : list (string * Z) :=
  [("1m", 60); ("3m", 180); ("5m", 300); ("15m", 900); ("30m", 1800); ("1h", 3600); ("2h", 7200);
   ("4h", 14400); ("6h", 21600); ("8h", 28800); ("12h", 43200); ("1d", 86400); ("3d", 259200);
   ("1w", 604800); ("1M", 2592000)]%Z.

(** [int(now // period) * period - period] *)
Definition latest_closed (now period : Z) : Z := now / period * period - period.

Definition filter_closed_candles (candles : list candle) (timeframe : string) (now : Z)
    : result (list candle) :=
  match assoc timeframe TIMEFRAME_SECONDS with
  | None => Err ValueError
  | Some period =>
      Ok (List.filter (λ c, (c_open_time c <=? latest_closed now period)%Z) candles)
  end.

(** ** Fractal swings *)

Inductive kind := High | Low.
#[export] Instance kind_eq_dec : EqDecision kind.
Proof. solve_decision. Defined.

Definition SWING_LOOKBACK : nat := 2.

Record pivot := mk_pivot { pv_index : nat; pv_kind : kind; pv_price : float }.

(** [l[a:b]] *)
Definition slice {A} (l : list A) (a b : nat) : list A := firstn (b - a) (skipn a l).

(** [max(l)], [min(l)]: the empty list raises. *)
Definition py_max (l : list float) : result float :=
  match l with [] => Err ValueError | x :: l' => Ok (fmax_list x l') end.
Definition py_min (l : list float) : result float :=
  match l with [] => Err ValueError | x :: l' => Ok (fmin_list x l') end.

Definition index {A} (l : list A) (i : nat) : result A :=
  match l !! i with Some x => Ok x | None => Err IndexError end.

(** Strictly beyond every other bar of the window. *)
Definition is_swing (best : list float → result float) (beyond : float → float → bool)
    (l : list float) (lookback i : nat) : result bool :=
  x ← index l i;
  m ← best (slice l (i - lookback) i);
  if beyond x m then
    m ← best (slice l (i + 1) (i + lookback + 1));
    Ok (beyond x m)
  else Ok false.

Definition pivots_at (highs lows : list float) (lookback i : nat) : result (list pivot) :=
  h ← is_swing py_max fgt highs lookback i;
  l ← is_swing py_min flt lows lookback i;
  hi ← index highs i;
  lo ← index lows i;
  Ok ((if h : bool then [mk_pivot i High hi] else []) ++ (if l : bool then [mk_pivot i Low lo] else [])).

Definition detect_swings (highs lows : list float) (lookback : nat) : result (list pivot) :=
  let n := length highs in
  if (n <? 2 * lookback + 1)%nat then Ok []
  else
    ps ← res_map (pivots_at highs lows lookback) (seq lookback (n - lookback - lookback));
    Ok (concat ps).

(** ** Structure *)

Inductive trend := Up | Down.
#[export] Instance trend_eq_dec : EqDecision trend.
Proof. solve_decision. Defined.

Inductive label := HH | LH | HL | LL.

Inductive event_type := bos_bullish | bos_bearish | choch_bullish | choch_bearish.
#[export] Instance event_type_eq_dec : EqDecision event_type.
Proof. solve_decision. Defined.

Definition bullish (t : event_type) : bool :=
  match t with bos_bullish | choch_bullish => true | _ => false end.

Record swing := mk_swing {
  sw_index : nat;
  sw_time : Z;
  sw_kind : kind;
  sw_price : float;
  sw_label : option label }.

(** The [direction] of an event is [bullish] of its type. *)
Record event := mk_event {
  ev_index : nat;
  ev_time : Z;
  ev_type : event_type;
  ev_level : float }.

(** The variables of the loop of [detect_structure]. *)
Record structure_state := mk_structure_state {
  last_high : option float;
  last_low : option float;
  prev_high : option float;
  prev_low : option float;
  s_trend : option trend;
  swings_out : list swing;
  events : list event;
  first_kind : option kind }.

Definition initial_state : structure_state := mk_structure_state None None None None None [] [] None.

(** 1) Close breaks against the levels at the start of the bar. *)
Definition close_break (b : nat) (time : Z) (prev_close c : float) (s : structure_state) : structure_state :=
  match last_high s, last_low s with
  | Some hi, Some lo =>
      let emit t level trend' :=
        mk_structure_state (last_high s) (last_low s) (prev_high s) (prev_low s) trend' (swings_out s)
          (events s ++ [mk_event b time t level]) (first_kind s) in
      if fgt c hi && fle prev_close hi then
        if decide (s_trend s = Some Down) then emit choch_bullish hi (Some Up)
        else emit bos_bullish hi (s_trend s)
      else if flt c lo && fge prev_close lo then
        if decide (s_trend s = Some Up) then emit choch_bearish lo (Some Down)
        else emit bos_bearish lo (s_trend s)
      else s
  | _, _ => s
  end.

(** [above and "HH" or "LH"] *)
Definition label_of (above below : label) (prev : option float) (price : float) : option label :=
  match prev with
  | Some p => Some (if fgt price p then above else below)
  | None => None
  end.

(** 2) One pivot of the bar: update the levels. *)
Definition apply_pivot (time : Z) (p : pivot) (s : structure_state) : structure_state :=
  let first := match first_kind s with None => Some (pv_kind p) | k => k end in
  let price := pv_price p in
  match pv_kind p with
  | High =>
      let sw := mk_swing (pv_index p) time High price (label_of HH LH (prev_high s) price) in
      mk_structure_state (Some price) (last_low s) (Some price) (prev_low s) (s_trend s)
        (swings_out s ++ [sw]) (events s) first
  | Low =>
      let sw := mk_swing (pv_index p) time Low price (label_of HL LL (prev_low s) price) in
      mk_structure_state (last_high s) (Some price) (prev_high s) (Some price) (s_trend s)
        (swings_out s ++ [sw]) (events s) first
  end.

(** [while pidx < npiv and pivots[pidx][0] == b] *)
Fixpoint take_pivots (b : nat) (time : Z) (pivots : list pivot) (s : structure_state)
    : list pivot * structure_state :=
  match pivots with
  | p :: rest =>
      if (pv_index p =? b)%nat then take_pivots b time rest (apply_pivot time p s) else (pivots, s)
  | [] => ([], s)
  end.

Definition set_initial_trend (s : structure_state) : structure_state :=
  match s_trend s, first_kind s, last_high s, last_low s with
  | None, Some k, Some _, Some _ =>
      mk_structure_state (last_high s) (last_low s) (prev_high s) (prev_low s)
        (Some match k with High => Down | Low => Up end) (swings_out s) (events s) (first_kind s)
  | _, _, _, _ => s
  end.

Definition bar_step (b : nat) (prev : option candle) (c : candle) (pivots : list pivot)
    (s : structure_state) : list pivot * structure_state :=
  let s1 := match prev with
            | Some p => close_break b (c_open_time c) (c_close p) (c_close c) s
            | None => s
            end in
  let '(rest, s2) := take_pivots b (c_open_time c) pivots s1 in
  (rest, set_initial_trend s2).

Fixpoint run_bars (b : nat) (prev : option candle) (candles : list candle) (pivots : list pivot)
    (s : structure_state) : structure_state :=
  match candles with
  | [] => s
  | c :: rest =>
      let '(pivots', s') := bar_step b prev c pivots s in
      run_bars (S b) (Some c) rest pivots' s'
  end.

Record structure := mk_structure {
  st_trend : option trend;
  st_swings : list swing;
  st_events : list event }.

Definition detect_structure (candles : list candle) : result structure :=
  pivots ← detect_swings (map c_high candles) (map c_low candles) SWING_LOOKBACK;
  let s := run_bars 0 None candles pivots initial_state in
  Ok (mk_structure (s_trend s) (swings_out s) (events s)).

(** ** The closed-candle rule *)

Lemma timeframe_positive tf period : assoc tf TIMEFRAME_SECONDS = Some period → (0 < period)%Z.
Proof.
  intros Hp%assoc_elem. assert (Forall (λ kv, 0 < kv.2)%Z TIMEFRAME_SECONDS) as Hall by by repeat constructor.
  rewrite Forall_forall in Hall. exact (Hall _ Hp).
Qed.

(** The candles a calculation sees are exactly the closed ones: every kept bar
    has ended, and of the bars that start on a multiple of their period every
    ended one is kept. *)
Theorem closed_candles_only candles timeframe period now l :
  assoc timeframe TIMEFRAME_SECONDS = Some period →
  filter_closed_candles candles timeframe now = Ok l →
  (∀ c, c ∈ l → c ∈ candles ∧ (c_open_time c + period ≤ now)%Z) ∧
  (∀ c, c ∈ candles → (period | c_open_time c)%Z → (c_open_time c + period ≤ now)%Z → c ∈ l).
Proof.
  intros Hp. unfold filter_closed_candles. rewrite Hp. intros [= <-].
  pose proof (timeframe_positive _ _ Hp) as Hpos.
  unfold latest_closed. pose proof (Z.mul_div_le now period Hpos) as Hle. split.
  - intros c [Hin Hc%Z.leb_le]%elem_of_filter_b. split; [done|lia].
  - intros c Hin [k Hk] Hend. apply elem_of_filter_b. split; [done|]. apply Z.leb_le.
    assert (k + 1 ≤ now / period)%Z by (apply Z.div_le_lower_bound; lia). nia.
Qed.

Lemma closed_candles_only_witness :
  ∃ l, filter_closed_candles [mk_candle 0 fzero fzero fzero fzero None; mk_candle 60 fzero fzero fzero fzero None]
    "1m" 119 = Ok l ∧ mk_candle 0 fzero fzero fzero fzero None ∈ l ∧
    ∀ c, c ∈ l → (c_open_time c + 60 ≤ 119)%Z.
Proof.
  pose proof (closed_candles_only
    [mk_candle 0 fzero fzero fzero fzero None; mk_candle 60 fzero fzero fzero fzero None] "1m" 60 119
    [mk_candle 0 fzero fzero fzero fzero None] eq_refl eq_refl) as [Hs Hc].
  eexists. split; [reflexivity|]. split.
  - apply Hc; [left|exists 0%Z; reflexivity|vm_compute; discriminate].
  - intros c Hin. apply Hs. exact Hin.
Defined.

(** ** Swings *)

Lemma fmax_list_spec x l y :
  isnan x = false → Forall (λ z, isnan z = false) l → isnan y = false →
  flt (fmax_list x l) y = true ↔ flt x y = true ∧ Forall (λ z, flt z y = true) l.
Proof.
  unfold fmax_list. intros Hx Hl Hy. revert x Hx. induction Hl as [|z l Hz Hl IH]; intros x Hx; simpl.
  { split; [by intros|by intros []]. }
  assert (isnan (fmax x z) = false) as Hm by (unfold fmax; by destruct (flt x z)).
  rewrite IH, Forall_cons by done. unfold fmax. destruct (flt x z) eqn:E; [|apply flt_false_fle in E; [|done..]];
    naive_solver eauto using flt_trans, fle_flt_trans.
Qed.

Lemma fmin_list_spec x l y :
  isnan x = false → Forall (λ z, isnan z = false) l → isnan y = false →
  flt y (fmin_list x l) = true ↔ flt y x = true ∧ Forall (λ z, flt y z = true) l.
Proof.
  unfold fmin_list. intros Hx Hl Hy. revert x Hx. induction Hl as [|z l Hz Hl IH]; intros x Hx; simpl.
  { split; [by intros|by intros []]. }
  assert (isnan (fmin x z) = false) as Hm by (unfold fmin; by destruct (flt z x)).
  rewrite IH, Forall_cons by done. unfold fmin. destruct (flt z x) eqn:E; [|apply flt_false_fle in E; [|done..]];
    naive_solver eauto using flt_trans, flt_fle_trans.
Qed.

Lemma elem_of_slice {A} (l : list A) a b x :
  x ∈ slice l a b ↔ ∃ j, (a ≤ j < b)%nat ∧ l !! j = Some x.
Proof.
  unfold slice. rewrite list_elem_of_lookup. split.
  - intros [k Hk]. destruct (decide (k < b - a)%nat).
    + rewrite lookup_take_lt, lookup_drop in Hk by done. exists (a + k)%nat. split; [lia|done].
    + by rewrite lookup_take_ge in Hk by lia.
  - intros (j & Hj & Hl). exists (j - a)%nat. rewrite lookup_take_lt, lookup_drop by lia.
    by replace (a + (j - a))%nat with j by lia.
Qed.

Definition numbers (l : list float) : Prop := Forall (λ x, isnan x = false) l.

(** [beyond]-extremal bar of its window. *)
Definition extremal (beyond : float → float → bool) (l : list float) (lookback i : nat) : Prop :=
  ∃ x, l !! i = Some x ∧
    ∀ j y, (i - lookback ≤ j ≤ i + lookback)%nat → j ≠ i → l !! j = Some y → beyond x y = true.

Section Extremal.
Context (best : list float → result float) (beyond : float → float → bool).
Hypothesis best_spec : ∀ l x, l ≠ [] → numbers l → isnan x = false →
  ∃ m, best l = Ok m ∧ (beyond x m = true ↔ Forall (λ y, beyond x y = true) l).

Lemma numbers_slice l a b : numbers l → numbers (slice l a b).
Proof.
  unfold numbers. rewrite !Forall_forall. intros Hl x (j & _ & Hj)%elem_of_slice.
  apply Hl. by eapply list_elem_of_lookup_2.
Qed.

Lemma slice_not_nil {A} (l : list A) a b : (a < b ≤ length l)%nat → slice l a b ≠ [].
Proof.
  intros Hab Hn. assert (length (slice l a b) = b - a)%nat as Hlen.
  { unfold slice. rewrite length_take, length_drop. lia. }
  rewrite Hn in Hlen. simpl in Hlen. lia.
Qed.

Lemma is_swing_spec l lookback i :
  numbers l → (0 < lookback ≤ i)%nat → (i + lookback < length l)%nat →
  ∃ b, is_swing best beyond l lookback i = Ok b ∧ (b = true ↔ extremal beyond l lookback i).
Proof.
  intros Hl Hlo Hhi. destruct (lookup_lt_is_Some_2 l i) as [x Hx]; [lia|].
  assert (isnan x = false) as Hxn by (by eapply Forall_lookup_1 in Hl).
  unfold is_swing, index. rewrite Hx. simpl.
  destruct (best_spec (slice l (i - lookback) i) x) as (m & Hm & Hmx);
    [apply slice_not_nil; lia|by apply numbers_slice|done|].
  destruct (best_spec (slice l (i + 1) (i + lookback + 1)) x) as (m' & Hm' & Hmx');
    [apply slice_not_nil; lia|by apply numbers_slice|done|].
  assert (extremal beyond l lookback i ↔ beyond x m = true ∧ beyond x m' = true) as Hext.
  { rewrite Hmx, Hmx', !Forall_forall. split.
    - intros (x' & Hx' & Hall). assert (x' = x) as -> by congruence.
      split; intros y (j & Hj & Hy)%elem_of_slice; eapply (Hall j y); eauto; lia.
    - intros [H1 H2]. exists x. split; [done|]. intros j y Hj Hne Hy.
      destruct (decide (j < i)%nat); [apply H1|apply H2]; apply elem_of_slice; exists j; split; auto; lia. }
  rewrite Hm. simpl. destruct (beyond x m) eqn:E.
  - rewrite Hm'. simpl. exists (beyond x m'). split; [done|]. rewrite Hext. naive_solver.
  - exists false. split; [done|]. rewrite Hext. naive_solver.
Qed.
End Extremal.

Lemma py_max_spec l x : l ≠ [] → numbers l → isnan x = false →
  ∃ m, py_max l = Ok m ∧ (fgt x m = true ↔ Forall (λ y, fgt x y = true) l).
Proof.
  destruct l as [|y l]; [done|]. intros _ [Hy Hl]%Forall_cons Hx. eexists. split; [done|].
  unfold fgt. rewrite fmax_list_spec by done. by rewrite Forall_cons.
Qed.

Lemma py_min_spec l x : l ≠ [] → numbers l → isnan x = false →
  ∃ m, py_min l = Ok m ∧ (flt x m = true ↔ Forall (λ y, flt x y = true) l).
Proof.
  destruct l as [|y l]; [done|]. intros _ [Hy Hl]%Forall_cons Hx. eexists. split; [done|].
  rewrite fmin_list_spec by done. by rewrite Forall_cons.
Qed.

Lemma res_map_total {A B} (f : A → result B) (g : A → B → Prop) l :
  (∀ x, x ∈ l → ∃ y, f x = Ok y ∧ g x y) → ∃ ys, res_map f l = Ok ys ∧ Forall2 g l ys.
Proof.
  induction l as [|x l IH]; intros Hf; simpl; [by eexists|].
  destruct (Hf x) as (y & Hy & Hg); [by left|]. destruct IH as (ys & Hys & Hall).
  { intros z Hz. apply Hf. by right. }
  exists (y :: ys). rewrite Hy, Hys. split; [done|]. by constructor.
Qed.

(** What the window says about bar [i]. *)
Definition pivots_of (highs lows : list float) (lookback i : nat) (ps : list pivot) : Prop :=
  ∀ p, p ∈ ps ↔ pv_index p = i ∧
    match pv_kind p with
    | High => highs !! i = Some (pv_price p) ∧ extremal fgt highs lookback i
    | Low => lows !! i = Some (pv_price p) ∧ extremal flt lows lookback i
    end.

Lemma pivots_at_spec highs lows lookback i :
  numbers highs → numbers lows → length lows = length highs →
  (0 < lookback ≤ i)%nat → (i + lookback < length highs)%nat →
  ∃ ps, pivots_at highs lows lookback i = Ok ps ∧ pivots_of highs lows lookback i ps.
Proof.
  intros Hh Hl Hlen Hlo Hhi. unfold pivots_at.
  destruct (is_swing_spec py_max fgt py_max_spec highs lookback i) as (bh & -> & Hbh); [done..|].
  destruct (is_swing_spec py_min flt py_min_spec lows lookback i) as (bl & -> & Hbl); [done|done|lia|].
  unfold index. destruct (lookup_lt_is_Some_2 highs i) as [h Eh]; [lia|].
  destruct (lookup_lt_is_Some_2 lows i) as [lo El]; [lia|]. rewrite Eh, El. simpl.
  eexists. split; [done|]. intros [j k x]. rewrite elem_of_app. simpl.
  destruct k, bh, bl; rewrite ?list_elem_of_singleton, ?elem_of_nil; naive_solver.
Qed.

(** Fractal swings are exactly the strict extremes of their windows: on
    numbers, [detect_swings] never fails, and reports a swing high (low) at a bar
    with a full window on both sides if and only if its high (low) is strictly
    above (below) that of every other bar of the window. *)
Theorem detect_swings_spec highs lows lookback :
  (0 < lookback)%nat → length lows = length highs → numbers highs → numbers lows →
  ∃ ps, detect_swings highs lows lookback = Ok ps ∧
    ∀ p, p ∈ ps ↔ (lookback ≤ pv_index p)%nat ∧ (pv_index p + lookback < length highs)%nat ∧
      match pv_kind p with
      | High => highs !! pv_index p = Some (pv_price p) ∧ extremal fgt highs lookback (pv_index p)
      | Low => lows !! pv_index p = Some (pv_price p) ∧ extremal flt lows lookback (pv_index p)
      end.
Proof.
  intros Hpos Hlen Hh Hl. unfold detect_swings. destruct (_ <? _)%nat eqn:E.
  { apply Nat.ltb_lt in E. exists []. split; [done|]. intros p. rewrite elem_of_nil. split; [done|]. lia. }
  apply Nat.ltb_ge in E.
  destruct (res_map_total (pivots_at highs lows lookback) (pivots_of highs lows lookback)
    (seq lookback (length highs - lookback - lookback))) as (ps & -> & Hps).
  { intros i [Hlo Hhi]%elem_of_seq. apply pivots_at_spec; auto; lia. }
  exists (concat ps). split; [done|]. intros p. rewrite list_elem_of_In, in_concat. split.
  - intros (l & Hin%list_elem_of_In & Hp%list_elem_of_In).
    apply list_elem_of_lookup in Hin as [k Hk]. destruct (Forall2_lookup_r _ _ _ _ _ Hps Hk) as (i & Hi & Hof).
    destruct (proj1 (Hof p) Hp) as [Hpi Hm]. rewrite Hpi.
    apply list_elem_of_lookup_2, elem_of_seq in Hi. split_and!; [lia|lia|done].
  - intros (Hlo & Hhi & Hm). assert (pv_index p ∈ seq lookback (length highs - lookback - lookback)) as Hin.
    { apply elem_of_seq. lia. }
    apply list_elem_of_lookup in Hin as [k Hk]. destruct (Forall2_lookup_l _ _ _ _ _ Hps Hk) as (l & Hl' & Hof).
    exists l. split; apply list_elem_of_In; [by eapply list_elem_of_lookup_2|]. by apply (proj2 (Hof p)).
Qed.

Lemma detect_swings_spec_witness :
  ∃ ps, detect_swings [fZ 1; fZ 3; fZ 2] [fZ 1; fZ 1; fZ 1] 1 = Ok ps ∧ mk_pivot 1 High (fZ 3) ∈ ps.
Proof.
  destruct (detect_swings_spec [fZ 1; fZ 3; fZ 2] [fZ 1; fZ 1; fZ 1] 1 (le_n 1) eq_refl
    ltac:(repeat constructor) ltac:(repeat constructor)) as (ps & Hps & Hspec).
  exists ps. split; [exact Hps|]. apply Hspec. split; [exact (le_n 1)|]. split; [exact (le_n 3)|].
  split; [reflexivity|]. exists (fZ 3). split; [reflexivity|]. intros j y Hj Hne Hy.
  destruct j as [|[|[|j]]]; [|contradiction (Hne eq_refl)| |discriminate Hy]; injection Hy as <-; vm_compute; reflexivity.
Defined.

(** ** Events are breaks of swing levels *)

Definition level_of (k : kind) (b : nat) (swings : list swing) (level : float) : Prop :=
  ∃ sw, sw ∈ swings ∧ sw_kind sw = k ∧ sw_price sw = level ∧ (sw_index sw < b)%nat.

(** A close crosses the price of an earlier swing. *)
Definition genuine_break (candles : list candle) (swings : list swing) (e : event) : Prop :=
  ∃ p c, (0 < ev_index e)%nat ∧ candles !! (ev_index e - 1)%nat = Some p ∧
    candles !! ev_index e = Some c ∧ ev_time e = c_open_time c ∧
    if bullish (ev_type e)
    then fgt (c_close c) (ev_level e) = true ∧ fle (c_close p) (ev_level e) = true ∧
         level_of High (ev_index e) swings (ev_level e)
    else flt (c_close c) (ev_level e) = true ∧ fge (c_close p) (ev_level e) = true ∧
         level_of Low (ev_index e) swings (ev_level e).

(** The state before bar [b]. *)
Record structure_inv (candles : list candle) (b : nat) (s : structure_state) : Prop := {
  inv_events e : e ∈ events s → genuine_break candles (swings_out s) e;
  inv_high h : last_high s = Some h → level_of High b (swings_out s) h;
  inv_low l : last_low s = Some l → level_of Low b (swings_out s) l }.

Lemma level_of_mono k b b' l l' x :
  level_of k b l x → (b ≤ b')%nat → l ⊆ l' → level_of k b' l' x.
Proof. intros (sw & ? & ? & ? & ?) Hb Hl. exists sw. split_and!; auto; lia. Qed.

Lemma genuine_break_mono candles l l' e : genuine_break candles l e → l ⊆ l' → genuine_break candles l' e.
Proof.
  intros (p & c & ? & ? & ? & ? & He) Hl. exists p, c. split_and!; [done..|].
  destruct (bullish _), He as (? & ? & ?); split_and!; eauto using level_of_mono.
Qed.

Lemma inv_close_break candles b p c s :
  (0 < b)%nat → candles !! (b - 1)%nat = Some p → candles !! b = Some c → structure_inv candles b s →
  structure_inv candles b (close_break b (c_open_time c) (c_close p) (c_close c) s).
Proof.
  intros Hb Hp Hc [He Hh Hl]. unfold close_break.
  destruct (last_high s) as [hi|] eqn:Ehi; [|by split; rewrite ?Ehi].
  destruct (last_low s) as [lo|] eqn:Elo; [|by split; rewrite ?Ehi, ?Elo].
  assert (∀ t level tr,
    (if bullish t then fgt (c_close c) level = true ∧ fle (c_close p) level = true ∧ level = hi
     else flt (c_close c) level = true ∧ fge (c_close p) level = true ∧ level = lo) →
    structure_inv candles b (mk_structure_state (Some hi) (Some lo) (prev_high s) (prev_low s) tr
      (swings_out s) (events s ++ [mk_event b (c_open_time c) t level]) (first_kind s))) as Hemit.
  { intros t level tr Ht. split; simpl; [|auto..]. intros e. rewrite elem_of_app, list_elem_of_singleton.
    intros [?| ->]; [by apply He|]. exists p, c. simpl. split_and!; [done..|].
    destruct (bullish t), Ht as (? & ? & ->); split_and!; auto. }
  cbv zeta. destruct (fgt (c_close c) hi && fle (c_close p) hi) eqn:E1.
  { apply andb_true_iff in E1 as [? ?]. destruct (decide _); apply Hemit; done. }
  destruct (flt (c_close c) lo && fge (c_close p) lo) eqn:E2; [|split; rewrite ?Ehi, ?Elo; auto].
  apply andb_true_iff in E2 as [? ?]. destruct (decide _); apply Hemit; done.
Qed.

Lemma inv_apply_pivot candles b time p s :
  (pv_index p < b)%nat → structure_inv candles b s → structure_inv candles b (apply_pivot time p s).
Proof.
  intros Hp [He Hh Hl]. unfold apply_pivot. destruct (pv_kind p); split; simpl;
    try (intros e ?; eapply genuine_break_mono; [by apply He|set_solver]).
  2,3: intros x Hx; eapply level_of_mono; [eauto|lia|set_solver].
  all: intros x [= <-]; eexists; (split; [apply elem_of_app; right; by left|done]).
Qed.

Lemma inv_take_pivots candles b time ps s :
  structure_inv candles (S b) s → structure_inv candles (S b) (take_pivots b time ps s).2.
Proof.
  revert s. induction ps as [|p ps IH]; intros s Hs; simpl; [done|].
  destruct (Nat.eqb_spec (pv_index p) b); [|done]. apply IH, inv_apply_pivot; [lia|done].
Qed.

Lemma inv_initial_trend candles b s : structure_inv candles b s → structure_inv candles b (set_initial_trend s).
Proof. intros [He Hh Hl]. unfold set_initial_trend.
  repeat case_match; split; simpl; try done; intros x Hx; first [apply Hh|apply Hl]; congruence.
Qed.

Lemma inv_later candles b s : structure_inv candles b s → structure_inv candles (S b) s.
Proof. intros [He Hh Hl]. split; [done|..]; intros x Hx; eapply level_of_mono; eauto. Qed.

Lemma inv_run_bars candles b rest ps s :
  (b ≤ length candles)%nat → drop b candles = rest → structure_inv candles b s →
  structure_inv candles (length candles)
    (run_bars b (match b with O => None | S k => candles !! k end) rest ps s).
Proof.
  revert b ps s. induction rest as [|c rest IH]; intros b ps s Hb Hrest Hs; cbn [run_bars].
  { assert (b = length candles) as <-; [|done]. apply (f_equal length) in Hrest.
    rewrite length_drop in Hrest. simpl in Hrest. lia. }
  assert (candles !! b = Some c) as Hc.
  { rewrite <- (Nat.add_0_r b), <- lookup_drop, Hrest. done. }
  unfold bar_step.
  set (s1 := match match b with O => None | S k => candles !! k end with
             | Some p => _ | None => s end).
  assert (structure_inv candles b s1) as Hs1.
  { subst s1. destruct b as [|k]; [done|]. destruct (candles !! k) as [p|] eqn:Ep; [|done].
    apply inv_close_break; [lia|by replace (S k - 1)%nat with k by lia|done..]. }
  pose proof (inv_take_pivots candles b (c_open_time c) ps s1 (inv_later _ _ _ Hs1)) as Hs2.
  destruct (take_pivots b (c_open_time c) ps s1) as [ps' s2]. simpl in Hs2.
  replace (Some c) with (candles !! b). apply (IH (S b)); [|..].
  - apply lookup_lt_Some in Hc. lia.
  - by rewrite (drop_S _ _ _ Hc) in Hrest; injection Hrest.
  - by apply inv_initial_trend.
Qed.

(** Every event of the structure is a genuine break: the close of its bar is
    beyond, and the close of the bar before it is not beyond, the price of a swing
    of the right kind that lies to the left of the bar. *)
Theorem structure_events_genuine candles st :
  detect_structure candles = Ok st → ∀ e, e ∈ st_events st → genuine_break candles (st_swings st) e.
Proof.
  unfold detect_structure. intros (ps & _ & [= <-])%res_bind_Ok. simpl.
  apply (inv_events candles (length candles)). apply (inv_run_bars candles 0); [lia|done|].
  split; [by intros e ?%not_elem_of_nil|done..].
Qed.

Definition bar (t h l c : Z) : candle := mk_candle (60 * t) (fZ c) (fZ h) (fZ l) (fZ c) None.
Definition seven_bars : list candle :=
  [bar 0 8 5 6; bar 1 9 4 6; bar 2 10 6 7; bar 3 9 3 6; bar 4 9 5 7; bar 5 15 6 9; bar 6 12 6 11].

Lemma structure_events_genuine_witness :
  ∃ st, detect_structure seven_bars = Ok st ∧ st_events st ≠ [] ∧
    ∀ e, e ∈ st_events st → genuine_break seven_bars (st_swings st) e.
Proof.
  destruct (detect_structure seven_bars) as [st|e] eqn:E; [|vm_compute in E; discriminate E].
  exists st. split; [reflexivity|]. split; [vm_compute in E; injection E as <-; discriminate|].
  exact (structure_events_genuine seven_bars st E).
Defined.

(** The events are not final: a pivot takes effect at its own bar, although
    only the two bars after it confirm it, so the next bar can take an event
    back. *)
Theorem structure_events_repaint :
  ∃ candles c st st', detect_structure candles = Ok st ∧ detect_structure (candles ++ [c]) = Ok st' ∧
    st_events st ≠ [] ∧ st_events st' = [].
Proof. exists seven_bars, (bar 7 12 7 11). do 2 eexists. by vm_compute. Qed.
