(* ===== verification/OrderBlocks.v ===== *)
(** [pa/obfvg.py]: order blocks, their mitigation, fair value gaps. *)

From Stdlib Require Import ZArith String.
From stdpp Require Import pretty.
From S2P Require Import Prelude PyFloat PyVal Errors Swings.
Local Open Scope string_scope.
Local Open Scope list_scope.

Definition FVG_MIN_GAP_PCT : float := fzero.
Definition OB_DEDUP_TOLERANCE_PCT : float := fQ 5 100.

Inductive zone_type := order_block | mitigation_block | breaker | fvg.
#[export] Instance zone_type_eq_dec : EqDecision zone_type.
Proof. solve_decision. Defined.

Record zone := mk_zone {
  z_zone_id : string;
  z_zone_type : zone_type;
  z_bullish : bool;
  z_low : float;
  z_high : float;
  z_event_index : nat;
  z_candle_index : nat;
  z_formed_at : nat;
  z_mitigated : bool }.

Definition with_state (t : zone_type) (mitigated : bool) (z : zone) : zone :=
  mk_zone (z_zone_id z) t (z_bullish z) (z_low z) (z_high z) (z_event_index z) (z_candle_index z)
    (z_formed_at z) mitigated.

Definition is_red (c : candle) : bool := flt (c_close c) (c_open c).

(** Backward from [upto_index - 1] to 0. *)
Fixpoint _last_opposite_candle (candles : list candle) (upto_index : nat) (want_red : bool)
    : result (option nat) :=
  match upto_index with
  | O => Ok None
  | S i =>
      c ← index candles i;
      if Bool.eqb (is_red c) want_red then Ok (Some i)
      else _last_opposite_candle candles i want_red
  end.

(** A close beyond the opposite edge; a return into the zone. *)
Definition breaks (z : zone) (c : candle) : bool :=
  if z_bullish z then flt (c_close c) (z_low z) else fgt (c_close c) (z_high z).
Definition touches (z : zone) (c : candle) : bool :=
  if z_bullish z then fle (c_low c) (z_high z) else fge (c_high c) (z_low z).

Fixpoint mark_over (z : zone) (later : list candle) : zone :=
  match later with
  | [] => z
  | c :: rest =>
      if breaks z c then with_state breaker true z
      else if negb (z_mitigated z) && touches z c
      then mark_over (with_state mitigation_block true z) rest
      else mark_over z rest
  end.

Definition _mark_order_block (z : zone) (candles : list candle) : zone :=
  mark_over z (skipn (z_event_index z + 1) candles).

Definition _mark_fvg (z : zone) (candles : list candle) : zone :=
  if existsb (touches z) (skipn (z_formed_at z + 1) candles)
  then with_state (z_zone_type z) true z else z.

(** The gap between the first and third of three bars, if there is one. *)
Definition gap_of (a c : candle) : option (float * float * bool) :=
  if flt (c_high a) (c_low c) then Some (c_high a, c_low c, true)
  else if fgt (c_low a) (c_high c) then Some (c_high c, c_low a, false)
  else None.

Definition too_small (a : candle) (lo hi min_gap_pct : float) : result bool :=
  ref ← fdiv (fadd (c_high a) (c_low a)) (fZ 2);
  if fgt ref fzero then
    q ← fdiv (fsub hi lo) ref;
    Ok (flt (fmul q (fZ 100)) min_gap_pct)
  else Ok false.

Definition fvg_id (i : nat) : string := "fvg:" +:+ pretty i +:+ ":" +:+ pretty (i + 2)%nat.

Fixpoint fvgs_from (all : list candle) (i : nat) (candles : list candle) (min_gap_pct : float)
    : result (list zone) :=
  match candles with
  | a :: ((_ :: c :: _) as rest) =>
      others ← fvgs_from all (S i) rest min_gap_pct;
      match gap_of a c with
      | None => Ok others
      | Some (lo, hi, dir) =>
          small ← too_small a lo hi min_gap_pct;
          if small : bool then Ok others
          else
            let z := mk_zone (fvg_id i) fvg dir lo hi 0 0 (i + 2) false in
            Ok (_mark_fvg z all :: others)
      end
  | _ => Ok []
  end.

Definition _compute_fvgs (candles : list candle) (min_gap_pct : float) : result (list zone) :=
  fvgs_from candles 0 candles min_gap_pct.

(** [k] already covers [ob]. *)
Definition covers (tolerance_pct : float) (k ob : zone) : result bool :=
  ref ← fdiv (fadd (z_low ob) (z_high ob)) (fZ 2);
  tol ← fdiv (fmul ref tolerance_pct) (fZ 100);
  Ok (Bool.eqb (z_bullish k) (z_bullish ob)
      && negb (flt (fadd (z_high ob) tol) (z_low k) || flt (fadd (z_high k) tol) (z_low ob))).

Fixpoint any_covers (tolerance_pct : float) (kept : list zone) (ob : zone) : result bool :=
  match kept with
  | [] => Ok false
  | k :: rest =>
      d ← covers tolerance_pct k ob;
      if d : bool then Ok true else any_covers tolerance_pct rest ob
  end.

Definition _dedup_order_blocks (order_blocks : list zone) (tolerance_pct : float) : result (list zone) :=
  res_fold (λ kept ob,
    dup ← any_covers tolerance_pct kept ob;
    Ok (if dup : bool then kept else kept ++ [ob])) [] order_blocks.

Definition ob_id (event candle : nat) : string := "ob:" +:+ pretty event +:+ ":" +:+ pretty candle.

Definition block_of (candles : list candle) (ev : event) : result (list zone) :=
  ob_idx ← _last_opposite_candle candles (ev_index ev) (bullish (ev_type ev));
  match ob_idx with
  | None => Ok []
  | Some i =>
      c ← index candles i;
      let z := mk_zone (ob_id (ev_index ev) i) order_block (bullish (ev_type ev)) (c_low c) (c_high c)
                 (ev_index ev) i i false in
      Ok [_mark_order_block z candles]
  end.

Record order_blocks_result := mk_blocks { ob_order_blocks : list zone; ob_fvgs : list zone }.

Definition compute_order_blocks (candles : list candle) (st : structure) : result order_blocks_result :=
  blocks ← res_map (block_of candles) (st_events st);
  kept ← _dedup_order_blocks (concat blocks) OB_DEDUP_TOLERANCE_PCT;
  fvgs ← _compute_fvgs candles FVG_MIN_GAP_PCT;
  Ok (mk_blocks kept fvgs).

(** ** The order block of an event *)

Lemma last_opposite_Some candles n want i :
  _last_opposite_candle candles n want = Ok (Some i) →
  (i < n)%nat ∧ (∃ c, candles !! i = Some c ∧ is_red c = want) ∧
  ∀ j c, (i < j < n)%nat → candles !! j = Some c → is_red c = negb want.
Proof.
  revert i. induction n as [|n IH]; intros i; simpl; [done|]. intros (c & Hc & H)%res_bind_Ok.
  unfold index in Hc. destruct (candles !! n) as [c'|] eqn:En; [|done]. injection Hc as ->.
  destruct (Bool.eqb (is_red c) want) eqn:Eb.
  - injection H as <-. apply eqb_prop in Eb. split_and!; [lia|by exists c|]. intros; lia.
  - destruct (IH i H) as (Hi & Hci & Hall). split_and!; [lia|done|]. intros j c' Hj Hcj.
    destruct (decide (j = n)) as [->|]; [|apply (Hall j); [lia|done]].
    assert (c' = c) as -> by congruence. apply eqb_false_iff in Eb. by destruct (is_red c), want.
Qed.

(** What marking does: a later close beyond the far edge makes a breaker, a later
    return a mitigation block. *)
Lemma mark_over_spec z later :
  (z_mitigated z = true ↔ z_zone_type z ≠ order_block) → z_zone_type z ≠ breaker →
  let z' := mark_over z later in
  z_bullish z' = z_bullish z ∧ z_low z' = z_low z ∧ z_high z' = z_high z ∧
  z_event_index z' = z_event_index z ∧ z_candle_index z' = z_candle_index z ∧
  (z_zone_type z' = breaker ↔ ∃ c, c ∈ later ∧ breaks z c = true) ∧
  (z_mitigated z' = true ↔ z_mitigated z = true ∨
     ∃ c, c ∈ later ∧ (breaks z c = true ∨ touches z c = true)) ∧
  (z_mitigated z' = true ↔ z_zone_type z' ≠ order_block).
Proof.
  revert z. induction later as [|c rest IH]; intros z Hm Hb; simpl.
  { split_and!; try done.
    - split; [done|]. by intros (c & ?%not_elem_of_nil & _).
    - split; [by left|]. intros [?|(c & ?%not_elem_of_nil & _)]; done. }
  assert (∀ P : candle → Prop, (∃ c', c' ∈ c :: rest ∧ P c') ↔ P c ∨ ∃ c', c' ∈ rest ∧ P c') as Hex.
  { intros P. split; [intros (c' & [->|]%elem_of_cons & ?); eauto|].
    intros [?|(c' & ? & ?)]; [exists c|exists c']; split; auto; [by left|by right]. }
  rewrite !Hex. clear Hex. assert (breaker ≠ order_block) as Hne by done.
  destruct (breaks z c) eqn:Eb; [simpl; split_and!; try done; tauto|].
  assert (false = true ↔ False) as Hft by done.
  destruct (z_mitigated z) eqn:Em; simpl.
  - destruct (IH z) as (? & ? & ? & ? & ? & H6 & H7 & ?); [by rewrite Em|done|]. rewrite Em in H7.
    split_and!; try done; tauto.
  - destruct (touches z c) eqn:Et.
    + destruct (IH (with_state mitigation_block true z)) as (? & ? & ? & ? & ? & H6 & H7 & ?); [done..|].
      change (breaks (with_state mitigation_block true z)) with (breaks z) in *.
      change (touches (with_state mitigation_block true z)) with (touches z) in *. simpl in *.
      split_and!; try done; tauto.
    + destruct (IH z) as (? & ? & ? & ? & ? & H6 & H7 & ?); [by rewrite Em|done|]. rewrite Em in H7.
      split_and!; try done; tauto.
Qed.

(** The order block of event [ev], as the rules of the file describe it. *)
Record is_block_of (candles : list candle) (ev : event) (ob : zone) : Prop := {
  ib_direction : z_bullish ob = bullish (ev_type ev);
  ib_left : (z_candle_index ob < ev_index ev)%nat;
  ib_candle : ∃ c, candles !! z_candle_index ob = Some c ∧ is_red c = bullish (ev_type ev) ∧
    z_low ob = c_low c ∧ z_high ob = c_high c;
  ib_last : ∀ j c, (z_candle_index ob < j < ev_index ev)%nat → candles !! j = Some c →
    is_red c = negb (bullish (ev_type ev));
  ib_breaker : z_zone_type ob = breaker ↔
    ∃ j c, (ev_index ev < j)%nat ∧ candles !! j = Some c ∧ breaks ob c = true;
  ib_mitigated : z_mitigated ob = true ↔
    ∃ j c, (ev_index ev < j)%nat ∧ candles !! j = Some c ∧ (breaks ob c = true ∨ touches ob c = true);
  ib_active : z_mitigated ob = true ↔ z_zone_type ob ≠ order_block }.

Lemma elem_of_later {A} (l : list A) n (P : A → Prop) :
  (∃ c, c ∈ skipn (n + 1) l ∧ P c) ↔ ∃ j c, (n < j)%nat ∧ l !! j = Some c ∧ P c.
Proof.
  split.
  - intros (c & Hin & HP). apply list_elem_of_lookup in Hin as [k Hk]. rewrite lookup_drop in Hk.
    exists (n + 1 + k)%nat, c. split_and!; [lia|done..].
  - intros (j & c & Hj & Hc & HP). exists c. split; [|done]. apply list_elem_of_lookup.
    exists (j - (n + 1))%nat. rewrite lookup_drop. by replace (n + 1 + (j - (n + 1)))%nat with j by lia.
Qed.

Lemma block_of_spec candles ev obs ob :
  block_of candles ev = Ok obs → ob ∈ obs → is_block_of candles ev ob.
Proof.
  unfold block_of. intros (o & Ho & H)%res_bind_Ok. destruct o as [i|];
    [|injection H as <-; by intros ?%not_elem_of_nil].
  apply last_opposite_Some in Ho as (Hi & (c & Hc & Hred) & Hlast).
  apply res_bind_Ok in H as (c' & Hc' & [= <-]). unfold index in Hc'. rewrite Hc in Hc'. injection Hc' as <-.
  intros ->%list_elem_of_singleton. unfold _mark_order_block.
  set (z := mk_zone _ _ _ _ _ _ _ _ _).
  destruct (mark_over_spec z (skipn (z_event_index z + 1) candles))
    as (H1 & H2 & H3 & H4 & H5 & H6 & H7 & H8); [done..|].
  set (z' := mark_over z _) in *.
  assert (breaks z' = breaks z ∧ touches z' = touches z) as [Hb Ht].
  { unfold breaks, touches. by rewrite H1, H2, H3. }
  simpl in *. split; rewrite ?Hb, ?Ht, ?H1, ?H2, ?H3, ?H5; auto.
  - exists c. auto.
  - by rewrite H6, elem_of_later.
  - rewrite H7, elem_of_later. simpl. split; [by intros [|]|by right].
Qed.

(** ** Deduplication *)

Lemma any_covers_Ok tol kept ob b :
  any_covers tol kept ob = Ok b →
  if b then ∃ k, k ∈ kept ∧ covers tol k ob = Ok true
  else ∀ k, k ∈ kept → covers tol k ob = Ok false.
Proof.
  revert b. induction kept as [|k kept IH]; intros b; cbn [any_covers].
  { intros [= <-] k ?%not_elem_of_nil. done. }
  intros (d & Hd & H)%res_bind_Ok. destruct d.
  - injection H as <-. exists k. split; [by left|done].
  - specialize (IH b H). destruct b.
    + destruct IH as (k' & ? & ?). exists k'. split; [by right|done].
    + intros k' [->|?]%elem_of_cons; auto.
Qed.

Definition deduped (tol : float) (blocks kept : list zone) : Prop :=
  (∀ k, k ∈ kept → k ∈ blocks) ∧
  (∀ i j a b, (i < j)%nat → kept !! i = Some a → kept !! j = Some b → covers tol a b = Ok false) ∧
  ∀ b, b ∈ blocks → b ∈ kept ∨ ∃ k, k ∈ kept ∧ covers tol k b = Ok true.

Lemma dedup_loop tol blocks done kept kept' :
  deduped tol done kept →
  res_fold (λ kept ob, dup ← any_covers tol kept ob; Ok (if dup : bool then kept else kept ++ [ob]))
    kept blocks = Ok kept' →
  deduped tol (done ++ blocks) kept'.
Proof.
  revert done kept. induction blocks as [|ob blocks IH]; intros done kept Hd; simpl.
  { intros [= <-]. by rewrite app_nil_r. }
  intros (kept1 & (dup & Hdup & [= <-])%res_bind_Ok & H)%res_bind_Ok.
  apply any_covers_Ok in Hdup. replace (done ++ ob :: blocks) with ((done ++ [ob]) ++ blocks)
    by by rewrite <- app_assoc.
  eapply IH; [|exact H]. destruct Hd as (Hin & Hdis & Hcov). destruct dup.
  - split_and!; [intros k Hk; apply elem_of_app; auto|done|].
    intros b [?| ->%list_elem_of_singleton]%elem_of_app; [by apply Hcov|by right].
  - split_and!.
    + intros k. rewrite !elem_of_app. intros [?|?]; [left; auto|by right].
    + intros i j a b Hij Ha Hb. apply lookup_app_Some in Hb as [Hb|[Hlen Hb]].
      * apply (Hdis i j); [done| |done]. apply lookup_app_Some in Ha as [Ha|[Hlen _]]; [done|].
        apply lookup_lt_Some in Hb. lia.
      * apply list_lookup_singleton_Some in Hb as [Hj <-].
        rewrite lookup_app_l in Ha by lia. apply Hdup. by eapply list_elem_of_lookup_2.
    + intros b [Hb| ->%list_elem_of_singleton]%elem_of_app.
      * destruct (Hcov b Hb) as [?|(k & ? & ?)]; [left|right; exists k]; rewrite elem_of_app; auto.
      * left. apply elem_of_app. right. by left.
Qed.

Lemma res_map_Ok {A B} (f : A → result B) l ys :
  res_map f l = Ok ys → Forall2 (λ x y, f x = Ok y) l ys.
Proof.
  revert ys. induction l as [|x l IH]; intros ys; simpl; [intros [= <-]; constructor|].
  intros (y & Hy & (ys' & Hys & [= <-])%res_bind_Ok)%res_bind_Ok. constructor; auto.
Qed.

(** Every order block reported is the last candle of the opposite color to the
    left of one of the structure's events, with that candle's range; it is a
    breaker exactly when a later close leaves it at the far edge, mitigated exactly
    when a later bar enters or breaks it; and deduplication keeps blocks no two of
    which cover each other within the tolerance, and drops only covered ones. *)
Theorem order_blocks_sound candles st r :
  compute_order_blocks candles st = Ok r →
  (∀ ob, ob ∈ ob_order_blocks r → ∃ ev, ev ∈ st_events st ∧ is_block_of candles ev ob) ∧
  ∃ blocks, res_map (block_of candles) (st_events st) = Ok blocks ∧
    deduped OB_DEDUP_TOLERANCE_PCT (concat blocks) (ob_order_blocks r).
Proof.
  unfold compute_order_blocks.
  intros (blocks & Hb & (kept & Hk & (fvgs & _ & [= <-])%res_bind_Ok)%res_bind_Ok)%res_bind_Ok. simpl.
  assert (deduped OB_DEDUP_TOLERANCE_PCT (concat blocks) kept) as Hd.
  { eapply (dedup_loop _ _ [] []); [|exact Hk]. split_and!; [done| |by intros b ?%not_elem_of_nil].
    intros i j a b _ Ha. done. }
  split; [|by exists blocks]. intros ob Hob. destruct Hd as (Hin & _ & _). apply Hin in Hob.
  apply list_elem_of_In, in_concat in Hob as (obs & Hobs%list_elem_of_In & Hob%list_elem_of_In).
  apply res_map_Ok in Hb. apply list_elem_of_lookup in Hobs as [k Hobs].
  destruct (Forall2_lookup_r _ _ _ _ _ Hb Hobs) as (ev & Hev & Hblock).
  exists ev. split; [by eapply list_elem_of_lookup_2|]. by eapply block_of_spec.
Qed.

(** The fifth bar closes below its open, and is the block of the break that follows. *)
Definition bars_with_block : list candle :=
  [bar 0 8 5 6; bar 1 9 4 6; bar 2 10 6 7; bar 3 9 3 6;
   mk_candle 240 (fZ 8) (fZ 9) (fZ 5) (fZ 7) None; bar 5 15 6 9; bar 6 12 6 11].

Lemma order_blocks_sound_witness :
  ∃ st r, detect_structure bars_with_block = Ok st ∧ compute_order_blocks bars_with_block st = Ok r ∧
    ob_order_blocks r ≠ [] ∧
    (∀ ob, ob ∈ ob_order_blocks r → ∃ ev, ev ∈ st_events st ∧ is_block_of bars_with_block ev ob).
Proof.
  destruct (detect_structure bars_with_block) as [st|e] eqn:E; [|vm_compute in E; discriminate E].
  destruct (compute_order_blocks bars_with_block st) as [r|e] eqn:Er.
  - exists st, r. split; [reflexivity|]. split; [exact Er|].
    split; [vm_compute in E; injection E as <-; vm_compute in Er; injection Er as <-; discriminate|].
    exact (proj1 (order_blocks_sound bars_with_block st r Er)).
  - exfalso. vm_compute in E. injection E as <-. vm_compute in Er. discriminate Er.
Defined.
