(* ===== verification/Liquidity.v ===== *)
(** [pa/liquidity.py]: equal highs and lows as liquidity zones, their sweeps, and
    the score with its futures context.  The reads of [futures_context] are in
    [Engine]. *)

From Stdlib Require Import ZArith String.
From S2P Require Import Prelude PyFloat PyVal Errors Swings.
Local Open Scope string_scope.
Local Open Scope list_scope.

Definition EQUAL_LEVEL_TOLERANCE_PCT : float := fQ 5 100.
Definition SWEEP_EXCEED_PCT : float := fzero.

Definition LIQUIDITY_ALGO_VERSION : string := "liquidity-v1".

(** ** Clusters *)

(** [sorted(..., key=price)]: stable. *)
Fixpoint insert_swing (s : swing) (l : list swing) : list swing :=
  match l with
  | [] => [s]
  | y :: l' => if flt (sw_price y) (sw_price s) then y :: insert_swing s l' else s :: l
  end.
Definition sort_swings (l : list swing) : list swing := foldr insert_swing [] l.

(** The mean of the cluster, and whether [s] is within the tolerance of it. *)
Definition joins (tolerance_pct : float) (s : swing) (cl : list swing) : result bool :=
  mid ← fdiv (fsum (map sw_price cl)) (fZ (Z.of_nat (length cl)));
  tol ← fdiv (fmul mid tolerance_pct) (fZ 100);
  Ok (fle (fabs (fsub (sw_price s) mid)) tol).

(** Into the first cluster it joins, else a cluster of its own. *)
Fixpoint place (tolerance_pct : float) (s : swing) (clusters : list (list swing))
    : result (list (list swing)) :=
  match clusters with
  | [] => Ok [[s]]
  | cl :: rest =>
      b ← joins tolerance_pct s cl;
      if b : bool then Ok ((cl ++ [s]) :: rest)
      else rest' ← place tolerance_pct s rest; Ok (cl :: rest')
  end.

Definition _cluster_swings (swings : list swing) (pivot_kind : kind) (tolerance_pct : float)
    : result (list (list swing)) :=
  clusters ← res_fold (λ cls s, place tolerance_pct s cls) []
    (sort_swings (List.filter (λ s, bool_decide (sw_kind s = pivot_kind)) swings));
  Ok (List.filter (λ c, (2 <=? length c)%nat) clusters).

(** ** Zones *)

Record liquidity_zone := mk_lzone {
  lz_zone_id : string;
  lz_kind : kind;              (* [equal_highs], [equal_lows] *)
  lz_low : float;
  lz_high : float;
  lz_swing_count : nat;
  lz_formed_at : nat;
  lz_swept_at : option nat;
  lz_swept_at_time : option Z;
  lz_mitigated : bool;
  lz_tested : bool }.

Definition zone_kind_name (k : kind) : string :=
  match k with High => "equal_highs" | Low => "equal_lows" end.

Section Zones.
(** [f"{x:.8g}"] *)
Context (format_8g : float → string).

Definition _make_zone (cluster : list swing) (k : kind) : result liquidity_zone :=
  let prices := map sw_price cluster in
  lo ← py_min prices;
  hi ← py_max prices;
  Ok (mk_lzone (zone_kind_name k +:+ ":" +:+ format_8g lo +:+ ":" +:+ format_8g hi) k lo hi
        (length cluster) (foldr Nat.max 0%nat (map sw_index cluster)) None None false false).

(** [1.0 + SWEEP_EXCEED_PCT / 100.0], and its inverse. *)
Definition exceed : result float := q ← fdiv SWEEP_EXCEED_PCT (fZ 100); Ok (fadd (fZ 1) q).

(** A bar takes the liquidity of the zone; a bar reaches it. *)
Definition sweeps (ex : float) (z : liquidity_zone) (c : candle) : result bool :=
  match lz_kind z with
  | High => Ok (fgt (c_high c) (fmul (lz_high z) ex))
  | Low => q ← fdiv (fZ 1) ex; Ok (flt (c_low c) (fmul (lz_low z) q))
  end.
Definition reaches (z : liquidity_zone) (c : candle) : bool :=
  match lz_kind z with
  | High => fge (c_high c) (lz_low z)
  | Low => fle (c_low c) (lz_high z)
  end.

Definition sweep_at (i : nat) (c : candle) (z : liquidity_zone) : liquidity_zone :=
  mk_lzone (lz_zone_id z) (lz_kind z) (lz_low z) (lz_high z) (lz_swing_count z) (lz_formed_at z)
    (Some i) (Some (c_open_time c)) true (lz_tested z).
Definition test_zone (z : liquidity_zone) : liquidity_zone :=
  mk_lzone (lz_zone_id z) (lz_kind z) (lz_low z) (lz_high z) (lz_swing_count z) (lz_formed_at z)
    (lz_swept_at z) (lz_swept_at_time z) (lz_mitigated z) true.

(** One bar: only the first sweep is kept. *)
Definition mark_bar (ex : float) (i : nat) (c : candle) (z : liquidity_zone) : result liquidity_zone :=
  z1 ← match lz_swept_at z with
       | None => b ← sweeps ex z c; Ok (if b : bool then sweep_at i c z else z)
       | Some _ => Ok z
       end;
  Ok (if reaches z1 c then test_zone z1 else z1).

Fixpoint mark_bars (ex : float) (i : nat) (later : list candle) (z : liquidity_zone) : result liquidity_zone :=
  match later with
  | [] => Ok z
  | c :: rest => z' ← mark_bar ex i c z; mark_bars ex (S i) rest z'
  end.

Definition _mark_status (candles : list candle) (z : liquidity_zone) : result liquidity_zone :=
  ex ← exceed;
  mark_bars ex (S (lz_formed_at z)) (skipn (S (lz_formed_at z)) candles) z.

Definition zones_of (candles : list candle) (swings : list swing) (tolerance_pct : float) (k : kind)
    : result (list liquidity_zone) :=
  clusters ← _cluster_swings swings k tolerance_pct;
  res_map (λ cl, z ← _make_zone cl k; _mark_status candles z) clusters.

(** ** The score *)

(** A row of [futures_context] as the score sees it. *)
Record futures_item := mk_item { fi_freshness : string; fi_value : option float }.

Inductive bias := long_crowded | short_crowded.

Record component := mk_component {
  co_status : string;
  co_included : bool;
  co_points : float;           (* the code's integer 0 where nothing is included *)
  co_value : option float;
  co_bias : option bias }.

Record equal_levels := mk_equal_levels {
  el_zones : nat;
  el_active_zones : nat;
  el_mitigated_zones : nat;
  el_points : float }.

Record score_result := mk_score {
  sc_score : float;
  sc_equal_levels : equal_levels;
  sc_open_interest : component;
  sc_funding_rate : component;
  sc_liquidation : component;
  sc_futures_available : bool;
  sc_funding_bias : option bias }.

(** [LIQUIDITY_WEIGHTS] *)
Definition W_EQUAL_LEVELS : float := fZ 40.
Definition W_OPEN_INTEREST : float := fZ 35.
Definition W_FUNDING_RATE : float := fZ 15.
Definition W_LIQUIDATION : float := fZ 10.

Definition _norm_open_interest (v : float) : result float :=
  Ok (if ftruthy v && fgt v fzero then fZ 1 else fzero).
Definition _norm_funding (rate : float) : result float :=
  q ← fdiv (fabs rate) (fQ 1 1000); Ok (fmin q (fZ 1)).
Definition _norm_liquidation (count : float) : result float :=
  fdiv (fmin (fmax count fzero) (fZ 5)) (fZ 5).

Definition component_of (weight : float) (norm : float → result float) (with_bias : bool)
    (item : option futures_item) : result component :=
  match item with
  | None => Ok (mk_component "unknown" false fzero None None)
  | Some it =>
      if negb (String.eqb (fi_freshness it) "fresh") then
        Ok (mk_component (fi_freshness it) false fzero None None)
      else
        match fi_value it with
        | None => Ok (mk_component "fresh" true (fround_digits 1 fzero) None None)
        | Some v =>
            n ← norm v;
            Ok (mk_component "fresh" true (fround_digits 1 (fmul weight n)) (Some v)
                  (if with_bias then Some (if fge v fzero then long_crowded else short_crowded) else None))
        end
  end.

Definition equal_levels_of (zones : list liquidity_zone) : result equal_levels :=
  let count := length zones in
  let mitigated := length (List.filter lz_mitigated zones) in
  let active := (count - mitigated)%nat in
  q ← fdiv (fZ (Z.of_nat (Nat.min active 10))) (fZ 10);
  Ok (mk_equal_levels count active mitigated (fround_digits 1 (fmul q W_EQUAL_LEVELS))).

Definition liquidity_score (zones : list liquidity_zone) (futures : string → option futures_item)
    : result score_result :=
  el ← equal_levels_of zones;
  oi ← component_of W_OPEN_INTEREST _norm_open_interest false (futures "open_interest");
  fr ← component_of W_FUNDING_RATE _norm_funding true (futures "funding_rate");
  lq ← component_of W_LIQUIDATION _norm_liquidation false (futures "liquidation");
  Ok (mk_score (fround_digits 1 (fsum [el_points el; co_points oi; co_points fr; co_points lq]))
        el oi fr lq (co_included oi || co_included fr || co_included lq) (co_bias fr)).

Record liquidity_result := mk_liquidity {
  li_zones : list liquidity_zone;
  li_score : score_result }.

Definition compute_liquidity_zones (candles : list candle) (st : structure)
    (futures : string → option futures_item) : result liquidity_result :=
  highs ← zones_of candles (st_swings st) EQUAL_LEVEL_TOLERANCE_PCT High;
  lows ← zones_of candles (st_swings st) EQUAL_LEVEL_TOLERANCE_PCT Low;
  score ← liquidity_score (highs ++ lows) futures;
  Ok (mk_liquidity (highs ++ lows) score).
End Zones.

#[export] Instance liquidity_zone_eq_dec : EqDecision liquidity_zone.
Proof. solve_decision. Defined.
#[export] Instance bias_eq_dec : EqDecision bias.
Proof. solve_decision. Defined.
#[export] Instance component_eq_dec : EqDecision component.
Proof. solve_decision. Defined.
#[export] Instance equal_levels_eq_dec : EqDecision equal_levels.
Proof. solve_decision. Defined.
#[export] Instance score_eq_dec : EqDecision score_result.
Proof. solve_decision. Defined.
#[export] Instance liquidity_result_eq_dec : EqDecision liquidity_result.
Proof. solve_decision. Defined.

(** ** What a zone is *)

Lemma exceed_one : exceed = Ok (fZ 1).
Proof. vm_compute. reflexivity. Qed.

Lemma fmin_list_in x l : fmin_list x l ∈ x :: l.
Proof.
  unfold fmin_list. revert x. induction l as [|y l IH]; intros x; simpl; [by left|].
  unfold fmin at 2. destruct (flt y x); specialize (IH y) as IHy; specialize (IH x) as IHx; set_solver.
Qed.
Lemma fmax_list_in x l : fmax_list x l ∈ x :: l.
Proof.
  unfold fmax_list. revert x. induction l as [|y l IH]; intros x; simpl; [by left|].
  unfold fmax at 2. destruct (flt x y); specialize (IH y) as IHy; specialize (IH x) as IHx; set_solver.
Qed.

Lemma elem_of_insert_swing s l : insert_swing s l ≡ₚ s :: l.
Proof.
  induction l as [|y l IH]; simpl; [done|]. destruct (flt _ _); [|done].
  rewrite IH. apply Permutation_swap.
Qed.
Lemma sort_swings_perm l : sort_swings l ≡ₚ l.
Proof. induction l as [|s l IH]; simpl; [done|]. by rewrite elem_of_insert_swing, IH. Qed.

(** Placing puts the swing into exactly one cluster. *)
Lemma place_perm tol s clusters clusters' :
  place tol s clusters = Ok clusters' →
  concat clusters' ≡ₚ s :: concat clusters ∧ (Forall (.≠ []) clusters → Forall (.≠ []) clusters').
Proof.
  revert clusters'. induction clusters as [|cl rest IH]; intros cls'; simpl.
  { intros [= <-]. split; [done|]. intros _. by repeat constructor. }
  intros ([] & _ & H)%res_bind_Ok.
  - injection H as <-. simpl. split; [by rewrite <-app_assoc, Permutation_middle|].
    intros [_ Hr]%Forall_cons. constructor; [by destruct cl|done].
  - apply res_bind_Ok in H as (rest' & Hr & [= <-]). apply IH in Hr as [Hp Hn]. simpl. split.
    + by rewrite Hp, Permutation_middle.
    + intros [? ?]%Forall_cons. auto.
Qed.

Lemma place_all_perm tol l clusters clusters' :
  res_fold (λ cls s, place tol s cls) clusters l = Ok clusters' →
  concat clusters' ≡ₚ l ++ concat clusters.
Proof.
  revert clusters. induction l as [|s l IH]; intros cls; simpl; [by intros [= ->]|].
  intros (cls1 & Hp%place_perm & H)%res_bind_Ok. rewrite (IH _ H), (proj1 Hp).
  by rewrite <-Permutation_middle.
Qed.

Lemma filter_concat_perm {A} (p : list A → bool) (ls : list (list A)) :
  concat (List.filter p ls) ++ concat (List.filter (λ l, negb (p l)) ls) ≡ₚ concat ls.
Proof.
  induction ls as [|l ls IH]; simpl; [done|]. destruct (p l); simpl.
  - by rewrite <-app_assoc, IH.
  - rewrite <-IH. by rewrite !app_assoc, (Permutation_app_comm _ l), <-!app_assoc.
Qed.

(** The clusters are at least pairs, and no swing is in two of them. *)
Lemma clusters_spec swings k tol clusters :
  _cluster_swings swings k tol = Ok clusters →
  Forall (λ cl, 2 ≤ length cl)%nat clusters ∧
  ∃ others, concat clusters ++ others ≡ₚ List.filter (λ s, bool_decide (sw_kind s = k)) swings.
Proof.
  unfold _cluster_swings. intros (cls & Hf & [= <-])%res_bind_Ok. split.
  - apply Forall_forall. intros cl [_ Hl]%elem_of_filter_b. by apply Nat.leb_le.
  - eexists. rewrite filter_concat_perm. apply place_all_perm in Hf. simpl in Hf.
    by rewrite app_nil_r, sort_swings_perm in Hf.
Qed.

(** The zone a cluster makes, and the first bar after it that sweeps it. *)
Record zone_for (candles : list candle) (k : kind) (cl : list swing) (z : liquidity_zone) : Prop := {
  zf_kind : lz_kind z = k;
  zf_count : lz_swing_count z = length cl;
  zf_low : lz_low z ∈ map sw_price cl ∧ Forall (λ s, fle (lz_low z) (sw_price s) = true) cl;
  zf_high : lz_high z ∈ map sw_price cl ∧ Forall (λ s, fle (sw_price s) (lz_high z) = true) cl;
  zf_formed : lz_formed_at z ∈ map sw_index cl ∧ Forall (λ s, sw_index s ≤ lz_formed_at z)%nat cl;
  zf_mitigated : lz_mitigated z = true ↔ is_Some (lz_swept_at z);
  zf_swept :
    match lz_swept_at z with
    | Some i => (lz_formed_at z < i)%nat ∧
        (∃ c, candles !! i = Some c ∧ sweeps (fZ 1) z c = Ok true ∧ lz_swept_at_time z = Some (c_open_time c)) ∧
        ∀ j c, (lz_formed_at z < j < i)%nat → candles !! j = Some c → sweeps (fZ 1) z c = Ok false
    | None => ∀ j c, (lz_formed_at z < j)%nat → candles !! j = Some c → sweeps (fZ 1) z c = Ok false
    end;
  zf_tested : lz_tested z = true ↔
    ∃ j c, (lz_formed_at z < j)%nat ∧ candles !! j = Some c ∧ reaches z c = true }.

Lemma fmin_list_le x l : numbers (x :: l) → Forall (λ y, fle (fmin_list x l) y = true) (x :: l).
Proof.
  intros Hn. apply Forall_forall. intros y Hy. unfold numbers in Hn.
  assert (isnan (fmin_list x l) = false) as Hm.
  { rewrite Forall_forall in Hn. apply Hn, fmin_list_in. }
  pose proof Hn as [Hx Hl]%Forall_cons. rewrite Forall_forall in Hn.
  destruct (fle (fmin_list x l) y) eqn:Ef; [done|exfalso].
  apply fle_false_flt in Ef; [|done|by apply Hn].
  apply fmin_list_spec in Ef as [Hyx Hyl]; [|done|done|by apply Hn].
  apply elem_of_cons in Hy as [->|Hy]; [by rewrite flt_irrefl in Hyx|].
  rewrite Forall_forall in Hyl. specialize (Hyl _ Hy). by rewrite flt_irrefl in Hyl.
Qed.

Lemma fmax_list_ge x l : numbers (x :: l) → Forall (λ y, fle y (fmax_list x l) = true) (x :: l).
Proof.
  intros Hn. apply Forall_forall. intros y Hy. unfold numbers in Hn.
  assert (isnan (fmax_list x l) = false) as Hm.
  { rewrite Forall_forall in Hn. apply Hn, fmax_list_in. }
  pose proof Hn as [Hx Hl]%Forall_cons. rewrite Forall_forall in Hn.
  destruct (fle y (fmax_list x l)) eqn:Ef; [done|exfalso].
  apply fle_false_flt in Ef; [|by apply Hn|done].
  apply fmax_list_spec in Ef as [Hyx Hyl]; [|done|done|by apply Hn].
  apply elem_of_cons in Hy as [->|Hy]; [by rewrite flt_irrefl in Hyx|].
  rewrite Forall_forall in Hyl. specialize (Hyl _ Hy). by rewrite flt_irrefl in Hyl.
Qed.

#[local] Arguments fZ : simpl never.

Section ZonesSound.
Context (format_8g : float → string).

Lemma foldr_max_spec (l : list nat) : l ≠ [] → foldr Nat.max 0%nat l ∈ l ∧ Forall (λ i, i ≤ foldr Nat.max 0 l)%nat l.
Proof.
  induction l as [|i l IH]; [done|]. intros _. simpl. destruct l as [|j l].
  { simpl. rewrite Nat.max_0_r. split; [by left|]. by repeat constructor. }
  destruct IH as [Hin Hall]; [done|]. set (m := foldr Nat.max 0%nat (j :: l)) in *. split.
  - destruct (Nat.max_spec i m) as [[_ ->]|[_ ->]]; [by right|by left].
  - constructor; [lia|]. eapply Forall_impl; [exact Hall|]. simpl. lia.
Qed.

(** Marking changes the three flags only. *)
Definition same_zone (z z' : liquidity_zone) : Prop :=
  lz_kind z' = lz_kind z ∧ lz_low z' = lz_low z ∧ lz_high z' = lz_high z ∧
  lz_swing_count z' = lz_swing_count z ∧ lz_formed_at z' = lz_formed_at z.

Lemma sweeps_total z c : ∃ b, sweeps (fZ 1) z c = Ok b.
Proof. unfold sweeps. destruct (lz_kind z); eexists; reflexivity. Qed.

Lemma sweeps_same z z' c : same_zone z z' → sweeps (fZ 1) z' c = sweeps (fZ 1) z c.
Proof. intros (Hk & Hl & Hh & _). unfold sweeps. by rewrite Hk, Hl, Hh. Qed.
Lemma reaches_same z z' c : same_zone z z' → reaches z' c = reaches z c.
Proof. intros (Hk & Hl & Hh & _). unfold reaches. by rewrite Hk, Hl, Hh. Qed.

#[local] Instance same_zone_preorder : PreOrder same_zone.
Proof. split; [by intros ?|]. intros ??? (?&?&?&?&?) (?&?&?&?&?). unfold same_zone. split_and!; congruence. Qed.

(** The state after the bars [lo .. hi) following the formation. *)
Record marked (candles : list candle) (hi : nat) (z : liquidity_zone) : Prop := {
  mk_mitigated : lz_mitigated z = true ↔ is_Some (lz_swept_at z);
  mk_swept : match lz_swept_at z with
    | Some i => (lz_formed_at z < i < hi)%nat ∧
        (∃ c, candles !! i = Some c ∧ sweeps (fZ 1) z c = Ok true ∧ lz_swept_at_time z = Some (c_open_time c)) ∧
        ∀ j c, (lz_formed_at z < j < i)%nat → candles !! j = Some c → sweeps (fZ 1) z c = Ok false
    | None => ∀ j c, (lz_formed_at z < j < hi)%nat → candles !! j = Some c → sweeps (fZ 1) z c = Ok false
    end;
  mk_tested : lz_tested z = true ↔
    ∃ j c, (lz_formed_at z < j < hi)%nat ∧ candles !! j = Some c ∧ reaches z c = true }.

Lemma sweep_step candles i c z z1 :
  (lz_formed_at z < i)%nat → candles !! i = Some c → marked candles i z →
  match lz_swept_at z with
  | None => b ← sweeps (fZ 1) z c; Ok (if b : bool then sweep_at i c z else z)
  | Some _ => Ok z
  end = Ok z1 →
  same_zone z z1 ∧ lz_tested z1 = lz_tested z ∧
  (lz_mitigated z1 = true ↔ is_Some (lz_swept_at z1)) ∧
  match lz_swept_at z1 with
  | Some i' => (lz_formed_at z < i' < S i)%nat ∧
      (∃ c, candles !! i' = Some c ∧ sweeps (fZ 1) z1 c = Ok true ∧ lz_swept_at_time z1 = Some (c_open_time c)) ∧
      ∀ j c, (lz_formed_at z < j < i')%nat → candles !! j = Some c → sweeps (fZ 1) z1 c = Ok false
  | None => ∀ j c, (lz_formed_at z < j < S i)%nat → candles !! j = Some c → sweeps (fZ 1) z1 c = Ok false
  end.
Proof.
  intros Hi Hc [Hm Hs _]. destruct (lz_swept_at z) as [i'|] eqn:Ei.
  { intros [= <-]. rewrite Ei. destruct Hs as (? & ? & ?). do 3 (split; [done|]). split; [lia|done]. }
  destruct (sweeps_total z c) as [b Hb]. rewrite Hb. simpl. intros [= <-]. destruct b; simpl.
  - do 2 (split; [done|]). split; [by split; eauto|]. split; [lia|]. split; [by exists c|done].
  - rewrite Ei. do 3 (split; [done|]). intros j c' Hj Hc'.
    destruct (decide (j = i)) as [->|]; [by assert (c' = c) as -> by congruence|].
    apply (Hs j); [lia|done].
Qed.

Lemma mark_bar_marked candles i c z z' :
  (lz_formed_at z < i)%nat → candles !! i = Some c → marked candles i z →
  mark_bar (fZ 1) i c z = Ok z' → same_zone z z' ∧ marked candles (S i) z'.
Proof.
  intros Hi Hc Hz. unfold mark_bar. intros (z1 & H1 & [= <-])%res_bind_Ok.
  pose proof (mk_tested _ _ _ Hz) as Ht.
  apply (sweep_step candles i c) in H1 as (Hsame & Htest & Hm & Hs); [|done..].
  assert (lz_formed_at z1 = lz_formed_at z) as Hf by (by destruct Hsame as (_&_&_&_&?)).
  assert (∀ c, reaches z1 c = reaches z c) as Hr by (intros; by apply reaches_same).
  assert (∀ P, (∃ j c', (lz_formed_at z < j < S i)%nat ∧ candles !! j = Some c' ∧ P c') ↔
            P c ∨ ∃ j c', (lz_formed_at z < j < i)%nat ∧ candles !! j = Some c' ∧ P c') as Hex.
  { intros P. split.
    - intros (j & c' & Hj & Hc' & HP). destruct (decide (j = i)) as [->|].
      + left. by assert (c' = c) as -> by congruence.
      + right. exists j, c'. split_and!; [lia|lia|done|done].
    - intros [HP|(j & c' & Hj & Hc' & HP)]; [exists i, c|exists j, c']; split_and!; done || lia. }
  destruct (reaches z1 c) eqn:E.
  - split; [etrans; [exact Hsame|done]|]. split; simpl; rewrite ?Hf; [done| |].
    + exact Hs.
    + split; [intros _|done]. apply (Hex (λ c, reaches z1 c = true)). by left.
  - split; [done|]. split; rewrite ?Hf; [done|exact Hs|].
    rewrite Htest, Ht. setoid_rewrite Hr.
    rewrite (Hex (λ c, reaches z c = true)), <-Hr, E. split; [by right|by intros [?|?]].
Qed.

Lemma mark_bars_marked candles i later z z' :
  (lz_formed_at z < i)%nat → skipn i candles = later → marked candles i z →
  mark_bars (fZ 1) i later z = Ok z' → same_zone z z' ∧ marked candles (i + length later) z'.
Proof.
  revert i z. induction later as [|c rest IH]; intros i z Hi Hl Hz; simpl.
  { intros [= <-]. by rewrite Nat.add_0_r. }
  intros (z1 & H1 & H2)%res_bind_Ok.
  assert (candles !! i = Some c) as Hc.
  { rewrite <-(Nat.add_0_r i), <-lookup_drop. by rewrite Hl. }
  apply (mark_bar_marked candles) in H1 as [Hs1 Hm1]; [|done..].
  apply IH in H2 as [Hs2 Hm2]; [| | |done].
  - split; [by etrans|]. by replace (i + S (length rest))%nat with (S i + length rest)%nat by lia.
  - destruct Hs1 as (_&_&_&_&->). lia.
  - replace (S i) with (i + 1)%nat by lia. rewrite Nat.add_comm, <-skipn_skipn, Hl. done.
Qed.

Lemma make_zone_for candles cl k z z' :
  (2 ≤ length cl)%nat → numbers (map sw_price cl) →
  _make_zone format_8g cl k = Ok z → _mark_status candles z = Ok z' → zone_for candles k cl z'.
Proof.
  intros Hlen Hn Hz Hmark. unfold _mark_status in Hmark. rewrite exceed_one in Hmark. simpl in Hmark.
  unfold _make_zone in Hz. destruct cl as [|s cl]; [simpl in Hlen; lia|].
  simpl in Hz. injection Hz as <-. cbn [map] in Hn.
  apply (mark_bars_marked candles) in Hmark as [(Hk & Hl & Hh & Hc & Hf) [Hm Hs Ht]]; [|simpl; lia|done|].
  2:{ split; simpl; [split; [done|by intros []]|intros; lia|]. split; [done|]. intros (j & c & ? & _). lia. }
  simpl in *.
  pose proof (foldr_max_spec (map sw_index (s :: cl)) ltac:(done)) as [Hin Hall].
  pose proof (fmin_list_le _ _ Hn) as Hmin. pose proof (fmax_list_ge _ _ Hn) as Hmax.
  change (sw_price s :: map sw_price cl) with (map sw_price (s :: cl)) in Hmin, Hmax. rewrite Forall_map in Hmin, Hmax. cbn [map] in Hmin, Hmax.
  assert (∀ j c, candles !! j = Some c →
    (j < S (Nat.max (sw_index s) (foldr Nat.max 0 (map sw_index cl)) +
      length (skipn (S (Nat.max (sw_index s) (foldr Nat.max 0 (map sw_index cl)))) candles)))%nat) as Hlt.
  { intros j c Hj%lookup_lt_Some. rewrite length_skipn. lia. }
  split; rewrite ?Hl, ?Hh; try done.
  - split; [apply fmin_list_in|done].
  - split; [apply fmax_list_in|done].
  - rewrite Hf. split; [exact Hin|]. rewrite Forall_map in Hall. exact Hall.
  - destruct (lz_swept_at z') as [i|].
    + destruct Hs as (? & ? & ?). split_and!; [lia|done|done].
    + intros j c Hj Hc'. eapply Hs; [|done]. split; [done|by eapply Hlt].
  - rewrite Ht. split; intros (j & c & Hj & Hc' & Hr); exists j, c; split_and!; try done; try lia. by eapply Hlt.
Qed.

Lemma zones_of_sound candles swings tol k zs :
  Forall (λ s, isnan (sw_price s) = false) swings →
  zones_of format_8g candles swings tol k = Ok zs →
  ∃ clusters others, Forall2 (zone_for candles k) clusters zs ∧
    Forall (λ cl, 2 ≤ length cl)%nat clusters ∧
    concat clusters ++ others ≡ₚ List.filter (λ s, bool_decide (sw_kind s = k)) swings.
Proof.
  intros Hn. unfold zones_of. intros (clusters & Hc & Hz)%res_bind_Ok.
  apply clusters_spec in Hc as [H2 [others Hp]]. exists clusters, others.
  split_and!; [|done|done].
  assert (∀ cl, cl ∈ clusters → numbers (map sw_price cl)) as Hnum.
  { intros cl Hcl. unfold numbers. apply Forall_forall. intros x (s & -> & Hs)%list_elem_of_fmap.
    rewrite Forall_forall in Hn. apply Hn.
    assert (s ∈ concat clusters ++ others) as Hin.
    { apply elem_of_app. left. apply list_elem_of_In, in_concat. exists cl. by rewrite <-!list_elem_of_In. }
    rewrite Hp in Hin. by apply elem_of_filter_b in Hin as [? _]. }
  clear Hp Hn. revert zs Hz. induction H2 as [|cl clusters Hl _ IH]; intros zs; simpl.
  { intros [= <-]. constructor. }
  intros (z & (z0 & Hm & Hs)%res_bind_Ok & (zs' & Hzs & [= <-])%res_bind_Ok)%res_bind_Ok.
  constructor; [|apply IH; [|done]; intros; apply Hnum; by right].
  eapply make_zone_for; [exact Hl|apply Hnum; by left|exact Hm|exact Hs].
Qed.
End ZonesSound.

(** The liquidity zones are the clusters of equal swing levels: each stands for
    at least two swings of its kind, no swing counts for two zones, its band and
    its bar of formation are those of its swings, and it is mitigated exactly when
    a later bar went beyond the band — by the first such bar. *)
Theorem liquidity_zones_sound format_8g candles st futures r :
  Forall (λ s, isnan (sw_price s) = false) (st_swings st) →
  compute_liquidity_zones format_8g candles st futures = Ok r →
  ∀ k, ∃ clusters others,
    Forall2 (zone_for candles k) clusters (List.filter (λ z, bool_decide (lz_kind z = k)) (li_zones r)) ∧
    Forall (λ cl, 2 ≤ length cl)%nat clusters ∧
    concat clusters ++ others ≡ₚ List.filter (λ s, bool_decide (sw_kind s = k)) (st_swings st).
Proof.
  intros Hn. unfold compute_liquidity_zones.
  intros (hs & Hh & (ls & Hl & (sc & _ & [= <-])%res_bind_Ok)%res_bind_Ok)%res_bind_Ok k. simpl.
  apply zones_of_sound in Hh as (ch & oh & Hch & ?); [|done].
  apply zones_of_sound in Hl as (cl & ol & Hcl & ?); [|done].
  assert (∀ k' cls zs k, Forall2 (zone_for candles k') cls zs →
    List.filter (λ z, bool_decide (lz_kind z = k)) zs = if decide (k' = k) then zs else []) as Hk.
  { clear. intros k' cls zs k. induction 1 as [|c z cls zs Hz _ IH]; simpl; [by case_decide|].
    rewrite (zf_kind _ _ _ _ Hz), IH. case_bool_decide; case_decide; done. }
  rewrite List.filter_app, (Hk _ _ _ k Hch), (Hk _ _ _ k Hcl).
  destruct k; simpl; rewrite ?app_nil_r; eauto.
Qed.

(** Two equal highs, taken by the last bar. *)
Definition sample_bar (t high : Z) : candle := mk_candle t (fZ 90) (fZ high) (fZ 80) (fZ 90) None.
Definition sample_bars : list candle :=
  [sample_bar 0 90; sample_bar 60 100; sample_bar 120 90; sample_bar 180 100; sample_bar 240 90; sample_bar 300 101].
Definition sample_structure : structure :=
  mk_structure None [mk_swing 1 60 High (fZ 100) None; mk_swing 3 180 High (fZ 100) None] [].

Definition sample_liquidity : result liquidity_result :=
  compute_liquidity_zones (λ _, "100") sample_bars sample_structure (λ _, None).

Example sample_zone_swept :
  (r ← sample_liquidity; Ok (map lz_swept_at (li_zones r), sc_score (li_score r))) = Ok ([Some 5%nat], fzero).
Proof. vm_compute. reflexivity. Qed.

Lemma liquidity_zones_sound_witness :
  match sample_liquidity with
  | Ok r => ∃ clusters others,
      Forall2 (zone_for sample_bars High) clusters (List.filter (λ z, bool_decide (lz_kind z = High)) (li_zones r)) ∧
      Forall (λ cl, 2 ≤ length cl)%nat clusters ∧
      concat clusters ++ others ≡ₚ List.filter (λ s, bool_decide (sw_kind s = High)) (st_swings sample_structure)
  | Err _ => False
  end.
Proof.
  destruct sample_liquidity as [r|e] eqn:E.
  - exact (liquidity_zones_sound (λ _, "100") sample_bars sample_structure (λ _, None) r
      ltac:(by repeat constructor) E High).
  - vm_compute in E. discriminate E.
Defined.
