(* ===== verification/Vwap.v ===== *)
(** [pa/vwap_sessions.py]: the volume weighted average price anchored to the UTC
    day, and the high and low of the trading sessions. *)

From Stdlib Require Import ZArith String.
From S2P Require Import Prelude PyFloat PyVal Errors Swings.
Local Open Scope string_scope.
Local Open Scope list_scope.

(** [c.get("volume") or 0.0] *)
Definition volume_of (c : candle) : float :=
  match c_volume c with Some v => if ftruthy v then v else fzero | None => fzero end.

(** [int(c["open_time"] // 86400)] *)
Definition day_of (c : candle) : Z := c_open_time c / 86400.

Definition typical_price (c : candle) : result float :=
  fdiv (fadd (fadd (c_high c) (c_low c)) (c_close c)) (fZ 3).

Record vwap_point := mk_point { vp_time : Z; vp_vwap : option float }.

Record vwap_state := mk_vwap_state {
  cum_tp : float;
  cum_vol : float;
  current_day : option Z }.

(** The sums restart on the first bar of a day. *)
Definition anchor (day : Z) (s : vwap_state) : vwap_state :=
  match current_day s with
  | None => mk_vwap_state (cum_tp s) (cum_vol s) (Some day)
  | Some d => if (day =? d)%Z then s else mk_vwap_state fzero fzero (Some day)
  end.

Definition vwap_step (c : candle) (s : vwap_state) : result (vwap_point * vwap_state) :=
  let s := anchor (day_of c) s in
  tp ← typical_price c;
  let vol := volume_of c in
  let cum_tp' := fadd (cum_tp s) (fmul tp vol) in
  let cum_vol' := fadd (cum_vol s) vol in
  v ← (if fgt cum_vol' fzero then q ← fdiv cum_tp' cum_vol'; Ok (Some (fround_digits 8 q)) else Ok None);
  Ok (mk_point (c_open_time c) v, mk_vwap_state cum_tp' cum_vol' (current_day s)).

Fixpoint vwap_points (s : vwap_state) (candles : list candle) : result (list vwap_point * vwap_state) :=
  match candles with
  | [] => Ok ([], s)
  | c :: rest =>
      '(p, s') ← vwap_step c s;
      '(ps, s'') ← vwap_points s' rest;
      Ok (p :: ps, s'')
  end.

Record vwap_result := mk_vwap {
  vw_anchored_at : option Z;
  vw_current : option float;
  vw_points : list vwap_point }.

Definition vwap_start : vwap_state := mk_vwap_state fzero fzero None.

Definition compute_vwap (candles : list candle) : result vwap_result :=
  '(points, s) ← vwap_points vwap_start candles;
  Ok (mk_vwap ((λ d, (d * 86400)%Z) <$> current_day s)
        (match last points with Some p => vp_vwap p | None => None end) points).

(** ** Sessions *)

(** [KILLZONES]: UTC hour ranges. *)
Definition KILLZONES : list (string * (Z * Z)) :=
  [("asian", (0, 8)); ("london", (7, 16)); ("newyork", (12, 21))]%Z.

Definition hour_of (c : candle) : Z := (c_open_time c / 3600) mod 24.

(** A session of the latest UTC day with a candle in its hours; the day is its
    number, where the code prints it as YYYY-MM-DD. *)
Record session := mk_session {
  ss_name : string;
  ss_day : Z;
  ss_start_hour : Z;
  ss_end_hour : Z;
  ss_high : float;
  ss_low : float }.

Definition in_session (start_hour end_hour : Z) (c : candle) : bool :=
  (start_hour <=? hour_of c)%Z && (hour_of c <? end_hour)%Z.

Definition session_of (candles : list candle) (kz : string * (Z * Z)) : list session :=
  let '(name, (start_hour, end_hour)) := kz in
  match List.filter (in_session start_hour end_hour) candles with
  | [] => []
  | c :: entries =>
      let latest_day := foldl (λ d c, Z.max d (day_of c)) (day_of c) entries in
      match List.filter (λ c, (day_of c =? latest_day)%Z) (c :: entries) with
      | [] => []
      | x :: xs => [mk_session name latest_day start_hour end_hour
                      (fmax_list (c_high x) (map c_high xs)) (fmin_list (c_low x) (map c_low xs))]
      end
  end.

Definition compute_session_levels (candles : list candle) : list session :=
  concat (map (session_of candles) KILLZONES).

(** ** Properties *)

Lemma anchor_new_day day d s : current_day s = Some d → day ≠ d → anchor day s = anchor day vwap_start.
Proof. intros Hs Hd. unfold anchor. rewrite Hs. simpl. by destruct (Z.eqb_spec day d). Qed.

Lemma vwap_step_new_day c s d :
  current_day s = Some d → day_of c ≠ d → vwap_step c s = vwap_step c vwap_start.
Proof. intros Hs Hd. unfold vwap_step. by rewrite (anchor_new_day _ d s). Qed.

Lemma vwap_step_day c s p s' : vwap_step c s = Ok (p, s') → current_day s' = Some (day_of c).
Proof.
  unfold vwap_step. intros (tp & _ & (v & _ & [= _ <-])%res_bind_Ok)%res_bind_Ok. simpl.
  unfold anchor. destruct (current_day s) as [d|] eqn:E; [|done].
  destruct (Z.eqb_spec (day_of c) d) as [->|]; [done|done].
Qed.

Lemma vwap_points_app s l1 l2 :
  vwap_points s (l1 ++ l2) =
  ('(ps1, s1) ← vwap_points s l1; '(ps2, s2) ← vwap_points s1 l2; Ok (ps1 ++ ps2, s2)).
Proof.
  revert s. induction l1 as [|c l1 IH]; intros s; cbn [vwap_points app].
  { unfold mbind at 1, res_bind at 1. by destruct (vwap_points s l2) as [[ps s2]|e]. }
  destruct (vwap_step c s) as [[p s1]|e]; simpl; [|done]. rewrite IH.
  destruct (vwap_points s1 l1) as [[ps1 s2]|e]; simpl; [|done].
  by destruct (vwap_points s2 l2) as [[ps2 s3]|e].
Qed.

Lemma vwap_points_cons s c l :
  vwap_points s (c :: l) = ('(p, s') ← vwap_step c s; '(ps, s'') ← vwap_points s' l; Ok (p :: ps, s'')).
Proof. done. Qed.

#[local] Arguments vwap_points : simpl never.

(** The average restarts with every UTC day: where the day changes between two
    bars, the points before the change and the points from it on are those of the
    two parts computed on their own, and the current value and the anchor are
    those of the second part. *)
Theorem vwap_reanchors l1 a c l2 r1 r2 :
  day_of c ≠ day_of a → compute_vwap (l1 ++ [a]) = Ok r1 → compute_vwap (c :: l2) = Ok r2 →
  compute_vwap ((l1 ++ [a]) ++ c :: l2) =
    Ok (mk_vwap (vw_anchored_at r2) (vw_current r2) (vw_points r1 ++ vw_points r2)).
Proof.
  intros Hd H1 H2. unfold compute_vwap in *.
  apply res_bind_Ok in H1 as ([ps1 s1] & H1 & [= <-]). apply res_bind_Ok in H2 as ([ps2 s2] & H2 & [= <-]).
  rewrite vwap_points_app, H1. simpl.
  assert (current_day s1 = Some (day_of a)) as Hs1.
  { rewrite vwap_points_app in H1. apply res_bind_Ok in H1 as ([ps s0] & _ & H1). cbn [vwap_points] in H1.
    apply res_bind_Ok in H1 as ([p s'] & Hp & [= _ <-]). cbn [vwap_points] in Hp.
    apply res_bind_Ok in Hp as ([q s''] & Hp & [= _ <-]). by eapply vwap_step_day. }
  assert (vwap_points s1 (c :: l2) = vwap_points vwap_start (c :: l2)) as Heq.
  { rewrite !vwap_points_cons. by rewrite (vwap_step_new_day c s1 (day_of a)). }
  rewrite Heq, H2. simpl.
  assert (ps2 ≠ []) as Hne.
  { cbn [vwap_points] in H2. apply res_bind_Ok in H2 as ([p s'] & _ & H2).
    apply res_bind_Ok in H2 as ([ps s''] & _ & [= <- _]). done. }
  do 2 f_equal. rewrite last_app. destruct ps2 as [|p ps]; [done|]. by destruct (last (p :: ps)) eqn:El; [|apply last_None in El].
Qed.

Definition vwap_bar (t close volume : Z) : candle :=
  mk_candle t (fZ close) (fZ close) (fZ close) (fZ close) (Some (fZ volume)).

Lemma vwap_reanchors_witness :
  ∃ r1 r2, compute_vwap ([] ++ [vwap_bar 86399 10 5]) = Ok r1 ∧ compute_vwap [vwap_bar 86400 20 1] = Ok r2 ∧
    compute_vwap (([] ++ [vwap_bar 86399 10 5]) ++ [vwap_bar 86400 20 1]) =
      Ok (mk_vwap (Some 86400%Z) (vw_current r2) (vw_points r1 ++ vw_points r2)).
Proof.
  destruct (compute_vwap ([] ++ [vwap_bar 86399 10 5])) as [r1|e] eqn:E1; [|vm_compute in E1; discriminate E1].
  destruct (compute_vwap [vwap_bar 86400 20 1]) as [r2|e] eqn:E2; [|vm_compute in E2; discriminate E2].
  exists r1, r2. split; [reflexivity|]. split; [reflexivity|].
  assert (vw_anchored_at r2 = Some 86400%Z) as <- by (vm_compute in E2; injection E2 as <-; reflexivity).
  exact (vwap_reanchors [] (vwap_bar 86399 10 5) (vwap_bar 86400 20 1) [] r1 r2
    ltac:(vm_compute; discriminate) E1 E2).
Defined.
