(* ===== verification/Filters.v ===== *)
(** [pa/screener.py]: the allowlisted filter language of the screener and of alert
    conditions: validation of untrusted input into a syntax tree, and evaluation
    in a context of market data. *)

From Stdlib Require Import ZArith String.
From S2P Require Import Prelude PyFloat PyVal Errors Swings Vwap.
Local Open Scope string_scope.
Local Open Scope list_scope.

(** ** Numbers of the filters: JSON integers or floats, compared exactly *)

Inductive num := NInt (z : Z) | NFloat (x : float).

(** [x] against the integer [z]; [None] for NaN. *)
Definition fcompare_Z (x : float) (z : Z) : option comparison :=
  match x with
  | S754_nan => None
  | S754_zero _ => Some (Z.compare 0 z)
  | S754_infinity s => Some (if s then Lt else Gt)
  | S754_finite s m e =>
      let v := if s then Zneg m else Zpos m in
      Some (if (0 <=? e)%Z then Z.compare (v * 2 ^ e) z else Z.compare v (z * 2 ^ (- e)))
  end.

Definition lt_num (x : float) (n : num) : bool :=
  match n with
  | NFloat y => flt x y
  | NInt z => match fcompare_Z x z with Some Lt => true | _ => false end
  end.
Definition gt_num (x : float) (n : num) : bool :=
  match n with
  | NFloat y => fgt x y
  | NInt z => match fcompare_Z x z with Some Gt => true | _ => false end
  end.
(** [x <= n] *)
Definition le_num (x : float) (n : num) : bool :=
  match n with
  | NFloat y => fle x y
  | NInt z => match fcompare_Z x z with Some Lt | Some Eq => true | _ => false end
  end.
(** [a > b] *)
Definition num_gt (a b : num) : bool :=
  match a, b with
  | NInt x, NInt y => (y <? x)%Z
  | NFloat x, b => gt_num x b
  | NInt x, NFloat y => match fcompare_Z y x with Some Lt => true | _ => false end
  end.

(** ** The syntax tree *)

Inductive leaf :=
| VolumeChange (recent_bars baseline_bars : Z) (min max : option num)
| PriceChange (window_bars : Z) (min max : option num)
| StructureEvent (event : string) (since_bars : Z)
| LiquiditySweep (since_bars : Z)
| NearOrderBlock (max_distance_pct : num)
| FundingRate (min max : option num)
| OiChange (min max : option num) (window : Z)
| AboveBelowVwap (position : string).

Inductive node :=
| NAnd (filters : list node)
| NOr (filters : list node)
| NLeaf (f : leaf).

Section NodeInd.
Variable P : node → Prop.
Hypothesis HAnd : ∀ l, Forall P l → P (NAnd l).
Hypothesis HOr : ∀ l, Forall P l → P (NOr l).
Hypothesis HLeaf : ∀ f, P (NLeaf f).

Fixpoint node_ind' (n : node) : P n :=
  let go := fix go l := match l return Forall P l with
    | [] => Forall_nil_2 _
    | x :: l' => Forall_cons_2 _ _ _ (node_ind' x) (go l') end in
  match n with
  | NAnd l => HAnd l (go l)
  | NOr l => HOr l (go l)
  | NLeaf f => HLeaf f
  end.
End NodeInd.

(** ** Validation *)

Definition FILTER_KEYS : list (string * list string) :=
  [("volume_change", ["recent_bars"; "baseline_bars"; "min"; "max"]);
   ("price_change", ["window_bars"; "min"; "max"]);
   ("structure_event", ["event"; "since_bars"]);
   ("liquidity_sweep_occurred", ["since_bars"]);
   ("near_order_block", ["max_distance_pct"]);
   ("funding_rate", ["min"; "max"]);
   ("oi_change", ["min"; "max"; "window"]);
   ("above_below_vwap", ["position"])].

Definition EVENT_TYPES : list string :=
  ["bos_bullish"; "bos_bearish"; "choch_bullish"; "choch_bearish"].

Definition INT_KEYS_BY_FILTER : list (string * list string) :=
  [("volume_change", ["recent_bars"; "baseline_bars"]);
   ("price_change", ["window_bars"]);
   ("structure_event", ["since_bars"]);
   ("liquidity_sweep_occurred", ["since_bars"]);
   ("oi_change", ["window"])].

(** [not isinstance(v, bool) and isinstance(v, (int, float))] *)
Definition as_num (v : pyval) : option num :=
  match v with PInt z => Some (NInt z) | PFloat x => Some (NFloat x) | _ => None end.

Definition check_keys (allowed : list string) (d : list (string * pyval)) : result unit :=
  reject_if (negb (forallb (λ kv, str_in kv.1 ("type" :: allowed)) d)) INVALID_REQUEST.

(** A positive integer where the key is present. *)
Definition check_int_key (d : list (string * pyval)) (key : string) : result unit :=
  match assoc key d with
  | None => Ok tt
  | Some (PInt z) => reject_if (z <? 1)%Z INVALID_REQUEST
  | Some _ => raise INVALID_REQUEST
  end.

Definition check_number (d : list (string * pyval)) (key : string) : result (option num) :=
  match assoc key d with
  | None => Ok None
  | Some v => match as_num v with Some n => Ok (Some n) | None => raise INVALID_REQUEST end
  end.

(** [node.get("event") not in EVENT_TYPES]: a set, so the value must be hashable. *)
Definition check_event (d : list (string * pyval)) : result string :=
  match assoc "event" d with
  | Some (PStr s) => if str_in s EVENT_TYPES then Ok s else raise INVALID_REQUEST
  | Some (PList _) | Some (PDict _) => Err TypeError
  | _ => raise INVALID_REQUEST
  end.

Definition check_position (d : list (string * pyval)) : result string :=
  match assoc "position" d with
  | Some (PStr s) => if str_in s ["above"; "below"] then Ok s else raise INVALID_REQUEST
  | _ => raise INVALID_REQUEST
  end.

Definition check_distance (d : list (string * pyval)) : result num :=
  match assoc "max_distance_pct" d with
  | Some (PInt z) => if (z <? 0)%Z then raise INVALID_REQUEST else Ok (NInt z)
  | Some (PFloat x) => if flt x fzero then raise INVALID_REQUEST else Ok (NFloat x)
  | _ => raise INVALID_REQUEST
  end.

(** [d.setdefault(key, default)] of a checked integer key. *)
Definition int_or (key : string) (default : Z) (d : list (string * pyval)) : Z :=
  match assoc key d with Some (PInt z) => z | _ => default end.

Definition min_over_max (mn mx : option num) : bool :=
  match mn, mx with Some a, Some b => num_gt a b | _, _ => false end.

(** A leaf of type [ftype]: the checks of [_validate_node], then [_defaults]. *)
Definition validate_leaf (ftype : string) (d : list (string * pyval)) : result leaf :=
  match assoc ftype FILTER_KEYS with
  | None => raise INVALID_REQUEST
  | Some allowed =>
      check_keys allowed d;;
      res_iter (check_int_key d) (default [] (assoc ftype INT_KEYS_BY_FILTER));;
      mn ← check_number d "min";
      mx ← check_number d "max";
      reject_if (min_over_max mn mx) INVALID_REQUEST;;
      if String.eqb ftype "structure_event" then
        ev ← check_event d; Ok (StructureEvent ev (int_or "since_bars" 50 d))
      else if String.eqb ftype "above_below_vwap" then
        p ← check_position d; Ok (AboveBelowVwap p)
      else if String.eqb ftype "near_order_block" then
        x ← check_distance d; Ok (NearOrderBlock x)
      else if String.eqb ftype "volume_change" then
        Ok (VolumeChange (int_or "recent_bars" 24 d) (int_or "baseline_bars" 24 d) mn mx)
      else if String.eqb ftype "price_change" then
        Ok (PriceChange (int_or "window_bars" 24 d) mn mx)
      else if String.eqb ftype "liquidity_sweep_occurred" then
        Ok (LiquiditySweep (int_or "since_bars" 50 d))
      else if String.eqb ftype "oi_change" then Ok (OiChange mn mx (int_or "window" 1 d))
      else Ok (FundingRate mn mx)
  end.

Fixpoint _validate_node (v : pyval) : result node :=
  match v with
  | PDict d =>
      match assoc "type" d with
      | Some (PStr ftype) =>
          if str_in ftype ["and"; "or"] then
            check_keys ["filters"] d;;
            subs ← (fix find_filters (l : list (string * pyval)) : result (list node) :=
              match l with
              | [] => raise INVALID_REQUEST
              | (k, sub) :: l' =>
                  if String.eqb k "filters" then
                    match sub with
                    | PList (x :: xs) =>
                        y ← _validate_node x;
                        ys ← (fix go l := match l with
                          | [] => Ok []
                          | z :: l' => a ← _validate_node z; b ← go l'; Ok (a :: b)
                          end) xs;
                        Ok (y :: ys)
                    | _ => raise INVALID_REQUEST
                    end
                  else find_filters l'
              end) d;
            Ok (if String.eqb ftype "and" then NAnd subs else NOr subs)
          else
            f ← validate_leaf ftype d; Ok (NLeaf f)
      | Some (PList _) | Some (PDict _) => Err TypeError
      | _ => raise INVALID_REQUEST
      end
  | _ => raise INVALID_REQUEST
  end.

Definition validate_filters (filters : pyval) (combine : string) : result node :=
  let combine := Str.upper (if Str.empty combine then "AND" else combine) in
  if negb (str_in combine ["AND"; "OR"]) then raise INVALID_REQUEST
  else
    let items := match filters with PList l => l | v => if truthy v then [v] else [] end in
    reject_if (match items with [] => true | _ => false end) INVALID_REQUEST;;
    validated ← res_map _validate_node items;
    Ok (if String.eqb combine "AND" then NAnd validated else NOr validated).

(** ** Contexts *)

(** An event of a stored [structure] payload. *)
Record structure_event := mk_sevent { se_type : string; se_time : option Z; se_index : Z }.

(** A zone of a stored [liquidity_zones] payload. *)
Record liquidity_view := mk_lview { lv_mitigated : bool; lv_swept_at_time : option Z; lv_swept_at : option Z }.

(** An order block of a stored payload. *)
Record block_view := mk_bview { bv_mitigated : bool; bv_low : float; bv_high : float }.

(** A row of [futures_context]. *)
Record futures_row := mk_futures { fu_freshness : string; fu_value : option float }.

(** The [ctx] dict; an absent key is [None], an absent list is empty. *)
Record context := mk_context {
  x_candles : list candle;
  x_close : option float;
  x_structure : option (list structure_event);
  x_liquidity_zones : list liquidity_view;
  x_order_blocks : list block_view;
  x_funding_rate : option futures_row;
  x_oi_series : list futures_row;
  x_vwap : option float }.

(** ** Evaluation *)

Definition _between (value : option float) (lo hi : option num) : bool :=
  match value with
  | None => false
  | Some v =>
      match lo with Some l => negb (lt_num v l) | None => true end
      && match hi with Some h => negb (gt_num v h) | None => true end
  end.

(** [l[-k]] for [1 <= k <= len(l)]. *)
Definition from_end {A} (l : list A) (k : Z) : result A := index l (Z.to_nat (Z.of_nat (length l) - k)).

(** [(a / b - 1.0) * 100.0] *)
Definition change_pct (a b : float) : result float :=
  q ← fdiv a b; Ok (fmul (fsub q (fZ 1)) (fZ 100)).

Definition _price_change_pct (ctx : context) (window_bars : Z) : result (option float) :=
  let closes := map c_close (x_candles ctx) in
  if (Z.of_nat (length closes) <? window_bars + 1)%Z then Ok None
  else
    base ← from_end closes (window_bars + 1);
    if negb (ftruthy base) then Ok None
    else
      latest ← from_end closes 1;
      pct ← change_pct latest base; Ok (Some pct).

Definition _volume_change_pct (ctx : context) (recent baseline : Z) : result (option float) :=
  let vols := map volume_of (x_candles ctx) in
  let n := length vols in
  if (Z.of_nat n <? recent + baseline)%Z then Ok None
  else
    let cut := (n - Z.to_nat recent)%nat in
    let recent_sum := fsum (skipn cut vols) in
    let base_sum := fsum (slice vols (cut - Z.to_nat baseline) cut) in
    if fle base_sum fzero then Ok None
    else pct ← change_pct recent_sum base_sum; Ok (Some pct).

Definition is_fresh (r : futures_row) : bool := String.eqb (fu_freshness r) "fresh".

Definition _oi_change_pct (ctx : context) (window : Z) : result (option float) :=
  let fresh := List.filter is_fresh (x_oi_series ctx) in
  if (Z.of_nat (length fresh) <? window + 1)%Z then Ok None
  else
    latest ← from_end fresh 1;
    base ← from_end fresh (1 + window);
    match fu_value latest, fu_value base with
    | Some l, Some b =>
        if ftruthy l && ftruthy b then pct ← change_pct l b; Ok (Some pct) else Ok None
    | _, _ => Ok None
    end.

(** The [open_time] of the first bar of the last [since], and whether an event at
    [time], or at [idx] when it has no time, is at most that old. *)
Definition cutoff_of (ctx : context) (since : Z) : result Z :=
  c ← index (x_candles ctx) (Z.to_nat (Z.max 0 (Z.of_nat (length (x_candles ctx)) - since)));
  Ok (c_open_time c).

Definition recent (ctx : context) (since cutoff : Z) (time idx : option Z) : bool :=
  match time with
  | Some t => (cutoff <=? t)%Z
  | None => match idx with
            | Some i => (Z.of_nat (length (x_candles ctx)) - since <=? i)%Z
            | None => false
            end
  end.

Definition _eval_structure_event (event : string) (since : Z) (ctx : context) : result bool :=
  match x_structure ctx with
  | None => Ok false
  | Some events =>
      cutoff ← cutoff_of ctx since;
      Ok (existsb (λ ev, String.eqb (se_type ev) event
                         && recent ctx since cutoff (se_time ev) (Some (se_index ev))) events)
  end.

Definition _eval_liquidity_sweep (since : Z) (ctx : context) : result bool :=
  match x_liquidity_zones ctx with
  | [] => Ok false
  | zones =>
      cutoff ← cutoff_of ctx since;
      Ok (existsb (λ z, lv_mitigated z && recent ctx since cutoff (lv_swept_at_time z) (lv_swept_at z)) zones)
  end.

(** [close] used as a number: [None] raises. *)
Definition close_of (ctx : context) : result float :=
  match x_close ctx with Some c => Ok c | None => Err TypeError end.

Fixpoint any_near (close : float) (max_dist : num) (obs : list block_view) : result bool :=
  match obs with
  | [] => Ok false
  | ob :: rest =>
      if bv_mitigated ob then any_near close max_dist rest
      else
        let dist := fmin (fabs (fsub close (bv_low ob))) (fabs (fsub close (bv_high ob))) in
        q ← fdiv dist close;
        if le_num (fmul q (fZ 100)) max_dist then Ok true else any_near close max_dist rest
  end.

Definition _eval_near_order_block (max_dist : num) (ctx : context) : result bool :=
  match List.filter (λ ob, negb (bv_mitigated ob)) (x_order_blocks ctx) with
  | [] => Ok false
  | _ => close ← close_of ctx; any_near close max_dist (x_order_blocks ctx)
  end.

Definition _eval_funding_rate (mn mx : option num) (ctx : context) : bool :=
  match x_funding_rate ctx with
  | Some fr => if is_fresh fr then _between (fu_value fr) mn mx else false
  | None => false
  end.

Definition _eval_above_below_vwap (position : string) (ctx : context) : result bool :=
  match x_vwap ctx with
  | None => Ok false
  | Some vwap =>
      close ← close_of ctx;
      Ok (if String.eqb position "above" then fgt close vwap else flt close vwap)
  end.

(** [FILTER_FNS[ftype](node, ctx)] *)
Definition eval_leaf (f : leaf) (ctx : context) : result bool :=
  match f with
  | VolumeChange r b mn mx => pct ← _volume_change_pct ctx r b; Ok (_between pct mn mx)
  | PriceChange w mn mx => pct ← _price_change_pct ctx w; Ok (_between pct mn mx)
  | StructureEvent ev since => _eval_structure_event ev since ctx
  | LiquiditySweep since => _eval_liquidity_sweep since ctx
  | NearOrderBlock d => _eval_near_order_block d ctx
  | FundingRate mn mx => Ok (_eval_funding_rate mn mx ctx)
  | OiChange mn mx w => pct ← _oi_change_pct ctx w; Ok (_between pct mn mx)
  | AboveBelowVwap p => _eval_above_below_vwap p ctx
  end.

(** [all(...)] and [any(...)] stop at the first child that decides. *)
Fixpoint _eval_node (n : node) (ctx : context) : result bool :=
  match n with
  | NAnd l => (fix all l := match l with
      | [] => Ok true
      | s :: l' => b ← _eval_node s ctx; if b : bool then all l' else Ok false
      end) l
  | NOr l => (fix any l := match l with
      | [] => Ok false
      | s :: l' => b ← _eval_node s ctx; if b : bool then Ok true else any l'
      end) l
  | NLeaf f => eval_leaf f ctx
  end.

(** The same with the matching leaves. *)
Fixpoint _eval_with_matches (n : node) (ctx : context) : result (bool * list leaf) :=
  match n with
  | NAnd l => (fix all matched l := match l with
      | [] => Ok (true, matched)
      | s :: l' =>
          '(ok, m) ← _eval_with_matches s ctx;
          if ok : bool then all (matched ++ m) l' else Ok (false, [])
      end) [] l
  | NOr l => (fix any matched l := match l with
      | [] => Ok (match matched with [] => false | _ => true end, matched)
      | s :: l' =>
          '(ok, m) ← _eval_with_matches s ctx;
          any (if ok : bool then matched ++ m else matched) l'
      end) [] l
  | NLeaf f => b ← eval_leaf f ctx; Ok (if b : bool then (true, [f]) else (false, []))
  end.

(** ** What validation guarantees *)

Definition wf_leaf (f : leaf) : Prop :=
  match f with
  | VolumeChange r b mn mx => (1 ≤ r)%Z ∧ (1 ≤ b)%Z ∧ min_over_max mn mx = false
  | PriceChange w mn mx => (1 ≤ w)%Z ∧ min_over_max mn mx = false
  | StructureEvent ev since => ev ∈ EVENT_TYPES ∧ (1 ≤ since)%Z
  | LiquiditySweep since => (1 ≤ since)%Z
  | NearOrderBlock (NInt z) => (0 ≤ z)%Z
  | NearOrderBlock (NFloat x) => flt x fzero = false
  | FundingRate mn mx => min_over_max mn mx = false
  | OiChange mn mx w => (1 ≤ w)%Z ∧ min_over_max mn mx = false
  | AboveBelowVwap p => p = "above" ∨ p = "below"
  end.

Inductive wf_node : node → Prop :=
| wf_and l : l ≠ [] → Forall wf_node l → wf_node (NAnd l)
| wf_or l : l ≠ [] → Forall wf_node l → wf_node (NOr l)
| wf_leaf_node f : wf_leaf f → wf_node (NLeaf f).

Lemma int_or_pos key default d u :
  check_int_key d key = Ok u → (1 ≤ default)%Z → (1 ≤ int_or key default d)%Z.
Proof.
  unfold check_int_key, int_or. destruct (assoc key d) as [[]|]; try done.
  intros Hz%reject_if_Ok _. by apply Z.ltb_ge in Hz.
Qed.

Lemma validate_leaf_wf ftype d f : validate_leaf ftype d = Ok f → wf_leaf f.
Proof.
  unfold validate_leaf. destruct (assoc ftype FILTER_KEYS) as [allowed|] eqn:Ea; [|done].
  intros (u & _ & ([] & Hints & H)%res_bind_Ok)%res_bind_Ok.
  apply res_bind_Ok in H as (mn & _ & (mx & _ & (u2 & Hmm%reject_if_Ok & H)%res_bind_Ok)%res_bind_Ok).
  assert (∀ key df, key ∈ default [] (assoc ftype INT_KEYS_BY_FILTER) → (1 ≤ df)%Z →
    (1 ≤ int_or key df d)%Z) as Hint.
  { intros key df Hk Hdf. pose proof (proj1 (res_iter_Ok _ _) Hints key Hk) as Hu'.
    by eapply int_or_pos. }
  assert (ftype ∈ map fst FILTER_KEYS) as Hin.
  { apply assoc_elem in Ea. apply list_elem_of_fmap. by exists (ftype, allowed). }
  unfold FILTER_KEYS in Hin. simpl in Hin. rewrite !elem_of_cons, elem_of_nil in Hin.
  destruct_or! Hin; subst ftype; simpl in *; try done.
  all: try (injection H as <-; cbn [wf_leaf]; split_and?; try done; (apply Hint; [set_solver|lia])).
  - apply res_bind_Ok in H as (ev & Hev & [= <-]). unfold check_event in Hev.
    repeat case_match; simplify_eq. split; [by apply str_in_spec|]. apply Hint; [set_solver|lia].
  - apply res_bind_Ok in H as (x & Hx & [= <-]). unfold check_distance in Hx.
    repeat case_match; simplify_eq; simpl; [by apply Z.ltb_ge|done].
  - apply res_bind_Ok in H as (p & Hp & [= <-]). unfold check_position in Hp.
    repeat case_match; simplify_eq. simpl.
    match goal with H : str_in _ _ = true |- _ => apply str_in_spec in H end. set_solver.
Qed.

Lemma res_map_wf (f : pyval → result node) l ns :
  Forall (λ x, ∀ n, f x = Ok n → wf_node n) l → res_map f l = Ok ns → Forall wf_node ns.
Proof.
  revert ns. induction l as [|x l IH]; intros ns; simpl; [intros _ [= <-]; constructor|].
  intros [Hx Hl]%Forall_cons (y & Hy & (ys & Hys & [= <-])%res_bind_Ok)%res_bind_Ok. constructor; eauto.
Qed.

(** The inner loop of [_validate_node] is [res_map]. *)
Lemma validate_go l :
  (fix go l := match l with
   | [] => Ok []
   | z :: l' => a ← _validate_node z; b ← go l'; Ok (a :: b)
   end) l = res_map _validate_node l.
Proof. induction l as [|x l IH]; simpl; [done|]. by rewrite IH. Qed.

Lemma validate_node_wf v n : _validate_node v = Ok n → wf_node n.
Proof.
  revert n. enough ((∀ n, _validate_node v = Ok n → wf_node n) ∧
    match v with PList l => Forall (λ x, ∀ n, _validate_node x = Ok n → wf_node n) l | _ => True end)
    by naive_solver.
  induction v as [| | | | |l IH|d IH] using pyval_ind'; try (by split).
  { split; [done|]. eapply Forall_impl; [exact IH|]. by intros x []. }
  split; [|done]. intros n. cbn [_validate_node].
  destruct (assoc "type" d) as [[| | | |ftype| |]|]; try done.
  destruct (str_in ftype ["and"; "or"]).
  - intros (u & _ & (subs & Hsubs & [= <-])%res_bind_Ok)%res_bind_Ok.
    assert (subs ≠ [] ∧ Forall wf_node subs) as [Hne Hwf]; [|destruct (String.eqb _ _); by constructor].
    revert IH Hsubs. generalize d. intros l. induction l as [|[k sub] l IHl]; [done|].
    intros [[_ Hsub] Hl]%Forall_cons. destruct (String.eqb k "filters"); [|by apply IHl].
    destruct sub as [| | | | |[|x xs]|]; try done. simpl in Hsub. apply Forall_cons in Hsub as [Hx Hxs].
    intros (y & Hy & (ys & Hys & [= <-])%res_bind_Ok)%res_bind_Ok. split; [done|].
    constructor; [by apply Hx|]. rewrite validate_go in Hys. by eapply res_map_wf.
  - intros (f & Hf & [= <-])%res_bind_Ok. constructor. by eapply validate_leaf_wf.
Qed.

Lemma validate_filters_wf v combine n : validate_filters v combine = Ok n → wf_node n.
Proof.
  unfold validate_filters. cbv zeta. destruct (negb _); [done|].
  set (items := match v with PList l => l | _ => _ end).
  intros (u & Hne%reject_if_Ok & (ns & Hns & [= <-])%res_bind_Ok)%res_bind_Ok.
  assert (Forall wf_node ns) as Hwf.
  { eapply res_map_wf; [|exact Hns]. apply Forall_forall. intros x _. apply validate_node_wf. }
  assert (ns ≠ []) by (destruct items; [done|]; simpl in Hns; intros ->;
    apply res_bind_Ok in Hns as (? & _ & (? & _ & ?)%res_bind_Ok); done).
  destruct (String.eqb _ _); by constructor.
Qed.

(** ** Evaluation is total on real market data *)

(** A context with at least one bar and a price: what [_build_context] and
    [_clause_context] produce. *)
Definition good_context (ctx : context) : Prop :=
  x_candles ctx ≠ [] ∧ ∃ c, x_close ctx = Some c ∧ ftruthy c = true.

Lemma fdiv_truthy x y : ftruthy y = true → ∃ q, fdiv (C := ErrorCode) x y = Ok q.
Proof. destruct y; simpl; eauto. done. Qed.

Lemma from_end_Ok {A} (l : list A) k :
  (1 ≤ k ≤ Z.of_nat (length l))%Z → ∃ x, from_end l k = Ok x.
Proof.
  intros Hk. unfold from_end, index.
  destruct (lookup_lt_is_Some_2 l (Z.to_nat (Z.of_nat (length l) - k))) as [x ->]; [lia|eauto].
Qed.

Lemma change_pct_Ok a b : ftruthy b = true → ∃ p, change_pct a b = Ok p.
Proof. intros Hb. unfold change_pct. destruct (fdiv_truthy a b Hb) as [q ->]. simpl. eauto. Qed.

Lemma price_change_Ok ctx w : (1 ≤ w)%Z → x_candles ctx ≠ [] → ∃ p, _price_change_pct ctx w = Ok p.
Proof.
  intros Hw Hne. unfold _price_change_pct. cbv zeta. destruct (Z.ltb_spec (Z.of_nat (length (map c_close (x_candles ctx)))) (w + 1)); [eauto|].
  destruct (from_end_Ok (map c_close (x_candles ctx)) (w + 1)) as [b ->]; [lia|]. simpl.
  destruct (ftruthy b) eqn:E; simpl; [|eauto].
  destruct (from_end_Ok (map c_close (x_candles ctx)) 1) as [l ->]; [lia|]. simpl.
  destruct (change_pct_Ok l b E) as [p ->]. simpl. eauto.
Qed.

Lemma volume_change_Ok ctx r b : ∃ p, _volume_change_pct ctx r b = Ok p.
Proof.
  unfold _volume_change_pct. cbv zeta. destruct (_ <? _)%Z; [eauto|].
  destruct (fle _ fzero) eqn:E; [eauto|].
  destruct (change_pct_Ok (fsum (skipn (length (map volume_of (x_candles ctx)) - Z.to_nat r) (map volume_of (x_candles ctx))))
    (fsum (slice (map volume_of (x_candles ctx))
      (length (map volume_of (x_candles ctx)) - Z.to_nat r - Z.to_nat b)
      (length (map volume_of (x_candles ctx)) - Z.to_nat r)))) as [p ->]; [|simpl; eauto].
  match goal with |- ftruthy ?x = true => destruct x; try done end.
Qed.

Lemma oi_change_Ok ctx w : (1 ≤ w)%Z → ∃ p, _oi_change_pct ctx w = Ok p.
Proof.
  intros Hw. unfold _oi_change_pct. cbv zeta. set (fresh := List.filter _ _).
  destruct (Z.ltb_spec (Z.of_nat (length fresh)) (w + 1)); [eauto|].
  destruct (from_end_Ok fresh 1) as [l ->]; [lia|]. destruct (from_end_Ok fresh (1 + w)) as [b ->]; [lia|].
  simpl. destruct (fu_value l) as [lv|]; [|eauto]. destruct (fu_value b) as [bv|]; [|eauto].
  destruct (ftruthy lv && ftruthy bv) eqn:E; [|eauto]. apply andb_true_iff in E as [_ E].
  destruct (change_pct_Ok lv bv E) as [p ->]. simpl. eauto.
Qed.

Lemma cutoff_Ok ctx since : (1 ≤ since)%Z → x_candles ctx ≠ [] → ∃ t, cutoff_of ctx since = Ok t.
Proof.
  intros Hs Hne. unfold cutoff_of, index.
  destruct (lookup_lt_is_Some_2 (x_candles ctx)
    (Z.to_nat (Z.max 0 (Z.of_nat (length (x_candles ctx)) - since)))) as [c ->]; [|simpl; eauto].
  destruct (x_candles ctx); [done|]. cbn [length]. lia.
Qed.

Lemma any_near_Ok close d obs : ftruthy close = true → ∃ b, any_near close d obs = Ok b.
Proof.
  intros Hc. induction obs as [|ob obs IH]; cbn [any_near]; [eauto|].
  destruct (bv_mitigated ob); [done|]. cbv zeta.
  destruct (fdiv_truthy (fmin (fabs (fsub close (bv_low ob))) (fabs (fsub close (bv_high ob)))) close Hc)
    as [q ->]. cbn [mbind res_bind]. destruct (le_num _ _); eauto.
Qed.

Lemma eval_leaf_total f ctx : wf_leaf f → good_context ctx → ∃ b, eval_leaf f ctx = Ok b.
Proof.
  intros Hf (Hne & c & Hc & Ht). destruct f; cbn [eval_leaf wf_leaf] in *.
  - destruct (volume_change_Ok ctx recent_bars baseline_bars) as [p ->]. simpl. eauto.
  - destruct Hf as [Hw _]. destruct (price_change_Ok ctx window_bars Hw Hne) as [p ->]. simpl. eauto.
  - destruct Hf as [_ Hs]. unfold _eval_structure_event. destruct (x_structure ctx); [|eauto].
    destruct (cutoff_Ok ctx since_bars Hs Hne) as [t ->]. simpl. eauto.
  - unfold _eval_liquidity_sweep. destruct (x_liquidity_zones ctx); [eauto|].
    destruct (cutoff_Ok ctx since_bars Hf Hne) as [t ->]. simpl. eauto.
  - unfold _eval_near_order_block, close_of. rewrite Hc. destruct (List.filter _ _); [eauto|].
    cbn [mbind res_bind]. by apply any_near_Ok.
  - eauto.
  - destruct Hf as [Hw _]. destruct (oi_change_Ok ctx window Hw) as [p ->]. simpl. eauto.
  - unfold _eval_above_below_vwap, close_of. rewrite Hc. destruct (x_vwap ctx); simpl; eauto.
Qed.

Lemma eval_node_total n ctx : wf_node n → good_context ctx → ∃ b, _eval_node n ctx = Ok b.
Proof.
  intros Hn Hctx. induction n as [l IH|l IH|f] using node_ind'; inversion Hn as [? _ Hl|? _ Hl|? Hf]; subst.
  - clear Hn. cbn [_eval_node]. induction l as [|x l IHl]; [eauto|].
    apply Forall_cons in IH as [IHx IH], Hl as [Hx Hl]. destruct (IHx Hx) as [b ->].
    cbn [mbind res_bind]. destruct b; [by apply IHl|eauto].
  - clear Hn. cbn [_eval_node]. induction l as [|x l IHl]; [eauto|].
    apply Forall_cons in IH as [IHx IH], Hl as [Hx Hl]. destruct (IHx Hx) as [b ->].
    cbn [mbind res_bind]. destruct b; [eauto|by apply IHl].
  - by apply eval_leaf_total.
Qed.

(** ** The reported matches *)

Fixpoint leaves (n : node) : list leaf :=
  match n with
  | NAnd l | NOr l => concat (map leaves l)
  | NLeaf f => [f]
  end.

(** A list of leaves that explains the verdict [b]. *)
Definition explains (n : node) (ctx : context) (b : bool) (ms : list leaf) : Prop :=
  (b = true ↔ ms ≠ []) ∧ ∀ f, f ∈ ms → f ∈ leaves n ∧ eval_leaf f ctx = Ok true.

Lemma with_matches_sound n ctx b ms :
  wf_node n → _eval_with_matches n ctx = Ok (b, ms) → _eval_node n ctx = Ok b ∧ explains n ctx b ms.
Proof.
  revert b ms. induction n as [l IH|l IH|f] using node_ind'; intros b ms Hn;
    inversion Hn as [? Hne Hl|? Hne Hl|? Hf]; subst; cbn [_eval_node _eval_with_matches].
  - (* AND: what was matched so far explains the children seen so far *)
    match goal with |- ?f [] l = _ → ?g l = _ ∧ _ => set (loop := f); set (eval := g) end.
    enough (∀ acc, (acc ≠ [] ∨ l ≠ []) → loop acc l = Ok (b, ms) →
      eval l = Ok b ∧ (b = true ↔ ms ≠ []) ∧
      ∀ f, f ∈ ms → f ∈ acc ∨ (f ∈ leaves (NAnd l) ∧ eval_leaf f ctx = Ok true)) as Hgen.
    { intros H. destruct (Hgen [] (or_intror Hne) H) as (? & ? & Hms). split; [done|]. split; [done|].
      intros f Hf. by destruct (Hms f Hf) as [?%not_elem_of_nil|?]. }
    clear Hn Hne. induction l as [|x l IHl]; intros acc Hacc; subst loop eval; cbn.
    { intros [= <- <-]. split; [done|]. split; [naive_solver|]. by left. }
    apply Forall_cons in IH as [IHx IH], Hl as [Hx Hl].
    intros ([ok m] & Hxm & Hrest)%res_bind_Ok. destruct (IHx _ _ Hx Hxm) as [-> [Hok Hm]]. cbn.
    destruct ok.
    + destruct (IHl IH Hl (acc ++ m)) as (He & Hb & Hms); [|exact Hrest|].
      { left. intros [_ ?]%app_eq_nil. by apply Hok. }
      split; [done|]. split; [done|]. intros f Hf. destruct (Hms f Hf) as [Hin|[Hin ?]].
      * apply elem_of_app in Hin as [?|Hin]; [by left|right]. destruct (Hm f Hin) as [? ?].
        split; [|done]. apply elem_of_app. by left.
      * right. split; [|done]. apply elem_of_app. by right.
    + injection Hrest as <- <-. split; [done|]. split; [done|]. by intros f ?%not_elem_of_nil.
  - match goal with |- ?f [] l = _ → ?g l = _ ∧ _ => set (loop := f); set (eval := g) end.
    enough (∀ acc, loop acc l = Ok (b, ms) →
      (acc = [] → eval l = Ok b) ∧ (acc ≠ [] → b = true) ∧ (b = true ↔ ms ≠ []) ∧
      ∀ f, f ∈ ms → f ∈ acc ∨ (f ∈ leaves (NOr l) ∧ eval_leaf f ctx = Ok true)) as Hgen.
    { intros H. destruct (Hgen [] H) as (He & _ & ? & Hms). split; [by apply He|]. split; [done|].
      intros f Hf. by destruct (Hms f Hf) as [?%not_elem_of_nil|?]. }
    clear Hn Hne. induction l as [|x l IHl]; intros acc; subst loop eval; cbn.
    { intros [= <- <-]. destruct acc; split_and!; try done; by left. }
    apply Forall_cons in IH as [IHx IH], Hl as [Hx Hl].
    intros ([ok m] & Hxm & Hrest)%res_bind_Ok. destruct (IHx _ _ Hx Hxm) as [-> [Hok Hm]].
    destruct (IHl IH Hl _ Hrest) as (He & Hb & Hbm & Hms). cbn. split_and!; [|..|done|].
    + intros ->. destruct ok; [|by apply He]. simpl in *. rewrite Hb; [done|by apply Hok].
    + intros Ha. apply Hb. destruct ok; [|done]. intros [? _]%app_eq_nil. done.
    + intros f Hf. destruct (Hms f Hf) as [Hin|[Hin ?]].
      * destruct ok; [|by left]. apply elem_of_app in Hin as [?|Hin]; [by left|right].
        destruct (Hm f Hin). split; [|done]. apply elem_of_app. by left.
      * right. split; [|done]. apply elem_of_app. by right.
  - intros (r & Hr & H)%res_bind_Ok. rewrite Hr. destruct r; injection H as <- <-; (split; [done|]);
      split; [done| |done|]; intros g.
    + intros ->%list_elem_of_singleton. split; [by left|done].
    + by intros ?%not_elem_of_nil.
Qed.

(** What a filter says of a context. *)
Inductive holds (ctx : context) : node → Prop :=
| holds_and l : Forall (holds ctx) l → holds ctx (NAnd l)
| holds_or l : Exists (holds ctx) l → holds ctx (NOr l)
| holds_leaf f : eval_leaf f ctx = Ok true → holds ctx (NLeaf f).

Lemma eval_node_holds n ctx b : _eval_node n ctx = Ok b → b = true ↔ holds ctx n.
Proof.
  revert b. induction n as [l IH|l IH|f] using node_ind'; intros b; cbn [_eval_node].
  - assert (holds ctx (NAnd l) ↔ Forall (holds ctx) l) as -> by (split; [by inversion 1|by constructor]).
    revert IH. induction l as [|x l IHl]; intros IH; [intros [= <-]; split; [constructor|done]|].
    apply Forall_cons in IH as [IHx IH]. intros (bx & Hx & Hr)%res_bind_Ok. rewrite Forall_cons, <- (IHx _ Hx).
    destruct bx; [rewrite (IHl IH Hr); naive_solver|injection Hr as <-; naive_solver].
  - assert (holds ctx (NOr l) ↔ Exists (holds ctx) l) as -> by (split; [by inversion 1|by constructor]).
    revert IH. induction l as [|x l IHl]; intros IH; [intros [= <-]; split; [done|by inversion 1]|].
    apply Forall_cons in IH as [IHx IH]. intros (bx & Hx & Hr)%res_bind_Ok. rewrite Exists_cons, <- (IHx _ Hx).
    destruct bx; [injection Hr as <-; naive_solver|rewrite (IHl IH Hr); naive_solver].
  - intros E. split; [by intros ->; constructor|]. inversion 1; congruence.
Qed.

(** A validated filter can never crash a scan or the alarm loop: on any context
    with a bar and a non-zero price its evaluation ends in a verdict. *)
Theorem validated_filters_total v combine n ctx :
  validate_filters v combine = Ok n → good_context ctx → ∃ b, _eval_node n ctx = Ok b.
Proof. intros Hn. apply eval_node_total. by eapply validate_filters_wf. Qed.

(** For a validated filter, the evaluation that also reports matches agrees
    with the plain one, and its report is an explanation: non-empty exactly when
    the filter matches, and made of leaves of the filter that hold. *)
Theorem eval_with_matches_agrees v combine n ctx b ms :
  validate_filters v combine = Ok n → _eval_with_matches n ctx = Ok (b, ms) →
  _eval_node n ctx = Ok b ∧ explains n ctx b ms.
Proof. intros Hn. apply with_matches_sound. by eapply validate_filters_wf. Qed.

(** On a tree that validation rejects the two can differ. *)
Example empty_and_disagrees :
  (_eval_node (NOr [NAnd []]) (mk_context [] None None [] [] None [] None),
   _eval_with_matches (NOr [NAnd []]) (mk_context [] None None [] [] None [] None))
  = (Ok true, Ok (false, [])).
Proof. reflexivity. Qed.

(** ** Witnesses *)

Definition sample_filter : pyval :=
  PList [PDict [("type", PStr "or"); ("filters", PList [
    PDict [("type", PStr "price_change"); ("window_bars", PInt 1); ("min", PInt 5)];
    PDict [("type", PStr "above_below_vwap"); ("position", PStr "above")]])]].
Definition sample_context : context :=
  mk_context [bar 0 10 10 10; bar 1 12 10 12] (Some (fZ 12)) None [] [] None [] (Some (fZ 11)).

Lemma sample_context_good : good_context sample_context.
Proof. split; [discriminate|]. exists (fZ 12). split; reflexivity. Defined.

Lemma validated_filters_total_witness :
  ∃ n b, validate_filters sample_filter "and" = Ok n ∧ _eval_node n sample_context = Ok b.
Proof.
  destruct (validate_filters sample_filter "and") as [n|e] eqn:E; [|vm_compute in E; discriminate E].
  destruct (validated_filters_total sample_filter "and" n sample_context E sample_context_good) as [b Hb].
  exists n, b. split; [reflexivity|exact Hb].
Defined.

Lemma eval_with_matches_agrees_witness :
  ∃ n ms, validate_filters sample_filter "and" = Ok n ∧ length ms = 2%nat ∧
    _eval_node n sample_context = Ok true ∧ explains n sample_context true ms.
Proof.
  destruct (validate_filters sample_filter "and") as [n|e] eqn:E; [|vm_compute in E; discriminate E].
  destruct (_eval_with_matches n sample_context) as [[b ms]|e] eqn:Em;
    [|vm_compute in E; injection E as <-; vm_compute in Em; discriminate Em].
  assert (b = true ∧ length ms = 2%nat) as [-> Hlen]
    by (vm_compute in E; injection E as <-; vm_compute in Em; injection Em as <- <-; split; reflexivity).
  exists n, ms. split; [reflexivity|]. split; [exact Hlen|].
  exact (eval_with_matches_agrees sample_filter "and" n sample_context true ms E Em).
Defined.
