(* ===== verification/Monad.v ===== *)
(** Stateful computations that may raise: [ST S A] threads a state [S] and ends
    in a value or an exception.  As in Python, the state changes made before an
    exception stay; only a database transaction rolls back (file [Db]). *)

From S2P Require Import Prelude PyFloat PyVal Errors.

Definition ST (S A : Type) : Type := S → result A * S.

#[export] Instance ST_ret {S} : MRet (ST S) := λ A a s, (Ok a, s).
#[export] Instance ST_bind {S} : MBind (ST S) := λ A B f m s,
  match m s with
  | (Ok a, s') => f a s'
  | (Err e, s') => (Err e, s')
  end.

Section Ops.
Context {S : Type}.

Definition throw {A} (e : pyexn) : ST S A := λ s, (Err e, s).
Definition raise_ {A} (c : ErrorCode) : ST S A := throw (RasatError c).
(** A pure check or computation that may raise. *)
Definition lift {A} (r : result A) : ST S A := λ s, (r, s).
Definition gets {A} (f : S → A) : ST S A := λ s, (Ok (f s), s).
Definition modify (f : S → S) : ST S unit := λ s, (Ok tt, f s).

(** [try: m except ...: h]: [h] answers [None] for what it does not catch. *)
Definition try_except {A} (m : ST S A) (h : pyexn → option (ST S A)) : ST S A := λ s,
  match m s with
  | (Ok a, s') => (Ok a, s')
  | (Err e, s') => match h e with Some k => k s' | None => (Err e, s') end
  end.

(** The outcome of [m] as a value: for code that branches on the exception. *)
Definition attempt {A} (m : ST S A) : ST S (result A) := λ s,
  let '(r, s') := m s in (Ok r, s').

(** [for x in l: f(x)] with an accumulator. *)
Fixpoint foldM {A B} (f : B → A → ST S B) (b : B) (l : list A) : ST S B :=
  match l with
  | [] => mret b
  | x :: l' => b' ← f b x; foldM f b' l'
  end.

Fixpoint mapM {A B} (f : A → ST S B) (l : list A) : ST S (list B) :=
  match l with
  | [] => mret []
  | x :: l' => y ← f x; ys ← mapM f l'; mret (y :: ys)
  end.
End Ops.

(** ** Reasoning: what every run of a computation does to the state

    [steps R m]: whatever the outcome of [m], exceptions included, the state
    before and after are related by [R].  For a preorder [R] the rules below
    follow the structure of the program. *)

Definition steps {S A} (R : relation S) (m : ST S A) : Prop := ∀ s, R s (m s).2.

Section Steps.
Context {S : Type} (R : relation S) `{!PreOrder R}.

Lemma steps_ret {A} (a : A) : steps R (mret a : ST S A).
Proof. intros s. simpl. reflexivity. Qed.

Lemma steps_throw {A} e : steps R (throw e : ST S A).
Proof. intros s. simpl. reflexivity. Qed.

Lemma steps_raise {A} c : steps R (raise_ c : ST S A).
Proof. apply steps_throw. Qed.

Lemma steps_lift {A} (r : result A) : steps R (lift r).
Proof. intros s. simpl. reflexivity. Qed.

Lemma steps_gets {A} (f : S → A) : steps R (gets f).
Proof. intros s. simpl. reflexivity. Qed.

Lemma steps_bind {A B} (m : ST S A) (f : A → ST S B) :
  steps R m → (∀ a, steps R (f a)) → steps R (m ≫= f).
Proof.
  intros Hm Hf s. specialize (Hm s). unfold mbind, ST_bind.
  destruct (m s) as [[a|e] s'] eqn:E; simpl in *; [|done].
  etrans; [exact Hm|apply Hf].
Qed.

Lemma steps_try {A} (m : ST S A) h :
  steps R m → (∀ e k, h e = Some k → steps R k) → steps R (try_except m h).
Proof.
  intros Hm Hh s. specialize (Hm s). unfold try_except.
  destruct (m s) as [[a|e] s'] eqn:E; simpl in *; [done|].
  destruct (h e) as [k|] eqn:He; simpl; [|done].
  etrans; [exact Hm|]. by apply (Hh e k).
Qed.

Lemma steps_attempt {A} (m : ST S A) : steps R m → steps R (attempt m).
Proof. intros Hm s. specialize (Hm s). unfold attempt. by destruct (m s). Qed.

Lemma steps_foldM {A B} (f : B → A → ST S B) b l :
  (∀ b x, x ∈ l → steps R (f b x)) → steps R (foldM f b l).
Proof.
  revert b. induction l as [|x l IH]; intros b Hf; simpl; [apply steps_ret|].
  apply steps_bind; [apply Hf; set_solver|]. intros b'. apply IH.
  intros; apply Hf; set_solver.
Qed.

Lemma steps_mapM {A B} (f : A → ST S B) l :
  (∀ x, x ∈ l → steps R (f x)) → steps R (mapM f l).
Proof.
  induction l as [|x l IH]; intros Hf; simpl; [apply steps_ret|].
  apply steps_bind; [apply Hf; set_solver|]. intros y.
  apply steps_bind; [apply IH; intros; apply Hf; set_solver|]. intros ys.
  apply steps_ret.
Qed.
End Steps.

Lemma steps_mono {S A} (R R' : relation S) (m : ST S A) :
  (∀ s s', R s s' → R' s s') → steps R m → steps R' m.
Proof. intros HR Hm s. apply HR, Hm. Qed.

(** Walk through a program: binds, branches, loops, handlers. *)
Ltac steps_tac :=
  repeat first
  [ apply steps_ret; typeclasses eauto
  | apply steps_throw; typeclasses eauto
  | apply steps_raise; typeclasses eauto
  | apply steps_lift; typeclasses eauto
  | apply steps_gets; typeclasses eauto
  | apply steps_bind; [typeclasses eauto| |intros ?]
  | apply steps_attempt
  | progress (auto with steps)
  | match goal with
    | |- steps _ (match ?x with _ => _ end) => destruct x eqn:?
    | |- steps _ (let '_ := ?x in _) => destruct x eqn:?
    | |- steps _ (if ?b then _ else _) => destruct b eqn:?
    end ].

Create HintDb steps.

(** Runs of a bind that succeeded. *)
Lemma ST_bind_Ok {S A B} (m : ST S A) (f : A → ST S B) s b s'' :
  (m ≫= f) s = (Ok b, s'') → ∃ a s', m s = (Ok a, s') ∧ f a s' = (Ok b, s'').
Proof.
  unfold mbind, ST_bind. destruct (m s) as [[a|e] s'] eqn:E; [|done]. eauto.
Qed.

Lemma ST_bind_run {S A B} (m : ST S A) (f : A → ST S B) s a s' :
  m s = (Ok a, s') → (m ≫= f) s = f a s'.
Proof. unfold mbind, ST_bind. by intros ->. Qed.

(** ** Reasoning: the result and final state of one run

    [wp m Q s]: running [m] from [s] ends with a result and a state that satisfy
    [Q], exceptions included. *)

Definition wp {S A} (m : ST S A) (Q : result A → S → Prop) (s : S) : Prop :=
  Q (m s).1 (m s).2.

Section Wp.
Context {S : Type}.

Lemma wp_run {A} (m : ST S A) Q s r s' : wp m Q s → m s = (r, s') → Q r s'.
Proof. unfold wp. by intros H E; rewrite E in H. Qed.

Lemma wp_ret {A} (a : A) (Q : result A → S → Prop) s : Q (Ok a) s → wp (mret a) Q s.
Proof. done. Qed.
Lemma wp_throw {A} e (Q : result A → S → Prop) s : Q (Err e) s → wp (throw e) Q s.
Proof. done. Qed.
Lemma wp_raise {A} c (Q : result A → S → Prop) s : Q (Err (RasatError c)) s → wp (raise_ c) Q s.
Proof. done. Qed.
Lemma wp_lift {A} (r : result A) (Q : result A → S → Prop) s : Q r s → wp (lift r) Q s.
Proof. done. Qed.
Lemma wp_gets {A} (f : S → A) (Q : result A → S → Prop) s : Q (Ok (f s)) s → wp (gets f) Q s.
Proof. done. Qed.
Lemma wp_modify f (Q : result unit → S → Prop) s : Q (Ok tt) (f s) → wp (modify f) Q s.
Proof. done. Qed.

Lemma wp_bind {A B} (m : ST S A) (f : A → ST S B) Q s :
  wp m (λ r s', match r with Ok a => wp (f a) Q s' | Err e => Q (Err e) s' end) s →
  wp (m ≫= f) Q s.
Proof. unfold wp, mbind, ST_bind. by destruct (m s) as [[a|e] s']. Qed.

(** A check that raises, or goes on. *)
Lemma wp_lift_bind {A B} (r : result A) (f : A → ST S B) Q s :
  (∀ e, r = Err e → Q (Err e) s) → (∀ a, r = Ok a → wp (f a) Q s) → wp (lift r ≫= f) Q s.
Proof. intros He Ha. apply wp_bind, wp_lift. destruct r; auto. Qed.

Lemma wp_attempt {A} (m : ST S A) Q s :
  wp m (λ r s', Q (Ok r) s') s → wp (attempt m) Q s.
Proof. unfold wp, attempt. by destruct (m s). Qed.

Lemma wp_mono {A} (m : ST S A) (Q Q' : result A → S → Prop) s :
  wp m Q s → (∀ r s', Q r s' → Q' r s') → wp m Q' s.
Proof. unfold wp. auto. Qed.

Lemma wp_steps {A} R (m : ST S A) Q s :
  steps R m → (∀ r s', R s s' → Q r s') → wp m Q s.
Proof. intros Hm HQ. apply HQ, Hm. Qed.

Lemma steps_wp {A} R (m : ST S A) : (∀ s, wp m (λ _ s', R s s') s) → steps R m.
Proof. intros H s. apply (H s). Qed.

(** Loops: an invariant of the accumulator and the state, kept by each turn;
    an exception ends the loop. *)
Lemma wp_foldM {A B} (f : B → A → ST S B) (I : B → S → Prop) (E : pyexn → S → Prop) b l s :
  I b s →
  (∀ b x s, x ∈ l → I b s →
    wp (f b x) (λ r s', match r with Ok b' => I b' s' | Err e => E e s' end) s) →
  wp (foldM f b l) (λ r s', match r with Ok b' => I b' s' | Err e => E e s' end) s.
Proof.
  revert b s. induction l as [|x l IH]; intros b s Hi Hf; simpl; [by apply wp_ret|].
  apply wp_bind. eapply wp_mono; [apply Hf; [by left|done]|].
  intros [b'|e] s' Hb; [|done]. apply IH; [done|]. intros; apply Hf; [by right|done].
Qed.
End Wp.
