(* ===== verification/Server.v ===== *)
(** [daemon/readiness.py], [daemon/server.py] and [build_dispatcher] of
    [daemon/handlers.py]: the readiness states, and the gates a request passes
    before a tool handler runs. *)

From Stdlib Require Import ZArith Ascii String.
From S2P Require Import Prelude PyFloat PyVal Errors Schema Tools Monad.
Local Open Scope string_scope.
Local Open Scope list_scope.

(** ** Readiness *)

Module Readiness.
Definition STATES : list string := ["starting"; "migrating"; "warming_up"; "ready"; "stopping"].

Record t := mk {
  state : string;
  event : bool;
  history : list string }.

Definition init : t := mk "starting" false ["starting"].

Definition is_ready (r : t) : bool := String.eqb (state r) "ready".

(** [STATES.index(s)] *)
Fixpoint index (s : string) (l : list string) : nat :=
  match l with [] => 0 | x :: l' => if String.eqb x s then 0 else S (index s l') end.

(** [ReadinessError] is a plain exception of the module. *)
Definition set_state (s : string) (r : t) : res unit t :=
  if negb (str_in s STATES) then Err tt
  else if String.eqb s "starting" && negb (String.eqb (state r) "starting") then Err tt
  else if negb (String.eqb s "starting") && negb (str_in (state r) (take (index s STATES) STATES)) then Err tt
  else Ok (mk s (event r || String.eqb s "ready") (history r ++ [s])).

(** A caller that ignores refusals. *)
Definition run (l : list string) (r : t) : t :=
  foldl (λ r s, match set_state s r with Ok r' => r' | Err _ => r end) r l.

Definition rank (s : string) : nat := index s STATES.

(** The history never goes back; only repeated [starting] stays in place. *)
Definition forward (l : list string) : Prop :=
  ∀ i a b, l !! i = Some a → l !! S i = Some b →
    rank a < rank b ∨ a = "starting" ∧ b = "starting".

Record wf (r : t) : Prop := {
  wf_known : state r ∈ STATES;
  wf_last : last (history r) = Some (state r);
  wf_forward : forward (history r);
  wf_event : event r = true ↔ "ready" ∈ history r }.

Lemma STATES_inv s : s ∈ STATES →
  s = "starting" ∨ s = "migrating" ∨ s = "warming_up" ∨ s = "ready" ∨ s = "stopping".
Proof. unfold STATES. set_solver. Qed.

(** The states before [s] have a smaller index, and none comes after the last. *)
Lemma rank_before a s : s ∈ STATES → a ∈ take (index s STATES) STATES → rank a < rank s.
Proof.
  intros [->|[->|[->|[->| ->]]]]%STATES_inv Ha; simpl in Ha;
    repeat (apply elem_of_cons in Ha as [->|Ha]; [unfold rank; simpl; lia|]);
    by apply not_elem_of_nil in Ha.
Qed.

Lemma rank_last s : s ∈ STATES → (rank s ≤ rank "stopping")%nat.
Proof. intros [->|[->|[->|[->| ->]]]]%STATES_inv; unfold rank; simpl; lia. Qed.

Lemma set_state_step s r r' : set_state s r = Ok r' →
  s ∈ STATES ∧ r' = mk s (event r || String.eqb s "ready") (history r ++ [s]) ∧
  (state r ∈ STATES → rank (state r) < rank s ∨ state r = "starting" ∧ s = "starting").
Proof.
  unfold set_state. destruct (str_in s STATES) eqn:Es; simpl; [|done].
  apply str_in_spec in Es. intros H. split; [done|]. revert H.
  destruct (String.eqb_spec s "starting") as [->|Hs]; simpl.
  - destruct (String.eqb_spec (state r) "starting") as [Hr|]; simpl; [|done].
    intros [= <-]. split; [done|]. by right.
  - destruct (str_in (state r) _) eqn:Er; simpl; [|done]. intros [= <-]. split; [done|]. intros _. left.
    by apply rank_before, str_in_spec.
Qed.

Lemma set_state_wf s r r' : wf r → set_state s r = Ok r' → wf r'.
Proof.
  intros [Hk Hl Hf He] (Hs & -> & Hstep)%set_state_step. specialize (Hstep Hk). split; simpl; [done| | |].
  - apply last_snoc.
  - intros i a b Ha Hb. apply lookup_app_Some in Hb as [Hb|[Hi Hb]].
    + rewrite lookup_app_l in Ha by (apply lookup_lt_Some in Hb; lia). by eapply Hf.
    + apply list_lookup_singleton_Some in Hb as [Hi0 <-].
      rewrite lookup_app_l in Ha by lia. rewrite last_lookup in Hl.
      replace (pred (length (history r))) with i in Hl by lia. rewrite Ha in Hl. by simplify_eq.
  - rewrite orb_true_iff, He, elem_of_app, list_elem_of_singleton, String.eqb_eq. naive_solver.
Qed.

Lemma init_wf : wf init.
Proof.
  split; simpl; [left|done| |].
  - intros i a b Ha Hb. destruct i; [|done]. done.
  - split; [done|]. rewrite list_elem_of_singleton. done.
Qed.

(** Whatever is asked of it in whatever order, the readiness machine only
    moves forward, its event is set exactly once [ready] was entered, and a
    [stopping] daemon is never ready again. *)
Theorem readiness_forward l :
  let r := run l init in
  wf r ∧ (is_ready r = true → "stopping" ∉ history r).
Proof.
  cbv zeta. assert (∀ l r, wf r → ("stopping" ∈ history r → state r = "stopping") →
    wf (run l r) ∧ ("stopping" ∈ history (run l r) → state (run l r) = "stopping")) as Hrun.
  { clear l. induction l as [|s l IH]; intros r Hr Hs; [done|]. unfold run. simpl.
    destruct (set_state s r) as [r'|] eqn:E; [|by apply IH]. apply IH; [by eapply set_state_wf|].
    apply set_state_step in E as (Hin & -> & Hstep). simpl.
    rewrite elem_of_app, list_elem_of_singleton. intros [H| ->]; [|done].
    destruct (Hstep (wf_known _ Hr)) as [Hlt|[Heq _]].
    - rewrite (Hs H) in Hlt. pose proof (rank_last s Hin). lia.
    - by rewrite (Hs H) in Heq. }
  destruct (Hrun l init init_wf) as [Hwf Hstop]; [by simpl; rewrite list_elem_of_singleton|].
  split; [done|]. unfold is_ready. intros Hr%String.eqb_eq Hin. by rewrite (Hstop Hin) in Hr.
Qed.
End Readiness.

(** ** Authorization *)

(** [s.partition(" ")]: before the first space, and after it. *)
Fixpoint partition_space (s : string) : string * string :=
  match s with
  | EmptyString => (EmptyString, EmptyString)
  | String c s' =>
      if Ascii.eqb c " " then (EmptyString, s')
      else let '(a, b) := partition_space s' in (String c a, b)
  end.

Definition is_ascii : string → bool := Str.all (λ c, (nat_of_ascii c <? 128)%nat).

(** [hmac.compare_digest] on strings: [TypeError] outside ASCII. *)
Definition compare_digest (a b : string) : result bool :=
  if is_ascii a && is_ascii b then Ok (String.eqb a b) else Err TypeError.

Definition _verify_token (expected_token : string) (auth_header : option string) : result bool :=
  match auth_header with
  | None => Ok false
  | Some h =>
      if Str.empty h then Ok false
      else
        let '(scheme, token) := partition_space h in
        if negb (String.eqb (Str.lower scheme) "bearer") || Str.empty token then Ok false
        else compare_digest token expected_token
  end.

(** ** Requests *)

(** Top-level [request_id] and [idempotency_key] go into the parameters. *)
Definition merge_field (body : list (string * pyval)) (key : string) (merged : list (string * pyval))
    (params : list (string * pyval)) : result (list (string * pyval)) :=
  let get d := default PNone (assoc key d) in
  let is_none v := match v with PNone => true | _ => false end in
  let top := get body in
  if is_none top then Ok merged
  else if negb (is_none (get params)) && negb (py_eq top (get params)) then raise INVALID_REQUEST
  else Ok (assoc_set key top merged).

Definition _merge_transport_fields (body params : list (string * pyval)) : result (list (string * pyval)) :=
  merged ← merge_field body "request_id" params params;
  merge_field body "idempotency_key" merged params.

Definition MAX_BODY_BYTES : Z := 1000000.

(** An answer: data with the request id it echoes, or an error code with its HTTP
    status. *)
Inductive response {D : Type} :=
| OkResponse (data : D) (request_id : option pyval)
| ErrorResponse (code : ErrorCode) (status : Z).
Arguments response : clear implicits.

Definition error_reply {D} (c : ErrorCode) : response D := ErrorResponse c (http_status_for c).

(** The request as the server sees it. *)
Record request := mk_request {
  authorization : option string;
  raw : string }.

(** ** The dispatcher *)

(** [ToolDispatcher.register]: only registered tools get a handler. *)
Definition dispatcher_register {H} (handlers : list (string * H)) (n : string) (h : H)
    : result (list (string * H)) :=
  if has_key n registry then Ok (assoc_set n h handlers) else Err ValueError.

(** The handlers of [handlers.py]. *)
Inductive handler :=
| ping_handler | readiness_handler | candles_handler | ticker_handler | get_symbol_info_handler
| calculate_position_size_handler | execute_on_accounts_handler | place_order_handler
| place_oco_order_handler | close_all_positions_handler | get_total_exposure_handler
| get_account_balance_handler | get_open_orders_handler | get_unprotected_positions_handler
| get_audit_log_handler | add_account_handler | list_accounts_handler | remove_account_handler
| get_market_structure_handler | get_liquidity_zones_handler | get_order_blocks_handler
| get_full_analysis_handler | annotate_chart_handler | get_chart_annotations_handler
| clear_annotations_handler | scan_market_handler | create_alert_handler
| create_composite_alert_handler | list_alerts_handler | delete_alert_handler
| get_triggered_alerts_handler | get_pending_orders_handler | approve_pending_order_handler
| reject_pending_order_handler | enable_real_trading_handler | disable_real_trading_handler
| set_risk_policy_handler | override_risk_policy_handler | get_risk_policy_handler.

#[export] Instance handler_eq_dec : EqDecision handler.
Proof. solve_decision. Defined.

Definition build_dispatcher : result (list (string * handler)) :=
  res_fold (λ d nh, dispatcher_register d nh.1 nh.2) []
    [("ping", ping_handler);
     ("get_readiness", readiness_handler);
     ("get_candles", candles_handler);
     ("get_ticker", ticker_handler);
     ("get_symbol_info", get_symbol_info_handler);
     ("calculate_position_size", calculate_position_size_handler);
     ("execute_on_accounts", execute_on_accounts_handler);
     ("place_order", place_order_handler);
     ("place_oco_order", place_oco_order_handler);
     ("close_all_positions", close_all_positions_handler);
     ("get_total_exposure", get_total_exposure_handler);
     ("get_account_balance", get_account_balance_handler);
     ("get_open_orders", get_open_orders_handler);
     ("get_unprotected_positions", get_unprotected_positions_handler);
     ("get_audit_log", get_audit_log_handler);
     ("add_account", add_account_handler);
     ("list_accounts", list_accounts_handler);
     ("remove_account", remove_account_handler);
     ("get_market_structure", get_market_structure_handler);
     ("get_liquidity_zones", get_liquidity_zones_handler);
     ("get_order_blocks", get_order_blocks_handler);
     ("get_full_analysis", get_full_analysis_handler);
     ("annotate_chart", annotate_chart_handler);
     ("get_chart_annotations", get_chart_annotations_handler);
     ("clear_annotations", clear_annotations_handler);
     ("scan_market", scan_market_handler);
     ("create_alert", create_alert_handler);
     ("create_composite_alert", create_composite_alert_handler);
     ("list_alerts", list_alerts_handler);
     ("delete_alert", delete_alert_handler);
     ("get_triggered_alerts", get_triggered_alerts_handler);
     ("get_pending_orders", get_pending_orders_handler);
     ("approve_pending_order", approve_pending_order_handler);
     ("reject_pending_order", reject_pending_order_handler);
     ("enable_real_trading", enable_real_trading_handler);
     ("disable_real_trading", disable_real_trading_handler);
     ("set_risk_policy", set_risk_policy_handler);
     ("override_risk_policy", override_risk_policy_handler);
     ("get_risk_policy", get_risk_policy_handler)].

Definition dispatcher : list (string * handler) :=
  match build_dispatcher with Ok d => d | Err _ => [] end.

Section Rpc.
Context {S D : Type}.
(** [json.loads], the handlers, and the token of this daemon. *)
Context (json_loads : string → option pyval).
Context (run_handler : handler → list (string * pyval) → ST S D).
Context (token : string).

Definition dispatch (n : string) (params : list (string * pyval)) : ST S D :=
  match assoc n dispatcher with
  | None => raise_ TOOL_NOT_FOUND
  | Some h => run_handler h params
  end.

(** [body.get("params") or {}] *)
Definition params_of (body : list (string * pyval)) : result (list (string * pyval)) :=
  let v := default PNone (assoc "params" body) in
  if truthy v then match v with PDict p => Ok p | _ => raise INVALID_REQUEST end else Ok [].

(** Everything [rpc_handler] checks before it dispatches. *)
Definition admit_request (ready : bool) (raw : string) : result (string * list (string * pyval)) :=
  _ ← reject_if (MAX_BODY_BYTES <? Z.of_nat (String.length raw))%Z INVALID_REQUEST;
  body ← match json_loads raw with
         | Some (PDict b) => Ok b
         | _ => raise INVALID_REQUEST
         end;
  tool ← match assoc "tool" body with
         | Some (PStr t) => if Str.empty t then raise INVALID_REQUEST else Ok t
         | _ => raise INVALID_REQUEST
         end;
  params ← params_of body;
  match assoc tool registry with
  | None => raise TOOL_NOT_FOUND
  | Some spec =>
      _ ← reject_if (negb (allowed_before_ready spec) && negb ready) NOT_READY;
      params ← _merge_transport_fields body params;
      _ ← validate_params (PDict params) (input_schema spec);
      Ok (tool, params)
  end.

(** A missing parameter is the client's error; any other exception is hidden. *)
Definition rpc_reply (params : list (string * pyval)) (r : result D) : result (response D) :=
  match r with
  | Ok data =>
      let id := default PNone (assoc "request_id" params) in
      Ok (OkResponse data (if truthy id then Some id else None))
  | Err (RasatError c) => raise c
  | Err KeyError => raise INVALID_REQUEST
  | Err _ => raise INTERNAL_ERROR
  end.

Definition rpc_handler (ready : bool) (raw : string) : ST S (response D) :=
  '(tool, params) ← lift (admit_request ready raw);
  r ← attempt (dispatch tool params);
  lift (rpc_reply params r).

Definition middleware_reply (r : result (response D)) : response D :=
  match r with
  | Ok resp => resp
  | Err (RasatError c) => error_reply c
  | Err _ => ErrorResponse INTERNAL_ERROR 500
  end.

Definition error_middleware (m : ST S (response D)) : ST S (response D) :=
  r ← attempt m;
  mret (middleware_reply r).

Definition auth_middleware (auth_header : option string) (m : ST S (response D)) : ST S (response D) :=
  ok ← lift (_verify_token token auth_header);
  if negb ok then mret (ErrorResponse UNAUTHORIZED 401) else m.

(** [POST /rpc] *)
Definition serve_rpc (readiness : Readiness.t) (req : request) : ST S (response D) :=
  auth_middleware (authorization req)
    (error_middleware (rpc_handler (Readiness.is_ready readiness) (raw req))).

(** ** The gates *)

Lemma admit_Ok ready raw tool params :
  admit_request ready raw = Ok (tool, params) →
  ∃ spec, assoc tool registry = Some spec ∧
    (ready = true ∨ allowed_before_ready spec = true) ∧
    conforms (input_schema spec) (PDict params).
Proof.
  unfold admit_request. intros H. inv_res. destruct (assoc x1 registry) as [spec|] eqn:Hs; [|done].
  inv_res. destruct x5. apply reject_if_Ok in H3. exists spec. split; [done|]. split.
  - destruct (allowed_before_ready spec), ready; auto.
  - by apply validate_params_iff.
Qed.

(** A run that answers with data, or changes anything, passed every gate. *)
Definition authorized (auth_header : option string) : Prop :=
  ∃ h scheme, auth_header = Some h ∧ partition_space h = (scheme, token) ∧
    Str.lower scheme = "bearer" ∧ token ≠ EmptyString.

Lemma verify_token_true auth_header :
  _verify_token token auth_header = Ok true → authorized auth_header.
Proof.
  unfold _verify_token. destruct auth_header as [h|]; [|done].
  destruct (Str.empty h); [done|]. destruct (partition_space h) as [scheme t] eqn:Ep.
  destruct (String.eqb_spec (Str.lower scheme) "bearer") as [Hl|]; simpl; [|done].
  unfold Str.empty. destruct (String.eqb_spec t ""); [done|].
  unfold compare_digest. destruct (_ && _); [|done].
  destruct (String.eqb_spec t token) as [->|]; [|done]. intros _. exists h, scheme. done.
Qed.

(** What a rejected and an admitted request come to. *)
Lemma error_middleware_run m s : error_middleware m s = (Ok (middleware_reply (m s).1), (m s).2).
Proof. unfold error_middleware, attempt, mbind, ST_bind. by destruct (m s). Qed.

Lemma rpc_handler_rejected ready raw e s :
  admit_request ready raw = Err e → rpc_handler ready raw s = (Err e, s).
Proof. unfold rpc_handler, lift, mbind, ST_bind. by intros ->. Qed.

Lemma rpc_handler_admitted ready raw tool params s :
  admit_request ready raw = Ok (tool, params) →
  rpc_handler ready raw s = (rpc_reply params (dispatch tool params s).1, (dispatch tool params s).2).
Proof.
  unfold rpc_handler, lift, attempt, mbind, ST_bind. intros ->. by destruct (dispatch tool params s).
Qed.

Lemma Ok_inj {E A} (a b : A) : (Ok a : res E A) = Ok b → a = b.
Proof. by intros [= ->]. Qed.

Lemma reply_data params r data id :
  middleware_reply (rpc_reply params r) = OkResponse data id → r = Ok data.
Proof. destruct r as [d|[]]; simpl; naive_solver. Qed.

Lemma reply_error e : ∃ c status, middleware_reply (Err e) = ErrorResponse c status.
Proof. destruct e; simpl; eauto. Qed.

Lemma verify_token_error auth_header e : _verify_token token auth_header = Err e → e = TypeError.
Proof.
  unfold _verify_token. destruct auth_header; [|done]. destruct (Str.empty _); [done|].
  destruct (partition_space _). destruct (_ || _); [done|]. unfold compare_digest.
  destruct (_ && _); [done|]. by intros [= <-].
Qed.

(** The three ways a request can go. *)
Lemma serve_rpc_cases readiness req s :
  let '(r, s') := serve_rpc readiness req s in
  (∃ c status, r = Ok (ErrorResponse c status) ∧ s' = s) ∨ r = Err TypeError ∧ s' = s ∨
  ∃ tool params spec,
    authorized (authorization req) ∧
    admit_request (Readiness.is_ready readiness) (raw req) = Ok (tool, params) ∧
    assoc tool registry = Some spec ∧
    (Readiness.is_ready readiness = true ∨ allowed_before_ready spec = true) ∧
    conforms (input_schema spec) (PDict params) ∧
    s' = (dispatch tool params s).2 ∧ is_ok r = true ∧
    (∀ data id, r = Ok (OkResponse data id) → (dispatch tool params s).1 = Ok data).
Proof.
  unfold serve_rpc, auth_middleware, lift, mbind, ST_bind.
  destruct (_verify_token token (authorization req)) as [[]|e] eqn:Ev; cbn [negb].
  - rewrite error_middleware_run.
    destruct (admit_request (Readiness.is_ready readiness) (raw req)) as [[tool params]|e] eqn:Ea.
    + rewrite (rpc_handler_admitted _ _ _ _ s Ea). pose proof Ea as (spec & Hs & Hr & Hc)%admit_Ok.
      right. right. exists tool, params, spec.
      split; [by apply verify_token_true|]. split; [done|]. split; [exact Hs|]. split; [exact Hr|]. split; [exact Hc|].
      split; [reflexivity|]. split; [reflexivity|]. intros data id Hd. apply (reply_data params _ _ id). exact (Ok_inj (E:=pyexn) _ _ Hd).
    + rewrite (rpc_handler_rejected _ _ _ s Ea). left. destruct (reply_error e) as (c & st & H).
      exists c, st. by rewrite <- H.
  - left. by exists UNAUTHORIZED, 401%Z.
  - right. left. split; [|done]. f_equal. by eapply verify_token_error.
Qed.

(** C33: the gates of the RPC endpoint.  A request reaches a tool handler — so that
    it can change anything at all, or be answered with data — only when it carries
    the bearer token, names a registered tool, comes when the daemon is ready (or
    for a tool allowed before that), and its parameters conform to the tool's
    schema; and then exactly that tool runs, with exactly those parameters, and
    whatever it raises becomes an answer.  What escapes without an answer is the
    [TypeError] of comparing a token that is not ASCII. *)
Theorem rpc_gated readiness req s :
  let '(r, s') := serve_rpc readiness req s in
  (∃ c status, r = Ok (ErrorResponse c status) ∧ s' = s) ∨ r = Err TypeError ∧ s' = s ∨
  ∃ tool params spec,
    authorized (authorization req) ∧
    admit_request (Readiness.is_ready readiness) (raw req) = Ok (tool, params) ∧
    assoc tool registry = Some spec ∧
    (Readiness.is_ready readiness = true ∨ allowed_before_ready spec = true) ∧
    conforms (input_schema spec) (PDict params) ∧
    s' = (dispatch tool params s).2 ∧ is_ok r = true ∧
    (∀ data id, r = Ok (OkResponse data id) → (dispatch tool params s).1 = Ok data).
Proof. apply serve_rpc_cases. Qed.
End Rpc.

(** The daemon starts with exactly the tools it advertises: registering the
    handlers raises nothing, every tool of the registry has a handler and every
    handler serves one tool of the registry. *)
Theorem dispatcher_complete :
  build_dispatcher = Ok dispatcher ∧ NoDup (map snd dispatcher) ∧
  ∀ n, is_Some (assoc n registry) ↔ is_Some (assoc n dispatcher).
Proof.
  assert (∀ l l', forallb (λ n, str_in n l') l = true → l ⊆ l') as Hsub.
  { intros l l' H n Hn. rewrite forallb_forall in H. by apply str_in_spec, H, list_elem_of_In. }
  split; [vm_compute; reflexivity|]. split.
  - apply (bool_decide_unpack (NoDup (map snd dispatcher))). vm_compute. exact I.
  - intros n. rewrite !assoc_is_Some. split; apply Hsub; vm_compute; reflexivity.
Qed.
