(* ===== verification/RateLimit.v ===== *)
(** [data/rate_limit.py]: the weight budget of REST calls.  Times are integers in
    nanoseconds, weights integers; [snapshot] renders the state and is left out. *)

From Stdlib Require Import ZArith.
From S2P Require Import Prelude.
Local Open Scope Z_scope.

Definition second : Z := 1000000000.

Record RateLimitBudget := mk_budget {
  max_weight : Z;
  window_seconds : Z;
  _used : Z;
  _window_start : Z;
  total_waits : Z }.

Arguments Z.add : simpl never.

Definition set_window (used start : Z) (b : RateLimitBudget) : RateLimitBudget :=
  mk_budget (max_weight b) (window_seconds b) used start (total_waits b).

(** A new window starts once the old one is over. *)
Definition roll (now : Z) (b : RateLimitBudget) : RateLimitBudget :=
  if window_seconds b <=? now - _window_start b then set_window 0 now b else b.

Definition note_used (used_weight : Z) (b : RateLimitBudget) : RateLimitBudget :=
  if _used b <? used_weight then set_window used_weight (_window_start b) b else b.

(** [backoff_delay] without jitter, in seconds. *)
Definition backoff_delay (attempt : nat) (base max_delay : Z) : Z :=
  Z.min (base * 2 ^ Z.of_nat attempt) max_delay.

Section Acquire.
(** The outside: [time.monotonic()], [random.uniform(0, 0.2)] and
    [asyncio.sleep(d)]. *)
Context {E : Type}.
Context (monotonic : E → Z * E) (jitter : E → Z * E) (sleep : Z → E → E).

(** One turn of the loop: the budget is reserved, or the caller sleeps. *)
Definition try_acquire (weight now : Z) (b : RateLimitBudget) : RateLimitBudget * option Z :=
  let b := roll now b in
  if _used b + weight <=? max_weight b
  then (set_window (_used b + weight) (_window_start b) b, None)
  else (mk_budget (max_weight b) (window_seconds b) (_used b) (_window_start b) (total_waits b + 1),
        Some (_window_start b + window_seconds b - now)).

(** [acquire], under the lock of the budget: [None] when the fuel runs out. *)
Fixpoint acquire (fuel : nat) (weight : Z) (b : RateLimitBudget) (e : E) : option (RateLimitBudget * E) :=
  match fuel with
  | O => None
  | S fuel =>
      let '(now, e) := monotonic e in
      match try_acquire weight now b with
      | (b, None) => Some (b, e)
      | (b, Some wait) =>
          let '(j, e) := jitter e in
          acquire fuel weight b (sleep (Z.min wait (5 * second) + j) e)
      end
  end.

(** The clock never goes back, and a sleep takes at least its time. *)
Context (now : E → Z).
Context (monotonic_now : ∀ e, (monotonic e).1 = now e ∧ now e ≤ now (monotonic e).2).
Context (jitter_now : ∀ e, 0 ≤ (jitter e).1 ∧ now e ≤ now (jitter e).2).
Context (sleep_now : ∀ d e, now e + d ≤ now (sleep d e)).

Lemma roll_start t b : _window_start b ≤ t → _window_start (roll t b) ≤ t.
Proof. unfold roll. case_match; simpl; lia. Qed.

Lemma try_acquire_waits weight t b b' wait :
  weight ≤ max_weight b → 0 < window_seconds b →
  try_acquire weight t b = (b', Some wait) →
  0 < wait ∧ wait = _window_start b' + window_seconds b' - t ∧
  max_weight b' = max_weight b ∧ window_seconds b' = window_seconds b ∧ _window_start b' = _window_start b.
Proof.
  unfold try_acquire, roll. intros Hw Hwin.
  destruct (Z.leb_spec (window_seconds b) (t - _window_start b)); simpl.
  - destruct (Z.leb_spec (0 + weight) (max_weight b)); [done|lia].
  - destruct (Z.leb_spec (_used b + weight) (max_weight b)); [done|]. intros [= <- <-]. simpl. lia.
Qed.

Lemma acquire_ends weight b e :
  weight ≤ max_weight b → 0 < window_seconds b → _window_start b ≤ now e →
  is_Some (acquire (Z.to_nat (window_seconds b / (5 * second) + 2)) weight b e).
Proof.
  intros Hw Hwin Hstart.
  assert (∀ n b e, weight ≤ max_weight b → 0 < window_seconds b →
    _window_start b + window_seconds b - now e ≤ Z.of_nat n * (5 * second) →
    is_Some (acquire (S n) weight b e)) as Hgo.
  { clear b e Hw Hwin Hstart. induction n as [|n IH]; intros b e Hw Hwin Hn.
    all: cbn [acquire]; destruct (monotonic e) as [t e1] eqn:Em;
      pose proof (monotonic_now e) as [Ht He1]; rewrite Em in Ht, He1; simpl in Ht, He1; subst t;
      destruct (try_acquire weight (now e) b) as [b' [wait|]] eqn:Et; [|done].
    - apply try_acquire_waits in Et as (Hpos & -> & Hm & Hs & Hst); [|done..]. rewrite Hs, Hst in Hpos. unfold second in *. lia.
    - apply try_acquire_waits in Et as (Hpos & -> & Hm & Hs & Hst); [|done..].
      destruct (jitter e1) as [j e2] eqn:Ej. pose proof (jitter_now e1) as [Hj He2].
      rewrite Ej in Hj, He2. simpl in Hj, He2.
      apply IH; [lia..|]. rewrite Hs, Hst.
      pose proof (sleep_now (Z.min (_window_start b + window_seconds b - now e) (5 * second) + j) e2).
      rewrite Hs, Hst in Hpos. unfold second in *. lia. }
  pose proof (Z.div_pos (window_seconds b) (5 * second) ltac:(lia) ltac:(unfold second; lia)).
  replace (Z.to_nat _) with (S (Z.to_nat (window_seconds b / (5 * second) + 1))) by lia.
  apply Hgo; [done..|]. rewrite Z2Nat.id by lia.
  pose proof (Z.mul_succ_div_gt (window_seconds b) (5 * second) ltac:(unfold second; lia)). lia.
Qed.

(** A request that fits the budget always gets it: the loop ends after at most
    one turn per five seconds of the window, and two more.  (Without
    [weight <= max_weight] it would wait for ever: see [acquire_overweight].) *)
Theorem acquire_terminates weight b e :
  weight ≤ max_weight b → 0 < window_seconds b → _window_start b ≤ now e →
  is_Some (acquire (Z.to_nat (window_seconds b / (5 * second) + 2)) weight b e).
Proof. apply acquire_ends. Qed.

(** A request heavier than the whole budget never returns, however long it waits. *)
Lemma acquire_overweight fuel weight b e :
  max_weight b < weight → 0 ≤ _used b → acquire fuel weight b e = None.
Proof.
  revert b e. induction fuel as [|fuel IH]; intros b e Hw Hu; [done|]. simpl.
  destruct (monotonic e) as [t e1]. unfold try_acquire, roll.
  destruct (Z.leb_spec (window_seconds b) (t - _window_start b)); simpl;
    [destruct (Z.leb_spec (0 + weight) (max_weight b))|destruct (Z.leb_spec (_used b + weight) (max_weight b))];
    try lia; destruct (jitter e1); apply IH; simpl; lia.
Qed.
End Acquire.

(** ** The budget over many calls

    What happens to a budget: grants at some time, and the usage the server
    reports. *)
Inductive event := Grant (weight now : Z) | Reported (used : Z).

Definition apply_event (b : RateLimitBudget) (ev : event) : option RateLimitBudget :=
  match ev with
  | Grant weight now => match try_acquire weight now b with (b, None) => Some b | _ => None end
  | Reported used => Some (note_used used b)
  end.

Fixpoint apply_events (b : RateLimitBudget) (evs : list event) : option RateLimitBudget :=
  match evs with
  | [] => Some b
  | ev :: evs => b ← apply_event b ev; apply_events b evs
  end.

(** The weight granted by [evs] in the window that is current at the end. *)
Fixpoint granted (b : RateLimitBudget) (evs : list event) (acc : Z) : Z :=
  match evs with
  | [] => acc
  | Grant weight now :: evs =>
      match try_acquire weight now b with
      | (b', None) =>
          granted b' evs (if _window_start b' =? _window_start b then acc + weight else weight)
      | _ => acc
      end
  | Reported used :: evs => granted (note_used used b) evs acc
  end.

(** C36: the budget holds: whatever is granted and whatever usage the server
    reports in between, the weight granted within the current window never exceeds
    what is accounted as used, nor — after any grant — the maximum. *)
Theorem window_budget max window start evs b :
  apply_events (mk_budget max window 0 start 0) evs = Some b →
  0 < window → Forall (λ ev, match ev with Grant w _ => 0 ≤ w | Reported _ => True end) evs →
  granted (mk_budget max window 0 start 0) evs 0 ≤ _used b ∧
  (∀ w t, last evs = Some (Grant w t) → _used b ≤ max).
Proof.
  intros Hrun Hwin Hpos. set (b0 := mk_budget max window 0 start 0) in *.
  assert (∀ evs b0 acc b, apply_events b0 evs = Some b → 0 < window_seconds b0 →
    Forall (λ ev, match ev with Grant w _ => 0 ≤ w | Reported _ => True end) evs →
    acc ≤ _used b0 → max_weight b0 = max →
    granted b0 evs acc ≤ _used b ∧ (∀ w t, last evs = Some (Grant w t) → _used b ≤ max)) as Hgo.
  { clear evs b b0 Hrun Hpos. induction evs as [|ev evs IH]; intros b0 acc b Hrun Hw0 Hpos Hacc Hmax; simpl in *.
    { by simplify_eq. }
    destruct (apply_event b0 ev) as [b1|] eqn:E1; [|done]. simpl in Hrun.
    apply Forall_cons in Hpos as [Hev Hpos].
    destruct ev as [w t|u]; simpl in E1.
    - unfold try_acquire in *. destruct (Z.leb_spec (_used (roll t b0) + w) (max_weight (roll t b0))) as [Hle|];
        [|done]. injection E1 as <-.
      assert (max_weight (roll t b0) = max ∧ window_seconds (roll t b0) = window_seconds b0 ∧
        (if _window_start (roll t b0) =? _window_start b0 then acc else 0) ≤ _used (roll t b0)) as (Hm & Hs & Hu).
      { unfold roll. destruct (Z.leb_spec (window_seconds b0) (t - _window_start b0)); simpl;
          (split; [done|split; [done|]]).
        - destruct (Z.eqb_spec t (_window_start b0)); lia.
        - by rewrite Z.eqb_refl. }
      edestruct (IH _ (if _window_start (roll t b0) =? _window_start b0 then acc + w else w) b Hrun) as [Hg Hlast];
        [by simpl; rewrite Hs|done|simpl; destruct (_ =? _); lia|done|].
      split; [exact Hg|]. intros w' t' Hl. destruct evs as [|ev' evs]; [|by eapply Hlast].
      simpl in Hrun. injection Hrun as <-. simpl. lia.
    - injection E1 as <-. edestruct (IH (note_used u b0) acc b Hrun) as [Hg Hlast]; [..|split; [exact Hg|]].
      + by unfold note_used; case_match.
      + done.
      + unfold note_used. destruct (Z.ltb_spec (_used b0) u); simpl; lia.
      + by unfold note_used; case_match.
      + intros w t Hl. destruct evs as [|ev' evs]; [done|]. by eapply Hlast. }
  eapply Hgo; [exact Hrun|done|done|simpl; lia|done].
Qed.

(** A clock that advances by exactly what is slept. *)
Definition quiet_clock : Z → Z * Z := λ e, (e, e).
Definition no_jitter : Z → Z * Z := λ e, (0, e).

(** The budget is used up; the caller waits 45 seconds. *)
Lemma acquire_terminates_witness :
  is_Some (acquire quiet_clock no_jitter Z.add 14 10 (mk_budget 100 (60 * second) 95 0 0) (15 * second)).
Proof.
  apply (acquire_terminates quiet_clock no_jitter Z.add id
    ltac:(intros e; unfold quiet_clock, id; simpl; lia) ltac:(intros e; unfold no_jitter, id; simpl; lia)
    ltac:(intros d e; unfold id; lia) 10 (mk_budget 100 (60 * second) 95 0 0) (15 * second));
    unfold id, second; simpl; lia.
Defined.

Lemma window_budget_witness :
  granted (mk_budget 100 (60 * second) 0 0 0) [Grant 40 1; Reported 70; Grant 30 2] 0 ≤ 100.
Proof.
  destruct (window_budget 100 (60 * second) 0 [Grant 40 1; Reported 70; Grant 30 2]
    (mk_budget 100 (60 * second) 100 0 0)) as [H _]; [reflexivity|unfold second; lia| |exact H].
  repeat constructor; lia.
Defined.
