(* ===== verification/RestClient.v ===== *)
(** [data/binance_client.py]: one public request to Binance — the weight budget, the
    retries with backoff, and what its replies become.

    The HTTP session and the clock are the outside [E]; times are nanoseconds, as in
    [RateLimit].  Header values are ASCII. *)

From Stdlib Require Import ZArith String Ascii.
From S2P Require Import Prelude PyFloat PyVal Errors RateLimit.
Local Open Scope string_scope.
Local Open Scope list_scope.

(** A reply: the status, two headers ([None] when absent), and what reading the body
    as JSON or as text gives. *)
Record response := mk_response {
  rs_status : Z;
  rs_used_weight : option string;
  rs_content_type : option string;
  rs_json : result pyval;
  rs_text : result pyval }.

(** [session.get] and the body: a response, or what is raised. *)
Abbreviation reply := (result response).

Class Session (E : Type) := {
  ss_monotonic : E → Z * E;
  ss_jitter : E → Z * E;              (* [random.uniform(0, 0.2)] *)
  ss_spread : Z → E → Z * E;          (* [delay * random.uniform(0.8, 1.2)] *)
  ss_sleep : Z → E → E;
  ss_get : string → list (string * pyval) → E → reply * E }.

(** [used.isdigit()] and [int(used)] *)
Fixpoint digits_value (acc : Z) (s : string) : option Z :=
  match s with
  | EmptyString => Some acc
  | String c s =>
      let n := Z.of_nat (nat_of_ascii c) in
      if ((48 <=? n) && (n <=? 57))%Z then digits_value (acc * 10 + (n - 48)) s else None
  end.
Definition used_weight (r : response) : option Z :=
  match rs_used_weight r with
  | Some (String _ _ as s) => digits_value 0 s
  | _ => None
  end.

Definition is_json (r : response) : bool :=
  match String.index 0 "json" (Str.lower (default "" (rs_content_type r))) with Some _ => true | None => false end.

(** What an attempt comes to: an answer, or another attempt; with backoff before it
    also after the last attempt, or not. *)
Inductive verdict :=
| Answer (r : result pyval)
| Again (code : ErrorCode) (base : Z) (always : bool).

(** [except (aiohttp.ClientError, asyncio.TimeoutError)] *)
Definition caught (r : result pyval) : verdict :=
  match r with
  | Err ClientError | Err TimeoutError => Again INTERNAL_ERROR (second / 2) false
  | r => Answer r
  end.

Definition verdict_of (r : reply) : verdict :=
  match r with
  | Err e => caught (Err e)
  | Ok r =>
      let status := rs_status r in
      if ((status =? 429) || (status =? 418))%Z then Again RATE_LIMITED second true
      else if ((status =? 401) || (status =? 403))%Z then Answer (raise UNAUTHORIZED)
      else if ((status =? 400) || (status =? 404))%Z then Answer (raise INVALID_REQUEST)
      else if (400 <=? status)%Z then caught (Err ClientError)        (* [raise_for_status] *)
      else caught (if is_json r then rs_json r else rs_text r)
  end.

Section Client.
Context {E : Type} `{Session E}.

(** The client with its budget, and the replies it was given. *)
Record client := mk_client { cl_budget : RateLimitBudget; cl_ext : E; cl_replies : list reply }.

Definition send (path : string) (params : list (string * pyval)) (c : client) : verdict * client :=
  let '(r, e) := ss_get path params (cl_ext c) in
  let budget := match r with
                | Ok r => match used_weight r with Some u => note_used u (cl_budget c) | None => cl_budget c end
                | Err _ => cl_budget c
                end in
  (verdict_of r, mk_client budget e (cl_replies c ++ [r])).

Definition back_off (attempt : nat) (base : Z) (c : client) : client :=
  let '(d, e) := ss_spread (backoff_delay attempt base (60 * second)) (cl_ext c) in
  mk_client (cl_budget c) (ss_sleep d e) (cl_replies c).

(** [for attempt in range(retries)]: the attempts that are left. *)
Fixpoint attempts (n attempt : nat) (last_exc : option ErrorCode) (path : string) (params : list (string * pyval))
    (c : client) : result pyval * client :=
  match n with
  | O => (raise (default INTERNAL_ERROR last_exc), c)
  | S n =>
      match send path params c with
      | (Answer r, c) => (r, c)
      | (Again code base always, c) =>
          let c := if always || negb (Nat.eqb n 0) then back_off attempt base c else c in
          attempts n (S attempt) (Some code) path params c
      end
  end.

(** [get]: [None] when the budget is never granted within the fuel. *)
Definition get (fuel retries : nat) (path : string) (params : list (string * pyval)) (weight : Z) (c : client)
    : option (result pyval * client) :=
  '(budget, e) ← acquire ss_monotonic ss_jitter ss_sleep fuel weight (cl_budget c) (cl_ext c);
  Some (attempts retries 0 None path params (mk_client budget e (cl_replies c))).

(** ** Reasoning *)

Definition is_again (r : reply) : bool := match verdict_of r with Again _ _ _ => true | Answer _ => false end.

(** What the replies of one request come to: all but the last ask for another
    attempt, and the last answers, or was the last attempt. *)
Definition final (retries : nat) (replies : list reply) (r : result pyval) : Prop :=
  ∃ before last, replies = before ++ [last] ∧ Forall (λ x, is_again x = true) before ∧
    match verdict_of last with
    | Answer a => r = a
    | Again code _ _ => r = raise code ∧ length replies = retries
    end.

Lemma back_off_replies attempt base c : cl_replies (back_off attempt base c) = cl_replies c.
Proof. unfold back_off. by destruct (ss_spread _ _). Qed.

Lemma attempts_spec n attempt last_exc path params c :
  (0 < n)%nat →
  let '(r, c') := attempts n attempt last_exc path params c in
  ∃ replies, cl_replies c' = cl_replies c ++ replies ∧ (length replies ≤ n)%nat ∧ final n replies r.
Proof.
  revert attempt last_exc c. induction n as [|n IH]; intros attempt last_exc c Hl; [lia|]. simpl.
  unfold send. destruct (ss_get path params (cl_ext c)) as [x e]. set (b := match x with Ok _ => _ | Err _ => _ end).
  destruct (verdict_of x) as [a|code base always] eqn:Ev.
  { exists [x]. split_and!; [done|simpl; lia|]. exists [], x. split_and!; [done|constructor|]. by rewrite Ev. }
  set (c1 := if _ : bool then _ else _).
  assert (cl_replies c1 = cl_replies c ++ [x]) as Hc1.
  { unfold c1. destruct (_ || _); [by rewrite back_off_replies|done]. }
  destruct n as [|n].
  { simpl. exists [x]. split_and!; [done|simpl; lia|]. exists [], x. split_and!; [done|constructor|]. by rewrite Ev. }
  specialize (IH (S attempt) (Some code) c1 ltac:(lia)).
  destruct (attempts (S n) _ _ _ _ c1) as [r c']. destruct IH as (l & Hr & Hlen & before & last & -> & Hb & Hf).
  exists (x :: before ++ [last]). rewrite Hr, Hc1, <-app_assoc. split_and!; [done|simpl; lia|].
  exists (x :: before), last. split_and!; [done| |].
  - constructor; [|done]. unfold is_again. by rewrite Ev.
  - destruct (verdict_of last); [done|]. destruct Hf as [-> Hf]. split; [done|]. simpl. by rewrite Hf.
Qed.
End Client.
Arguments client : clear implicits.

(** C30: a request to Binance ends, and says what happened.  When its weight fits the
    budget, [get] returns after between one and [retries] exchanges: every reply but
    the last asked for another attempt (429 or 418, a failed connection, a time out,
    another error status), the last one answers — with its data, [UNAUTHORIZED] for
    401 and 403, [INVALID_REQUEST] for 400 and 404, never retried — or was the last
    attempt allowed, and its error is raised. *)
Theorem get_answers {E} `{Session E} (now : E → Z) retries path params weight (c : client E) :
  (∀ e, (ss_monotonic e).1 = now e ∧ now e ≤ now (ss_monotonic e).2)%Z →
  (∀ e, 0 ≤ (ss_jitter e).1 ∧ now e ≤ now (ss_jitter e).2)%Z →
  (∀ d e, now e + d ≤ now (ss_sleep d e))%Z →
  (weight ≤ max_weight (cl_budget c))%Z → (0 < window_seconds (cl_budget c))%Z →
  (_window_start (cl_budget c) ≤ now (cl_ext c))%Z → (0 < retries)%nat →
  ∃ r c' replies, get (Z.to_nat (window_seconds (cl_budget c) / (5 * second) + 2)) retries path params weight c = Some (r, c') ∧
    cl_replies c' = cl_replies c ++ replies ∧ (1 ≤ length replies ≤ retries)%nat ∧ final retries replies r.
Proof.
  intros Hm Hj Hs Hw Hwin Hst Hr. unfold get.
  destruct (acquire_ends ss_monotonic ss_jitter ss_sleep now Hm Hj Hs weight (cl_budget c) (cl_ext c) Hw Hwin Hst)
    as [[b e] ->]. simpl.
  pose proof (attempts_spec retries 0 None path params (mk_client b e (cl_replies c)) Hr) as Ha.
  destruct (attempts retries _ _ _ _ _) as [r c']. destruct Ha as (replies & Hl & Hlen & Hf).
  exists r, c', replies. split_and!; [done|done| |done|done].
  destruct Hf as (before & last & -> & _). rewrite length_app. simpl. lia.
Qed.

(** A session that plays replies back: 429, then a price. *)
Definition played : Type := Z * list reply.
Definition busy : reply := Ok (mk_response 429 (Some "40") None (Err ClientError) (Ok (PStr ""))).
Definition price : reply := Ok (mk_response 200 None (Some "application/json") (Ok (PInt 7)) (Ok (PStr "7"))).

#[local] Instance player : Session played := {|
  ss_monotonic e := (e.1, e);
  ss_jitter e := (0%Z, e);
  ss_spread d e := (d, e);
  ss_sleep d e := ((e.1 + d)%Z, e.2);
  ss_get _ _ e := match e.2 with [] => (Err TimeoutError, e) | r :: l => (r, (e.1, l)) end |}.

Definition sample_client (replies : list reply) : client played :=
  mk_client (mk_budget 100 (60 * second) 0 0 0) (0%Z, replies) [].
Definition sample_get replies := get 14 4 "/p" [] 1 (sample_client replies).

Example retried : (λ rc, (rc.1, _used (cl_budget rc.2), (cl_ext rc.2).1)) <$> sample_get [busy; price]
  = Some (Ok (PInt 7), 40%Z, second).
Proof. vm_compute. reflexivity. Qed.

Example exhausted : (λ rc, (rc.1, length (cl_replies rc.2))) <$> sample_get [busy; busy] = Some (raise INTERNAL_ERROR, 4).
Proof. vm_compute. reflexivity. Qed.

Lemma get_answers_witness :
  ∃ r c' replies, get 14 4 "/p" [] 1 (sample_client [busy; price]) = Some (r, c') ∧
    cl_replies c' = replies ∧ (1 ≤ length replies ≤ 4)%nat ∧ final 4 replies r.
Proof.
  apply (get_answers (H:=player) fst 4 "/p" [] 1 (sample_client [busy; price])
    (λ e, conj eq_refl (Z.le_refl _)) (λ e, conj (Z.le_refl _) (Z.le_refl _)) (λ d e, Z.le_refl _));
    first [by vm_compute | simpl; lia].
Defined.
