(* ===== verification/Broker.v ===== *)
(** [data/order_broker.py]: the broker protocol, the order results, the client
    order id, and the Binance implementation on top of a signed HTTP request.

    [aiohttp] (the transport, with the signing that feeds it) is a parameter. *)

From Stdlib Require Import ZArith String Ascii.
From S2P Require Import Prelude PyFloat PyVal Errors Monad Sizing.
Local Open Scope string_scope.
Local Open Scope list_scope.

(** Binance's order states, with the local [paper] of simulated orders and the
    [RECONCILE_REQUIRED] of [storage/state.py]. *)
Inductive order_status :=
| NEW | PARTIALLY_FILLED | FILLED | CANCELED | REJECTED | EXPIRED | UNKNOWN
| PAPER | RECONCILE_REQUIRED.

#[export] Instance order_status_eq_dec : EqDecision order_status.
Proof. solve_decision. Defined.

Definition status_in (s : order_status) (l : list order_status) : bool :=
  existsb (λ t, bool_decide (s = t)) l.

Lemma status_in_spec s l : status_in s l = true ↔ s ∈ l.
Proof.
  unfold status_in. rewrite existsb_exists, list_elem_of_In. split.
  - by intros (x & ? & ->%bool_decide_eq_true_1).
  - intros H. exists s. by rewrite bool_decide_eq_true_2.
Qed.

Definition ORDER_STATUSES : list (string * order_status) :=
  [("NEW", NEW); ("PARTIALLY_FILLED", PARTIALLY_FILLED); ("FILLED", FILLED);
   ("CANCELED", CANCELED); ("REJECTED", REJECTED); ("EXPIRED", EXPIRED); ("UNKNOWN", UNKNOWN)].
Definition TERMINAL_STATUSES : list order_status := [FILLED; CANCELED; REJECTED; EXPIRED].
Definition OPEN_STATUSES : list order_status := [NEW; PARTIALLY_FILLED].

(** The dataclass [OrderResult]; its [raw] payload is not kept. *)
Record OrderResult := mk_result {
  r_status : order_status;
  r_exchange_order_id : option string;
  r_executed_qty : float;
  r_avg_price : float }.

(** ** The client order id *)

Section ClientOrderId.
(** [hashlib.sha1(...).hexdigest()] *)
Context (sha1_hexdigest : string → string).

Definition id_char (ch : ascii) : bool :=
  Str.is_alnum ch || Ascii.eqb ch "." || Ascii.eqb ch "_" || Ascii.eqb ch "-".

Definition to_client_order_id (idempotency_key : string) : string :=
  let allowed := Str.filter id_char idempotency_key in
  let allowed := if Str.empty allowed then "idem" else allowed in
  let allowed := if (24 <? String.length allowed)%nat then Str.take 24 allowed else allowed in
  let digest := Str.take 11 (sha1_hexdigest idempotency_key) in
  allowed +:+ "-" +:+ digest.

(** [A-Za-z0-9._-], the alphabet Binance accepts. *)
Definition binance_char (c : ascii) : bool :=
  let n := nat_of_ascii c in
  ((48 <=? n) && (n <=? 57) || (65 <=? n) && (n <=? 90) || (97 <=? n) && (n <=? 122)
   || (45 <=? n) && (n <=? 46) || (n =? 95))%nat.

Definition is_ascii (c : ascii) : bool := (nat_of_ascii c <? 128)%nat.

Lemma length_app_str s t : String.length (s +:+ t) = (String.length s + String.length t)%nat.
Proof. induction s as [|c s IH]; simpl; [done|]. by rewrite IH. Qed.

Lemma length_cut n s :
  (String.length (if n <? String.length s then Str.take n s else s) <= n)%nat.
Proof.
  destruct (n <? String.length s)%nat eqn:E; [apply Str.length_take|].
  apply Nat.ltb_ge in E. lia.
Qed.

Lemma to_client_order_id_length k : (String.length (to_client_order_id k) <= 36)%nat.
Proof.
  unfold to_client_order_id. rewrite !length_app_str.
  change (String.length "-") with 1%nat.
  pose proof (Str.length_take 11 (sha1_hexdigest k)).
  pose proof (length_cut 24 (if Str.empty (Str.filter id_char k)
    then "idem" else Str.filter id_char k)). cbv zeta. lia.
Qed.

Lemma all_filter_impl p q s :
  (∀ c, p c = true → q c = true) → Str.all q (Str.filter p s) = true.
Proof.
  intros Hpq. induction s as [|c s IH]; simpl; [done|].
  destruct (p c) eqn:E; [|done]. simpl. rewrite IH, Hpq; done.
Qed.

Lemma id_char_ascii c : is_ascii c = true → id_char c = true → binance_char c = true.
Proof. destruct c as [[] [] [] [] [] [] [] []]; vm_compute; congruence. Qed.

Lemma all_and_filter p q r s :
  (∀ c, r c = true → p c = true → q c = true) →
  Str.all r s = true → Str.all q (Str.filter p s) = true.
Proof.
  intros Hpq. induction s as [|c s IH]; simpl; [done|].
  rewrite andb_true_iff. intros [Hc Hs].
  destruct (p c) eqn:E; [|auto]. simpl. rewrite IH, (Hpq c); done.
Qed.

(** For a key in ASCII the client order id Binance receives is at most 36
    characters long and made of the letters, digits, [.], [_] and [-] it accepts. *)
Theorem client_order_id_accepted k :
  Str.all is_ascii k = true → Str.all binance_char (sha1_hexdigest k) = true →
  (String.length (to_client_order_id k) <= 36)%nat ∧
  Str.all binance_char (to_client_order_id k) = true.
Proof.
  intros Hk Hd. split; [apply to_client_order_id_length|].
  unfold to_client_order_id. rewrite !Str.all_app, !andb_true_iff.
  assert (Str.all binance_char (Str.filter id_char k) = true) as Hf
    by (apply all_and_filter with is_ascii; auto using id_char_ascii).
  split_and!; [|done|by apply Str.all_take].
  repeat case_match; auto using Str.all_take.
Qed.
End ClientOrderId.

Lemma client_order_id_accepted_witness :
  (String.length (to_client_order_id (λ _, "0123456789abcdef") "a/b c") <= 36)%nat ∧
  Str.all binance_char (to_client_order_id (λ _, "0123456789abcdef") "a/b c") = true.
Proof. apply (client_order_id_accepted (λ _, "0123456789abcdef") "a/b c"); reflexivity. Defined.

(** The name filter keeps letters outside the ASCII range. *)
Example to_client_order_id_not_ascii :
  Str.all binance_char (to_client_order_id (λ _, "0123456789ab")
    (String (ascii_of_nat 246) EmptyString)) = false.
Proof. vm_compute. reflexivity. Qed.

(** ** The protocol: one operation per method, on the state [X] of the exchange *)

Record place_args := mk_place {
  pa_account_id : string;
  pa_symbol : string;
  pa_side : string;
  pa_order_type : string;
  pa_quantity : float;
  pa_price : option float;
  pa_client_order_id : string;
  pa_stop_price : option float }.

Record oco_args := mk_oco {
  oa_account_id : string;
  oa_symbol : string;
  oa_side : string;
  oa_quantity : float;
  oa_price : float;
  oa_stop_price : float;
  oa_stop_limit_price : float;
  oa_client_order_id : string }.

Record open_order := mk_open {
  oo_symbol : string;
  oo_order_id : option string;
  oo_client_order_id : option string;
  oo_side : string;
  oo_quantity : float;
  oo_raw : list (string * pyval) }.       (* as the exchange sent it *)

Record balance := mk_balance { b_free : float; b_locked : float }.

Class OrderBroker (X : Type) := {
  place_order : place_args → ST X OrderResult;
  place_oco : oco_args → ST X OrderResult;
  query_order : string → string → string → ST X (option OrderResult);
  query_oco : string → string → ST X (option OrderResult);
  cancel_order : string → string → string → ST X (option OrderResult);
  cancel_oco : string → string → string → ST X (option OrderResult);
  get_all_open_orders : string → ST X (list open_order);
  cancel_all_open_orders : string → string → ST X Z;
  get_balance : string → ST X (list (string * float));
  get_balance_detail : string → ST X (list (string * balance)) }.

(** A call the order service makes, as recorded in the trace of file [Db]. *)
Inductive broker_call :=
| CPlaceOrder (a : place_args)
| CPlaceOco (a : oco_args)
| CQueryOrder (account_id symbol client_order_id : string)
| CQueryOco (account_id list_client_order_id : string)
| CCancelOrder (account_id symbol client_order_id : string)
| CCancelOco (account_id symbol list_client_order_id : string)
| CGetOpenOrders (account_id : string)
| CCancelAll (account_id symbol : string)
| CGetBalance (account_id : string)
| CGetBalanceDetail (account_id : string).

(** A submission of a new order: the calls that must never be repeated blindly. *)
Definition is_submission (c : broker_call) : bool :=
  match c with CPlaceOrder _ | CPlaceOco _ => true | _ => false end.

(** The calls that change something at the exchange: submissions and cancellations. *)
Definition is_effect (c : broker_call) : bool :=
  match c with
  | CPlaceOrder _ | CPlaceOco _ | CCancelOrder _ _ _ | CCancelOco _ _ _ | CCancelAll _ _ => true
  | _ => false
  end.

Lemma effect_submission c : is_effect c = false → is_submission c = false.
Proof. by destruct c. Qed.

(** ** The Binance implementation *)

Section Binance.
Context {X : Type} (float_repr : float → string) (str_of_other : pyval → string).

(** What [aiohttp] reports for a signed request. *)
Inductive http_reply :=
| HttpResponse (status : Z) (body : option pyval)
| HttpClientError
| HttpTimeout.

(** method, path, account, parameters; [Err] is a failure of the credentials
    lookup that signs the request. *)
Context (transport : string → string → string → list (string * string) → ST X http_reply).

(** The ways [_request] ends: a JSON body, Binance's rejection with its code,
    or another exception. *)
Inductive reply :=
| Body (data : pyval)
| Rejected (binance_code : option pyval)
| Failed (e : pyexn).

Definition _request (method path account_id : string) (params : list (string * string))
    : ST X reply :=
  r ← attempt (transport method path account_id params);
  mret match r with
  | Err e => Failed e
  | Ok HttpClientError | Ok HttpTimeout => Failed (RasatError TIMEOUT)
  | Ok (HttpResponse status body) =>
      if (status =? 401)%Z || (status =? 403)%Z then Failed (RasatError UNAUTHORIZED)
      else if (400 <=? status)%Z then
        match body with
        | Some (PDict d) => Rejected (assoc "code" d)
        | Some _ => Failed AttributeError
        | None => Rejected None
        end
      else match body with Some d => Body d | None => Failed ValueError end
  end.

Definition reply_exn (r : reply) : pyexn :=
  match r with Failed e => e | _ => RasatError ORDER_REJECTED end.

Definition parse_status (s : string) : order_status :=
  match assoc s ORDER_STATUSES with Some st => st | None => UNKNOWN end.

(** [str(data.get(k) or default).upper()] *)
Definition upper_field (k default : string) (d : list (string * pyval)) : string :=
  Str.upper (match assoc k d with
             | Some v => if truthy v then py_str str_of_other v else default
             | None => default
             end).

(** [str(data[k]) if data.get(k) is not None else None] *)
Definition opt_id (k : string) (d : list (string * pyval)) : option string :=
  match assoc k d with
  | None | Some PNone => None
  | Some v => Some (py_str str_of_other v)
  end.

Definition get_or (k : string) (default : pyval) (d : list (string * pyval)) : pyval :=
  match assoc k d with Some v => v | None => default end.

(** The [try] block over the fill fields: a [TypeError] or [ValueError] leaves
    what was assigned before it. *)
Definition fill_fields (d : list (string * pyval)) : result (float * float) :=
  match py_float (get_or "executedQty" (PInt 0) d) with
  | Err TypeError | Err ValueError => Ok (fzero, fzero)
  | Err e => Err e
  | Ok executed =>
      match py_float (get_or "cummulativeQuoteQty" (PInt 0) d) with
      | Err TypeError | Err ValueError => Ok (executed, fzero)
      | Err e => Err e
      | Ok cum =>
          if ftruthy executed
          then avg ← fdiv cum executed; Ok (executed, avg)
          else Ok (executed, fzero)
      end
  end.

(** A response that is no dict has no [get]. *)
Definition as_dict (v : pyval) : result (list (string * pyval)) :=
  match v with PDict d => Ok d | _ => Err AttributeError end.

Definition _order_result (data : pyval) : result OrderResult :=
  d ← as_dict data;
  fills ← fill_fields d;
  Ok (mk_result (parse_status (upper_field "status" "UNKNOWN" d)) (opt_id "orderId" d)
        fills.1 fills.2).

Definition place_params (a : place_args) : result (list (string * string)) :=
  let ot := Str.upper (pa_order_type a) in
  let base := [("symbol", pa_symbol a); ("side", pa_side a); ("type", ot);
               ("quantity", float_repr (pa_quantity a))] in
  let cid := if Str.empty (pa_client_order_id a) then []
             else [("newClientOrderId", pa_client_order_id a)] in
  if String.eqb ot "LIMIT" then
    match pa_price a with
    | None => raise INVALID_REQUEST
    | Some p => Ok (base ++ [("price", float_repr p); ("timeInForce", "GTC")] ++ cid)
    end
  else if String.eqb ot "STOP_LOSS_LIMIT" then
    match pa_stop_price a, pa_price a with
    | None, _ | _, None => raise INVALID_REQUEST
    | Some s, Some p =>
        Ok (base ++ [("stopPrice", float_repr s); ("price", float_repr p);
                     ("timeInForce", "GTC")] ++ cid)
    end
  else Ok (base ++ cid).

Definition binance_place_order (a : place_args) : ST X OrderResult :=
  params ← lift (place_params a);
  r ← _request "POST" "/api/v3/order" (pa_account_id a) params;
  match r with
  | Body data => lift (_order_result data)
  | _ => throw (reply_exn r)
  end.

(** The two legs: for SELL the profit target is above and the stop below, for
    BUY the other way round. *)
Definition oco_params (a : oco_args) : list (string * string) :=
  [("symbol", oa_symbol a); ("side", oa_side a); ("quantity", float_repr (oa_quantity a));
   ("listClientOrderId", oa_client_order_id a)] ++
  if String.eqb (Str.upper (oa_side a)) "BUY" then
    [("aboveType", "STOP_LOSS_LIMIT"); ("aboveStopPrice", float_repr (oa_stop_price a));
     ("abovePrice", float_repr (oa_stop_limit_price a)); ("aboveTimeInForce", "GTC");
     ("belowType", "LIMIT_MAKER"); ("belowPrice", float_repr (oa_price a))]
  else
    [("aboveType", "LIMIT_MAKER"); ("abovePrice", float_repr (oa_price a));
     ("belowType", "STOP_LOSS_LIMIT"); ("belowStopPrice", float_repr (oa_stop_price a));
     ("belowPrice", float_repr (oa_stop_limit_price a)); ("belowTimeInForce", "GTC")].

Definition binance_place_oco (a : oco_args) : ST X OrderResult :=
  r ← _request "POST" "/api/v3/orderList/oco" (oa_account_id a) (oco_params a);
  match r with
  | Body data =>
      d ← lift (as_dict data);
      mret (mk_result NEW (opt_id "orderListId" d) fzero fzero)
  | _ => throw (reply_exn r)
  end.

(** [exc.details.get("binance_code") == n] on a rejection. *)
Definition rejected_with (n : Z) (r : reply) : bool :=
  match r with Rejected (Some (PInt z)) => (z =? n)%Z | _ => false end.

Definition binance_query_order (account_id symbol client_order_id : string)
    : ST X (option OrderResult) :=
  r ← _request "GET" "/api/v3/order" account_id
        [("symbol", symbol); ("origClientOrderId", client_order_id)];
  match r with
  | Body data => o ← lift (_order_result data); mret (Some o)
  | _ => if rejected_with (-2013) r then mret None else throw (reply_exn r)
  end.

(** The status of an OCO list: never blindly "alive" or "canceled". *)
Definition oco_status (executing all_done : order_status) (d : list (string * pyval)) : order_status :=
  let list_status := upper_field "listOrderStatus" EmptyString d in
  if String.eqb list_status "EXECUTING" then executing
  else if String.eqb list_status "ALL_DONE" then all_done
  else UNKNOWN.

Definition binance_query_oco (account_id list_client_order_id : string)
    : ST X (option OrderResult) :=
  r ← _request "GET" "/api/v3/orderList" account_id
        [("origClientOrderId", list_client_order_id)];
  match r with
  | Body data =>
      d ← lift (as_dict data);
      mret (Some (mk_result (oco_status NEW FILLED d) (opt_id "orderListId" d) fzero fzero))
  | _ => if rejected_with (-2013) r then mret None else throw (reply_exn r)
  end.

Definition binance_cancel_order (account_id symbol client_order_id : string)
    : ST X (option OrderResult) :=
  r ← _request "DELETE" "/api/v3/order" account_id
        [("symbol", symbol); ("origClientOrderId", client_order_id)];
  match r with
  | Body data => o ← lift (_order_result data); mret (Some o)
  | _ => if rejected_with (-2011) r then mret None else throw (reply_exn r)
  end.

Definition binance_cancel_oco (account_id symbol list_client_order_id : string)
    : ST X (option OrderResult) :=
  r ← _request "DELETE" "/api/v3/orderList" account_id
        [("symbol", symbol); ("listClientOrderId", list_client_order_id)];
  match r with
  | Body data =>
      d ← lift (as_dict data);
      mret (Some (mk_result (oco_status NEW CANCELED d) (opt_id "orderListId" d) fzero fzero))
  | _ => if rejected_with (-2011) r then mret None else throw (reply_exn r)
  end.

(** [float(o.get(k, 0) or 0)] *)
Definition float_or_0 (k : string) (d : list (string * pyval)) : result float :=
  let v := get_or k (PInt 0) d in
  if truthy v then py_float v else Ok fzero.

Definition parse_open_order (v : pyval) : result open_order :=
  d ← as_dict v;
  q ← float_or_0 "origQty" d;
  Ok (mk_open (get_str str_of_other "symbol" d) (opt_id "orderId" d)
        (match assoc "clientOrderId" d with
         | Some c => if truthy c then Some (py_str str_of_other c) else None
         | None => None
         end) (get_str str_of_other "side" d) q d).

Definition binance_get_all_open_orders (account_id : string) : ST X (list open_order) :=
  r ← _request "GET" "/api/v3/openOrders" account_id [];
  match r with
  | Body (PList l) => lift (res_map parse_open_order l)
  | Body _ => mret []
  | _ => throw (reply_exn r)
  end.

Definition binance_cancel_all_open_orders (account_id symbol : string) : ST X Z :=
  r ← _request "DELETE" "/api/v3/openOrders" account_id [("symbol", symbol)];
  match r with
  | Body (PList l) => mret (Z.of_nat (length l))
  | Body _ => mret 0%Z
  | _ => if rejected_with (-2011) r then mret 0%Z else throw (reply_exn r)
  end.

Definition parse_balance (acc : list (string * balance)) (v : pyval)
    : result (list (string * balance)) :=
  d ← as_dict v;
  asset ← match assoc "asset" d with Some a => Ok (py_str str_of_other a) | None => Err KeyError end;
  free ← float_or_0 "free" d;
  locked ← float_or_0 "locked" d;
  Ok (assoc_set asset (mk_balance free locked) acc).

Definition binance_get_balance_detail (account_id : string) : ST X (list (string * balance)) :=
  r ← _request "GET" "/api/v3/account" account_id [];
  match r with
  | Body data =>
      d ← lift (as_dict data);
      match assoc "balances" d with
      | None => mret []
      | Some (PList l) => lift (res_fold parse_balance [] l)
      | Some _ => throw TypeError
      end
  | _ => throw (reply_exn r)
  end.

Definition binance_get_balance (account_id : string) : ST X (list (string * float)) :=
  detail ← binance_get_balance_detail account_id;
  mret (omap (λ ab, if ftruthy (b_free ab.2) then Some (ab.1, b_free ab.2) else None) detail).

(** The implementation discharges the protocol. *)
#[export] Instance BinanceOrderBroker : OrderBroker X := {|
  place_order := binance_place_order;
  place_oco := binance_place_oco;
  query_order := binance_query_order;
  query_oco := binance_query_oco;
  cancel_order := binance_cancel_order;
  cancel_oco := binance_cancel_oco;
  get_all_open_orders := binance_get_all_open_orders;
  cancel_all_open_orders := binance_cancel_all_open_orders;
  get_balance := binance_get_balance;
  get_balance_detail := binance_get_balance_detail |}.

(** ** A failed transport is always the canonical [TIMEOUT], the code on which
    the order service reconciles instead of resubmitting. *)
Lemma request_transport_failure method path acc params s s' :
  transport method path acc params s = (Ok HttpClientError, s') ∨
  transport method path acc params s = (Ok HttpTimeout, s') →
  _request method path acc params s = (Ok (Failed (RasatError TIMEOUT)), s').
Proof.
  intros [H|H]; unfold _request, attempt, mbind, ST_bind; by rewrite H.
Qed.

(** The canonical states: what Binance reports and nothing local. *)
Definition exchange_status (s : order_status) : bool :=
  status_in s [NEW; PARTIALLY_FILLED; FILLED; CANCELED; REJECTED; EXPIRED; UNKNOWN].

Lemma parse_status_exchange s : exchange_status (parse_status s) = true.
Proof.
  unfold parse_status. destruct (assoc s ORDER_STATUSES) as [st|] eqn:E; [|done].
  apply assoc_elem in E. revert E. unfold ORDER_STATUSES.
  rewrite !elem_of_cons, elem_of_nil. naive_solver.
Qed.

Lemma order_result_status data r :
  _order_result data = Ok r → exchange_status (r_status r) = true.
Proof.
  unfold _order_result. intros (d & _ & (f & _ & [= <-])%res_bind_Ok)%res_bind_Ok.
  apply parse_status_exchange.
Qed.
End Binance.
