(* ===== verification/Tables.v ===== *)
(** The tables of market data and of analysis of [storage/migrations.py], whose
    rows hold the results of the price-action computations.  The tables of the
    trading services are in [Db]. *)

From Stdlib Require Import ZArith String.
From S2P Require Import Prelude PyFloat PyVal Swings OrderBlocks Liquidity Filters.

(** [candles]; the bar of a row is what the computations read of it. *)
Record candle_row := mk_candle_row {
  k_symbol : string;
  k_timeframe : string;
  k_source : string;
  k_bar : candle;
  k_quote_volume : float;
  k_trades : Z;
  k_updated_at : Z }.

(** [futures_context] *)
Record futures_context_row := mk_fc {
  fc_symbol : string;
  fc_type : string;
  fc_event_time : Z;
  fc_value : option float;
  fc_extra : pyval;
  fc_fetched_at : Z;
  fc_freshness : string }.

(** [market_structure], [liquidity_zones], [order_blocks]: one shape, with the
    decoded payload. *)
Record pa_row (P : Type) := mk_pa_row {
  r_id : Z;
  r_symbol : string;
  r_timeframe : string;
  r_algo_version : string;
  r_effective_from : Z;
  r_effective_to : option Z;
  r_payload : P;
  r_created_at : Z }.
Arguments mk_pa_row {P}.
Arguments r_id {P}.
Arguments r_symbol {P}.
Arguments r_timeframe {P}.
Arguments r_algo_version {P}.
Arguments r_effective_from {P}.
Arguments r_effective_to {P}.
Arguments r_payload {P}.
Arguments r_created_at {P}.

(** The [definition] column of [alerts], decoded: what [create_alert] and
    [create_composite_alert] build.  Values the code does not check for a type
    keep theirs. *)
Record alert_clause := mk_clause {
  ac_symbol : pyval;
  ac_timeframe : pyval;
  ac_condition : node }.

Inductive alert_definition :=
| SimpleAlert (symbol timeframe : string) (condition : node) (cooldown_seconds : Z) (note : pyval)
    (order_spec : option (list (string * pyval)))
| CompositeAlert (all_of : bool) (clauses : list alert_clause) (cooldown_seconds : Z) (note : pyval).

(** [annotations] *)
Record annotation_row := mk_annotation {
  an_id : Z;
  an_symbol : string;
  an_timeframe : string;
  an_created_by : option string;
  an_data : list (string * pyval);
  an_created_at : Z }.

Record market_db := mk_market {
  tb_candles : list candle_row;
  tb_futures_context : list futures_context_row;
  tb_market_structure : list (pa_row structure);
  tb_liquidity_zones : list (pa_row liquidity_result);
  tb_order_blocks : list (pa_row order_blocks_result);
  tb_annotations : list annotation_row;
  tb_annotations_seq : Z }.          (* the last id [AUTOINCREMENT] gave *)

Definition empty_market : market_db := mk_market [] [] [] [] [] [] 0.

Definition set_tb_candles f (m : market_db) : market_db :=
  mk_market (f (tb_candles m)) (tb_futures_context m) (tb_market_structure m) (tb_liquidity_zones m)
    (tb_order_blocks m) (tb_annotations m) (tb_annotations_seq m).
Definition set_tb_futures_context f (m : market_db) : market_db :=
  mk_market (tb_candles m) (f (tb_futures_context m)) (tb_market_structure m) (tb_liquidity_zones m)
    (tb_order_blocks m) (tb_annotations m) (tb_annotations_seq m).
Definition set_tb_market_structure f (m : market_db) : market_db :=
  mk_market (tb_candles m) (tb_futures_context m) (f (tb_market_structure m)) (tb_liquidity_zones m)
    (tb_order_blocks m) (tb_annotations m) (tb_annotations_seq m).
Definition set_tb_liquidity_zones f (m : market_db) : market_db :=
  mk_market (tb_candles m) (tb_futures_context m) (tb_market_structure m) (f (tb_liquidity_zones m))
    (tb_order_blocks m) (tb_annotations m) (tb_annotations_seq m).
Definition set_tb_order_blocks f (m : market_db) : market_db :=
  mk_market (tb_candles m) (tb_futures_context m) (tb_market_structure m) (tb_liquidity_zones m)
    (f (tb_order_blocks m)) (tb_annotations m) (tb_annotations_seq m).
Definition set_tb_annotations f (m : market_db) : market_db :=
  mk_market (tb_candles m) (tb_futures_context m) (tb_market_structure m) (tb_liquidity_zones m)
    (tb_order_blocks m) (f (tb_annotations m)) (tb_annotations_seq m).
Definition set_tb_annotations_seq f (m : market_db) : market_db :=
  mk_market (tb_candles m) (tb_futures_context m) (tb_market_structure m) (tb_liquidity_zones m)
    (tb_order_blocks m) (tb_annotations m) (f (tb_annotations_seq m)).

(** The id sqlite gives the next row of a table no row is deleted from. *)
Definition next_id (ids : list Z) : Z := (1 + foldr Z.max 0 ids)%Z.

(** Equality of stored payloads: [same_bar["payload"] == payload_json]. *)
#[export] Instance label_eq_dec : EqDecision label.
Proof. solve_decision. Defined.
#[export] Instance swing_eq_dec : EqDecision swing.
Proof. solve_decision. Defined.
#[export] Instance event_eq_dec : EqDecision event.
Proof. solve_decision. Defined.
#[export] Instance structure_eq_dec : EqDecision structure.
Proof. solve_decision. Defined.
#[export] Instance zone_eq_dec : EqDecision zone.
Proof. solve_decision. Defined.
#[export] Instance order_blocks_result_eq_dec : EqDecision order_blocks_result.
Proof. solve_decision. Defined.
