(* ===== verification/Db.v ===== *)
(** [storage/db.py], [storage/state.py] and the tables of [storage/migrations.py]:
    the store the services share, transactions, and the world they run in.

    A table is its rows in rowid order.  JSON columns hold the decoded value.
    The writer queue of [db.py] runs one transaction at a time: a write is a
    function of the whole store, undone when it raises. *)

From Stdlib Require Import ZArith String.
From S2P Require Import Prelude PyFloat PyVal Errors Monad Broker Tables.
Local Open Scope string_scope.
Local Open Scope list_scope.

(** ** Rows *)

Inductive trading_lock_t := Paper | Real.
#[export] Instance trading_lock_eq_dec : EqDecision trading_lock_t.
Proof. solve_decision. Defined.

Record account_row := mk_account {
  a_account_id : string;
  a_label : string;
  a_tags : list string;
  a_market : string;
  a_trading_lock : trading_lock_t;
  a_encrypted_api_key : option string;
  a_encrypted_secret : option string;
  a_created_at : Z;
  a_updated_at : Z }.

Record policy_row := mk_policy {
  p_account_id : string;
  p_max_notional_per_order : option float;
  p_max_aggregate_exposure : option float;
  p_allowed_symbols : list string;
  p_policy_version : Z;
  p_created_at : Z;
  p_updated_at : Z }.

(** [STATE_RESERVED], [STATE_APPLIED], [STATE_RECONCILED] of [risk_policy.py]. *)
Inductive override_state := Reserved | Applied | Reconciled.
#[export] Instance override_state_eq_dec : EqDecision override_state.
Proof. solve_decision. Defined.

Record override_row := mk_override {
  v_override_id : string;
  v_account_id : string;
  v_policy_version : Z;
  v_idempotency_key : string;
  v_actor : string;
  v_reason : string;
  v_scope : string;
  v_state : override_state;
  v_created_at : Z;
  v_expires_at : Z;
  v_applied_at : option Z;
  v_consumed_by_idem : option string;
  v_reconciled_at : option Z;
  v_reconcile_reason : option string }.

Record order_row := mk_order {
  o_order_id : string;
  o_account_id : string;
  o_idempotency_key : string;
  o_symbol : string;
  o_side : string;
  o_order_type : string;
  o_quantity : float;
  o_price : option float;
  o_stop_price : option float;
  o_stop_limit_price : option float;
  o_status : order_status;
  o_exchange_order_id : option string;
  o_client_order_id : string;
  o_executed_qty : float;
  o_avg_price : float;
  o_fee : float;
  o_notional : float;
  o_reference_price : float;
  o_equity_snapshot : float;
  o_error_code : option ErrorCode;
  o_created_at : Z;
  o_updated_at : Z }.

Record audit_row := mk_audit {
  u_seq : Z;
  u_actor : string;
  u_action : string;
  u_details : string;
  u_prev_hash : string;
  u_hash : string;
  u_created_at : Z }.

(** The persisted [state] of an alert in [alarms.py]. *)
Inductive alert_state := Armed | Triggered | Cooldown.
#[export] Instance alert_state_eq_dec : EqDecision alert_state.
Proof. solve_decision. Defined.

Record alert_row := mk_alert {
  l_alert_id : string;
  l_definition : alert_definition;
  l_state : alert_state;
  l_created_at : Z;
  l_updated_at : Z;
  l_cooldown_until : option Z }.

Record triggered_row := mk_triggered {
  t_alert_id : string;
  t_trigger_key : string;
  t_payload : pyval;
  t_triggered_at : Z }.

(** The states of [storage/state.py]. *)
Inductive pending_status :=
| P_awaiting_approval | P_approved | P_executing | P_executed | P_rejected
| P_reconcile_required | P_expired.
#[export] Instance pending_status_eq_dec : EqDecision pending_status.
Proof. solve_decision. Defined.

Definition PENDING_ACTIVE_STATUSES : list pending_status :=
  [P_awaiting_approval; P_approved; P_executing; P_reconcile_required].
Definition PENDING_TERMINAL_STATUSES : list pending_status :=
  [P_executed; P_rejected; P_expired].

Record pending_row := mk_pending {
  q_order_id : string;
  q_alert_id : string;
  q_account_id : string;
  q_symbol : string;
  q_side : string;
  q_order_type : string;
  q_entry : pyval;
  q_stop_loss : pyval;
  q_risk_pct : pyval;
  q_status : pending_status;
  q_note : pyval;
  q_created_at : Z;
  q_approved_at : option Z;
  q_rejected_at : option Z;
  q_executed_order_id : option string;
  q_reject_reason : option string;
  q_execution_started_at : option Z;
  q_execution_finished_at : option Z;
  q_execution_error_code : option ErrorCode;
  q_last_attempt_at : option Z }.

Record reconciled_row := mk_reconciled {
  e_entry_hash : string;
  e_seq : Z;
  e_reconciled_at : Z }.

(** ** The store *)

Record db := mk_db {
  accounts : list account_row;
  risk_policy : list policy_row;
  risk_override : list override_row;
  orders : list order_row;
  audit_log : list audit_row;
  alerts : list alert_row;
  triggered_alerts : list triggered_row;
  pending_orders : list pending_row;
  emergency_reconciled : list reconciled_row;
  market : market_db }.

Definition empty_db : db := mk_db [] [] [] [] [] [] [] [] [] empty_market.

Definition set_accounts f (d : db) : db :=
  mk_db (f (accounts d)) (risk_policy d) (risk_override d) (orders d) (audit_log d)
    (alerts d) (triggered_alerts d) (pending_orders d) (emergency_reconciled d) (market d).
Definition set_risk_policy_rows f (d : db) : db :=
  mk_db (accounts d) (f (risk_policy d)) (risk_override d) (orders d) (audit_log d)
    (alerts d) (triggered_alerts d) (pending_orders d) (emergency_reconciled d) (market d).
Definition set_risk_override f (d : db) : db :=
  mk_db (accounts d) (risk_policy d) (f (risk_override d)) (orders d) (audit_log d)
    (alerts d) (triggered_alerts d) (pending_orders d) (emergency_reconciled d) (market d).
Definition set_orders f (d : db) : db :=
  mk_db (accounts d) (risk_policy d) (risk_override d) (f (orders d)) (audit_log d)
    (alerts d) (triggered_alerts d) (pending_orders d) (emergency_reconciled d) (market d).
Definition set_audit_log f (d : db) : db :=
  mk_db (accounts d) (risk_policy d) (risk_override d) (orders d) (f (audit_log d))
    (alerts d) (triggered_alerts d) (pending_orders d) (emergency_reconciled d) (market d).
Definition set_alerts f (d : db) : db :=
  mk_db (accounts d) (risk_policy d) (risk_override d) (orders d) (audit_log d)
    (f (alerts d)) (triggered_alerts d) (pending_orders d) (emergency_reconciled d) (market d).
Definition set_triggered_alerts f (d : db) : db :=
  mk_db (accounts d) (risk_policy d) (risk_override d) (orders d) (audit_log d)
    (alerts d) (f (triggered_alerts d)) (pending_orders d) (emergency_reconciled d) (market d).
Definition set_pending_orders f (d : db) : db :=
  mk_db (accounts d) (risk_policy d) (risk_override d) (orders d) (audit_log d)
    (alerts d) (triggered_alerts d) (f (pending_orders d)) (emergency_reconciled d) (market d).
Definition set_emergency_reconciled f (d : db) : db :=
  mk_db (accounts d) (risk_policy d) (risk_override d) (orders d) (audit_log d)
    (alerts d) (triggered_alerts d) (pending_orders d) (f (emergency_reconciled d)) (market d).
Definition set_market f (d : db) : db :=
  mk_db (accounts d) (risk_policy d) (risk_override d) (orders d) (audit_log d)
    (alerts d) (triggered_alerts d) (pending_orders d) (emergency_reconciled d) (f (market d)).

(** ** The world

    The store, the flag of a closed [Database], the outside ([X]: clock, random
    ids, exchange, market), and the calls made to the exchange so far, each with
    the store as it was when the call was made. *)

Record world (X : Type) := mk_world {
  w_db : db;
  w_closed : bool;
  w_ext : X;
  w_trace : list (broker_call * db) }.
Arguments mk_world {X}.
Arguments w_db {X}.
Arguments w_closed {X}.
Arguments w_ext {X}.
Arguments w_trace {X}.

Abbreviation M X := (ST (world X)).

Definition with_db {X} (w : world X) (d : db) : world X :=
  mk_world d (w_closed w) (w_ext w) (w_trace w).

(** [int(time.time())] and [uuid.uuid4().hex]: reads of the outside. *)
Class Ext (X : Type) := {
  ext_time : X → Z * X;
  ext_uuid4_hex : X → string * X }.

(** Standard-library functions the code calls that are parameters of the model,
    and whether the services were given an [AuditLog]. *)
Class PyEnv := {
  float_repr : float → string;
  float_format_8g : float → string;
  str_of_other : pyval → string;
  sha256_hexdigest : string → string;
  sha1_hexdigest : string → string;
  sql_sum : list float → float;
  audit_enabled : bool }.

Section World.
Context {X : Type}.

Definition on_ext {A} (m : ST X A) : M X A := λ w,
  let '(r, x) := m (w_ext w) in
  (r, mk_world (w_db w) (w_closed w) x (w_trace w)).

Definition time_now `{Ext X} : M X Z := on_ext (λ x, let '(t, x') := ext_time x in (Ok t, x')).
Definition uuid4_hex `{Ext X} : M X string :=
  on_ext (λ x, let '(u, x') := ext_uuid4_hex x in (Ok u, x')).

(** A call to the exchange, recorded with the store it was made from. *)
Definition call_broker {A} (c : broker_call) (m : ST X A) : M X A := λ w,
  let '(r, x) := m (w_ext w) in
  (r, mk_world (w_db w) (w_closed w) x (w_trace w ++ [(c, w_db w)])).

(** [db.read(fn)] *)
Definition db_read {A} (f : db → A) : M X A := gets (λ w, f (w_db w)).

(** A statement inside a transaction. *)
Definition db_modify (f : db → db) : M X unit := modify (λ w, with_db w (f (w_db w))).

(** [db.write(fn)]: [_run_write] commits, or rolls back and re-raises. *)
Definition db_write {A} (fn : M X A) : M X A := λ w,
  if w_closed w then (Err RuntimeError, w)
  else match fn w with
       | (Ok a, w') => (Ok a, w')
       | (Err e, w') => (Err e, with_db w' (w_db w))
       end.
End World.

(** ** Reasoning

    A relation on worlds that holds across everything a service does besides
    changing the store and the exchange: it is a preorder, admits reads of
    the outside and queries of the exchange, and survives a rollback; [WCancel]
    when it admits cancellations as well. *)

Class WRel {X} (R : relation (world X)) := {
  wrel_preorder :: PreOrder R;
  wrel_ext w x : R w (mk_world (w_db w) (w_closed w) x (w_trace w));
  wrel_query w x c : is_effect c = false →
    R w (mk_world (w_db w) (w_closed w) x (w_trace w ++ [(c, w_db w)]));
  wrel_rollback w w' : R w w' → R w (with_db w' (w_db w)) }.

Class WCancel {X} (R : relation (world X)) :=
  wrel_cancel w x c : is_submission c = false →
    R w (mk_world (w_db w) (w_closed w) x (w_trace w ++ [(c, w_db w)])).

(** What happens to the store alone. *)
Definition on_db {X} (R : relation db) : relation (world X) := λ w w', R (w_db w) (w_db w').

(** The submissions made so far. *)
Definition submissions (l : list (broker_call * db)) : list (broker_call * db) :=
  List.filter (λ cd, is_submission cd.1) l.
Definition same_submissions {X} : relation (world X) :=
  λ w w', submissions (w_trace w') = submissions (w_trace w).

(** The calls made so far that change something at the exchange. *)
Definition effects (l : list (broker_call * db)) : list (broker_call * db) :=
  List.filter (λ cd, is_effect cd.1) l.
Definition same_effects {X} : relation (world X) :=
  λ w w', effects (w_trace w') = effects (w_trace w).

Lemma submissions_effects l : submissions l = submissions (effects l).
Proof.
  induction l as [|[c d] l IH]; [done|]. unfold submissions, effects in *. simpl.
  destruct (is_effect c) eqn:E; simpl; [|rewrite effect_submission by done; done].
  destruct (is_submission c); [f_equal|]; exact IH.
Qed.

Lemma effects_submissions {X} (w w' : world X) : same_effects w w' → same_submissions w w'.
Proof. unfold same_effects, same_submissions. rewrite !(submissions_effects (w_trace _)). by intros ->. Qed.

(** [db_steps R m]: any run of [m] relates the stores before and after by [R];
    [keeps P m]: it preserves the invariant [P]; [silent m]: it submits nothing. *)
Definition db_steps {X A} (R : relation db) (m : M X A) : Prop := steps (on_db R) m.
Definition preserved (P : db → Prop) : relation db := λ d d', P d → P d'.
Definition keeps {X A} (P : db → Prop) (m : M X A) : Prop := steps (on_db (preserved P)) m.
Definition silent {X A} (m : M X A) : Prop := steps same_submissions m.

#[export] Instance preserved_preorder (P : db → Prop) : PreOrder (preserved P).
Proof. split; [by intros ??|intros ??? H1 H2 ?; apply H2, H1; done]. Qed.

#[export] Instance on_db_wrel {X} (R : relation db) `{!PreOrder R} : WRel (on_db (X:=X) R).
Proof.
  unfold on_db. split; simpl; intros; try reflexivity.
  split; [intros w; reflexivity|intros x y z ??; by etrans].
Qed.

#[export] Instance same_submissions_wrel {X} : WRel (same_submissions (X:=X)).
Proof.
  unfold same_submissions. split; simpl; intros; try done.
  - split; [by intros ?|intros ??? H1 H2; congruence].
  - unfold submissions. rewrite List.filter_app. simpl. rewrite effect_submission by done. by rewrite app_nil_r.
Qed.

#[export] Instance same_submissions_cancel {X} : WCancel (same_submissions (X:=X)).
Proof.
  intros w x c Hc. unfold same_submissions, submissions. simpl. rewrite List.filter_app. simpl. rewrite Hc.
  by rewrite app_nil_r.
Qed.

#[export] Instance same_effects_wrel {X} : WRel (same_effects (X:=X)).
Proof.
  unfold same_effects. split; simpl; intros; try done.
  - split; [by intros ?|intros ??? H1 H2; congruence].
  - unfold effects. rewrite List.filter_app. simpl. rewrite H. by rewrite app_nil_r.
Qed.

Section WSteps.
Context {X : Type} (R : relation (world X)) `{!WRel R}.

Lemma steps_on_ext {A} (m : ST X A) : steps R (on_ext m).
Proof. intros w. unfold on_ext. destruct (m (w_ext w)). apply wrel_ext. Qed.

Lemma steps_query {A} c (m : ST X A) : is_effect c = false → steps R (call_broker c m).
Proof. intros Hc w. unfold call_broker. destruct (m (w_ext w)). by apply wrel_query. Qed.

Lemma steps_cancel `{!WCancel R} {A} c (m : ST X A) : is_submission c = false → steps R (call_broker c m).
Proof. intros Hc w. unfold call_broker. destruct (m (w_ext w)). by apply wrel_cancel. Qed.

Lemma steps_time `{Ext X} : steps R time_now.
Proof. apply steps_on_ext. Qed.

Lemma steps_uuid `{Ext X} : steps R uuid4_hex.
Proof. apply steps_on_ext. Qed.

Lemma steps_db_read {A} (f : db → A) : steps R (db_read f).
Proof. intros w. simpl. reflexivity. Qed.

(** A transaction that raises leaves the store as it was. *)
Lemma steps_db_write {A} (m : M X A) : steps R m → steps R (db_write m).
Proof.
  intros Hm w. specialize (Hm w). unfold db_write.
  destruct (w_closed w); simpl; [reflexivity|].
  destruct (m w) as [[a|e] w'] eqn:E; simpl in *; [done|by apply wrel_rollback].
Qed.

(** A statement, given what was read before it. *)
Lemma steps_db_modify (f : db → db) :
  (∀ w, R w (with_db w (f (w_db w)))) → steps R (db_modify f).
Proof. intros Hf w. apply Hf. Qed.

Lemma steps_db_read_bind {A B} (g : db → A) (f : A → M X B) :
  (∀ w, R w (f (g (w_db w)) w).2) → steps R (db_read g ≫= f).
Proof. intros Hf w. apply Hf. Qed.
End WSteps.

Lemma db_steps_broker {X A} (R : relation db) `{!PreOrder R} c (m : ST X A) :
  steps (on_db R) (call_broker c m).
Proof. intros w. unfold call_broker, on_db. destruct (m (w_ext w)). simpl. reflexivity. Qed.

Lemma db_steps_modify {X} (R : relation db) (f : db → db) :
  (∀ d, R d (f d)) → steps (on_db R) (db_modify f : M X unit).
Proof. intros Hf w. apply Hf. Qed.

Lemma silent_modify {X} (f : db → db) : steps same_submissions (db_modify f : M X unit).
Proof. by intros w. Qed.

Create HintDb wsteps.
#[export] Hint Resolve db_steps_broker silent_modify : wsteps.

(** Walk through a program, down to the statements and submissions that are left
    to the hints of [wsteps] or to the caller. *)
Ltac walk1 :=
  match goal with
  | |- db_steps _ _ => unfold db_steps
  | |- keeps _ _ => unfold keeps
  | |- silent _ => unfold silent
  | |- steps _ (let x := _ in _) => cbv zeta
  | |- steps _ (mbind _ _) => apply steps_bind; [tc_solve| |intros ?]
  | |- steps _ (mret _) => apply steps_ret; tc_solve
  | |- steps _ (throw _) => apply steps_throw; tc_solve
  | |- steps _ (raise_ _) => apply steps_raise; tc_solve
  | |- steps _ (lift _) => apply steps_lift; tc_solve
  | |- steps _ (db_read _) => apply steps_db_read; tc_solve
  | |- steps _ (on_ext _) => apply steps_on_ext; tc_solve
  | |- steps _ (call_broker _ _) =>
      first [apply steps_query; [tc_solve|reflexivity] | apply steps_cancel; [tc_solve|reflexivity]]
  | |- steps _ time_now => apply steps_time; tc_solve
  | |- steps _ uuid4_hex => apply steps_uuid; tc_solve
  | |- steps _ (attempt _) => apply steps_attempt
  | |- steps _ (db_write _) => apply steps_db_write; [tc_solve|]
  | |- steps _ (foldM _ _ _) => apply steps_foldM; [tc_solve|intros ? ? ?]
  | |- steps _ (mapM _ _) => apply steps_mapM; [tc_solve|intros ? ?]
  | |- steps _ (match ?x with _ => _ end) => destruct x eqn:?
  | |- steps _ (let '_ := ?x in _) => destruct x eqn:?
  end.
Ltac walk := repeat first [walk1 | solve [eauto 3 with wsteps typeclass_instances]].

(** ** One run, with the store *)

Section DbWp.
Context {X : Type}.

Lemma wp_on_ext {A} (m : ST X A) Q w :
  (∀ r x, m (w_ext w) = (r, x) → Q r (mk_world (w_db w) (w_closed w) x (w_trace w))) →
  wp (on_ext m) Q w.
Proof. intros H. unfold wp, on_ext. destruct (m (w_ext w)) as [r x] eqn:E. by apply H. Qed.

Lemma wp_call_broker {A} c (m : ST X A) Q w :
  (∀ r x, m (w_ext w) = (r, x) →
    Q r (mk_world (w_db w) (w_closed w) x (w_trace w ++ [(c, w_db w)]))) →
  wp (call_broker c m) Q w.
Proof. intros H. unfold wp, call_broker. destruct (m (w_ext w)) as [r x] eqn:E. by apply H. Qed.

Lemma wp_time `{Ext X} Q w :
  (∀ t x, Q (Ok t) (mk_world (w_db w) (w_closed w) x (w_trace w))) → wp time_now Q w.
Proof. intros HQ. apply wp_on_ext. intros r x. destruct (ext_time _). intros [= <- <-]. apply HQ. Qed.

Lemma wp_uuid `{Ext X} Q w :
  (∀ u x, Q (Ok u) (mk_world (w_db w) (w_closed w) x (w_trace w))) → wp uuid4_hex Q w.
Proof. intros HQ. apply wp_on_ext. intros r x. destruct (ext_uuid4_hex _). intros [= <- <-]. apply HQ. Qed.

Lemma wp_db_read {A} (f : db → A) Q (w : world X) : Q (Ok (f (w_db w))) w → wp (db_read f) Q w.
Proof. done. Qed.

Lemma wp_db_modify f Q (w : world X) : Q (Ok tt) (with_db w (f (w_db w))) → wp (db_modify f) Q w.
Proof. done. Qed.

Lemma wp_db_write {A} (fn : M X A) Q w :
  (w_closed w = true → Q (Err RuntimeError) w) →
  (w_closed w = false →
   wp fn (λ r w', match r with
                  | Ok a => Q (Ok a) w'
                  | Err e => Q (Err e) (with_db w' (w_db w))
                  end) w) →
  wp (db_write fn) Q w.
Proof.
  intros H1 H2. unfold wp, db_write in *. destruct (w_closed w); [by apply H1|].
  specialize (H2 eq_refl). by destruct (fn w) as [[a|e] w'].
Qed.
End DbWp.

(** Run a program symbolically, splitting on its branches. *)
Ltac wp1 :=
  match goal with
  | |- wp (mbind _ _) _ _ => apply wp_bind
  | |- wp (mret _) _ _ => apply wp_ret
  | |- wp (throw _) _ _ => apply wp_throw
  | |- wp (raise_ _) _ _ => apply wp_raise
  | |- wp (lift _) _ _ => apply wp_lift
  | |- wp (gets _) _ _ => apply wp_gets
  | |- wp (db_read _) _ _ => apply wp_db_read
  | |- wp (db_modify _) _ _ => apply wp_db_modify
  | |- wp (db_write _) _ _ => apply wp_db_write; intros ?
  | |- wp (attempt _) _ _ => apply wp_attempt
  | |- wp time_now _ _ => apply wp_time; intros ? ?
  | |- wp uuid4_hex _ _ => apply wp_uuid; intros ? ?
  | |- wp (on_ext _) _ _ => apply wp_on_ext; intros ? ? ?
  | |- wp (call_broker _ _) _ _ => apply wp_call_broker; intros ? ? ?
  | |- wp (match ?x with _ => _ end) _ _ => destruct x eqn:?
  | |- wp (let '_ := ?x in _) _ _ => destruct x eqn:?
  | |- match ?x with Ok _ => _ | Err _ => _ end => destruct x eqn:?
  end.
