(* ===== verification/Sample.v ===== *)
(** A concrete outside and environment, at which the witnesses of the theorems
    are evaluated: a clock that stands still, numbered ids, and an injective
    stand-in for the hash functions. *)

From Stdlib Require Import ZArith String Ascii.
From stdpp Require Import pretty.
From S2P Require Import Prelude PyFloat PyVal Errors Monad Broker Db.
Local Open Scope string_scope.
Local Open Scope list_scope.

Record outside := mk_outside {
  s_clock : Z;
  s_ids : N }.

Definition outside_ext : Ext outside := {|
  ext_time x := (s_clock x, x);
  ext_uuid4_hex x := ("id" +:+ pretty (s_ids x), mk_outside (s_clock x) (s_ids x + 1)) |}.

Fixpoint hex (s : string) : string :=
  match s with
  | EmptyString => EmptyString
  | String c s' => let n := nat_of_ascii c in
      String (hex_digit (n / 16)) (String (hex_digit (n mod 16)) (hex s'))
  end.

Definition sample_env : PyEnv := {|
  float_repr x := if isfinite x then "1.0" else "inf";
  float_format_8g _ := "1";
  str_of_other _ := "?";
  sha256_hexdigest := hex;
  sha1_hexdigest s := Str.take 40 (hex s +:+ "0000000000000000000000000000000000000000");
  sql_sum := foldr fadd fzero;
  audit_enabled := true |}.

Definition start (d : db) : world outside := mk_world d false (mk_outside 1000 0) [].
