(* ===== verification/Writer.v ===== *)
(** [storage/db.py]: the one writer of the database, and the queue before it.

    Calls of [write] come in while the writer task works, so a run is an interleaving
    of their steps, each step what happens between two points where a task waits.  The
    rest of the development runs a write as one step of the store ([db_write] of file
    [Db]); [writes_serialized] is why it may. *)

From Stdlib Require Import ZArith String.
From S2P Require Import Prelude PyFloat PyVal Errors Monad Broker Tables Db Sample.
Local Open Scope list_scope.

Section Writer.
Context {X V : Type}.

Definition write_fn : Type := M X V.

(** [with conn: return fn(conn)]: one transaction. *)
Definition _run_write (fn : write_fn) (w : world X) : result V * world X :=
  match fn w with
  | (Ok v, w') => (Ok v, w')
  | (Err e, w') => (Err e, with_db w' (w_db w))
  end.

(** ** State *)

Inductive future := Pending | Done (r : result V) | Cancelled.

(** Where the writer task is. *)
Inductive writer :=
| NoTask
| Opening                                   (* [self.connect] on the writer thread *)
| Waiting                                   (* [await self._queue.get()] *)
| Executing (fn : write_fn) (n : nat)       (* [_run_write] on the writer thread *)
| Settling (r : result V) (n : nat)         (* back in the loop, with the outcome *)
| Closing                                   (* [conn.close] *)
| Ended
| Failed.                                   (* [connect] raised *)

(** An entry of the queue is a function with the number of its future, or [None]. *)
Record Database := mk_database {
  d_world : world X;
  d_queue : list (option (write_fn * nat));
  d_futures : list future;
  d_writer : writer;
  d_closed : bool;
  d_executor : bool }.

Definition new_database (w : world X) : Database := mk_database w [] [] NoTask false true.

Definition at_writer (t : writer) (d : Database) : Database :=
  mk_database (d_world d) (d_queue d) (d_futures d) t (d_closed d) (d_executor d).
Definition set_queue (q : list (option (write_fn * nat))) (d : Database) : Database :=
  mk_database (d_world d) q (d_futures d) (d_writer d) (d_closed d) (d_executor d).
Definition set_future (n : nat) (f : future) (d : Database) : Database :=
  mk_database (d_world d) (d_queue d) (<[n := f]> (d_futures d)) (d_writer d) (d_closed d) (d_executor d).

(** ** Operations *)

(** A database is started once, by the process that made it. *)
Definition start (d : Database) : Database :=
  match d_writer d, d_closed d with NoTask, false => at_writer Opening d | _, _ => d end.

(** [write], up to waiting for its future: the number of that future. *)
Definition write (fn : write_fn) : ST Database nat := λ d,
  if d_closed d then (Err RuntimeError, d)
  else let n := length (d_futures d) in
       (Ok n, mk_database (d_world d) (d_queue d ++ [Some (fn, n)]) (d_futures d ++ [Pending]) (d_writer d)
                (d_closed d) (d_executor d)).

(** The caller of [write] is cancelled while it waits. *)
Definition cancel_caller (n : nat) (d : Database) : Database :=
  match d_futures d !! n with Some Pending => set_future n Cancelled d | _ => d end.

(** [connect] ends. *)
Definition opened (ok : bool) (d : Database) : Database :=
  match d_writer d with
  | Opening => at_writer (if ok && d_executor d then Waiting else Failed) d
  | _ => d
  end.

(** The next step of [_writer_loop]. *)
Definition _writer_loop (d : Database) : Database :=
  match d_writer d with
  | Waiting =>
      match d_queue d with
      | [] => d
      | None :: q => at_writer Closing (set_queue q d)
      | Some (fn, n) :: q => at_writer (Executing fn n) (set_queue q d)
      end
  | Executing fn n =>
      let '(r, w) := _run_write fn (d_world d) in
      mk_database w (d_queue d) (d_futures d) (Settling r n) (d_closed d) (d_executor d)
  | Settling r n =>
      at_writer Waiting (match d_futures d !! n with Some Pending => set_future n (Done r) d | _ => d end)
  | Closing => at_writer Ended d
  | _ => d
  end.

(** [stop], up to waiting for the writer task, and after it. *)
Definition stop (d : Database) : Database :=
  if d_closed d then d
  else match d_writer d with
       | NoTask => mk_database (d_world d) (d_queue d) (d_futures d) NoTask true false
       | t => mk_database (d_world d) (d_queue d ++ [None]) (d_futures d) t true (d_executor d)
       end.
Definition joined (d : Database) : Database :=
  match d_writer d with
  | Ended | Failed => if d_closed d then mk_database (d_world d) (d_queue d) (d_futures d) (d_writer d) true false else d
  | _ => d
  end.

(** ** Runs *)

Inductive act :=
| Start | Opened (ok : bool) | Write (fn : write_fn) | CancelCaller (n : nat) | Turn | Stop | Joined.

Definition act_step (a : act) (d : Database) : Database :=
  match a with
  | Start => start d
  | Opened ok => opened ok d
  | Write fn => (write fn d).2
  | CancelCaller n => cancel_caller n d
  | Turn => _writer_loop d
  | Stop => stop d
  | Joined => joined d
  end.
Definition run_acts (acts : list act) (d : Database) : Database := foldl (λ d a, act_step a d) d acts.

(** The writes a run accepts, in the order of their calls. *)
Fixpoint accepted (acts : list act) (d : Database) : list write_fn :=
  match acts with
  | [] => []
  | a :: acts' =>
      (match a with Write fn => if d_closed d then [] else [fn] | _ => [] end) ++ accepted acts' (act_step a d)
  end.

(** ** The specification: the writes one after the other

    A write that raises leaves the store as it was; what it did outside of it stays. *)

Definition transaction (fn : write_fn) (w : world X) : result V * world X :=
  let '(r, w') := fn w in (r, if is_ok r then w' else with_db w' (w_db w)).

Lemma run_write_transaction fn w : _run_write fn w = transaction fn w.
Proof. unfold _run_write, transaction. by destruct (fn w) as [[v|e] w']. Qed.

Fixpoint serial (ws : list write_fn) (w : world X) : list (result V) * world X :=
  match ws with
  | [] => ([], w)
  | fn :: ws' =>
      let '(r, w1) := transaction fn w in
      let '(rs, w2) := serial ws' w1 in (r :: rs, w2)
  end.

Lemma serial_snoc ws fn w :
  serial (ws ++ [fn]) w =
  let '(rs, w1) := serial ws w in let '(r, w2) := transaction fn w1 in (rs ++ [r], w2).
Proof.
  revert w. induction ws as [|fn' ws IH]; intros w; simpl; [by destruct (transaction fn w)|].
  destruct (transaction fn' w) as [r w1]. rewrite IH. destruct (serial ws w1) as [rs w2]. by destruct (transaction fn w2).
Qed.
Lemma serial_length ws w : length (serial ws w).1 = length ws.
Proof.
  revert w. induction ws as [|fn ws IH]; intros w; simpl; [done|].
  destruct (transaction fn w) as [r w1]. specialize (IH w1). destruct (serial ws w1). simpl in *. congruence.
Qed.

(** On an open world a run is that of [db_write]. *)
Lemma run_write_db fn w : w_closed w = false → db_write fn w = _run_write fn w.
Proof. unfold db_write, _run_write. by intros ->. Qed.

(** ** The invariant *)

Fixpoint numbered (k : nat) (ws : list write_fn) : list (write_fn * nat) :=
  match ws with [] => [] | fn :: ws' => (fn, k) :: numbered (S k) ws' end.
Lemma numbered_app k ws ws' : numbered k (ws ++ ws') = numbered k ws ++ numbered (k + length ws) ws'.
Proof.
  revert k. induction ws as [|fn ws IH]; intros k; simpl; [by rewrite Nat.add_0_r|].
  rewrite IH. do 2 f_equal. by rewrite Nat.add_succ_r.
Qed.

(** What the writer has taken from the queue and not yet run. *)
Definition in_hand (t : writer) : list (write_fn * nat) :=
  match t with Executing fn n => [(fn, n)] | _ => [] end.

(** The [None] of [stop], until the writer takes it. *)
Definition sentinel (closed : bool) (t : writer) : list (option (write_fn * nat)) :=
  if closed then match t with NoTask | Closing | Ended => [] | _ => [None] end else [].
Lemma sentinel_empty c t : omap (λ e, e) (sentinel c t) = [].
Proof. by destruct c, t. Qed.

(** [done] has run on the world [w0] with the results [rs]; [rest] waits. *)
Record serialized (w0 : world X) (done rest : list write_fn) (d : Database) : Prop := {
  sz_queue : ∃ q, d_queue d = map Some q ++ sentinel (d_closed d) (d_writer d)
             ∧ in_hand (d_writer d) ++ q = numbered (length done) rest;
  sz_world : d_world d = (serial done w0).2;
  sz_length : length (d_futures d) = length done + length rest;
  sz_done : ∀ n r, d_futures d !! n = Some (Done r) → (serial done w0).1 !! n = Some r;
  sz_pending : ∀ n, n < length done → d_futures d !! n = Some Pending → ∃ r, d_writer d = Settling r n;
  sz_settling : ∀ r n, d_writer d = Settling r n → (serial done w0).1 !! n = Some r;
  sz_closing : d_writer d = Closing ∨ d_writer d = Ended → d_closed d = true ∧ rest = [] }.

Lemma serialized_new w0 : serialized w0 [] [] (new_database w0).
Proof. split; try done; [by exists []|by intros [|]]. Qed.

(** Only the writer's place changes, and it holds nothing before or after. *)
Lemma place_serialized w0 ws rest d t c ex :
  serialized w0 ws rest d → in_hand (d_writer d) = [] → in_hand t = [] →
  (∀ r n, d_writer d ≠ Settling r n) → (∀ r n, t ≠ Settling r n) →
  (∃ q : list (write_fn * nat), d_queue d = map Some q ++ sentinel c t) →
  (t = Closing ∨ t = Ended → c = true ∧ rest = []) →
  serialized w0 ws rest (mk_database (d_world d) (d_queue d) (d_futures d) t c ex).
Proof.
  intros [(q & Hq & Hn) Hw Hl Hd Hp Hs Hc] Hh Ht Hns Hns' (q' & Hq') Hc'. rewrite Hh in Hn. simpl in Hn.
  assert (q' = q) as ->.
  { apply (f_equal (omap (λ e, e))) in Hq, Hq'. rewrite Hq in Hq'. rewrite !omap_app in Hq'.
    rewrite !sentinel_empty, !app_nil_r in Hq'. clear -Hq'. revert q' Hq'.
    induction q as [|x q IH]; intros [|y q'] Hq'; simpl in *; try done. injection Hq' as -> Hq'. f_equal. by apply IH. }
  split; simpl; try done.
  - exists q. rewrite Ht. by split.
  - intros n Hlt Hpend. destruct (Hp n Hlt Hpend) as [r Hr]. by destruct (Hns r n).
  - intros r n Hr. by destruct (Hns' r n).
Qed.

Lemma write_serialized w0 ws rest fn d : serialized w0 ws rest d → d_closed d = false →
  serialized w0 ws (rest ++ [fn]) (write fn d).2.
Proof.
  intros [Hq Hw Hl Hd Hp Hs Hc] Hcl. unfold write. rewrite Hcl in *. destruct Hq as (q & Hq & Hn).
  rewrite app_nil_r in Hq. split; simpl; rewrite ?Hcl; try done.
  - exists (q ++ [(fn, length (d_futures d))]). split; [by rewrite Hq, map_app, app_nil_r|].
    rewrite app_assoc, Hn, numbered_app, Hl. done.
  - rewrite !length_app, Hl. simpl. lia.
  - intros n r [Hn'|[_ Hn']]%lookup_app_Some; [by apply Hd|]. by apply list_lookup_singleton_Some in Hn' as [_ ?].
  - intros n Hlt [Hn'|[Hge _]]%lookup_app_Some; [by apply Hp|]. lia.
  - intros [Ht|Ht]; destruct Hc; auto; congruence.
Qed.

Lemma start_serialized w0 ws rest d : serialized w0 ws rest d → serialized w0 ws rest (start d).
Proof.
  intros Hz. unfold start. destruct (d_writer d) eqn:Et, (d_closed d) eqn:Ec; try done.
  unfold at_writer. apply place_serialized; rewrite ?Et; try done; [|by intros [|]].
  destruct (sz_queue _ _ _ _ Hz) as (q & Hq & _). rewrite Ec in *. by exists q.
Qed.

Lemma opened_serialized w0 ws rest ok d : serialized w0 ws rest d → serialized w0 ws rest (opened ok d).
Proof.
  intros Hz. unfold opened. destruct (d_writer d) eqn:Et; try done. unfold at_writer.
  destruct (sz_queue _ _ _ _ Hz) as (q & Hq & _). rewrite Et in Hq.
  destruct (ok && d_executor d); (apply place_serialized; rewrite ?Et; try done; [by exists q|by intros [|]]).
Qed.

Lemma stop_serialized w0 ws rest d : serialized w0 ws rest d → serialized w0 ws rest (stop d).
Proof.
  intros Hz. unfold stop. destruct (d_closed d) eqn:Ec; [done|].
  destruct Hz as [(q & Hq & Hn) Hw Hl Hd Hp Hs Hc]. rewrite Ec, app_nil_r in Hq.
  assert (d_writer d ≠ Closing ∧ d_writer d ≠ Ended) as [H1 H2] by (split; intros ?; destruct Hc; auto; congruence).
  destruct (d_writer d) eqn:Et; try done; split; simpl; try done;
    try (exists q; split; [by rewrite Hq, ?app_nil_r|done]); by intros [|].
Qed.

Lemma joined_serialized w0 ws rest d : serialized w0 ws rest d → serialized w0 ws rest (joined d).
Proof.
  intros Hz. unfold joined. destruct (d_writer d) eqn:Et, (d_closed d) eqn:Ec; try done;
    (destruct (sz_queue _ _ _ _ Hz) as (q & Hq & _); rewrite Et, Ec in Hq;
     apply place_serialized; rewrite ?Et; try done; [by exists q|]).
  - intros _. split; [done|]. by apply (sz_closing _ _ _ _ Hz); right.
  - by intros [|].
Qed.

Lemma future_serialized w0 ws rest n f d : serialized w0 ws rest d → d_futures d !! n = Some Pending →
  f ≠ Pending → (∀ r, f = Done r → (serial ws w0).1 !! n = Some r) → serialized w0 ws rest (set_future n f d).
Proof.
  intros [Hq Hw Hl Hd Hp Hs Hc] Hn Hne Hf. split; simpl; try done.
  - by rewrite length_insert.
  - intros m r [(-> & -> & _)|[_ Hm]]%list_lookup_insert_Some; [by apply Hf|by apply Hd].
  - intros m Hlt [(_ & -> & _)|[_ Hm]]%list_lookup_insert_Some; [done|by apply Hp].
Qed.

Lemma cancel_serialized w0 ws rest n d : serialized w0 ws rest d → serialized w0 ws rest (cancel_caller n d).
Proof.
  intros Hz. unfold cancel_caller. destruct (d_futures d !! n) as [[]|] eqn:En; try done.
  by apply future_serialized.
Qed.

(** A step of the writer task runs at most one write: the next. *)
Lemma turn_serialized w0 ws rest d : serialized w0 ws rest d →
  ∃ ws' rest', ws' ++ rest' = ws ++ rest ∧ serialized w0 ws' rest' (_writer_loop d).
Proof.
  intros Hz. unfold _writer_loop. destruct (d_writer d) as [| | |fn n|r n| | |] eqn:Et; try (by exists ws, rest).
  - (* Waiting *)
    destruct Hz as [(q & Hq & Hn) Hw Hl Hd Hp Hs Hc]. rewrite Et in *. simpl in Hn. exists ws, rest. split; [done|].
    destruct q as [|[fn n] q]; simpl in Hq.
    + destruct (d_closed d) eqn:Ec; rewrite Hq; simpl in *.
      * split; simpl; rewrite ?Ec; try done; [by exists []| |].
        { intros m Hlt Hm. by destruct (Hp m Hlt Hm). }
        { split; [done|]. by destruct rest. }
      * split; rewrite ?Et, ?Ec; try done. by exists [].
    + rewrite Hq. destruct rest as [|fn' rest]; [done|]. simpl in Hn. injection Hn as <- -> Hn.
      split; simpl; try done; [|intros m Hlt Hm; by destruct (Hp m Hlt Hm)|by intros [|]].
      exists q. by rewrite Hn.
  - (* Executing *)
    destruct Hz as [(q & Hq & Hn) Hw Hl Hd Hp Hs Hc]. rewrite Et in *. simpl in Hn.
    destruct rest as [|fn' rest]; [done|]. simpl in Hn. injection Hn as <- -> Hn.
    exists (ws ++ [fn]), rest. split; [by rewrite <-app_assoc|].
    pose proof (serial_snoc ws fn w0) as Hser. pose proof (serial_length ws w0) as Hlen.
    destruct (serial ws w0) as [rs w1]. simpl in *. subst w1.
    rewrite run_write_transaction. destruct (transaction fn (d_world d)) as [r w2].
    split; simpl; rewrite ?Hser; simpl; try done.
    + exists q. by rewrite length_app, Nat.add_1_r.
    + rewrite Hl, length_app. simpl. lia.
    + intros m r' Hm. by apply lookup_app_l_Some, Hd.
    + intros m Hlt Hm. rewrite length_app in Hlt. simpl in Hlt.
      destruct (decide (m = length ws)) as [->|]; [by exists r|]. destruct (Hp m) as [? ?]; [lia|done..].
    + intros r' m Heq. injection Heq as <- <-. by rewrite <-Hlen, list_lookup_middle.
    + by intros [|].
  - (* Settling *)
    exists ws, rest. split; [done|].
    assert (serialized w0 ws rest (match d_futures d !! n with Some Pending => set_future n (Done r) d | _ => d end)
      ∧ d_futures (match d_futures d !! n with Some Pending => set_future n (Done r) d | _ => d end) !! n ≠ Some Pending
      ∧ d_writer (match d_futures d !! n with Some Pending => set_future n (Done r) d | _ => d end) = Settling r n) as (Hz' & Hne & Ht).
    { destruct (d_futures d !! n) as [[]|] eqn:En; try (by rewrite ?En).
      split; [|split; [|done]].
      - apply future_serialized; try done. intros r' Heq. injection Heq as <-. by apply (sz_settling _ _ _ _ Hz).
      - simpl. rewrite list_lookup_insert_eq; [done|]. by apply lookup_lt_Some in En. }
    set (d' := match d_futures d !! n with Some Pending => _ | _ => _ end) in *. clearbody d'. clear Hz Et d.
    destruct Hz' as [(q & Hq & Hn) Hw Hl Hd Hp Hs Hc]. rewrite Ht in *.
    split; simpl; try done; [by exists q| |by intros [|]].
    intros m Hlt Hm. destruct (Hp m Hlt Hm) as [r' Hr']. injection Hr' as <- <-. done.
  - (* Closing *)
    exists ws, rest. split; [done|]. unfold at_writer.
    destruct Hz as [(q & Hq & Hn) Hw Hl Hd Hp Hs Hc]. rewrite Et in *.
    split; simpl; try done; [by exists q; destruct (d_closed d)| |intros _; apply Hc; auto].
    intros m Hlt Hm. by destruct (Hp m Hlt Hm).
Qed.

Lemma acts_serialized w0 acts ws rest d : serialized w0 ws rest d →
  ∃ ws' rest', ws' ++ rest' = (ws ++ rest) ++ accepted acts d ∧ serialized w0 ws' rest' (run_acts acts d).
Proof.
  revert ws rest d. induction acts as [|a acts IH]; intros ws rest d Hz; [exists ws, rest; by rewrite app_nil_r|].
  assert (∃ ws' rest', ws' ++ rest' = (ws ++ rest) ++ (match a with Write fn => if d_closed d then [] else [fn] | _ => [] end)
    ∧ serialized w0 ws' rest' (act_step a d)) as (ws1 & rest1 & H1 & Hz1).
  { destruct a; simpl; rewrite ?app_nil_r.
    - exists ws, rest. auto using start_serialized.
    - exists ws, rest. auto using opened_serialized.
    - destruct (d_closed d) eqn:Ec.
      + exists ws, rest. rewrite app_nil_r. unfold write. by rewrite Ec.
      + exists ws, (rest ++ [fn]). rewrite app_assoc. auto using write_serialized.
    - exists ws, rest. auto using cancel_serialized.
    - by apply turn_serialized.
    - exists ws, rest. auto using stop_serialized.
    - exists ws, rest. auto using joined_serialized. }
  destruct (IH ws1 rest1 _ Hz1) as (ws2 & rest2 & H2 & Hz2). exists ws2, rest2. simpl.
  split; [|exact Hz2]. by rewrite H2, H1, <-!app_assoc.
Qed.

(** C18: the queue serialises.  However calls of [write], cancelled callers, the start
    and stop of the database and the steps of its writer interleave, the store is that
    of an initial part of the accepted writes run one after the other, each once, in
    the order of their calls, each undone if it raised; a caller is answered with the
    outcome of its own write, whatever became of the others; each write that was run
    is answered, but for the one the writer holds; and when the writer has ended no
    accepted write is left. *)
Theorem writes_serialized w0 acts :
  let d := run_acts acts (new_database w0) in
  ∃ run waiting, accepted acts (new_database w0) = run ++ waiting ∧
  let '(rs, w) := serial run w0 in
  d_world d = w ∧
  length (d_futures d) = length (run ++ waiting) ∧
  (∀ n r, d_futures d !! n = Some (Done r) → rs !! n = Some r) ∧
  (∀ n, n < length run → d_futures d !! n = Some Pending → ∃ r, d_writer d = Settling r n ∧ rs !! n = Some r) ∧
  (d_writer d = Ended → waiting = []).
Proof.
  simpl. destruct (acts_serialized w0 acts [] [] _ (serialized_new w0)) as (run & waiting & Hacc & [_ Hw Hl Hd Hp Hs Hc]).
  exists run, waiting. split; [done|]. destruct (serial run w0) as [rs w]. simpl in *. rewrite length_app.
  repeat split; try done; [|by intros Ht; apply Hc; right].
  intros n Hlt Hn. destruct (Hp n Hlt Hn) as [r Hr]. exists r. split; [done|by apply Hs].
Qed.

(** ** The writer empties the queue *)

Definition turns (n : nat) (d : Database) : Database := Nat.iter n _writer_loop d.

(** Steps of the writer until it waits before an empty queue, or has ended. *)
Definition weight (d : Database) : nat :=
  3 * length (d_queue d) + match d_writer d with Executing _ _ => 2 | Settling _ _ | Closing => 1 | _ => 0 end.
Definition working (d : Database) : Prop :=
  match d_writer d with NoTask | Opening | Failed => False | _ => True end.
Definition at_rest (d : Database) : Prop := d_writer d = Ended ∨ d_writer d = Waiting ∧ d_queue d = [].

Lemma turn_weight w0 ws rest d : serialized w0 ws rest d → working d →
  working (_writer_loop d) ∧ (at_rest d ∨ weight (_writer_loop d) < weight d).
Proof.
  intros Hz. unfold working, at_rest, weight, _writer_loop.
  destruct (d_writer d) as [| | |fn n|r n| | |] eqn:Et; try done; intros _.
  - destruct (d_queue d) as [|[[fn n]|] q] eqn:Eq; simpl; rewrite ?Et, ?Eq; simpl; (split; [done|]); [left; auto|right; lia..].
  - destruct (_run_write fn (d_world d)). simpl. split; [done|right; lia].
  - split; [done|]. right. destruct (d_futures d !! n) as [[]|]; simpl; lia.
  - simpl. split; [done|right; lia].
  - rewrite Et. auto.
Qed.

Lemma turns_rest w0 n ws rest d : serialized w0 ws rest d → working d → weight d ≤ n →
  ∃ ws' rest', ws' ++ rest' = ws ++ rest ∧ serialized w0 ws' rest' (turns n d) ∧ at_rest (turns n d).
Proof.
  revert ws rest d. induction n as [|n IH]; intros ws rest d Hz Hk Hn.
  - exists ws, rest. split; [done|]. split; [exact Hz|]. unfold turns. simpl.
    destruct (turn_weight _ _ _ _ Hz Hk) as [_ [Hr|Hlt]]; [exact Hr|lia].
  - destruct (turn_serialized _ _ _ _ Hz) as (ws1 & rest1 & H1 & Hz1).
    destruct (turn_weight _ _ _ _ Hz Hk) as [Hk1 Hw]. unfold turns. rewrite Nat.iter_succ_r.
    assert (weight (_writer_loop d) ≤ n) as Hn1.
    { destruct Hw as [[Ht|[Ht Hq]]|Hlt]; [| |lia]; unfold weight, _writer_loop in *; rewrite Ht in *.
      - rewrite Ht. unfold at_rest in *. destruct (d_closed d) eqn:Ec;
          [|destruct (sz_closing _ _ _ _ Hz) as [? _]; [auto|congruence]].
        destruct (sz_queue _ _ _ _ Hz) as (q & Hq & Hin). destruct (sz_closing _ _ _ _ Hz) as [_ ->]; [auto|].
        rewrite Ht in *. simpl in Hin. subst q. rewrite Hq, Ec. simpl. lia.
      - rewrite Hq, Ht. simpl. rewrite Hq. simpl. lia. }
    destruct (IH ws1 rest1 _ Hz1 Hk1 Hn1) as (ws2 & rest2 & H2 & Hz2 & Hr). exists ws2, rest2.
    split; [by rewrite H2, H1|]. by split.
Qed.

(** C19: no caller waits for ever.  Three steps of the writer for each entry of the queue
    and two for the one in hand are enough: then every accepted write has been run, and
    every caller that was not cancelled has the outcome of its own. *)
Theorem writer_drains w0 acts :
  let d := run_acts acts (new_database w0) in
  working d →
  let d' := turns (weight d) d in
  let '(rs, w) := serial (accepted acts (new_database w0)) w0 in
  d_world d' = w ∧
  ∀ n f, d_futures d' !! n = Some f → f = Cancelled ∨ ∃ r, f = Done r ∧ rs !! n = Some r.
Proof.
  simpl. intros Hk. destruct (acts_serialized w0 acts [] [] _ (serialized_new w0)) as (ws & rest & Hacc & Hz).
  destruct (turns_rest w0 _ ws rest _ Hz Hk (le_n _)) as (ws' & rest' & Heq & [(q & Hq & Hn) Hw Hl Hd Hp Hs Hc] & Hr).
  rewrite Hacc in Heq. simpl in Heq. set (d' := turns _ _) in *. clearbody d'.
  assert (rest' = []) as ->.
  { destruct Hr as [Ht|[Ht Hempty]]; [by apply Hc; right|]. rewrite Hempty in Hq. rewrite Ht in Hn.
    destruct q; [by destruct rest'|done]. }
  rewrite app_nil_r in Heq. subst ws'. destruct (serial (accepted acts _) w0) as [rs w]. simpl in *.
  split; [done|]. intros n f Hf. destruct f as [|r|]; [|right; exists r; auto|by left].
  apply lookup_lt_Some in Hf as Hlt. rewrite Hl, Nat.add_0_r in Hlt.
  destruct (Hp n Hlt Hf) as [r Ht]. destruct Hr as [Ht'|[Ht' _]]; congruence.
Qed.

(** When [connect] raises, the task ends and tells nobody: writes are still accepted,
    none is ever run, and who waits for one waits for ever. *)
Lemma failed_writer_settles_nothing acts d : d_writer d = Failed →
  d_writer (run_acts acts d) = Failed ∧ d_world (run_acts acts d) = d_world d ∧
  ∀ n r, d_futures (run_acts acts d) !! n = Some (Done r) → d_futures d !! n = Some (Done r).
Proof.
  revert d. induction acts as [|a acts IH]; intros d Ht; [done|].
  assert (d_writer (act_step a d) = Failed ∧ d_world (act_step a d) = d_world d ∧
    ∀ n r, d_futures (act_step a d) !! n = Some (Done r) → d_futures d !! n = Some (Done r)) as (Ht1 & Hw1 & Hf1).
  { destruct a; simpl.
    - unfold start. by rewrite Ht.
    - unfold opened. by rewrite Ht.
    - unfold write. destruct (d_closed d); [done|]. simpl. split; [done|]. split; [done|].
      intros n r [?|[_ Hn]]%lookup_app_Some; [done|]. by apply list_lookup_singleton_Some in Hn as [_ ?].
    - unfold cancel_caller. destruct (d_futures d !! n) as [[]|]; try done. split; [done|]. split; [done|].
      intros m r. simpl. by intros [(_ & ? & _)|[_ ?]]%list_lookup_insert_Some.
    - unfold _writer_loop. by rewrite Ht.
    - unfold stop. destruct (d_closed d); [done|]. by rewrite Ht.
    - unfold joined. rewrite Ht. by destruct (d_closed d). }
  destruct (IH _ Ht1) as (Ht2 & Hw2 & Hf2). simpl. split; [done|]. split; [by rewrite Hw2|]. auto.
Qed.
End Writer.

(** ** A sample database *)

Definition adding (fails : bool) : M outside Z :=
  db_modify (set_accounts (λ l, l ++ [mk_account "a"%string ""%string [] "spot"%string Paper None None 0 0]));;
  if fails then throw ValueError else n ← db_read (λ d, Z.of_nat (length (accounts d))); mret n.

(** Three calls, the second of which raises and the first of which loses its caller;
    the stop comes while they wait, and a call after it is refused. *)
Definition sample_acts : list (act (X:=outside) (V:=Z)) :=
  [Start; Write (adding false); Write (adding true); Opened true; Turn; Write (adding false); CancelCaller 0;
   Turn; Stop; Write (adding false)].
Definition sample_writer : Database := run_acts sample_acts (new_database (Sample.start empty_db)).

Example sample_drained :
  let d := turns (weight sample_writer) sample_writer in
  d_futures d = [Cancelled; Done (Err ValueError); Done (Ok 2%Z)] ∧ d_writer d = Ended ∧
  length (accounts (w_db (d_world d))) = 2.
Proof. vm_compute. done. Qed.

Lemma writer_drains_witness :
  working sample_writer ∧
  ∀ f, d_futures (turns (weight sample_writer) sample_writer) !! 2 = Some f →
    f = Cancelled ∨ ∃ r, f = Done r ∧ (serial (accepted sample_acts (new_database (Sample.start empty_db))) (Sample.start empty_db)).1 !! 2 = Some r.
Proof.
  assert (working sample_writer) as Hk by (vm_compute; exact I).
  split; [exact Hk|]. pose proof (writer_drains (Sample.start empty_db) sample_acts Hk) as Ht.
  unfold sample_writer in *. destruct (serial _ _) as [rs w]. intros f Hf. exact (proj2 Ht 2 f Hf).
Defined.

(** A file that [connect] refuses: the first write of a start waits for ever, and the
    start with it. *)
Example failed_connect_hangs :
  let d := run_acts [Start; Opened false; Write (adding false)] (new_database (Sample.start empty_db)) in
  d_futures d = [Pending] ∧ ∀ acts r, d_futures (run_acts acts d) !! 0 ≠ Some (Done r).
Proof.
  split; [reflexivity|]. intros acts r Hr.
  by apply (failed_writer_settles_nothing acts) in Hr.
Qed.
