(* ===== verification/Feed.v ===== *)
(** [data/clock.py], [data/universe.py], [timeutil.py]: the clock that follows the
    Binance server, the symbol universe, and the state the data services share.

    Times are whole seconds.  [BinanceREST.get] is the class [Rest]; file [RestClient]
    models it.  A service whose loop syncs in the background is a sequence of its
    calls here. *)

From Stdlib Require Import ZArith String.
From S2P Require Import Prelude PyFloat PyVal Errors Monad Broker Tables Db.
Local Open Scope string_scope.
Local Open Scope list_scope.

Definition _MS_THRESHOLD : Z := 100000000000.

Definition to_epoch_seconds (ts : Z) : Z := if (_MS_THRESHOLD <=? ts)%Z then (ts / 1000)%Z else ts.

(** [rest.get(path, params, weight)] of the spot client, or of the futures one. *)
Class Rest (X : Type) := {
  rest_get : bool → string → list (string * pyval) → Z → X → result pyval * X }.

(** The settings of [config.py] the data services read. *)
Class FeedConfig := {
  kline_intervals : list string;
  universe_refresh_seconds : Z;
  futures_universe_ttl_seconds : Z;
  kline_backfill_bars : Z;
  kline_catchup_bars : Z }.

(** ** State *)

Record BinanceClock := mk_clock {
  ck_offset : option Z;
  ck_synced_at : Z }.

Definition refresh_seconds : Z := 60.
Definition max_offset_age_seconds : Z := 300.
Definition max_offset_seconds : Z := 3600.

Inductive universe_status := U_unknown | U_ok | U_stale | U_error.

Record UniverseService := mk_universe {
  un_symbols : list string;
  un_info : list (string * list (string * pyval));
  un_status : universe_status;
  un_last_sync : Z }.

(** A queued fetch; its future is named by [j_seq]. *)
Record job := mk_job {
  j_priority : Z;
  j_seq : Z;
  j_symbol : string;
  j_timeframe : string;
  j_limit : Z;
  j_source : string }.

Record KlineService := mk_klines {
  kl_queue : list job;
  kl_seq : Z;
  kl_in_flight : list ((string * string * string) * Z);
  kl_done : list (Z * result nat);
  kl_futures_symbols : option (list string);
  kl_futures_sync_at : Z }.

(** The counters of the analysis layer: the computations an alarm pass and a scan
    have started on demand, the symbols a scan deferred, and the last bar the
    worker completed per timeframe. *)
Record pa_state := mk_pa {
  pa_alarm_used : nat;
  pa_scan_used : nat;
  pa_scan_deferred : nat;
  pa_last_processed : list (string * Z) }.

Record services (X : Type) := mk_services {
  sv_world : world X;
  sv_clock : BinanceClock;
  sv_universe : UniverseService;
  sv_klines : KlineService;
  sv_pa : pa_state }.
Arguments mk_services {X}.
Arguments sv_world {X}.
Arguments sv_clock {X}.
Arguments sv_universe {X}.
Arguments sv_klines {X}.
Arguments sv_pa {X}.

Definition new_clock : BinanceClock := mk_clock None 0.
Definition new_universe : UniverseService := mk_universe [] [] U_unknown 0.
Definition new_klines : KlineService := mk_klines [] 0 [] [] None 0.
Definition new_pa : pa_state := mk_pa 0 0 0 [].

Abbreviation PM X := (ST (services X)).

Section Services.
Context {X : Type}.

Definition set_world (w : world X) (s : services X) := mk_services w (sv_clock s) (sv_universe s) (sv_klines s) (sv_pa s).
Definition set_clock c (s : services X) := mk_services (sv_world s) c (sv_universe s) (sv_klines s) (sv_pa s).
Definition set_universe u (s : services X) := mk_services (sv_world s) (sv_clock s) u (sv_klines s) (sv_pa s).
Definition set_klines k (s : services X) := mk_services (sv_world s) (sv_clock s) (sv_universe s) k (sv_pa s).
Definition set_pa p (s : services X) := mk_services (sv_world s) (sv_clock s) (sv_universe s) (sv_klines s) p.

(** A step of the store and the outside. *)
Definition in_store {A} (m : M X A) : PM X A := λ s,
  let '(r, w) := m (sv_world s) in (r, set_world w s).

Definition fetch `{Rest X} (futures : bool) (path : string) (params : list (string * pyval)) (weight : Z)
    : PM X pyval := in_store (on_ext (rest_get futures path params weight)).
Definition clock_now `{Ext X} : PM X Z := in_store time_now.

(** [data.get(key)]: only a dict has it. *)
Definition get_field (key : string) (v : pyval) : result pyval :=
  match v with PDict d => Ok (default PNone (assoc key d)) | _ => Err AttributeError end.

(** ** The clock *)

(** The body of [sync]; whatever it raises is caught. *)
Definition sync_offset `{Ext X, Rest X} : PM X bool :=
  data ← fetch false "/api/v3/time" [] 1;
  server_ms ← lift (get_field "serverTime" data);
  _ ← lift (reject_if (negb (truthy server_ms)) INTERNAL_ERROR);
  ms ← lift (py_int server_ms);
  now ← clock_now;
  let offset := (to_epoch_seconds ms - now)%Z in
  if (max_offset_seconds <? Z.abs offset)%Z then
    _ ← modify (λ s, set_clock (mk_clock None (ck_synced_at (sv_clock s))) s);
    mret false
  else
    _ ← modify (λ s, set_clock (mk_clock (Some offset) (ck_synced_at (sv_clock s))) s);
    synced_at ← clock_now;
    _ ← modify (λ s, set_clock (mk_clock (Some offset) synced_at) s);
    mret true.

Definition clock_sync `{Ext X, Rest X} : PM X bool :=
  r ← attempt sync_offset;
  mret (match r with Ok b => b | Err _ => false end).

Definition server_now `{Ext X} : PM X (option Z) :=
  clock ← gets sv_clock;
  match ck_offset clock with
  | None => mret None
  | Some offset =>
      now ← clock_now;
      if (max_offset_age_seconds <? now - ck_synced_at clock)%Z then mret None
      else now ← clock_now; mret (Some (now + offset)%Z)
  end.

(** ** The universe *)

(** [{s["symbol"]: s for s in ...}] *)
Fixpoint entries_by_symbol (l : list pyval) (acc : list (string * list (string * pyval)))
    : result (list (string * list (string * pyval))) :=
  match l with
  | [] => Ok acc
  | PDict d :: l' =>
      match assoc "symbol" d with
      | Some (PStr s) => entries_by_symbol l' (assoc_set s d acc)
      | Some _ => Err TypeError
      | None => Err KeyError
      end
  | _ :: _ => Err TypeError
  end.

Definition symbols_of (data : pyval) : result (list pyval) :=
  match data with
  | PDict d => match assoc "symbols" d with
               | None => Ok []
               | Some (PList l) => Ok l
               | Some _ => Err TypeError
               end
  | _ => Err AttributeError
  end.

Definition field_is (key value : string) (d : list (string * pyval)) : bool :=
  match assoc key d with Some (PStr s) => String.eqb s value | _ => false end.

(** [status == "TRADING"] and [quoteAsset == "USDT"] *)
Definition tradable (d : list (string * pyval)) : bool :=
  field_is "status" "TRADING" d && field_is "quoteAsset" "USDT" d.

Definition universe_of (entries : list (string * list (string * pyval))) : list string :=
  map fst (sort_symbols (List.filter (λ kv, tradable kv.2) entries)).

Definition universe_fetch `{Ext X, Rest X} : PM X nat :=
  data ← fetch false "/api/v3/exchangeInfo" [] 20;
  l ← lift (symbols_of data);
  entries ← lift (entries_by_symbol l []);
  now ← clock_now;
  _ ← modify (set_universe (mk_universe (universe_of entries) entries U_ok now));
  mret (length (universe_of entries)).

(** On any failure the symbols stay, marked stale, and the exception goes on. *)
Definition universe_sync `{Ext X, Rest X} : PM X nat :=
  r ← attempt universe_fetch;
  match r with
  | Ok n => mret n
  | Err e =>
      _ ← modify (λ s, let u := sv_universe s in
            set_universe (mk_universe (un_symbols u) (un_info u)
              (match un_symbols u with [] => U_error | _ => U_stale end) (un_last_sync u)) s);
      throw e
  end.

Definition contains (symbol : string) (u : UniverseService) : bool := str_in symbol (un_symbols u).
Definition snapshot (u : UniverseService) : list string := un_symbols u.
Definition symbol_info (symbol : string) (u : UniverseService) : option (list (string * pyval)) :=
  assoc symbol (un_info u).

Definition ensure_contains `{Ext X, Rest X, FeedConfig} (symbol : string) : PM X bool :=
  u ← gets sv_universe;
  if contains symbol u then mret true
  else
    now ← clock_now;
    _ ← (if (universe_refresh_seconds <? now - un_last_sync u)%Z
         then r ← attempt universe_sync; mret tt else mret tt);
    u ← gets sv_universe;
    mret (contains symbol u).
End Services.
