(* ===== verification/Signing.v ===== *)
(** The signed requests of [data/order_broker.py]: the time, the text that is signed and
    the URL that is sent.  What becomes of the request is the transport of file
    [Broker].

    [hmac] and the percent-encoding of [yarl] are parameters.  [url.query_string] is the
    query before it is encoded, and the request carries it encoded. *)

From Stdlib Require Import ZArith String.
From stdpp Require Import pretty.
From S2P Require Import Prelude PyFloat PyVal Errors Monad Broker Tables Db Sample Feed.
Local Open Scope string_scope.
Local Open Scope list_scope.

Section Signing.
Context {X : Type} `{Ext X}.
Context (credentials : string → PM X (string * string)) (hmac_sha256 : string → string → string).
Context (quote : string → string).
(** Whether the broker was given the clock of the pipeline. *)
Context (has_clock : bool) (base_url : string).

Definition recv_window_ms : Z := 10000.

Definition _now_ms : PM X Z :=
  server ← (if has_clock then server_now else mret None);
  match server with
  | Some t => mret (t * 1000)%Z
  | None => now ← clock_now; mret (now * 1000)%Z
  end.

(** [k=v&k=v...], each value written by [f]. *)
Fixpoint query (f : string → string) (params : list (string * string)) : string :=
  match params with
  | [] => ""
  | [(k, v)] => k +:+ "=" +:+ f v
  | (k, v) :: params' => k +:+ "=" +:+ f v +:+ "&" +:+ query f params'
  end.

Definition stamped (now : Z) (params : list (string * string)) : list (string * string) :=
  assoc_set "recvWindow" (pretty recv_window_ms) (assoc_set "timestamp" (pretty now) params).

Definition signature_of (secret : string) (base : list (string * string)) : string := hmac_sha256 secret (query id base).

Definition _signed_request_url (account_id path : string) (params : list (string * string)) : PM X (string * string) :=
  '(api_key, api_secret) ← credentials account_id;
  now ← _now_ms;
  let base := stamped now params in
  mret (api_key, base_url +:+ path +:+ "?" +:+ query quote (assoc_set "signature" (signature_of api_secret base) base)).

(** ** What the exchange verifies *)

Lemma query_snoc f d k v : d ≠ [] → query f (d ++ [(k, v)]) = query f d +:+ "&" +:+ k +:+ "=" +:+ f v.
Proof.
  assert (∀ a b c : string, a +:+ (b +:+ c) = (a +:+ b) +:+ c) as Hassoc.
  { intros a b c. induction a as [|x a IH]; [done|]. exact (f_equal (String x) IH). }
  induction d as [|[k' v'] d IH]; intros Hne; [done|]. destruct d as [|kv d].
  - simpl. by rewrite !Hassoc.
  - change (((k', v') :: kv :: d) ++ [(k, v)]) with ((k', v') :: ((kv :: d) ++ [(k, v)])).
    assert (∀ e, e ≠ [] → query f ((k', v') :: e) = k' +:+ "=" +:+ f v' +:+ "&" +:+ query f e) as Hq by (by intros []).
    rewrite !Hq by done. rewrite IH by done. by rewrite !Hassoc.
Qed.

Lemma assoc_set_new {A} k (v : A) d : assoc k d = None → assoc_set k v d = d ++ [(k, v)].
Proof.
  induction d as [|[k' v'] d IH]; simpl; [done|]. destruct (String.eqb k' k); [done|]. intros Hd. by rewrite IH.
Qed.

Lemma assoc_app_new {A} k (d d' : list (string * A)) : assoc k d = None → assoc k (d ++ d') = assoc k d'.
Proof. induction d as [|[k' v'] d IH]; simpl; [done|]. destruct (String.eqb k' k); [done|exact IH]. Qed.

(** A value the URL carries as it is. *)
Definition plain (kv : string * string) : Prop := quote kv.2 = kv.2.

Lemma query_plain d : Forall plain d → query quote d = query id d.
Proof.
  induction 1 as [|[k v] d Hv Hd IH]; [done|]. unfold plain in Hv. simpl in *. rewrite Hv, IH. by destruct d.
Qed.

(** The time is that of the server while the clock knows it, and that of the host
    otherwise, in milliseconds. *)
Lemma now_ms_server s t s' : has_clock = true → server_now s = (Ok (Some t), s') → _now_ms s = (Ok (t * 1000)%Z, s').
Proof. unfold _now_ms. intros -> Hs. unfold mbind, ST_bind. by rewrite Hs. Qed.

(** What is sent is the stamped parameters and, last, the signature of exactly that text:
    as long as the URL carries every value as it is. *)
Theorem signature_verifies account_id path params s api_key url s' :
  (∀ key, In key ["timestamp"; "recvWindow"; "signature"] → assoc key params = None) →
  (∀ n : Z, quote (pretty n) = pretty n) → (∀ k m, quote (hmac_sha256 k m) = hmac_sha256 k m) →
  Forall plain params →
  _signed_request_url account_id path params s = (Ok (api_key, url), s') →
  ∃ now secret, let sent := query quote (stamped now params) in
    url = base_url +:+ path +:+ "?" +:+ sent +:+ "&signature=" +:+ hmac_sha256 secret sent.
Proof.
  intros Hfree Hn Hh Hp Hrun. unfold _signed_request_url in Hrun.
  apply ST_bind_Ok in Hrun as ([k secret] & s1 & _ & Hrun). apply ST_bind_Ok in Hrun as (now & s2 & _ & Hrun).
  injection Hrun as _ <- _. exists now, secret. cbv zeta.
  assert (stamped now params = params ++ [("timestamp", pretty now); ("recvWindow", pretty recv_window_ms)]) as Hst.
  { unfold stamped. rewrite (assoc_set_new "timestamp") by (apply Hfree; simpl; auto).
    rewrite assoc_set_new; [by rewrite <-app_assoc|]. rewrite assoc_app_new by (apply Hfree; simpl; auto). done. }
  assert (Forall plain (stamped now params)) as Hps.
  { rewrite Hst. apply Forall_app. split; [done|]. repeat constructor; apply Hn. }
  rewrite assoc_set_new.
  - rewrite query_snoc by (rewrite Hst; by destruct params). unfold signature_of. by rewrite Hh, <-query_plain.
  - rewrite Hst, assoc_app_new by (apply Hfree; simpl; auto). done.
Qed.
End Signing.

(** ** A client order id outside ASCII

    [to_client_order_id] keeps such a letter; the request carries it encoded, and the
    signature is of it as it was. *)

#[local] Existing Instances outside_ext sample_env.

Definition e_acute : string := String (Ascii.ascii_of_nat 233) "".
Definition sample_quote (s : string) : string := if String.eqb s e_acute then "%C3%A9" else s.
Definition sample_url (client_order_id : string) :=
  (_signed_request_url (λ _, mret ("key", "secret")) (λ _ m, "<" +:+ m +:+ ">") sample_quote false "https://x"
    "acc" "/api/v3/order" [("origClientOrderId", client_order_id)]
    (mk_services (start empty_db) new_clock new_universe new_klines new_pa)).1.

Example encoded_after_signing :
  sample_url "k1" = Ok ("key", "https://x/api/v3/order?origClientOrderId=k1&timestamp=1000000&recvWindow=10000"
    +:+ "&signature=<origClientOrderId=k1&timestamp=1000000&recvWindow=10000>") ∧
  sample_url e_acute = Ok ("key", "https://x/api/v3/order?origClientOrderId=%C3%A9&timestamp=1000000&recvWindow=10000"
    +:+ "&signature=<origClientOrderId=" +:+ e_acute +:+ "&timestamp=1000000&recvWindow=10000>") ∧
  Str.filter id_char e_acute = e_acute.
Proof. vm_compute. done. Qed.
