(* ===== verification/Klines.v ===== *)
(** [data/klines.py] and [storage/retention.py]: fetching, storing and reading
    candles, the work queue, the catch-up and backfill passes, and pruning.

    The workers take one job at a time from the queue; an awaited future is the
    queue run until that job is done.  A background loop is its pass, repeated. *)

From Stdlib Require Import ZArith String.
From S2P Require Import Prelude PyFloat PyVal Errors Monad Swings Broker Tables Db Sample Feed.
Local Open Scope string_scope.
Local Open Scope list_scope.

Definition PRIORITY_ONDEMAND : Z := 0.
Definition PRIORITY_CLOSED_BAR : Z := 5.
Definition PRIORITY_BACKFILL : Z := 10.

Definition SPOT_KLINES_PATH : string := "/api/v3/klines".
Definition FUTURES_KLINES_PATH : string := "/fapi/v1/klines".

Definition kline_weight (limit : Z) : Z :=
  if (limit <=? 100)%Z then 1 else if (limit <=? 500)%Z then 2 else 5.

(** ** Parsing *)

Record kline := mk_kline { kn_bar : candle; kn_quote_volume : float; kn_trades : Z }.

(** [item[i]] *)
Definition item_at (v : pyval) (i : nat) : result pyval :=
  match v with
  | PList l => match l !! i with Some x => Ok x | None => Err IndexError end
  | PStr s => match String.get i s with Some c => Ok (PStr (String c EmptyString)) | None => Err IndexError end
  | PDict _ => Err KeyError
  | _ => Err TypeError
  end.

Definition float_at (v : pyval) (i : nat) : result float := x ← item_at v i; py_float x.
Definition int_at (v : pyval) (i : nat) : result Z := x ← item_at v i; py_int x.

Definition parse_kline (item : pyval) : result kline :=
  t ← int_at item 0;
  o ← float_at item 1;
  h ← float_at item 2;
  l ← float_at item 3;
  c ← float_at item 4;
  v ← float_at item 5;
  q ← float_at item 7;
  n ← int_at item 8;
  Ok (mk_kline (mk_candle (to_epoch_seconds t) o h l c (Some v)) q n).

(** An array that is no kline is skipped. *)
Fixpoint parse_items (l : list pyval) : result (list kline) :=
  match l with
  | [] => Ok []
  | item :: l' =>
      match parse_kline item with
      | Ok k => ks ← parse_items l'; Ok (k :: ks)
      | Err TypeError | Err ValueError | Err IndexError => parse_items l'
      | Err e => Err e
      end
  end.

(** Iterating over the decoded reply: over the keys of an object. *)
Definition parse_klines (raw : pyval) : result (list kline) :=
  match raw with
  | PList l => parse_items l
  | PDict d => parse_items (map (λ kv, PStr kv.1) d)
  | PStr s => parse_items (map (λ c, PStr (String c EmptyString)) (list_ascii_of_string s))
  | _ => Err TypeError
  end.

(** ** Storing *)

Definition period_of (tf : string) : result Z :=
  match assoc tf TIMEFRAME_SECONDS with Some p => Ok p | None => Err KeyError end.

Definition _closed_only (rows : list kline) (tf : string) (now : Z) : result (list kline) :=
  period ← period_of tf;
  Ok (List.filter (λ k, (c_open_time (kn_bar k) <=? latest_closed now period)%Z) rows).

Definition candle_key (symbol tf source : string) (open_time : Z) (r : candle_row) : bool :=
  String.eqb (k_symbol r) symbol && String.eqb (k_timeframe r) tf && String.eqb (k_source r) source
  && (c_open_time (k_bar r) =? open_time)%Z.

(** [INSERT ... ON CONFLICT(symbol, timeframe, open_time, source) DO UPDATE] *)
Definition upsert (r : candle_row) (rows : list candle_row) : list candle_row :=
  let p := candle_key (k_symbol r) (k_timeframe r) (k_source r) (c_open_time (k_bar r)) in
  if existsb p rows then update_where p (λ _, r) rows else rows ++ [r].

Definition upsert_all (symbol tf source : string) (now : Z) (ks : list kline) (rows : list candle_row)
    : list candle_row :=
  foldl (λ rows k, upsert (mk_candle_row symbol tf source (kn_bar k) (kn_quote_volume k) (kn_trades k) now) rows)
    rows ks.

Section Klines.
Context {X : Type} `{Ext X, Rest X, FeedConfig}.

Definition _store (symbol tf source : string) (rows : list kline) : PM X unit :=
  now ← server_now;
  match now with
  | None => mret tt
  | Some now =>
      rows ← lift (_closed_only rows tf now);
      match rows with
      | [] => mret tt
      | _ => in_store (db_write (db_modify (set_market (set_tb_candles (upsert_all symbol tf source now rows)))))
      end
  end.

Definition _fetch (symbol tf : string) (limit : Z) (source : string) : PM X (list kline) :=
  let futures := String.eqb source "futures" in
  data ← fetch futures (if futures then FUTURES_KLINES_PATH else SPOT_KLINES_PATH)
    [("symbol", PStr symbol); ("interval", PStr tf); ("limit", PInt limit)] (kline_weight limit);
  lift (parse_klines data).

(** ** The work queue *)

Definition job_key (j : job) : string * string * string := (j_symbol j, j_timeframe j, j_source j).

Definition find_in_flight (key : string * string * string) (k : KlineService) : option Z :=
  snd <$> find (λ e, bool_decide (e.1 = key)) (kl_in_flight k).

Definition is_done (seq : Z) (k : KlineService) : bool := existsb (λ e, (e.1 =? seq)%Z) (kl_done k).

(** A fetch of the key that is under way is shared. *)
Definition _enqueue (symbol tf : string) (limit priority : Z) (source : string) : PM X Z := λ s,
  let k := sv_klines s in
  let key := (symbol, tf, source) in
  match find_in_flight key k with
  | Some seq => (Ok seq, s)
  | None =>
      let seq := (kl_seq k + 1)%Z in
      (Ok seq, set_klines (mk_klines (kl_queue k ++ [mk_job priority seq symbol tf limit source]) seq
                 (kl_in_flight k ++ [(key, seq)]) (kl_done k) (kl_futures_symbols k) (kl_futures_sync_at k)) s)
  end.

(** The order of the priority queue: [(priority, seq)]. *)
Definition job_before (a b : job) : bool :=
  (j_priority a <? j_priority b)%Z || ((j_priority a =? j_priority b)%Z && (j_seq a <=? j_seq b)%Z).

Fixpoint first_job (j : job) (l : list job) : job :=
  match l with [] => j | x :: l' => first_job (if job_before j x then j else x) l' end.

Definition remove_job (seq : Z) (l : list job) : list job := delete_where (λ j, (j_seq j =? seq)%Z) l.

(** The future of the job gets its result and leaves [_in_flight]. *)
Definition finish (j : job) (r : result nat) (k : KlineService) : KlineService :=
  mk_klines (kl_queue k) (kl_seq k) (delete_where (λ e, bool_decide (e.1 = job_key j)) (kl_in_flight k))
    (kl_done k ++ [(j_seq j, r)]) (kl_futures_symbols k) (kl_futures_sync_at k).

Definition run_job (j : job) : PM X nat :=
  rows ← _fetch (j_symbol j) (j_timeframe j) (j_limit j) (j_source j);
  _ ← (match rows with
       | [] => mret tt
       | _ => _store (j_symbol j) (j_timeframe j) (j_source j) rows
       end);
  mret (length rows).

(** One turn of [_worker_loop]; an empty queue is waited on. *)
Definition worker_step : PM X unit :=
  k ← gets sv_klines;
  match kl_queue k with
  | [] => mret tt
  | x :: l =>
      let j := first_job x l in
      _ ← modify (λ s, let k := sv_klines s in
            set_klines (mk_klines (remove_job (j_seq j) (kl_queue k)) (kl_seq k) (kl_in_flight k) (kl_done k)
                          (kl_futures_symbols k) (kl_futures_sync_at k)) s);
      r ← attempt (run_job j);
      modify (λ s, set_klines (finish j r (sv_klines s)) s)
  end.

(** [await fut]: the workers take turns until the job is done.  Each turn takes a
    job off the queue, so its length is fuel enough. *)
Fixpoint await_turns (fuel : nat) (seq : Z) : PM X nat :=
  k ← gets sv_klines;
  match find (λ e, (e.1 =? seq)%Z) (kl_done k) with
  | Some (_, r) => lift r
  | None => match fuel with
            | O => throw TimeoutError
            | S fuel => _ ← worker_step; await_turns fuel seq
            end
  end.
Definition await (seq : Z) : PM X nat :=
  k ← gets sv_klines; await_turns (length (kl_queue k)) seq.

(** ** The futures universe *)

Definition futures_symbols_of (data : pyval) : result (list string) :=
  l ← symbols_of data;
  res_fold (λ acc s,
    match s with
    | PDict d => if tradable d then
                   match assoc "symbol" d with
                   | Some (PStr name) => Ok (acc ++ [name])
                   | Some _ => Err TypeError
                   | None => Err KeyError
                   end
                 else Ok acc
    | _ => Err AttributeError
    end) [] l.

Definition futures_refresh (now : Z) : PM X (list string) :=
  data ← fetch true "/fapi/v1/exchangeInfo" [] 1;
  symbols ← lift (futures_symbols_of data);
  _ ← modify (λ s, let k := sv_klines s in
        set_klines (mk_klines (kl_queue k) (kl_seq k) (kl_in_flight k) (kl_done k) (Some symbols) now) s);
  mret symbols.

Definition futures_expired (now : Z) (k : KlineService) : bool :=
  (futures_universe_ttl_seconds <=? now - kl_futures_sync_at k)%Z.

Definition _futures_symbol_set : PM X (list string) :=
  now ← clock_now;
  k ← gets sv_klines;
  match kl_futures_symbols k with
  | Some symbols => if futures_expired now k then futures_refresh now else mret symbols
  | None => futures_refresh now
  end.

(** A universe that cannot be refreshed is used on; one never loaded fails closed. *)
Definition _ensure_futures_symbol (symbol : string) : PM X bool :=
  k ← gets sv_klines;
  _ ← (match kl_futures_symbols k with
       | None =>
           r ← attempt _futures_symbol_set;
           match r with Ok _ => mret tt | Err _ => raise_ INVALID_SYMBOL end
       | Some _ =>
           now ← clock_now;
           if futures_expired now k then r ← attempt _futures_symbol_set; mret tt else mret tt
       end);
  k ← gets sv_klines;
  mret (str_in symbol (default [] (kl_futures_symbols k))).

(** ** Reading *)

Definition candles_of (symbol tf source : string) (rows : list candle_row) : list candle_row :=
  List.filter (λ r, String.eqb (k_symbol r) symbol && String.eqb (k_timeframe r) tf
                    && String.eqb (k_source r) source) rows.

(** [ORDER BY open_time DESC LIMIT ?], reversed: the newest [limit], oldest first. *)
Definition newest_candles (symbol tf source : string) (limit : Z) (rows : list candle_row) : list candle_row :=
  let l := order_by (λ r, c_open_time (k_bar r)) (candles_of symbol tf source rows) in
  skipn (length l - Z.to_nat limit) l.

Definition _read_candles (symbol tf : string) (limit : Z) (source : string) : PM X (list candle_row) :=
  in_store (db_read (λ d, newest_candles symbol tf source limit (tb_candles (market d)))).

(** [MAX(open_time)] of a key. *)
Definition max_open_time (symbol tf source : string) (rows : list candle_row) : option Z :=
  foldr (λ r m, Some (match m with Some x => Z.max (c_open_time (k_bar r)) x | None => c_open_time (k_bar r) end))
    None (candles_of symbol tf source rows).

Definition _expected_latest_closed (tf : string) : PM X (option Z) :=
  now ← server_now;
  match now with
  | None => mret None
  | Some now => period ← lift (period_of tf); mret (Some (latest_closed now period))
  end.

(** [warm_map.get(key, 0)] of the map read before. *)
Definition _is_warm (rows : list candle_row) (symbol tf source : string) : PM X bool :=
  latest ← _expected_latest_closed tf;
  match latest with
  | None => mret false
  | Some latest => mret (latest <=? default 0 (max_open_time symbol tf source rows))%Z
  end.

Definition all_candles : PM X (list candle_row) := in_store (db_read (λ d, tb_candles (market d))).

Definition get_candles (symbol timeframe : string) (limit : Z) (source : string) : PM X (list candle_row) :=
  _ ← lift (reject_if (negb (has_key timeframe TIMEFRAME_SECONDS)) INVALID_REQUEST);
  _ ← lift (reject_if ((limit <? 1) || (1000 <? limit))%Z INVALID_REQUEST);
  _ ← lift (reject_if (negb (str_in source ["spot"; "futures"])) INVALID_REQUEST);
  known ← (if String.eqb source "futures" then _ensure_futures_symbol symbol else ensure_contains symbol);
  _ ← lift (reject_if (negb known) INVALID_SYMBOL);
  _ ← (if str_in timeframe kline_intervals then
         rows ← all_candles;
         warm ← _is_warm rows symbol timeframe source;
         if warm : bool then mret tt
         else
           fut ← _enqueue symbol timeframe limit PRIORITY_ONDEMAND source;
           r ← attempt (await fut);
           match r with
           | Ok _ => mret tt
           | Err (RasatError c) => raise_ c
           | Err _ => raise_ STALE_DATA
           end
       else
         rows ← _fetch symbol timeframe limit source;
         match rows with [] => mret tt | _ => _store symbol timeframe source rows end);
  _read_candles symbol timeframe limit source.

(** ** Background passes *)

Definition _needs_catchup (tf : string) (last_closed : Z) (source : string) : PM X bool :=
  symbols ← (if String.eqb source "futures" then _futures_symbol_set
             else u ← gets sv_universe; mret (snapshot u));
  match symbols with
  | [] => mret false
  | _ =>
      rows ← all_candles;
      mret (existsb (λ s, default 0 (max_open_time s tf source rows) <? last_closed)%Z symbols)
  end.

Definition _enqueue_closed_bar_pass (tf source : string) : PM X unit :=
  u ← gets sv_universe;
  foldM (λ _ symbol, _ ← _enqueue symbol tf kline_catchup_bars PRIORITY_CLOSED_BAR source; mret tt) tt
    (snapshot u).

(** One turn of [_scheduler_loop]. *)
Definition scheduler_pass : PM X unit :=
  now ← server_now;
  match now with
  | None => mret tt
  | Some now =>
      foldM (λ _ tf,
        period ← lift (period_of tf);
        behind ← _needs_catchup tf (latest_closed now period) "spot";
        if behind : bool then _enqueue_closed_bar_pass tf "spot" else mret tt) tt kline_intervals
  end.

(** One turn of [_backfill_loop]. *)
Definition backfill_pass : PM X unit :=
  now ← server_now;
  match now with
  | None => mret tt
  | Some _ =>
      u ← gets sv_universe;
      rows ← all_candles;
      foldM (λ _ symbol,
        foldM (λ _ tf,
          warm ← _is_warm rows symbol tf "spot";
          if warm : bool then mret tt
          else _ ← _enqueue symbol tf kline_backfill_bars PRIORITY_BACKFILL "spot"; mret tt) tt kline_intervals) tt
        (snapshot u)
  end.

(** [freshness_for]: [true] is fresh. *)
Definition klines_freshness_for (tf : string) (rows : list candle_row) : PM X bool :=
  match last rows with
  | None => mret false
  | Some r =>
      now ← server_now;
      match now with
      | None => mret false
      | Some now =>
          period ← lift (period_of tf);
          mret (c_open_time (k_bar r) =? latest_closed now period)%Z
      end
  end.
End Klines.

(** ** [storage/retention.py] *)

Section Retention.
Context {X : Type} `{Ext X}.

(** The days of each timeframe are integers, as the defaults are. *)
Definition prune_candles (retention_days : list (string * Z)) : PM X (list (string * nat)) :=
  now ← clock_now;
  in_store (db_write (
    foldM (λ removed td,
      let '(tf, days) := td in
      let old (r : candle_row) :=
        String.eqb (k_timeframe r) tf && (c_open_time (k_bar r) <? now - days * 86400)%Z in
      n ← db_read (λ d, count_where old (tb_candles (market d)));
      _ ← db_modify (set_market (set_tb_candles (delete_where old)));
      mret (match n with O => removed | S _ => removed ++ [(tf, n)] end)) [] retention_days)).

Definition prune_futures_context (max_days : Z) : PM X nat :=
  now ← clock_now;
  let old (r : futures_context_row) := (fc_event_time r <? now - max_days * 86400)%Z in
  in_store (db_write (
    n ← db_read (λ d, count_where old (tb_futures_context (market d)));
    _ ← db_modify (set_market (set_tb_futures_context (delete_where old)));
    mret n)).
End Retention.

(** ** What is stored *)

(** What the local clock reads, and what the server tells of its own, at some time. *)
Definition clock_read {X} `{Ext X} (t : Z) : Prop := ∃ x, (ext_time x).1 = t.
Definition server_said {X} `{Rest X} (ms : Z) : Prop :=
  ∃ x data v, (rest_get false "/api/v3/time" [] 1 x).1 = Ok data ∧ get_field "serverTime" data = Ok v ∧ py_int (C:=ErrorCode) v = Ok ms.

(** The offset of a clock is the server's time less the local time of the sync. *)
Definition synced {X} `{Ext X, Rest X} (c : BinanceClock) : Prop :=
  ∀ off, ck_offset c = Some off → clock_read (X:=X) (ck_synced_at c) ∧
    ∃ ms t, server_said (X:=X) ms ∧ clock_read (X:=X) t ∧ off = (to_epoch_seconds ms - t)%Z ∧
      (Z.abs off ≤ max_offset_seconds)%Z.

(** A time on the clock of the server: a local reading, corrected by the offset of a sync
    that is not too old. *)
Definition server_time {X} `{Ext X, Rest X} (now : Z) : Prop :=
  ∃ c off t0 t, synced (X:=X) c ∧ ck_offset c = Some off ∧ clock_read (X:=X) t0 ∧ clock_read (X:=X) t ∧
    (t0 - ck_synced_at c ≤ max_offset_age_seconds)%Z ∧ now = (t + off)%Z.

(** The bar had ended by the time of its last write, and that time is the server's. *)
Definition closed_bar {X} `{Ext X, Rest X} (r : candle_row) : Prop :=
  server_time (X:=X) (k_updated_at r) ∧
  ∃ period, assoc (k_timeframe r) TIMEFRAME_SECONDS = Some period ∧
    (c_open_time (k_bar r) + period ≤ k_updated_at r)%Z.
Definition key_of (r : candle_row) : string * string * string * Z :=
  (k_symbol r, k_timeframe r, k_source r, c_open_time (k_bar r)).
Definition candles_ok {X} `{Ext X, Rest X} (rows : list candle_row) : Prop :=
  Forall (closed_bar (X:=X)) rows ∧ NoDup (map key_of rows).

Lemma candle_key_spec r r' :
  candle_key (k_symbol r) (k_timeframe r) (k_source r) (c_open_time (k_bar r)) r' = true ↔ key_of r' = key_of r.
Proof.
  unfold candle_key, key_of. rewrite !andb_true_iff, !String.eqb_eq, Z.eqb_eq. split.
  - intros [[[-> ->] ->] ->]. done.
  - intros [= -> -> -> ->]. done.
Qed.

Section Rows.
Context {X : Type} `{Ext X, Rest X}.
Notation closed_bar := (closed_bar (X:=X)).
Notation candles_ok := (candles_ok (X:=X)).

Lemma upsert_ok r rows : closed_bar r → candles_ok rows → candles_ok (upsert r rows).
Proof.
  intros Hr [Hc Hn]. unfold upsert.
  set (p := candle_key (k_symbol r) (k_timeframe r) (k_source r) (c_open_time (k_bar r))).
  destruct (existsb p rows) eqn:E.
  - split.
    + apply Forall_fmap, Forall_forall. intros x Hx. simpl. destruct (p x); [done|].
      rewrite Forall_forall in Hc. by apply Hc.
    + replace (map key_of (update_where p (λ _, r) rows)) with (map key_of rows); [done|].
      unfold update_where. change (key_of <$> rows = key_of <$> ((λ x, if p x then r else x) <$> rows)).
      rewrite <-list_fmap_compose. apply list_fmap_ext. intros i x _. simpl.
      destruct (p x) eqn:Ep; [|done]. by apply candle_key_spec in Ep.
  - split; [apply Forall_app; split; [done|constructor; [exact Hr|constructor]]|].
    rewrite map_app. apply NoDup_app. split_and!; [done| |by apply NoDup_singleton].
    intros k (x & -> & Hx)%list_elem_of_fmap Hk%list_elem_of_singleton.
    apply candle_key_spec in Hk. assert (existsb p rows = true) as He; [|congruence].
    apply existsb_exists. exists x. split; [by apply list_elem_of_In|done].
Qed.

Lemma upsert_all_ok symbol tf source now ks rows :
  server_time (X:=X) now →
  (∀ k, k ∈ ks → ∃ period, assoc tf TIMEFRAME_SECONDS = Some period ∧ (c_open_time (kn_bar k) + period ≤ now)%Z) →
  candles_ok rows → candles_ok (upsert_all symbol tf source now ks rows).
Proof.
  intros Hnow. unfold upsert_all. revert rows. induction ks as [|k ks IH]; intros rows Hks Hrows; simpl; [done|].
  apply IH; [intros; apply Hks; by right|]. apply upsert_ok; [|done]. split; [exact Hnow|]. apply (Hks k). by left.
Qed.

Lemma closed_only_closed rows tf now rows' :
  _closed_only rows tf now = Ok rows' →
  ∀ k, k ∈ rows' → ∃ period, assoc tf TIMEFRAME_SECONDS = Some period ∧ (c_open_time (kn_bar k) + period ≤ now)%Z.
Proof.
  unfold _closed_only, period_of. destruct (assoc tf TIMEFRAME_SECONDS) as [period|] eqn:Hp; [|done].
  simpl. intros [= <-] k [_ Hk%Z.leb_le]%elem_of_filter_b. exists period. split; [done|].
  pose proof (timeframe_positive _ _ Hp). unfold latest_closed in Hk.
  pose proof (Z.mul_div_le now period ltac:(done)). lia.
Qed.


End Rows.

(** The queue: every key under way has one job of its own. *)
Record queue_ok (k : KlineService) : Prop := {
  qo_jobs : map (λ j, (job_key j, j_seq j)) (kl_queue k) ≡ₚ kl_in_flight k;
  qo_keys : NoDup (map job_key (kl_queue k));
  qo_seqs : NoDup (map j_seq (kl_queue k));
  qo_seq : Forall (λ j, j_seq j ≤ kl_seq k)%Z (kl_queue k) }.

Definition candle_table {X} (s : services X) : list candle_row := tb_candles (market (w_db (sv_world s))).

(** The parts of [KlineService] the queue is made of. *)
Definition queue_of (k : KlineService) := (kl_queue k, kl_seq k, kl_in_flight k, kl_done k).

(** Neither candles nor the queue nor the clock change; candles may be added. *)
Definition still {X} : relation (services X) := λ s s',
  candle_table s' = candle_table s ∧ queue_of (sv_klines s') = queue_of (sv_klines s) ∧ sv_clock s' = sv_clock s.
Definition storing {X} `{Ext X, Rest X} : relation (services X) := λ s s',
  (synced (X:=X) (sv_clock s) → candles_ok (X:=X) (candle_table s) → candles_ok (X:=X) (candle_table s')) ∧
  queue_of (sv_klines s') = queue_of (sv_klines s) ∧ sv_clock s' = sv_clock s.

Record feed_ok {X} `{Ext X, Rest X} (s : services X) : Prop := {
  fo_candles : candles_ok (X:=X) (candle_table s);
  fo_queue : queue_ok (sv_klines s);
  fo_clock : synced (X:=X) (sv_clock s) }.
Definition keeps_feed {X} `{Ext X, Rest X} : relation (services X) := λ s s', feed_ok s → feed_ok s'.

(** Without a clock no candle is added. *)
Definition unclocked {X} : relation (services X) := λ s s',
  ck_offset (sv_clock s) = None → ck_offset (sv_clock s') = None ∧ candle_table s' ⊆ candle_table s.

#[export] Instance still_preorder {X} : PreOrder (still (X:=X)).
Proof. split; [intros s; by split|]. intros ??? (?&?&?) (?&?&?). split_and!; congruence. Qed.
#[export] Instance storing_preorder {X} `{Ext X, Rest X} : PreOrder (storing (X:=X)).
Proof.
  split; [intros s; by split|]. intros s1 s2 s3 (S1&?&C1) (S2&?&C2). split_and!; [|congruence..].
  intros Hs Hc. apply S2; [by rewrite C1|auto].
Qed.
#[export] Instance keeps_feed_preorder {X} `{Ext X, Rest X} : PreOrder (keeps_feed (X:=X)).
Proof. split; [by intros s ?|]. intros ??? S1 S2 ?. auto. Qed.
#[export] Instance unclocked_preorder {X} : PreOrder (unclocked (X:=X)).
Proof.
  split; [by intros s ?|]. intros s1 s2 s3 S1 S2 Hn. destruct (S1 Hn) as [Hn2 Hs2]. destruct (S2 Hn2) as [Hn3 Hs3].
  split; [done|]. by etrans.
Qed.


Lemma still_storing {X} `{Ext X, Rest X} (s s' : services X) : still s s' → storing s s'.
Proof. intros (Hc & ? & ?). split; [by rewrite Hc|done]. Qed.

Section Feed.
Context {X : Type} `{Ext X, Rest X, FeedConfig}.

Lemma still_ext {A} (m : ST X A) : steps still (in_store (on_ext m)).
Proof. intros s. unfold in_store, on_ext. by destruct (m _). Qed.
Lemma still_read {A} (f : db → A) : steps still (in_store (X:=X) (db_read f)).
Proof. by intros s. Qed.

(** Walk down to the steps, which [feed] knows. *)
Ltac fwalk1 R :=
  match goal with
  | |- steps _ (let x := _ in _) => cbv zeta
  | |- steps _ (mbind _ _) => apply steps_bind; [tc_solve| |intros ?]
  | |- steps _ (mret _) => apply steps_ret; tc_solve
  | |- steps _ (throw _) => apply steps_throw; tc_solve
  | |- steps _ (raise_ _) => apply steps_raise; tc_solve
  | |- steps _ (lift _) => apply steps_lift; tc_solve
  | |- steps _ (gets _) => apply steps_gets; tc_solve
  | |- steps _ (attempt _) => apply steps_attempt
  | |- steps _ (foldM _ _ _) => apply steps_foldM; [tc_solve|intros ? ? ?]
  | |- steps _ clock_now => apply (steps_mono still); [R|apply still_ext]
  | |- steps _ (fetch _ _ _ _) => apply (steps_mono still); [R|apply still_ext]
  | |- steps _ (in_store (db_read _)) => apply (steps_mono still); [R|apply still_read]
  | |- steps _ (match ?x with _ => _ end) => destruct x eqn:?
  end.
Ltac fwalk R := repeat first [fwalk1 R | solve [eauto 3 with feed]].
Ltac same := idtac; exact (λ s s' (h : still s s'), h).

Lemma still_server_now : steps still server_now.
Proof. unfold server_now. fwalk same. Qed.


(** The server's clock, when there is one. *)
Lemma server_now_run (s : services X) :
  wp server_now (λ r s', still s s' ∧ match r with
    | Ok (Some now) => synced (X:=X) (sv_clock s) → server_time (X:=X) now
    | _ => True end) s.
Proof.
  split; [apply still_server_now|]. unfold server_now, clock_now, time_now, in_store, on_ext, gets, mbind, ST_bind. simpl.
  destruct (ck_offset (sv_clock s)) as [off|] eqn:Eo; [|done].
  destruct (ext_time (w_ext (sv_world s))) as [t0 x1] eqn:E1. simpl.
  destruct (max_offset_age_seconds <? _)%Z eqn:Ea; [done|]. simpl.
  destruct (ext_time x1) as [t x2] eqn:E2. simpl. intros Hs. apply Z.ltb_ge in Ea.
  exists (sv_clock s), off, t0, t. split_and!; [done|done|eexists; by rewrite E1|eexists; by rewrite E2|done|done].
Qed.
Lemma still_fetch symbol tf limit source : steps (still (X:=X)) (_fetch symbol tf limit source).
Proof. unfold _fetch. fwalk same. Qed.

(** Storing: only bars closed on the server's clock, none without one. *)
Lemma storing_store symbol tf source rows : steps (storing (X:=X)) (_store symbol tf source rows).
Proof.
  apply steps_wp. intros s. unfold _store. apply wp_bind. eapply wp_mono; [apply server_now_run|].
  intros [[now|]|e] s1 [Hst Hnow]; [|by apply still_storing..].
  apply wp_lift_bind; [intros; by apply still_storing|]. intros rows' Hcl.
  pose proof (closed_only_closed _ _ _ _ Hcl) as Hclosed.
  destruct rows' as [|k ks]; [by apply still_storing|].
  destruct Hst as (Hc & Hq & Hk). unfold wp, in_store, db_write.
  destruct (w_closed (sv_world s1)); simpl; (split; [|done]); unfold candle_table in *; simpl; rewrite Hc; [done|].
  intros Hs Hok. apply (upsert_all_ok symbol tf source now (k :: ks)); auto.
Qed.





Lemma storing_run_job j : steps (storing (X:=X)) (run_job j).
Proof.
  unfold run_job. apply steps_bind; [tc_solve|apply (steps_mono still); [apply still_storing|apply still_fetch]|].
  intros rows. apply steps_bind; [tc_solve| |intros; apply steps_ret; tc_solve].
  destruct rows; [apply steps_ret; tc_solve|apply storing_store].
Qed.

(** ** The queue *)

Lemma find_in_flight_None key k :
  queue_ok k → find_in_flight key k = None → key ∉ map job_key (kl_queue k).
Proof.
  intros Hq Hf (j & -> & Hj)%list_elem_of_fmap. unfold find_in_flight in Hf.
  destruct (find _ (kl_in_flight k)) as [e|] eqn:E; [done|].
  apply find_None_Forall in E. rewrite Forall_forall in E.
  assert ((job_key j, j_seq j) ∈ kl_in_flight k) as Hin.
  { rewrite <-(qo_jobs _ Hq). apply list_elem_of_fmap. eauto. }
  specialize (E _ Hin). simpl in E. by apply bool_decide_eq_false_1 in E.
Qed.

Lemma enqueue_keeps symbol tf limit priority source : steps (keeps_feed (X:=X)) (_enqueue symbol tf limit priority source).
Proof.
  intros s [Hc Hq Hclk]. unfold _enqueue. destruct (find_in_flight _ _) as [seq|] eqn:E; [done|].
  apply find_in_flight_None in E; [|done]. destruct Hq as [Hj Hk Hs Hle]. split; [done| |done]. split; simpl.
  - rewrite map_app. simpl. by rewrite Hj.
  - rewrite map_app. apply NoDup_app. split_and!; [done| |apply NoDup_singleton].
    by intros key Hin ->%list_elem_of_singleton.
  - rewrite map_app. apply NoDup_app. split_and!; [done| |apply NoDup_singleton].
    intros seq (j & -> & Hin)%list_elem_of_fmap Hs'%list_elem_of_singleton. simpl in Hs'.
    rewrite Forall_forall in Hle. specialize (Hle _ Hin). simpl in Hle. lia.
  - apply Forall_app. split; [|constructor; [simpl; lia|done]]. eapply Forall_impl; [exact Hle|]. simpl. lia.
Qed.

Lemma first_job_elem j l : first_job j l ∈ j :: l.
Proof.
  revert j. induction l as [|x l IH]; intros j; simpl; [by left|].
  destruct (job_before j x); specialize (IH j) as IHj; specialize (IH x) as IHx; set_solver.
Qed.

(** Taking a job off the queue leaves the others. *)
Lemma remove_job_perm j l :
  NoDup (map j_seq l) → j ∈ l → l ≡ₚ j :: remove_job (j_seq j) l.
Proof.
  unfold remove_job, delete_where. induction l as [|x l IH]; simpl; [set_solver|].
  intros [Hx Hn]%NoDup_cons Hj. apply elem_of_cons in Hj as [->|Hj].
  - rewrite Z.eqb_refl. simpl. f_equiv. clear IH. induction l as [|y l IH]; simpl; [done|].
    simpl in Hx. apply not_elem_of_cons in Hx as [Hxy Hx]. apply NoDup_cons in Hn as [_ Hn].
    rewrite (proj2 (Z.eqb_neq _ _)) by congruence. simpl. f_equiv. by apply IH.
  - rewrite (proj2 (Z.eqb_neq _ _)).
    + simpl. rewrite Permutation_swap. f_equiv. by apply IH.
    + intros Heq. apply Hx, list_elem_of_fmap. eauto.
Qed.

Lemma finish_ok j k k' r :
  queue_ok k → j ∈ kl_queue k →
  queue_of k' = (remove_job (j_seq j) (kl_queue k), kl_seq k, kl_in_flight k, kl_done k) →
  queue_ok (finish j r k').
Proof.
  intros [Hj Hk Hs Hle] Hin [= Hq' Hs' Hf' _].
  pose proof (remove_job_perm j _ Hs Hin) as Hp. set (q := remove_job (j_seq j) (kl_queue k)) in *.
  assert (∀ x, x ∈ q → x ∈ kl_queue k) as Hsub by (intros x Hx; rewrite Hp; by right).
  assert (NoDup (job_key j :: map job_key q) ∧ NoDup (map j_seq q)) as [[Hjk Hkq]%NoDup_cons Hsq].
  { split; [|apply (NoDup_cons (j_seq j) (map j_seq q))].
    - change (NoDup (job_key <$> j :: q)). by rewrite <-Hp.
    - change (NoDup (j_seq <$> j :: q)). by rewrite <-Hp. }
  split; unfold finish; simpl; rewrite ?Hq', ?Hs', ?Hf'; [|done|done|].
  - trans (delete_where (λ e, bool_decide (e.1 = job_key j)) (map (λ j, (job_key j, j_seq j)) (j :: q))).
    + unfold delete_where. simpl. rewrite bool_decide_eq_true_2 by done. simpl.
      clear -Hjk. induction q as [|x q IH]; simpl; [done|].
      simpl in Hjk. apply not_elem_of_cons in Hjk as [Hx Hjk].
      rewrite bool_decide_eq_false_2 by done. simpl. f_equiv. by apply IH.
    + apply delete_where_perm. rewrite <-Hj. symmetry. by apply Permutation_map.
  - rewrite Forall_forall in Hle |- *. auto.
Qed.

Lemma worker_step_keeps : steps (keeps_feed (X:=X)) worker_step.
Proof.
  intros s [Hc Hq Hclk]. unfold worker_step, gets, modify, attempt, mbind, ST_bind. simpl.
  destruct (kl_queue (sv_klines s)) as [|x l] eqn:El; [done|].
  pose proof (first_job_elem x l) as Hin. rewrite <-El in Hin. set (j := first_job x l) in *.
  pose proof (storing_run_job j (set_klines (mk_klines (remove_job (j_seq j) (kl_queue (sv_klines s)))
    (kl_seq (sv_klines s)) (kl_in_flight (sv_klines s)) (kl_done (sv_klines s))
    (kl_futures_symbols (sv_klines s)) (kl_futures_sync_at (sv_klines s))) s)) as (Hc' & Hq' & Hk').
  destruct (run_job j _) as [r s2]. simpl in *. split; [by apply Hc'|by apply (finish_ok j (sv_klines s))|].
  simpl. by rewrite Hk'.
Qed.






(** ** All operations

    A relation that holds across what changes nothing of the candles, and across the
    steps that do, holds across every operation. *)
Section Operations.
Context (R : relation (services X)) `{!PreOrder R} (R_still : ∀ s s', still s s' → R s s').
Context (R_enqueue : ∀ symbol tf limit priority source, steps R (_enqueue symbol tf limit priority source)).
Context (R_worker : steps R worker_step) (R_store : ∀ symbol tf source rows, steps R (_store symbol tf source rows)).
Context (R_prune : ∀ days, steps R (prune_candles days)).






End Operations.

Inductive feed_op :=
| ClockSync | UniverseSync
| GetCandles (symbol timeframe : string) (limit : Z) (source : string)
| WorkerStep | SchedulerPass | BackfillPass
| PruneCandles (retention_days : list (string * Z)) | PruneFutures (max_days : Z).

Definition run_feed_op (op : feed_op) : PM X unit :=
  match op with
  | ClockSync => _ ← clock_sync; mret tt
  | UniverseSync => _ ← attempt universe_sync; mret tt
  | GetCandles symbol tf limit source => _ ← attempt (get_candles symbol tf limit source); mret tt
  | WorkerStep => worker_step
  | SchedulerPass => _ ← attempt scheduler_pass; mret tt
  | BackfillPass => _ ← attempt backfill_pass; mret tt
  | PruneCandles days => _ ← attempt (prune_candles days); mret tt
  | PruneFutures n => _ ← attempt (prune_futures_context n); mret tt
  end.
Definition run_feed_ops (ops : list feed_op) : PM X unit := foldM (λ _ op, run_feed_op op) tt ops.




(** ** Waiting for a job *)

Lemma worker_step_run (s : services X) :
  feed_ok s → kl_queue (sv_klines s) ≠ [] →
  ∃ j r s', worker_step s = (Ok tt, s') ∧ j ∈ kl_queue (sv_klines s) ∧
    (∀ j', j' ∈ kl_queue (sv_klines s) → job_before j j' = true) ∧
    kl_queue (sv_klines s') = remove_job (j_seq j) (kl_queue (sv_klines s)) ∧
    kl_done (sv_klines s') = kl_done (sv_klines s) ++ [(j_seq j, r)].
Proof.
  intros Hok Hne. unfold worker_step, gets, modify, attempt, mbind, ST_bind. simpl.
  destruct (kl_queue (sv_klines s)) as [|x l] eqn:El; [done|].
  pose proof (storing_run_job (first_job x l) (set_klines (mk_klines (remove_job (j_seq (first_job x l)) (kl_queue (sv_klines s)))
    (kl_seq (sv_klines s)) (kl_in_flight (sv_klines s)) (kl_done (sv_klines s))
    (kl_futures_symbols (sv_klines s)) (kl_futures_sync_at (sv_klines s))) s)) as (_ & Hq' & _).
  destruct (run_job (first_job x l) _) as [r s2]. unfold queue_of in Hq'.
  cbn [kl_queue kl_seq kl_in_flight kl_done sv_klines set_klines snd] in Hq'. injection Hq' as Hq _ _ Hd. rewrite El in Hq.
  eexists (first_job x l), r, _. split; [done|]. split; [apply first_job_elem|]. split; [|split; [exact Hq|simpl; by rewrite Hd]].
  clear. revert x.
  assert (∀ a b c, job_before a b = true → job_before b c = true → job_before a c = true) as Htrans.
  { unfold job_before. intros a b c Hab Hbc.
    rewrite orb_true_iff, andb_true_iff, Z.ltb_lt, Z.eqb_eq, Z.leb_le in *. lia. }
  assert (∀ a b, job_before a b = false → job_before b a = true) as Htotal.
  { unfold job_before. intros a b Hab. rewrite orb_false_iff, andb_false_iff, Z.ltb_ge, Z.eqb_neq, Z.leb_gt in Hab.
    rewrite orb_true_iff, andb_true_iff, Z.ltb_lt, Z.eqb_eq, Z.leb_le. lia. }
  assert (∀ a, job_before a a = true) as Hrefl.
  { intros a. unfold job_before. by rewrite Z.eqb_refl, Z.leb_refl, orb_true_r. }
  induction l as [|y l IH]; intros x j'; simpl.
  { intros ->%list_elem_of_singleton. apply Hrefl. }
  intros Hj. destruct (job_before x y) eqn:Exy.
  - apply elem_of_cons in Hj as [->|[->|Hj]%elem_of_cons]; [apply IH; by left| |apply IH; by right].
    eapply Htrans; [|exact Exy]. apply IH. by left.
  - apply Htotal in Exy. apply elem_of_cons in Hj as [->|Hj]; [|by apply IH].
    eapply Htrans; [|exact Exy]. apply IH. by left.
Qed.

Lemma remove_job_elem j seq l : j ∈ remove_job seq l ↔ j ∈ l ∧ j_seq j ≠ seq.
Proof.
  unfold remove_job, delete_where. rewrite elem_of_filter_b, negb_true_iff, Z.eqb_neq. done.
Qed.

Lemma await_turns_done n seq (s : services X) :
  feed_ok s → (∃ j, j ∈ kl_queue (sv_klines s) ∧ j_seq j = seq) ∨ is_done seq (sv_klines s) = true →
  (length (kl_queue (sv_klines s)) ≤ n)%nat →
  let '(r, s') := await_turns n seq s in
  find (λ e, (e.1 =? seq)%Z) (kl_done (sv_klines s')) = Some (seq, r).
Proof.
  revert s. induction n as [|n IH]; intros s Hok Hin Hlen; cbn [await_turns];
    unfold gets, mbind, ST_bind; cbn [fst snd];
    destruct (find (λ e, (e.1 =? seq)%Z) (kl_done (sv_klines s))) as [[seq' r]|] eqn:Ef.
  1,3: simpl; rewrite Ef; apply find_some in Ef as [_ Hs%Z.eqb_eq]; simpl in Hs; by subst.
  all: assert (is_done seq (sv_klines s) = false) as Hnd
    by (unfold is_done; apply not_true_is_false; intros (e & He & Hes)%existsb_exists;
        apply (find_none _ _ Ef) in He; congruence).
  all: destruct Hin as [(j & Hj & Hseq)|]; [|congruence].
  { destruct (kl_queue (sv_klines s)); [by apply not_elem_of_nil in Hj|simpl in Hlen; lia]. }
  destruct (worker_step_run s Hok) as (j1 & r & s1 & Hrun & Hj1 & Hmin & Hq & Hd).
  { intros Hnil. rewrite Hnil in Hj. by apply not_elem_of_nil in Hj. }
  pose proof (worker_step_keeps s Hok) as Hok1. rewrite Hrun in Hok1. simpl in Hok1.
  unfold worker_step in *. rewrite Hrun. apply IH; [done| |].
  - destruct (decide (j_seq j1 = seq)) as [<-|Hne].
    + right. unfold is_done. rewrite Hd, existsb_app. simpl. by rewrite Z.eqb_refl, orb_true_r.
    + left. exists j. split; [|done]. rewrite Hq. apply remove_job_elem. split; [done|congruence].
  - rewrite Hq. pose proof (remove_job_perm j1 _ (qo_seqs _ (fo_queue _ Hok)) Hj1) as Hp%Permutation_length.
    simpl in Hp. lia.
Qed.

Lemma await_turns_found n seq (s : services X) :
  is_done seq (sv_klines s) = true → (await_turns n seq s).2 = s.
Proof.
  intros (e & He & Hs)%existsb_exists.
  destruct n; cbn [await_turns]; unfold gets, mbind, ST_bind; cbn [fst snd];
    destruct (find _ (kl_done (sv_klines s))) as [[seq' r]|] eqn:Ef; try done;
    apply (find_none _ _ Ef) in He; congruence.
Qed.

Lemma await_turns_rest n seq (s : services X) j j' :
  feed_ok s → j ∈ kl_queue (sv_klines s) → j_seq j = seq →
  j' ∈ kl_queue (sv_klines s) → job_before j' j = false →
  j' ∈ kl_queue (sv_klines (await_turns n seq s).2).
Proof.
  intros Hok Hj Hseq Hj' Hafter. revert s Hok Hj Hj'. induction n as [|n IH]; intros s Hok Hj Hj'; cbn [await_turns];
    unfold gets, mbind, ST_bind; cbn [fst snd];
    destruct (find (λ e, (e.1 =? seq)%Z) (kl_done (sv_klines s))) as [[seq' r]|] eqn:Ef; try done.
  destruct (worker_step_run s Hok) as (j1 & r & s1 & Hrun & Hj1 & Hmin & Hq & Hd).
  { intros Hnil. rewrite Hnil in Hj. by apply not_elem_of_nil in Hj. }
  pose proof (worker_step_keeps s Hok) as Hok1. rewrite Hrun in Hok1. simpl in Hok1.
  assert (j_seq j' ≠ j_seq j1) as Hne.
  { intros Heq. assert (j' = j1) as ->; [|by rewrite (Hmin j Hj) in Hafter].
    apply list_elem_of_lookup in Hj' as [i Hi]. apply list_elem_of_lookup in Hj1 as [k Hk].
    assert (i = k) as ->; [|congruence].
    apply (NoDup_lookup (j_seq <$> kl_queue (sv_klines s)) i k (j_seq j1) (qo_seqs _ (fo_queue _ Hok)));
      rewrite list_lookup_fmap; [rewrite Hi|rewrite Hk]; simpl; congruence. }
  unfold worker_step in *. rewrite Hrun. destruct (decide (j_seq j1 = seq)) as [Hs|Hs].
  - rewrite await_turns_found; [rewrite Hq; by apply remove_job_elem|].
    unfold is_done. rewrite Hd, existsb_app. simpl. by rewrite Hs, Z.eqb_refl, orb_true_r.
  - apply IH; [done|rewrite Hq; apply remove_job_elem; split; [done|congruence]|rewrite Hq; by apply remove_job_elem].
Qed.
End Feed.


(** An awaited fetch completes, and goes first.  Awaiting a queued job ends
    after finitely many turns of the workers with the job done and its result
    answered, and the jobs that come after it in the order of priorities are still
    in the queue. *)
Theorem await_completes {X} `{Ext X, Rest X, FeedConfig} (s : services X) (j : job) :
  feed_ok s → j ∈ kl_queue (sv_klines s) →
  let '(r, s') := await (j_seq j) s in
  find (λ e, (e.1 =? j_seq j)%Z) (kl_done (sv_klines s')) = Some (j_seq j, r) ∧
  ∀ j', j' ∈ kl_queue (sv_klines s) → job_before j' j = false → j' ∈ kl_queue (sv_klines s').
Proof.
  intros Hok Hj. change (await (j_seq j) s) with (await_turns (length (kl_queue (sv_klines s))) (j_seq j) s).
  pose proof (await_turns_done (length (kl_queue (sv_klines s))) (j_seq j) s Hok
    (or_introl (ex_intro _ j (conj Hj eq_refl))) (le_n _)) as Hdone.
  pose proof (λ j', await_turns_rest (length (kl_queue (sv_klines s))) (j_seq j) s j j' Hok Hj eq_refl) as Hrest.
  destruct (await_turns _ _ s) as [r s']. by split.
Qed.

(** A request for a key that is being backfilled joins that fetch: it gets neither
    its own limit nor the priority of a request. *)
Lemma request_joins_backfill {X} symbol tf limit priority source seq (s : services X) :
  find_in_flight (symbol, tf, source) (sv_klines s) = Some seq →
  _enqueue symbol tf limit priority source s = (Ok seq, s).
Proof. intros Hf. unfold _enqueue. by rewrite Hf. Qed.

(** An exchange with one pair, at second 1000 of its clock; the bar of 960 is still
    forming. *)
Definition sample_kline (t : Z) : pyval :=
  PList [PInt t; PStr "1"; PStr "2"; PStr "0.5"; PStr "1.5"; PStr "10"; PInt 0; PStr "15"; PInt 3; PStr "0"; PStr "0"; PStr "0"].
Definition sample_get (path : string) : result pyval :=
  if String.eqb path "/api/v3/time" then Ok (PDict [("serverTime", PInt 1000)])
  else if String.eqb path "/api/v3/exchangeInfo" then
    Ok (PDict [("symbols", PList [PDict [("symbol", PStr "BTCUSDT"); ("status", PStr "TRADING"); ("quoteAsset", PStr "USDT")]])])
  else Ok (PList [sample_kline 840; PStr "junk"; sample_kline 900; sample_kline 960]).

#[local] Existing Instance outside_ext.
#[local] Instance sample_rest : Rest outside := {| rest_get _ path _ _ x := (sample_get path, x) |}.
#[local] Instance sample_feed_config : FeedConfig := {|
  kline_intervals := ["1m"]; universe_refresh_seconds := 1800; futures_universe_ttl_seconds := 3600;
  kline_backfill_bars := 300; kline_catchup_bars := 5 |}.

Definition sample_services : services outside := mk_services (start empty_db) new_clock new_universe new_klines new_pa.

Definition sample_run : services outside :=
  (run_feed_ops [ClockSync; UniverseSync; GetCandles "BTCUSDT" "1m" 10 "spot"; BackfillPass] sample_services).2.

Example sample_candles :
  map (λ r, c_open_time (k_bar r)) (candle_table sample_run) = [840; 900]%Z.
Proof. vm_compute. reflexivity. Qed.

(** Without a clock nothing is stored. *)
Example no_clock_no_candles :
  candle_table (run_feed_ops [UniverseSync; GetCandles "BTCUSDT" "1m" 10 "spot"] sample_services).2 = [].
Proof. vm_compute. reflexivity. Qed.

Lemma sample_services_ok : feed_ok sample_services.
Proof. split; [split; constructor|split; constructor|done]. Qed.


(** Two backfills wait; a request comes in between and is served first. *)
Definition queued_services : services outside :=
  (foldM (λ _ e, _ ← _enqueue e.1 "1m" 10 e.2 "spot"; mret tt) tt
     [("AUSDT", PRIORITY_BACKFILL); ("BTCUSDT", PRIORITY_ONDEMAND); ("CUSDT", PRIORITY_BACKFILL)] sample_services).2.

Lemma queued_services_ok : feed_ok queued_services.
Proof.
  refine (steps_foldM keeps_feed _ tt _ _ sample_services sample_services_ok). intros ? e _.
  apply steps_bind; [tc_solve|apply enqueue_keeps|]. intros. apply steps_ret; tc_solve.
Qed.

Lemma await_completes_witness :
  mk_job PRIORITY_BACKFILL 3 "CUSDT" "1m" 10 "spot" ∈ kl_queue (sv_klines (await 2 queued_services).2).
Proof.
  pose proof (await_completes queued_services (mk_job PRIORITY_ONDEMAND 2 "BTCUSDT" "1m" 10 "spot")
    queued_services_ok ltac:(right; left)) as Ha.
  cbn [j_seq] in Ha. destruct (await 2 queued_services) as [r s']. destruct Ha as [_ Hrest]. cbn [snd].
  apply Hrest; [right; right; left|reflexivity].
Defined.
