(* ===== verification/History.v ===== *)
(** [pa/analysis.py], the immutable records: [_store_payload], [_read_current],
    [_read_history].  A table of results is never overwritten: a store adds at
    most one row and closes at most one.  The three tables share the code, so the
    operations are written against the interface [PATable]. *)

From Stdlib Require Import ZArith String Sorted.
From S2P Require Import Prelude PyFloat PyVal Errors Swings OrderBlocks Liquidity Tables Monad Broker Db Sample.
Local Open Scope string_scope.
Local Open Scope list_scope.

Class PATable (P : Type) := {
  pa_eq_dec :: EqDecision P;
  pa_rows : market_db → list (pa_row P);
  set_pa_rows : (list (pa_row P) → list (pa_row P)) → market_db → market_db;
  pa_rows_set f m : pa_rows (set_pa_rows f m) = f (pa_rows m) }.

#[export] Program Instance market_structure_table : PATable structure := {|
  pa_rows := tb_market_structure; set_pa_rows := set_tb_market_structure |}.
Next Obligation. done. Qed.
#[export] Program Instance liquidity_zones_table : PATable liquidity_result := {|
  pa_rows := tb_liquidity_zones; set_pa_rows := set_tb_liquidity_zones |}.
Next Obligation. done. Qed.
#[export] Program Instance order_blocks_table : PATable order_blocks_result := {|
  pa_rows := tb_order_blocks; set_pa_rows := set_tb_order_blocks |}.
Next Obligation. done. Qed.

Section Store.
Context {P : Type} `{PATable P}.
Implicit Types (rows : list (pa_row P)) (r o : pa_row P).

(** [WHERE symbol=? AND timeframe=?] *)
Definition in_key (symbol timeframe : string) r : bool :=
  String.eqb (r_symbol r) symbol && String.eqb (r_timeframe r) timeframe.
Definition is_open r : bool := match r_effective_to r with None => true | Some _ => false end.

(** The last row of a bar: [ORDER BY id DESC LIMIT 1], ids growing with the rows. *)
Definition same_bar (symbol timeframe : string) (effective_from : Z) rows : option (pa_row P) :=
  last (List.filter (λ r, in_key symbol timeframe r && (r_effective_from r =? effective_from)%Z) rows).

(** The newest of some rows: [ORDER BY effective_from DESC, id DESC LIMIT 1]. *)
Definition newest rows : option (pa_row P) :=
  foldl (λ best r, match best with
                   | Some b => if (r_effective_from r <? r_effective_from b)%Z then best else Some r
                   | None => Some r
                   end) None rows.

Definition open_row (symbol timeframe : string) rows : option (pa_row P) :=
  newest (List.filter (λ r, in_key symbol timeframe r && is_open r) rows).

(** [MIN(effective_from) ... WHERE effective_from > ?] *)
Definition next_from (symbol timeframe : string) (effective_from : Z) rows : option Z :=
  foldr (λ r m, if in_key symbol timeframe r && (effective_from <? r_effective_from r)%Z
                then Some (match m with Some x => Z.min (r_effective_from r) x | None => r_effective_from r end)
                else m) None rows.

Definition set_to (to : Z) r : pa_row P :=
  mk_pa_row (r_id r) (r_symbol r) (r_timeframe r) (r_algo_version r) (r_effective_from r) (Some to)
    (r_payload r) (r_created_at r).

(** [UPDATE ... SET effective_to=? WHERE id=?] *)
Definition close_row (id to : Z) rows : list (pa_row P) :=
  update_where (λ r, (r_id r =? id)%Z) (set_to to) rows.

(** [INSERT]: the next id of the table. *)
Definition insert_row (symbol timeframe algo_version : string) (effective_from : Z) (effective_to : option Z)
    (payload : P) (now : Z) rows : list (pa_row P) :=
  rows ++ [mk_pa_row (next_id (map r_id rows)) symbol timeframe algo_version effective_from effective_to payload now].

(** The transaction of [_store_payload], at the time [now]. *)
Definition store_rows (symbol timeframe algo_version : string) (effective_from : Z) (payload : P) (now : Z)
    rows : list (pa_row P) :=
  let insert to rows := insert_row symbol timeframe algo_version effective_from to payload now rows in
  match same_bar symbol timeframe effective_from rows with
  | Some sb =>
      if String.eqb (r_algo_version sb) algo_version && bool_decide (r_payload sb = payload) then rows
      else match r_effective_to sb with
           | None => insert None (close_row (r_id sb) effective_from rows)
           | Some to => insert (Some to) rows
           end
  | None =>
      match open_row symbol timeframe rows with
      | None => insert None rows
      | Some o =>
          if (r_effective_from o <? effective_from)%Z
          then insert None (close_row (r_id o) (effective_from - 1) rows)
          else
            let eff_to := match next_from symbol timeframe effective_from rows with
                          | Some m => (m - 1)%Z
                          | None => (r_effective_from o - 1)%Z
                          end in
            insert (Some eff_to) rows
      end
  end.

Definition _store_payload {X} `{Ext X} (symbol timeframe algo_version : string) (effective_from : Z) (payload : P)
    : M X unit :=
  db_write (
    now ← time_now;
    db_modify (set_market (set_pa_rows (store_rows symbol timeframe algo_version effective_from payload now)))).

Definition _read_current {X} (symbol timeframe : string) : M X (option (pa_row P)) :=
  db_read (λ d, open_row symbol timeframe (pa_rows (market d))).

(** [ORDER BY effective_from ASC]: the query walks the index
    [(symbol, timeframe, effective_from DESC)] backwards, so the rows of one bar
    come newest first. *)
Definition _read_history {X} (symbol timeframe : string) : M X (list (pa_row P)) :=
  db_read (λ d, order_by r_effective_from (reverse (List.filter (in_key symbol timeframe) (pa_rows (market d))))).
End Store.

(** ** The abstract record: the newest bar, in its last version

    A sequence of stores keeps, for each symbol and timeframe, the last result
    stored for the newest bar. *)

Section Spec.
Context {P : Type}.

Record store_op := mk_store {
  so_symbol : string;
  so_timeframe : string;
  so_version : string;
  so_from : Z;
  so_payload : P }.

Definition current : Type := option (Z * string * P).

Definition supersede (cur : current) (o : store_op) : current :=
  match cur with
  | Some (from, _, _) =>
      if (so_from o <? from)%Z then cur else Some (so_from o, so_version o, so_payload o)
  | None => Some (so_from o, so_version o, so_payload o)
  end.

Definition spec_current (symbol timeframe : string) (ops : list store_op) : current :=
  foldl supersede None
    (List.filter (λ o, String.eqb (so_symbol o) symbol && String.eqb (so_timeframe o) timeframe) ops).
End Spec.
Arguments store_op : clear implicits.
Arguments current : clear implicits.

Section Refinement.
Context {P : Type} `{PATable P}.
Implicit Types (rows : list (pa_row P)) (r o : pa_row P) (op : store_op P).

Definition store (now : Z) (op : store_op P) rows : list (pa_row P) :=
  store_rows (so_symbol op) (so_timeframe op) (so_version op) (so_from op) (so_payload op) now rows.

Definition current_of (row : option (pa_row P)) : current P :=
  (λ r, (r_effective_from r, r_algo_version r, r_payload r)) <$> row.

(** The rows of one symbol and timeframe: none, or one open row, no older than any
    other and the last of its bar; the closed ones span at least their bar. *)
Definition closed_ok r : Prop := ∃ to, r_effective_to r = Some to ∧ (r_effective_from r ≤ to)%Z.
Inductive history_ok : list (pa_row P) → Prop :=
| history_nil : history_ok []
| history_open l1 o l2 :
    r_effective_to o = None →
    Forall closed_ok l1 → Forall closed_ok l2 →
    Forall (λ r, r_effective_from r ≤ r_effective_from o)%Z l1 →
    Forall (λ r, r_effective_from r < r_effective_from o)%Z l2 →
    history_ok (l1 ++ o :: l2).

Record rows_ok rows : Prop := {
  ro_ids : NoDup (map r_id rows);
  ro_history symbol timeframe : history_ok (List.filter (in_key symbol timeframe) rows) }.

(** What never changes of a row. *)
Definition immutable r : Z * string * string * string * Z * P * Z :=
  (r_id r, r_symbol r, r_timeframe r, r_algo_version r, r_effective_from r, r_payload r, r_created_at r).

(** Every row stays where it is, with its contents; a closed one stays closed at
    the same bar. *)
Definition keeps_row r r' : Prop :=
  immutable r' = immutable r ∧ (r_effective_to r = None ∨ r_effective_to r' = r_effective_to r).
Definition extends rows rows' : Prop := ∃ kept added, rows' = kept ++ added ∧ Forall2 keeps_row rows kept.

#[export] Instance keeps_row_preorder : PreOrder keeps_row.
Proof.
  split; [by intros r; split; auto|].
  intros x y z [Hi [Ht|Ht]] [Hi' Ht']; (split; [congruence|]); [by left|].
  destruct Ht' as [Ht'|Ht']; [left|right]; congruence.
Qed.

#[export] Instance extends_preorder : PreOrder extends.
Proof.
  split; [intros l; exists l, []; by rewrite app_nil_r|].
  intros l1 l2 l3 (k1 & a1 & -> & H1) (k2 & a2 & -> & H2).
  apply Forall2_app_inv_l in H2 as (k3 & a3 & H3 & _ & ->). exists k3, (a3 ++ a2).
  split; [by rewrite app_assoc|]. by trans k1.
Qed.

Lemma extends_insert rows r : extends rows (rows ++ [r]).
Proof. by exists rows, [r]. Qed.

Lemma extends_close rows id to :
  (∀ r, r ∈ rows → r_id r = id → r_effective_to r = None) → extends rows (close_row id to rows).
Proof.
  intros Hopen. exists (close_row id to rows), []. split; [by rewrite app_nil_r|].
  unfold close_row, update_where. apply Forall2_fmap_r, Forall_Forall2_diag, Forall_forall.
  intros r Hr. change (keeps_row r (if (r_id r =? id)%Z then set_to to r else r)).
  destruct (Z.eqb_spec (r_id r) id); [|reflexivity]. split; [done|left; auto].
Qed.

(** ** Lists of one key *)

Lemma newest_open l1 o l2 (p : pa_row P → bool) :
  p o = true → Forall (λ r, p r = false) l1 → Forall (λ r, p r = false) l2 →
  newest (List.filter p (l1 ++ o :: l2)) = Some o.
Proof.
  intros Ho H1 H2. rewrite List.filter_app. simpl. rewrite Ho.
  assert (∀ l, Forall (λ r, p r = false) l → List.filter p l = []) as Hnil.
  { induction 1 as [|x l Hx _ IH]; simpl; [done|]. by rewrite Hx. }
  by rewrite !Hnil.
Qed.

Lemma closed_not_open r : closed_ok r → is_open r = false.
Proof. intros (to & Ht & _). unfold is_open. by rewrite Ht. Qed.

Lemma filter_key_and symbol timeframe (q : pa_row P → bool) rows :
  List.filter (λ r, in_key symbol timeframe r && q r) rows =
  List.filter q (List.filter (in_key symbol timeframe) rows).
Proof.
  induction rows as [|r rows IH]; simpl; [done|]. destruct (in_key symbol timeframe r); simpl; [|done].
  destruct (q r); by rewrite IH.
Qed.

Lemma open_row_history symbol timeframe rows l1 o l2 :
  List.filter (in_key symbol timeframe) rows = l1 ++ o :: l2 →
  r_effective_to o = None → Forall closed_ok l1 → Forall closed_ok l2 →
  open_row symbol timeframe rows = Some o.
Proof.
  intros Hf Ho H1 H2. unfold open_row. rewrite filter_key_and, Hf. apply newest_open.
  - unfold is_open. by rewrite Ho.
  - eapply Forall_impl; [exact H1|apply closed_not_open].
  - eapply Forall_impl; [exact H2|apply closed_not_open].
Qed.

Lemma open_row_none symbol timeframe rows :
  List.filter (in_key symbol timeframe) rows = [] → open_row symbol timeframe rows = None.
Proof. intros Hf. unfold open_row. by rewrite filter_key_and, Hf. Qed.

Lemma last_filter_mid (p : pa_row P → bool) l1 o l2 :
  last (List.filter p (l1 ++ o :: l2)) =
  match last (List.filter p l2) with
  | Some x => Some x
  | None => if p o then Some o else last (List.filter p l1)
  end.
Proof.
  rewrite List.filter_app. simpl. destruct (List.filter p l2) as [|x l] eqn:E.
  - destruct (p o); simpl; [by rewrite last_snoc|by rewrite app_nil_r].
  - destruct (p o); rewrite <-E.
    + by rewrite last_app_cons, last_cons, E; destruct (last (x :: l)) eqn:El; [|by apply last_None in El].
    + by rewrite last_app, E; destruct (last (x :: l)) eqn:El; [|by apply last_None in El].
Qed.

Lemma last_filter_elem (p : pa_row P → bool) l x : last (List.filter p l) = Some x → x ∈ l ∧ p x = true.
Proof. intros Hl%last_Some_elem_of. by apply elem_of_filter_b in Hl. Qed.

(** The last row of a bar: the open one, or a closed one of an older bar. *)
Lemma same_bar_cases symbol timeframe from rows l1 o l2 :
  List.filter (in_key symbol timeframe) rows = l1 ++ o :: l2 →
  Forall closed_ok l1 → Forall closed_ok l2 →
  Forall (λ r, r_effective_from r ≤ r_effective_from o)%Z l1 →
  Forall (λ r, r_effective_from r < r_effective_from o)%Z l2 →
  match same_bar symbol timeframe from rows with
  | Some sb => (sb = o ∧ r_effective_from o = from) ∨
               (closed_ok sb ∧ r_effective_from sb = from ∧ (from < r_effective_from o)%Z)
  | None => r_effective_from o ≠ from
  end.
Proof.
  intros Hf H1 H2 H3 H4. unfold same_bar. rewrite filter_key_and, Hf, last_filter_mid.
  rewrite Forall_forall in H1, H2, H3, H4. destruct (last _) as [x|] eqn:E2.
  { apply last_filter_elem in E2 as [Hin Hx%Z.eqb_eq]. right. split_and!; [auto|done|]. rewrite <-Hx. auto. }
  destruct (Z.eqb_spec (r_effective_from o) from) as [|Hne]; [by left|].
  destruct (last (List.filter _ l1)) as [x|] eqn:E1; [|done].
  apply last_filter_elem in E1 as [Hin Hx%Z.eqb_eq]. right. split_and!; [auto|done|].
  specialize (H3 _ Hin). lia.
Qed.

Lemma next_from_gt symbol timeframe from rows m :
  next_from symbol timeframe from rows = Some m → (from < m)%Z.
Proof.
  revert m. induction rows as [|r rows IH]; intros m; simpl; [done|].
  destruct (in_key _ _ r); simpl; [|auto]. destruct (Z.ltb_spec from (r_effective_from r)); [|auto].
  intros [= <-]. fold (next_from symbol timeframe from rows).
  destruct (next_from symbol timeframe from rows); [|done]. specialize (IH _ eq_refl). lia.
Qed.

Lemma next_id_fresh (ids : list Z) : next_id ids ∉ ids.
Proof.
  intros Hin. assert (Forall (λ i, i ≤ foldr Z.max 0 ids)%Z ids) as Hall.
  { clear. induction ids as [|i ids IH]; simpl; constructor; [lia|].
    eapply Forall_impl; [exact IH|]. simpl. lia. }
  rewrite Forall_forall in Hall. specialize (Hall _ Hin). unfold next_id in *. lia.
Qed.

Lemma ids_close id to rows : map r_id (close_row id to rows) = map r_id rows.
Proof.
  unfold close_row, update_where. rewrite <-list_fmap_compose. apply list_fmap_ext.
  intros i r _. simpl. by destruct (r_id r =? id)%Z.
Qed.

Lemma filter_close symbol timeframe id to rows :
  List.filter (in_key symbol timeframe) (close_row id to rows) =
  close_row id to (List.filter (in_key symbol timeframe) rows).
Proof.
  unfold close_row, update_where. induction rows as [|r rows IH]; [done|]. rewrite fmap_cons. simpl.
  assert (in_key symbol timeframe (if (r_id r =? id)%Z then set_to to r else r) = in_key symbol timeframe r) as ->
    by (by destruct (r_id r =? id)%Z).
  destruct (in_key symbol timeframe r); [|done]. by rewrite IH, fmap_cons.
Qed.

Lemma close_absent id to rows : id ∉ map r_id rows → close_row id to rows = rows.
Proof.
  intros Hid. apply update_where_none, Forall_forall. intros r Hr. apply Z.eqb_neq. intros <-.
  apply Hid, list_elem_of_fmap. eauto.
Qed.

Lemma close_at l1 o l2 to :
  NoDup (map r_id (l1 ++ o :: l2)) → close_row (r_id o) to (l1 ++ o :: l2) = l1 ++ set_to to o :: l2.
Proof.
  rewrite map_app. simpl. intros (_ & Hd & Hn)%NoDup_app. apply NoDup_cons in Hn as [Hn _].
  unfold close_row. rewrite update_where_app. simpl. rewrite Z.eqb_refl.
  fold (close_row (r_id o) to l1) (close_row (r_id o) to l2).
  rewrite !close_absent; [done|done|]. intros Hin. by apply (Hd _ Hin); left.
Qed.

(** ** The two statements of a store *)

Definition own (op : store_op P) (symbol timeframe : string) : bool :=
  String.eqb (so_symbol op) symbol && String.eqb (so_timeframe op) timeframe.

Lemma insert_spec symbol timeframe version from to payload now rows :
  NoDup (map r_id rows) →
  let rows' := insert_row symbol timeframe version from to payload now rows in
  NoDup (map r_id rows') ∧ extends rows rows' ∧
  List.filter (in_key symbol timeframe) rows' =
    List.filter (in_key symbol timeframe) rows ++
      [mk_pa_row (next_id (map r_id rows)) symbol timeframe version from to payload now] ∧
  ∀ s t, String.eqb symbol s && String.eqb timeframe t = false →
    List.filter (in_key s t) rows' = List.filter (in_key s t) rows.
Proof.
  intros Hn rows'. unfold rows', insert_row. split_and!.
  - rewrite map_app. apply NoDup_app. split_and!; [done| |by apply NoDup_singleton].
    intros i Hi ->%list_elem_of_singleton. by apply next_id_fresh in Hi.
  - apply extends_insert.
  - rewrite List.filter_app. simpl. unfold in_key at 2. simpl. by rewrite !String.eqb_refl.
  - intros s t Hst. rewrite List.filter_app. simpl. unfold in_key at 2. simpl. rewrite Hst. apply app_nil_r.
Qed.

Lemma in_key_unique s t s' t' r :
  in_key s t r = true → in_key s' t' r = true → String.eqb s s' && String.eqb t t' = true.
Proof.
  unfold in_key. intros [<-%String.eqb_eq <-%String.eqb_eq]%andb_true_iff [<-%String.eqb_eq <-%String.eqb_eq]%andb_true_iff.
  by rewrite !String.eqb_refl.
Qed.

Lemma close_spec symbol timeframe rows l1 o l2 to :
  NoDup (map r_id rows) → List.filter (in_key symbol timeframe) rows = l1 ++ o :: l2 →
  r_effective_to o = None →
  let rows' := close_row (r_id o) to rows in
  NoDup (map r_id rows') ∧ extends rows rows' ∧
  List.filter (in_key symbol timeframe) rows' = l1 ++ set_to to o :: l2 ∧
  ∀ s t, String.eqb symbol s && String.eqb timeframe t = false →
    List.filter (in_key s t) rows' = List.filter (in_key s t) rows.
Proof.
  intros Hn Hf Ho rows'. unfold rows'.
  assert (o ∈ rows ∧ in_key symbol timeframe o = true) as [Hin Hk].
  { apply elem_of_filter_b. rewrite Hf. set_solver. }
  assert (∀ r, r ∈ rows → r_id r = r_id o → r = o) as Huniq.
  { intros r [i Hr]%list_elem_of_lookup Hid. apply list_elem_of_lookup in Hin as [k Hko].
    assert (i = k) as -> by (apply (NoDup_lookup (r_id <$> rows) i k (r_id o));
      [done|rewrite list_lookup_fmap, Hr; simpl; congruence|by rewrite list_lookup_fmap, Hko]).
    congruence. }
  split_and!.
  - by rewrite ids_close.
  - apply extends_close. intros r Hr Hid. by rewrite (Huniq r Hr Hid).
  - rewrite filter_close, Hf. apply close_at. rewrite <-Hf. clear -Hn.
    induction rows as [|r rows IH]; simpl in *; [done|]. apply NoDup_cons in Hn as [Hr Hn].
    destruct (in_key symbol timeframe r); [|auto]. simpl. constructor; [|auto]. intros (x & Heq & Hx)%list_elem_of_fmap.
    apply elem_of_filter_b in Hx as [Hx _]. apply Hr, list_elem_of_fmap. eauto.
  - intros s t Hst. rewrite filter_close. apply close_absent. intros (r & Hid & Hr)%list_elem_of_fmap.
    apply elem_of_filter_b in Hr as [Hr Hkr]. rewrite (Huniq r Hr (eq_sym Hid)) in Hkr.
    by rewrite (in_key_unique _ _ _ _ _ Hk Hkr) in Hst.
Qed.

(** What a store does to its own key, and to the others. *)
Record store_effect (op : store_op P) rows rows' : Prop := {
  se_ids : NoDup (map r_id rows');
  se_extends : extends rows rows';
  se_own : history_ok (List.filter (in_key (so_symbol op) (so_timeframe op)) rows');
  se_current : current_of (open_row (so_symbol op) (so_timeframe op) rows') =
    supersede (current_of (open_row (so_symbol op) (so_timeframe op) rows)) op;
  se_other s t : own op s t = false → List.filter (in_key s t) rows' = List.filter (in_key s t) rows }.

Lemma store_effect_open op rows rows' l1 o l2 :
  NoDup (map r_id rows') → extends rows rows' →
  (∀ s t, own op s t = false → List.filter (in_key s t) rows' = List.filter (in_key s t) rows) →
  List.filter (in_key (so_symbol op) (so_timeframe op)) rows' = l1 ++ o :: l2 →
  r_effective_to o = None → Forall closed_ok l1 → Forall closed_ok l2 →
  Forall (λ r, r_effective_from r ≤ r_effective_from o)%Z l1 →
  Forall (λ r, r_effective_from r < r_effective_from o)%Z l2 →
  Some (r_effective_from o, r_algo_version o, r_payload o) =
    supersede (current_of (open_row (so_symbol op) (so_timeframe op) rows)) op →
  store_effect op rows rows'.
Proof.
  intros Hn He Hother Hf Ho H1 H2 H3 H4 Hc. split; [done|done|rewrite Hf; by constructor| |done].
  by rewrite (open_row_history _ _ _ _ _ _ Hf Ho H1 H2), <-Hc.
Qed.

(** ** One store *)

#[local] Arguments supersede : simpl never.

Lemma supersede_newer op from v p :
  (from ≤ so_from op)%Z → supersede (Some (from, v, p)) op = Some (so_from op, so_version op, so_payload op).
Proof. intros Hle. unfold supersede. by rewrite (proj2 (Z.ltb_ge _ _)). Qed.
Lemma supersede_older op from v p :
  (so_from op < from)%Z → supersede (Some (from, v, p)) op = Some (from, v, p).
Proof. intros Hlt. unfold supersede. by rewrite (proj2 (Z.ltb_lt _ _)). Qed.

(** A closed row for an older bar: the open row stays the current one. *)
Lemma store_backward now op rows l1 o l2 to :
  NoDup (map r_id rows) →
  List.filter (in_key (so_symbol op) (so_timeframe op)) rows = l1 ++ o :: l2 →
  r_effective_to o = None → Forall closed_ok l1 → Forall closed_ok l2 →
  Forall (λ r, r_effective_from r ≤ r_effective_from o)%Z l1 →
  Forall (λ r, r_effective_from r < r_effective_from o)%Z l2 →
  (so_from op < r_effective_from o)%Z → (so_from op ≤ to)%Z →
  store_effect op rows
    (insert_row (so_symbol op) (so_timeframe op) (so_version op) (so_from op) (Some to) (so_payload op) now rows).
Proof.
  intros Hn Hf Ho H1 H2 H3 H4 Hlt Hto.
  destruct (insert_spec (so_symbol op) (so_timeframe op) (so_version op) (so_from op) (Some to) (so_payload op)
    now rows Hn) as (Hn' & He & Hown & Hother).
  rewrite Hf, <-app_assoc in Hown. simpl in Hown.
  eapply store_effect_open; [done|done|done|exact Hown|done|done| |done| |].
  - apply Forall_app. split; [done|]. constructor; [by exists to|done].
  - apply Forall_app. split; [done|]. by repeat constructor.
  - rewrite (open_row_history _ _ _ _ _ _ Hf Ho H1 H2). simpl. by rewrite supersede_older.
Qed.

(** A new open row for a bar at least as new: the open row before it is closed. *)
Lemma store_forward now op rows l1 o l2 to :
  NoDup (map r_id rows) →
  List.filter (in_key (so_symbol op) (so_timeframe op)) rows = l1 ++ o :: l2 →
  r_effective_to o = None → Forall closed_ok l1 → Forall closed_ok l2 →
  Forall (λ r, r_effective_from r ≤ r_effective_from o)%Z l1 →
  Forall (λ r, r_effective_from r < r_effective_from o)%Z l2 →
  (r_effective_from o ≤ so_from op)%Z → (r_effective_from o ≤ to)%Z →
  store_effect op rows
    (insert_row (so_symbol op) (so_timeframe op) (so_version op) (so_from op) None (so_payload op) now
       (close_row (r_id o) to rows)).
Proof.
  intros Hn Hf Ho H1 H2 H3 H4 Hle Hto.
  destruct (close_spec _ _ rows l1 o l2 to Hn Hf Ho) as (Hn1 & He1 & Hown1 & Hother1).
  destruct (insert_spec (so_symbol op) (so_timeframe op) (so_version op) (so_from op) None (so_payload op)
    now _ Hn1) as (Hn' & He & Hown & Hother).
  rewrite Hown1 in Hown.
  eapply (store_effect_open op rows _ (l1 ++ set_to to o :: l2) _ []);
    [done|by etrans| |exact Hown|done| |constructor| |constructor|].
  - intros s t Hst. rewrite Hother, Hother1 by done. done.
  - apply Forall_app. split; [done|]. constructor; [by exists to|done].
  - apply Forall_app. split; [|constructor; [done|]]; (eapply Forall_impl; [eassumption|]); simpl; lia.
  - rewrite (open_row_history _ _ _ _ _ _ Hf Ho H1 H2). simpl. by rewrite supersede_newer.
Qed.

Lemma store_effect_holds now op rows : rows_ok rows → store_effect op rows (store now op rows).
Proof.
  intros [Hn Hh]. specialize (Hh (so_symbol op) (so_timeframe op)). unfold store, store_rows.
  remember (List.filter (in_key (so_symbol op) (so_timeframe op)) rows) as l eqn:Hf. symmetry in Hf.
  destruct Hh as [|l1 o l2 Ho H1 H2 H3 H4].
  - assert (same_bar (so_symbol op) (so_timeframe op) (so_from op) rows = None) as ->
      by (unfold same_bar; by rewrite filter_key_and, Hf).
    rewrite (open_row_none _ _ _ Hf).
    destruct (insert_spec (so_symbol op) (so_timeframe op) (so_version op) (so_from op) None (so_payload op)
      now rows Hn) as (Hn' & He & Hown & Hother).
    rewrite Hf in Hown. eapply (store_effect_open op rows _ [] _ []); try done. by rewrite (open_row_none _ _ _ Hf).
  - pose proof (same_bar_cases _ _ (so_from op) rows l1 o l2 Hf H1 H2 H3 H4) as Hsb.
    pose proof (open_row_history _ _ _ _ _ _ Hf Ho H1 H2) as Hopen. rewrite Hopen.
    destruct (same_bar _ _ _ _) as [sb|].
    + destruct (String.eqb (r_algo_version sb) (so_version op) && bool_decide (r_payload sb = so_payload op)) eqn:Esame.
      * apply andb_true_iff in Esame as [Hv%String.eqb_eq Hp%bool_decide_eq_true_1].
        eapply store_effect_open; try done. rewrite Hopen. simpl.
        destruct Hsb as [[-> Hfrom]|(_ & Hfrom & Hlt)]; [|by rewrite supersede_older].
        rewrite supersede_newer by lia. by rewrite Hfrom, Hv, Hp.
      * destruct Hsb as [[-> Hfrom]|([to [Hto Hle]] & Hfrom & Hlt)].
        -- rewrite Ho. eapply store_forward; try done; lia.
        -- rewrite Hto. eapply store_backward; try done; lia.
    + destruct (Z.ltb_spec (r_effective_from o) (so_from op)).
      * eapply store_forward; try done; lia.
      * eapply store_backward; try done; [lia|]. destruct (next_from _ _ _ _) as [m|] eqn:Em; [|lia].
        apply next_from_gt in Em. lia.
Qed.

Lemma store_ok now op rows : rows_ok rows → rows_ok (store now op rows).
Proof.
  intros Hok. destruct (store_effect_holds now op rows Hok) as [Hn _ Hown _ Hother]. split; [done|].
  intros s t. destruct (own op s t) eqn:E; [|rewrite Hother by done; by apply ro_history].
  apply andb_true_iff in E as [<-%String.eqb_eq <-%String.eqb_eq]. done.
Qed.

Lemma store_current now op rows s t :
  rows_ok rows →
  current_of (open_row s t (store now op rows)) =
  if own op s t then supersede (current_of (open_row s t rows)) op else current_of (open_row s t rows).
Proof.
  intros Hok. destruct (store_effect_holds now op rows Hok) as [_ _ _ Hc Hother].
  destruct (own op s t) eqn:E.
  - by apply andb_true_iff in E as [<-%String.eqb_eq <-%String.eqb_eq].
  - unfold open_row. by rewrite !filter_key_and, Hother.
Qed.

(** A stored result is in the history, and storing it again adds nothing. *)
Definition records op r : Prop :=
  r_symbol r = so_symbol op ∧ r_timeframe r = so_timeframe op ∧ r_algo_version r = so_version op ∧
  r_effective_from r = so_from op ∧ r_payload r = so_payload op.

Lemma same_bar_insert op to now rows :
  same_bar (so_symbol op) (so_timeframe op) (so_from op)
    (insert_row (so_symbol op) (so_timeframe op) (so_version op) (so_from op) to (so_payload op) now rows) =
  Some (mk_pa_row (next_id (map r_id rows)) (so_symbol op) (so_timeframe op) (so_version op) (so_from op) to
          (so_payload op) now).
Proof.
  unfold same_bar, insert_row. rewrite List.filter_app. simpl. unfold in_key at 2. simpl.
  rewrite !String.eqb_refl, Z.eqb_refl. simpl. by rewrite last_snoc.
Qed.

Lemma store_same_bar now op rows :
  ∃ r, same_bar (so_symbol op) (so_timeframe op) (so_from op) (store now op rows) = Some r ∧ records op r.
Proof.
  unfold store, store_rows. destruct (same_bar _ _ _ rows) as [sb|] eqn:Esb.
  - destruct (_ && _) eqn:Esame.
    + exists sb. split; [done|]. apply andb_true_iff in Esame as [?%String.eqb_eq ?%bool_decide_eq_true_1].
      unfold same_bar in Esb. apply last_filter_elem in Esb as [_ [Hk ?%Z.eqb_eq]%andb_true_iff].
      unfold in_key in Hk. apply andb_true_iff in Hk as [?%String.eqb_eq ?%String.eqb_eq]. done.
    + destruct (r_effective_to sb); rewrite same_bar_insert; eexists; split; done.
  - destruct (open_row _ _ rows) as [o|]; [destruct (_ <? _)%Z|]; rewrite same_bar_insert; eexists; split; done.
Qed.

Lemma store_recorded now op rows : ∃ r, r ∈ store now op rows ∧ records op r.
Proof.
  destruct (store_same_bar now op rows) as (r & Hr & Hop). exists r. split; [|done].
  unfold same_bar in Hr. by apply last_filter_elem in Hr as [? _].
Qed.

Lemma store_idempotent now now' op rows : store now' op (store now op rows) = store now op rows.
Proof.
  destruct (store_same_bar now op rows) as (r & Hr & (_ & _ & Hv & _ & Hp)).
  unfold store at 1, store_rows. rewrite Hr, Hv, String.eqb_refl, (bool_decide_eq_true_2 _ Hp). done.
Qed.

(** ** Stores in the world *)

Context {X : Type} `{Ext X}.

Definition run_store op : M X unit :=
  _store_payload (so_symbol op) (so_timeframe op) (so_version op) (so_from op) (so_payload op).
Definition run_stores (ops : list (store_op P)) : M X unit := foldM (λ _ op, run_store op) tt ops.

Definition table (w : world X) : list (pa_row P) := pa_rows (market (w_db w)).

Lemma run_store_spec op (w : world X) :
  w_closed w = false →
  ∃ now, run_store op w = (Ok tt, (run_store op w).2) ∧ w_closed (run_store op w).2 = false ∧
    table (run_store op w).2 = store now op (table w).
Proof.
  intros Hc. unfold run_store, _store_payload, db_write. rewrite Hc.
  unfold mbind, ST_bind, time_now, on_ext. destruct (ext_time (w_ext w)) as [now x]. simpl.
  exists now. split_and!; [done..|]. unfold table, set_market. simpl. apply pa_rows_set.
Qed.

Lemma extends_recorded rows rows' op :
  extends rows rows' → (∃ r, r ∈ rows ∧ records op r) → ∃ r, r ∈ rows' ∧ records op r.
Proof.
  intros (kept & added & -> & Hk) (r & [i Hr]%list_elem_of_lookup & Hop).
  destruct (Forall2_lookup_l _ _ _ _ _ Hk Hr) as (r' & Hr' & Him & _). unfold immutable in Him. simplify_eq.
  exists r'. split; [apply elem_of_app; left; by eapply list_elem_of_lookup_2|].
  unfold records in *. by intuition congruence.
Qed.

Lemma run_stores_cons op ops (w : world X) :
  w_closed w = false → run_stores (op :: ops) w = run_stores ops (run_store op w).2.
Proof.
  intros Hc. destruct (run_store_spec op w Hc) as (now & Hr & _).
  unfold run_stores. cbn [foldM]. unfold mbind, ST_bind. by rewrite Hr.
Qed.

Lemma run_stores_spec ops (w : world X) :
  w_closed w = false → rows_ok (table w) →
  let w' := (run_stores ops w).2 in
  w_closed w' = false ∧ rows_ok (table w') ∧ extends (table w) (table w') ∧
  (∀ op, op ∈ ops → ∃ r, r ∈ table w' ∧ records op r) ∧
  ∀ s t, current_of (open_row s t (table w')) =
    foldl supersede (current_of (open_row s t (table w))) (List.filter (λ op, own op s t) ops).
Proof.
  revert w. induction ops as [|op ops IH]; intros w Hc Hok w'.
  { split_and!; [done|done|done| |done]. by intros op ?%not_elem_of_nil. }
  unfold w'. rewrite run_stores_cons by done.
  destruct (run_store_spec op w Hc) as (now & _ & Hc1 & Ht1).
  assert (rows_ok (table (run_store op w).2)) as Hok1 by (rewrite Ht1; by apply store_ok).
  destruct (IH _ Hc1 Hok1) as (Hc' & Hok' & He' & Hrec & Hcur). split_and!; [done|done| | |].
  - etrans; [|exact He']. rewrite Ht1. by apply (se_extends op), store_effect_holds.
  - intros o [->|Ho]%elem_of_cons; [|by apply Hrec]. eapply extends_recorded; [exact He'|].
    rewrite Ht1. apply store_recorded.
  - intros s t. rewrite Hcur, Ht1, store_current by done. simpl. by destruct (own op s t).
Qed.

Lemma run_stores_app ops1 ops2 (w : world X) :
  w_closed w = false → rows_ok (table w) →
  run_stores (ops1 ++ ops2) w = run_stores ops2 (run_stores ops1 w).2.
Proof.
  revert w. induction ops1 as [|op ops1 IH]; intros w Hc Hok; [done|]. simpl app.
  rewrite !run_stores_cons by done. destruct (run_store_spec op w Hc) as (now & _ & Hc1 & Ht1).
  apply IH; [done|]. rewrite Ht1. by apply store_ok.
Qed.
End Refinement.

(** C24: the tables of results refine the abstract record, and never forget.  After
    any sequence of stores — new bars, revisions of a bar, backfilled old bars, in
    any order — what [_read_current] returns for a symbol and timeframe is the last
    result stored for the newest bar; every stored result is in the table; storing
    the last one again changes nothing; and the rows after any part of the sequence
    are, in place and contents, the first rows of the final table, where at most
    the end of an open row was filled in.  Per symbol and timeframe one row is open
    and no interval is inverted. *)
Theorem history_refines {P} `{PATable P} {X} `{Ext X} (ops : list (store_op P)) (w : world X) :
  w_closed w = false → table w = [] →
  let w' := (run_stores ops w).2 in
  (∀ s t, ∃ row, (_read_current s t w').1 = Ok row ∧ current_of row = spec_current s t ops) ∧
  (∀ op, op ∈ ops → ∃ r, r ∈ table w' ∧ records op r) ∧
  (∀ op ops', ops = ops' ++ [op] → table (run_store op w').2 = table w') ∧
  (∀ n, extends (table (run_stores (take n ops) w).2) (table w')) ∧
  rows_ok (table w').
Proof.
  intros Hc Hempty w'. assert (rows_ok (table w)) as Hok.
  { rewrite Hempty. split; [constructor|]. intros. apply history_nil. }
  destruct (run_stores_spec ops w Hc Hok) as (Hc' & Hok' & _ & Hrec & Hcur). split_and!; [|done| | |done].
  - intros s t. eexists. split; [done|]. unfold table in Hcur. rewrite Hcur.
    fold (table w). by rewrite Hempty.
  - intros op ops' ->. unfold w' in *. destruct (run_stores_spec ops' w Hc Hok) as (Hc1 & Hok1 & _).
    rewrite run_stores_app in * by done. rewrite run_stores_cons in * by done.
    destruct (run_store_spec op _ Hc1) as (now & _ & Hc2 & Ht2).
    unfold run_stores at 1 3. cbn [foldM mret ST_ret snd].
    destruct (run_store_spec op _ Hc2) as (now' & _ & _ & ->). rewrite Ht2. apply store_idempotent.
  - intros n. destruct (run_stores_spec (take n ops) w Hc Hok) as (Hc1 & Hok1 & _).
    unfold w'. rewrite <-(take_drop n ops) at 2. rewrite run_stores_app by done.
    by apply run_stores_spec.
Qed.

(** A new bar, an old one, and a revision of the new one. *)
Definition sample_ops : list (store_op structure) :=
  [mk_store "BTCUSDT" "1h" "swing-v1" 7200 (mk_structure None [] []);
   mk_store "BTCUSDT" "1h" "swing-v1" 3600 (mk_structure (Some Down) [] []);
   mk_store "BTCUSDT" "1h" "swing-v1" 7200 (mk_structure (Some Up) [] [])].

#[local] Existing Instance outside_ext.

Example sample_history :
  map (λ r, (r_effective_from r, r_effective_to r)) (table (P:=structure) (run_stores sample_ops (start empty_db)).2) =
  [(7200, Some 7200); (3600, Some 7199); (7200, None)]%Z.
Proof. vm_compute. reflexivity. Qed.

Lemma history_refines_witness :
  ∃ row, (_read_current (P:=structure) "BTCUSDT" "1h" (run_stores sample_ops (start empty_db)).2).1 = Ok row ∧
    current_of row = Some (7200%Z, "swing-v1", mk_structure (Some Up) [] []).
Proof.
  destruct (history_refines (H:=market_structure_table) sample_ops (start empty_db) eq_refl eq_refl) as [Hcur _].
  exact (Hcur "BTCUSDT" "1h").
Defined.
