(* ===== verification/Engine.v ===== *)
(** [pa/analysis.py], [PAEngine]: one analysis of a symbol and timeframe, its
    storing, and the queries.  The immutable records are in [History].

    The alarm service the engine calls after an analysis is a parameter here;
    [Alarms] ties the two together. *)

From Stdlib Require Import ZArith String.
From S2P Require Import Prelude PyFloat PyVal Errors Monad Swings OrderBlocks Liquidity Vwap Broker.
From S2P Require Import Tables Db Sample History Feed Klines.
Local Open Scope string_scope.
Local Open Scope list_scope.

Definition MAX_VWAP_POINTS : nat := 20.
Definition PA_LOOKBACK : Z := 200.

Definition SWING_ALGO_VERSION : string := "swing-v1".
Definition OBFVG_ALGO_VERSION : string := "obfvg-v1".
Definition VWAP_ALGO_VERSION : string := "vwap-v1".
Definition SESSION_ALGO_VERSION : string := "session-v1".

(** The result of [analyze]. *)
Record analysis := mk_analysis {
  al_symbol : string;
  al_timeframe : string;
  al_as_of : Z;
  al_structure : structure;
  al_liquidity : liquidity_result;
  al_order_blocks : order_blocks_result;
  al_vwap : vwap_result;
  al_sessions : list session }.

(** ** [futures_context] *)

Definition FUTURES_TYPES : list string := ["funding_rate"; "open_interest"; "liquidation"].

(** The rows of one type, oldest first. *)
Definition futures_rows (symbol ftype : string) (rows : list futures_context_row) : list futures_context_row :=
  order_by fc_event_time
    (List.filter (λ r, String.eqb (fc_symbol r) symbol && String.eqb (fc_type r) ftype) rows).

Definition futures_item_of (r : futures_context_row) : futures_item := mk_item (fc_freshness r) (fc_value r).

(** The latest row of each type. *)
Definition futures_context_of (symbol : string) (rows : list futures_context_row) (ftype : string)
    : option futures_item :=
  if str_in ftype FUTURES_TYPES then futures_item_of <$> last (futures_rows symbol ftype rows) else None.

(** ** Freshness: [true] is fresh *)

Definition freshness_for (timeframe : string) (as_of : option Z) (now : Z) : result bool :=
  match as_of with
  | None => Ok false
  | Some as_of => period ← period_of timeframe; Ok (latest_closed now period <=? as_of)%Z
  end.

(** ** Merging the history *)

(** The zones of the stored results by id, in the order of their first record; a
    later record of the history replaces an earlier one. *)
Definition merge_zones {P Z'} (zones : P → list Z') (id : Z' → string) (history : list (pa_row P)) : list Z' :=
  map snd (foldl (λ seen z, assoc_set (id z) z seen) [] (concat (map (λ r, zones (r_payload r)) history))).

Section Engine.
Context {X : Type} `{Ext X, PyEnv, Rest X, FeedConfig}.
(** Whether the engine was given a pipeline, and [alarm_service.on_analysis_updated]
    (nothing, without an alarm service). *)
Context (has_pipeline : bool).

Definition load_futures_context (symbol : string) : PM X (string → option futures_item) :=
  in_store (db_read (λ d, futures_context_of symbol (tb_futures_context (market d)))).

(** The newest [limit] of a type, oldest first. *)
Definition load_futures_series (symbol ftype : string) (limit : nat) : PM X (list futures_context_row) :=
  in_store (db_read (λ d,
    let l := futures_rows symbol ftype (tb_futures_context (market d)) in skipn (length l - limit) l)).

Definition _now : PM X Z :=
  now ← (if has_pipeline then server_now else mret None);
  match now with Some t => mret t | None => clock_now end.

Definition read_candles (symbol timeframe : string) (lookback : Z) : PM X (list candle) :=
  in_store (db_read (λ d, map k_bar (newest_candles symbol timeframe "spot" lookback (tb_candles (market d))))).

Definition _load_candles (symbol timeframe : string) (lookback : Z) : PM X (list candle) :=
  rows ← read_candles symbol timeframe lookback;
  match rows with
  | [] => if has_pipeline then
            _ ← get_candles symbol timeframe lookback "spot";
            read_candles symbol timeframe lookback
          else mret []
  | _ => mret rows
  end.

Definition freshness (timeframe : string) (as_of : option Z) : PM X bool :=
  now ← _now; lift (freshness_for timeframe as_of now).

(** The computations of [analyze] on the closed candles. *)
Definition compute_analysis (symbol timeframe : string) (candles : list candle)
    (futures : string → option futures_item) : result analysis :=
  st ← detect_structure candles;
  liquidity ← compute_liquidity_zones float_format_8g candles st futures;
  obfvg ← compute_order_blocks candles st;
  vwap ← compute_vwap candles;
  let sessions := compute_session_levels candles in
  match last candles with
  | None => Err IndexError
  | Some c => Ok (mk_analysis symbol timeframe (c_open_time c) st liquidity obfvg vwap sessions)
  end.

Definition store_analysis (r : analysis) : PM X unit :=
  in_store (
    _ ← _store_payload (al_symbol r) (al_timeframe r) SWING_ALGO_VERSION (al_as_of r) (al_structure r);
    _ ← _store_payload (al_symbol r) (al_timeframe r) LIQUIDITY_ALGO_VERSION (al_as_of r) (al_liquidity r);
    _store_payload (al_symbol r) (al_timeframe r) OBFVG_ALGO_VERSION (al_as_of r) (al_order_blocks r)).

Context (on_analysis_updated : string → string → analysis → PM X unit).

Definition analyze (symbol timeframe : string) (lookback : Z) : PM X analysis :=
  _ ← lift (reject_if (negb (has_key timeframe TIMEFRAME_SECONDS)) INVALID_REQUEST);
  candles ← _load_candles symbol timeframe lookback;
  _ ← lift (reject_if (match candles with [] => true | _ => false end) STALE_DATA);
  now ← _now;
  candles ← lift (filter_closed_candles candles timeframe now);
  _ ← lift (reject_if (length candles <? 2 * SWING_LOOKBACK + 1)%nat STALE_DATA);
  futures ← load_futures_context symbol;
  r ← lift (compute_analysis symbol timeframe candles futures);
  _ ← store_analysis r;
  _ ← on_analysis_updated symbol timeframe r;
  mret r.

(** ** Queries *)

Definition active_zones (r : analysis) : list liquidity_zone :=
  List.filter (λ z, negb (lz_mitigated z)) (li_zones (al_liquidity r)).
Definition active_blocks (zs : list zone) : list zone := List.filter (λ z, negb (z_mitigated z)) zs.

Definition merged_liquidity (symbol timeframe : string) : PM X (list liquidity_zone) :=
  history ← in_store (_read_history symbol timeframe); mret (merge_zones li_zones lz_zone_id history).
Definition merged_blocks (list_key : order_blocks_result → list zone) (symbol timeframe : string) : PM X (list zone) :=
  history ← in_store (_read_history symbol timeframe); mret (merge_zones list_key z_zone_id history).

Definition get_market_structure (symbol timeframe : string) (lookback : Z) : PM X (Z * string * structure) :=
  r ← analyze symbol timeframe lookback; mret (al_as_of r, SWING_ALGO_VERSION, al_structure r).

Definition get_liquidity_zones (symbol timeframe : string) (include_mitigated : bool) (lookback : Z)
    : PM X (Z * string * list liquidity_zone * score_result) :=
  r ← analyze symbol timeframe lookback;
  zones ← (if include_mitigated then merged_liquidity symbol timeframe else mret (active_zones r));
  mret (al_as_of r, LIQUIDITY_ALGO_VERSION, zones, li_score (al_liquidity r)).

Definition blocks_of (r : analysis) (include_mitigated : bool) : PM X (list zone * list zone) :=
  if include_mitigated then
    obs ← merged_blocks ob_order_blocks (al_symbol r) (al_timeframe r);
    fvgs ← merged_blocks ob_fvgs (al_symbol r) (al_timeframe r);
    mret (obs, fvgs)
  else mret (active_blocks (ob_order_blocks (al_order_blocks r)), active_blocks (ob_fvgs (al_order_blocks r))).

Definition get_order_blocks (symbol timeframe : string) (include_mitigated : bool) (lookback : Z)
    : PM X (Z * string * list zone * list zone) :=
  r ← analyze symbol timeframe lookback;
  '(obs, fvgs) ← blocks_of r include_mitigated;
  mret (al_as_of r, OBFVG_ALGO_VERSION, obs, fvgs).

Record full_analysis := mk_full {
  fa_as_of : Z;
  fa_algo_version : string;
  fa_structure : structure;
  fa_zones : list liquidity_zone;
  fa_score : score_result;
  fa_order_blocks : list zone;
  fa_fvgs : list zone;
  fa_vwap : vwap_result;        (* with the last [MAX_VWAP_POINTS] points *)
  fa_sessions : list session }.

Definition last_points (v : vwap_result) : vwap_result :=
  mk_vwap (vw_anchored_at v) (vw_current v) (skipn (length (vw_points v) - MAX_VWAP_POINTS) (vw_points v)).

Definition get_full_analysis (symbol timeframe : string) (include_mitigated : bool) (lookback : Z)
    : PM X full_analysis :=
  r ← analyze symbol timeframe lookback;
  zones ← (if include_mitigated then merged_liquidity symbol timeframe else mret (active_zones r));
  '(obs, fvgs) ← blocks_of r include_mitigated;
  mret (mk_full (al_as_of r)
    (join "," [SWING_ALGO_VERSION; LIQUIDITY_ALGO_VERSION; OBFVG_ALGO_VERSION; VWAP_ALGO_VERSION; SESSION_ALGO_VERSION])
    (al_structure r) zones (li_score (al_liquidity r)) obs fvgs (last_points (al_vwap r)) (al_sessions r)).
End Engine.

(** The walk over the index returns the revisions of a bar newest first, so the
    merge keeps the zone of the oldest revision. *)
Definition revised (seen : bool) : order_blocks_result :=
  mk_blocks [mk_zone "ob:5:3" order_block true fzero fzero 5 3 3 seen] [].

#[local] Existing Instance outside_ext.

Example merged_zones_keep_the_old_revision :
  let w := (run_stores [mk_store "BTCUSDT" "1h" OBFVG_ALGO_VERSION 7200 (revised false);
                        mk_store "BTCUSDT" "1h" OBFVG_ALGO_VERSION 7200 (revised true)] (start empty_db)).2 in
  let history := (_read_history (P:=order_blocks_result) "BTCUSDT" "1h" w).1 in
  let row := (_read_current (P:=order_blocks_result) "BTCUSDT" "1h" w).1 in
  (map z_mitigated ∘ merge_zones ob_order_blocks z_zone_id <$> history) = Ok [false] ∧
  ((λ r, map z_mitigated (ob_order_blocks (r_payload r))) <$> default None (match row with Ok r => Some r | _ => None end))
    = Some [true].
Proof. vm_compute. done. Qed.
