(* ===== verification/AuditLog.v ===== *)
(** [storage/audit.py]: the append-only, hash-chained audit log.

    [hashlib.sha256] is a parameter; the tamper-evidence theorems speak of its
    collisions explicitly. *)

From Stdlib Require Import ZArith String Ascii Sorted.
From stdpp Require Import pretty.
From S2P Require Import Prelude PyFloat PyVal Errors Monad Broker Db Sample.
Local Open Scope string_scope.
Local Open Scope list_scope.

Definition GENESIS_HASH : string := "GENESIS".

Definition SENSITIVE_KEYS : list string :=
  ["key"; "secret"; "api_key"; "api_secret"; "apikey"; "apisecret"; "token"; "password";
   "passphrase"; "encrypted_api_key"; "encrypted_secret"; "signature"].

Definition REDACTED : pyval := PStr "***REDACTED***".

Definition sensitive (k : string) : bool := str_in (Str.lower k) SENSITIVE_KEYS.

Fixpoint _redact (value : pyval) : pyval :=
  match value with
  | PDict d => PDict (map (λ kv, (kv.1, if sensitive kv.1 then REDACTED else _redact kv.2)) d)
  | PList l => PList (map _redact l)
  | v => v
  end.

Section Audit.
Context {X : Type} `{Ext X, PyEnv}.

Definition hash_payload (prev_hash : string) (seq : Z) (actor action details_json : string)
    (created_at : Z) : string :=
  prev_hash +:+ "|" +:+ pretty seq +:+ "|" +:+ actor +:+ "|" +:+ action +:+ "|"
    +:+ details_json +:+ "|" +:+ pretty created_at.

Definition hash_entry (prev_hash : string) (seq : Z) (actor action details_json : string)
    (created_at : Z) : string :=
  sha256_hexdigest (hash_payload prev_hash seq actor action details_json created_at).

(** [SELECT seq, hash FROM audit_log ORDER BY seq DESC LIMIT 1] *)
Definition last_entry (d : db) : option audit_row := last (order_by u_seq (audit_log d)).

(** [INSERT INTO audit_log]: [seq] is UNIQUE. *)
Definition insert_audit (r : audit_row) : M X unit :=
  rows ← db_read audit_log;
  if existsb (λ r', (u_seq r' =? u_seq r)%Z) rows then throw IntegrityError
  else db_modify (set_audit_log (λ l, l ++ [r])).

Definition next_entry (row : option audit_row) (actor action details_json : string)
    (created_at : Z) : audit_row :=
  let prev_seq := match row with Some r => u_seq r | None => 0%Z end in
  let prev_hash := match row with Some r => u_hash r | None => GENESIS_HASH end in
  let seq := (prev_seq + 1)%Z in
  mk_audit seq actor action details_json prev_hash
    (hash_entry prev_hash seq actor action details_json created_at) created_at.

Definition append_in_connection (actor action : string) (details : list (string * pyval)) : M X Z :=
  let safe_details := _redact (PDict details) in
  row ← db_read last_entry;
  let details_json := json_dumps float_repr safe_details in
  created_at ← time_now;
  let r := next_entry row actor action details_json created_at in
  insert_audit r;;
  mret (u_seq r).

(** [AuditLog.append] *)
Definition append (actor action : string) (details : list (string * pyval)) : M X Z :=
  db_write (append_in_connection actor action details).

(** [if self.audit is not None: self.audit.append_in_connection(...)] *)
Definition audit (actor action : string) (details : list (string * pyval)) : M X unit :=
  if audit_enabled then append_in_connection actor action details;; mret tt else mret tt.

(** [AuditLog.tail] *)
Definition tail (limit : nat) : M X (list audit_row) :=
  db_read (λ d, firstn limit (rev (order_by u_seq (audit_log d)))).

(** The reasons [verify] reports for a row. *)
Inductive broken_reason := SequenceGap (expected : Z) | ChainBreak | HashMismatch.

Definition row_hash (prev_hash : string) (r : audit_row) : string :=
  hash_entry prev_hash (u_seq r) (u_actor r) (u_action r) (u_details r) (u_created_at r).

Fixpoint verify_rows (prev_hash : string) (prev_seq : Z) (rows : list audit_row)
    : list (Z * broken_reason) :=
  match rows with
  | [] => []
  | r :: rows' =>
      (if (u_seq r =? prev_seq + 1)%Z then [] else [(u_seq r, SequenceGap (prev_seq + 1))])
      ++ (if String.eqb (u_prev_hash r) prev_hash then [] else [(u_seq r, ChainBreak)])
      ++ (if String.eqb (u_hash r) (row_hash prev_hash r) then [] else [(u_seq r, HashMismatch)])
      ++ verify_rows (u_hash r) (u_seq r) rows'
  end.

Definition verify_log (log : list audit_row) : list (Z * broken_reason) :=
  verify_rows GENESIS_HASH 0 (order_by u_seq log).

(** [AuditLog.verify] *)
Definition verify : M X (list (Z * broken_reason)) := db_read (λ d, verify_log (audit_log d)).

(** ** Redaction *)

(** [at_key v k x]: at some depth of [v], a dict holds [x] under the key [k]. *)
Inductive at_key : pyval → string → pyval → Prop :=
| at_here d k x : (k, x) ∈ d → at_key (PDict d) k x
| at_dict d k' y k x : (k', y) ∈ d → at_key y k x → at_key (PDict d) k x
| at_list l y k x : y ∈ l → at_key y k x → at_key (PList l) k x.

Lemma redact_sensitive v k x : at_key (_redact v) k x → sensitive k = true → x = REDACTED.
Proof.
  revert k x. induction v as [|b|z|f|s|l IH|d IH] using pyval_ind'; simpl; intros k x Hat Hk;
    inversion Hat as [d' k0 x0 Hin|d' k' y k0 x0 Hin Hy|l' y k0 x0 Hin Hy]; simplify_eq.
  - rewrite Forall_forall in IH. apply list_elem_of_fmap in Hin as (y' & -> & Hy'). eauto.
  - apply list_elem_of_fmap in Hin as ([k0 y0] & [= -> ->] & Hy). simpl. by rewrite Hk.
  - rewrite Forall_forall in IH.
    apply list_elem_of_fmap in Hin as ([k0 y0] & [= -> ->] & Hy0). simpl in *.
    destruct (sensitive k0); [inversion Hy|]. by apply (IH _ Hy0 k x).
Qed.

Lemma redact_id v : (∀ k x, at_key v k x → sensitive k = false) → _redact v = v.
Proof.
  induction v as [|b|z|f|s|l IH|d IH] using pyval_ind'; simpl; intros Hns; try done; f_equal.
  - induction IH as [|y l Hy _ IHl]; simpl; [done|]. f_equal.
    + apply Hy. intros k x Hat. apply (Hns k x). eapply at_list; [left|done].
    + apply IHl. intros k x Hat. apply (Hns k x). inversion Hat; subst.
      eapply at_list; [by right|done].
  - induction IH as [|[k0 y0] d Hy _ IHd]; simpl in *; [done|]. f_equal.
    + rewrite (Hns k0 y0) by (apply at_here; left). f_equal. apply Hy.
      intros k x Hat. apply (Hns k x). eapply at_dict; [left|done].
    + apply IHd. intros k x Hat. apply (Hns k x). inversion Hat; subst.
      * apply at_here. by right.
      * eapply at_dict; [by right|done].
Qed.

(** ** The chain *)

(** What [verify] accepts: consecutive numbers, each row linked to the one before. *)
Inductive chained : string → Z → list audit_row → Prop :=
| chained_nil p n : chained p n []
| chained_cons p n r rows :
    u_seq r = (n + 1)%Z → u_prev_hash r = p → u_hash r = row_hash p r →
    chained (u_hash r) (u_seq r) rows → chained p n (r :: rows).

Lemma verify_rows_chained p n rows : verify_rows p n rows = [] ↔ chained p n rows.
Proof.
  revert p n. induction rows as [|r rows IH]; intros p n; simpl; [split; [constructor|done]|].
  destruct (u_seq r =? n + 1)%Z eqn:E1; [|split; [done|inversion 1; lia]].
  destruct (String.eqb_spec (u_prev_hash r) p) as [E2|E2]; [|split; [done|by inversion 1]].
  destruct (String.eqb_spec (u_hash r) (row_hash p r)) as [E3|E3];
    [|split; [done|by inversion 1]].
  simpl. rewrite IH. split; [constructor; auto; lia|by inversion 1].
Qed.

(** Hash and number of the last row, or of the start. *)
Definition chain_end (p : string) (n : Z) (rows : list audit_row) : string * Z :=
  match last rows with Some r => (u_hash r, u_seq r) | None => (p, n) end.

Lemma chain_end_cons p n r rows : chain_end p n (r :: rows) = chain_end (u_hash r) (u_seq r) rows.
Proof. unfold chain_end. rewrite last_cons. by destruct (last rows). Qed.

Lemma chained_app p n l1 l2 :
  chained p n (l1 ++ l2) ↔
  chained p n l1 ∧ chained (chain_end p n l1).1 (chain_end p n l1).2 l2.
Proof.
  revert p n. induction l1 as [|r l1 IH]; intros p n; cbn [app].
  - unfold chain_end. simpl. split; [intros ?; split; [constructor|done]|tauto].
  - rewrite chain_end_cons. split.
    + inversion 1; subst. match goal with H : chained _ _ (_ ++ _) |- _ => apply IH in H as [??] end.
      split; [by constructor|done].
    + intros [H1 ?]. inversion H1; subst. constructor; auto. apply IH. auto.
Qed.

Lemma chained_seq p n l : chained p n l → chain_end p n l = chain_end p n l ∧
  (chain_end p n l).2 = (n + Z.of_nat (length l))%Z.
Proof.
  intros Hch. split; [done|]. induction Hch as [p n|p n r rows Hs Hp Hh Hc IH].
  - unfold chain_end. simpl. lia.
  - rewrite chain_end_cons, IH. simpl. lia.
Qed.

Lemma chained_bounds p n l :
  chained p n l → Forall (λ r, n < u_seq r <= n + Z.of_nat (length l))%Z l.
Proof.
  induction 1 as [p n|p n r rows Hs Hp Hh Hc IH]; constructor; [simpl; lia|].
  eapply Forall_impl; [exact IH|]. simpl. lia.
Qed.

Definition verified (d : db) : Prop := verify_log (audit_log d) = [].

(** The audit log only grows, and stays intact. *)
Definition audit_extends : relation db := λ d d',
  audit_log d `prefix_of` audit_log d' ∧ (verified d → verified d').

#[export] Instance audit_extends_preorder : PreOrder audit_extends.
Proof.
  split; [by intros d|]. intros d1 d2 d3 [? ?] [? ?]. split; [by etrans|auto].
Qed.

Lemma next_entry_extends log row actor action details t :
  row = last (order_by u_seq log) → verify_log log = [] →
  let r := next_entry row actor action details t in
  Forall (λ r', u_seq r' < u_seq r)%Z log ∧
  order_by u_seq (log ++ [r]) = order_by u_seq log ++ [r] ∧
  u_seq r = Z.of_nat (length (order_by u_seq log) + 1) ∧
  verify_log (log ++ [r]) = [].
Proof.
  intros -> Hv%verify_rows_chained. cbv zeta.
  destruct (chained_seq _ _ _ Hv) as [_ Hend]. pose proof (chained_bounds _ _ _ Hv) as Hb.
  set (r := next_entry _ _ _ _ _).
  assert (chain_end GENESIS_HASH 0 (order_by u_seq log) = (u_prev_hash r, (u_seq r - 1)%Z)) as Hce.
  { unfold chain_end, r, next_entry. destruct (last _); simpl; f_equal; lia. }
  assert (u_hash r = row_hash (u_prev_hash r) r) as Hhash by done. clearbody r.
  rewrite Hce in Hend. cbn [fst snd] in Hend.
  assert (Forall (λ r', u_seq r' < u_seq r)%Z log) as Hlt.
  { rewrite Forall_forall in Hb |- *. intros x Hx.
    pose proof (Hb x (proj2 (elem_of_order_by _ _ _) Hx)) as Hbx. cbv beta in Hbx. lia. }
  assert (order_by u_seq (log ++ [r]) = order_by u_seq log ++ [r]) as Hord.
  { apply order_by_snoc. eapply Forall_impl; [exact Hlt|]. simpl. lia. }
  split_and!; [done|done|lia|].
  unfold verify_log. rewrite Hord. apply verify_rows_chained, chained_app. split; [done|].
  rewrite Hce. simpl. constructor; [lia|done|done|constructor].
Qed.

Lemma insert_audit_fresh r w :
  Forall (λ r', u_seq r' < u_seq r)%Z (audit_log (w_db w)) →
  insert_audit r w = (Ok tt, with_db w (set_audit_log (λ l, l ++ [r]) (w_db w))).
Proof.
  intros Hf. unfold insert_audit, db_read, gets, mbind, ST_bind. simpl.
  destruct (existsb _ _) eqn:E; [|done]. exfalso.
  apply existsb_exists in E as (r' & Hin%list_elem_of_In & Heq).
  rewrite Forall_forall in Hf. specialize (Hf _ Hin). simpl in Hf. lia.
Qed.

(** The run of an append: the outside is read once, one row is inserted. *)
Lemma append_run actor action details w :
  let '(t, x) := ext_time (w_ext w) in
  let r := next_entry (last_entry (w_db w)) actor action
             (json_dumps float_repr (_redact (PDict details))) t in
  append_in_connection actor action details w =
    (insert_audit r;; mret (u_seq r)) (mk_world (w_db w) (w_closed w) x (w_trace w)).
Proof.
  destruct (ext_time (w_ext w)) as [t x] eqn:E. cbv zeta.
  unfold append_in_connection, db_read, gets, time_now, on_ext, mbind, ST_bind. simpl. by rewrite E.
Qed.

Lemma append_in_connection_extends actor action details :
  steps (on_db audit_extends) (append_in_connection actor action details).
Proof.
  intros w. unfold on_db. pose proof (append_run actor action details w) as Hrun.
  destruct (ext_time (w_ext w)) as [t x]. cbv zeta in Hrun. rewrite Hrun.
  set (r := next_entry _ _ _ _ _). set (w0 := mk_world _ _ _ _).
  unfold mbind at 1, ST_bind. unfold insert_audit, db_read, gets, mbind, ST_bind. simpl.
  destruct (existsb _ _) eqn:E; simpl; [reflexivity|].
  split; simpl; [by eexists|]. intros Hv.
  by apply (next_entry_extends (audit_log (w_db w)) (last_entry (w_db w))).
Qed.

Lemma audit_steps_extends actor action details :
  steps (on_db audit_extends) (audit actor action details).
Proof.
  unfold audit. destruct audit_enabled; [|by apply steps_ret; tc_solve].
  apply steps_bind; [tc_solve|apply append_in_connection_extends|].
  intros _. apply steps_ret; tc_solve.
Qed.

(** Every relation that ignores the audit log holds across an append. *)
Lemma append_ignored R `{!PreOrder R} actor action details :
  (∀ d f, R d (set_audit_log f d)) → steps (on_db R) (append_in_connection actor action details).
Proof.
  intros HR. unfold append_in_connection, insert_audit. walk. intros w. apply HR.
Qed.

Lemma audit_ignored R `{!PreOrder R} actor action details :
  (∀ d f, R d (set_audit_log f d)) → steps (on_db R) (audit actor action details).
Proof.
  intros HR. unfold audit. walk. by apply append_ignored.
Qed.

(** An append changes the audit log and the outside, nothing else. *)
Definition audited (w w' : world X) : Prop :=
  ∃ log x, w' = mk_world (set_audit_log (λ _, log) (w_db w)) (w_closed w) x (w_trace w).

Lemma wp_audit actor action details Q w :
  (∀ r w', audited w w' → Q r w') → wp (audit actor action details) Q w.
Proof.
  assert (∀ w0 x0, w0 = mk_world (w_db w) (w_closed w) x0 (w_trace w) → audited w w0) as Hid.
  { intros w0 x0 ->. exists (audit_log (w_db w)), x0. f_equal. by destruct (w_db w). }
  intros HQ. unfold audit, append_in_connection, insert_audit.
  destruct audit_enabled; repeat wp1; try (apply HQ; by eapply Hid).
  - apply HQ. by eexists _, _.
  - apply HQ. eapply (Hid _ (w_ext w)). by destruct w.
Qed.

(** The number after the last is free: an append never fails. *)
Lemma next_entry_fresh d actor action details t :
  Forall (λ r', u_seq r' < u_seq (next_entry (last_entry d) actor action details t))%Z (audit_log d).
Proof.
  unfold last_entry. destruct (last _) as [z|] eqn:E.
  - eapply Forall_impl; [by apply last_order_by|]. simpl. lia.
  - apply last_None in E. pose proof (length_order_by u_seq (audit_log d)) as Hl. rewrite E in Hl.
    by destruct (audit_log d).
Qed.

Lemma append_succeeds actor action details w : ∃ n w',
  append_in_connection actor action details w = (Ok n, w') ∧ audited w w'.
Proof.
  pose proof (append_run actor action details w) as Hrun. destruct (ext_time (w_ext w)) as [t x].
  cbv zeta in Hrun. rewrite Hrun. unfold mbind, ST_bind. rewrite insert_audit_fresh.
  - do 2 eexists. split; [reflexivity|]. by eexists _, x.
  - apply next_entry_fresh.
Qed.

Lemma wp_audit_ok actor action details Q w :
  (∀ w', audited w w' → Q (Ok tt) w') → wp (audit actor action details) Q w.
Proof.
  intros HQ. unfold audit. destruct audit_enabled.
  - apply wp_bind. unfold wp. destruct (append_succeeds actor action details w) as (n & w' & -> & Ha).
    simpl. by apply HQ.
  - apply wp_ret, HQ. exists (audit_log (w_db w)), (w_ext w). destruct w as [[] ? ? ?]; reflexivity.
Qed.

Lemma silent_audit actor action details : steps same_submissions (audit actor action details).
Proof. unfold audit, append_in_connection, insert_audit. walk. Qed.

(** ** Tamper evidence *)

Definition hex_char (c : ascii) : bool :=
  let n := nat_of_ascii c in
  ((48 <=? n) && (n <=? 57) || (97 <=? n) && (n <=? 102))%nat.

(** The text a row's hash is the digest of. *)
Definition row_text (r : audit_row) : string :=
  hash_payload (u_prev_hash r) (u_seq r) (u_actor r) (u_action r) (u_details r) (u_created_at r).

Definition collision : Prop := ∃ x y, x ≠ y ∧ sha256_hexdigest x = sha256_hexdigest y.

Section Digests.
Context (hexdigest : ∀ s, Str.all hex_char (sha256_hexdigest s) = true).

Lemma digest_lacks_bar s : Str.lacks "|" (sha256_hexdigest s) = true.
Proof.
  eapply Str.all_impl; [|apply hexdigest]. intros c Hc. destruct (Ascii.eqb c "|") eqn:E; [|done].
  apply Ascii.eqb_eq in E as ->. done.
Qed.

Lemma digest_not_genesis s : sha256_hexdigest s ≠ GENESIS_HASH.
Proof. intros E. pose proof (hexdigest s) as Hh. by rewrite E in Hh. Qed.

Lemma chained_snoc p n l r :
  chained p n (l ++ [r]) →
  chained p n l ∧ u_prev_hash r = (chain_end p n l).1 ∧ u_hash r = sha256_hexdigest (row_text r).
Proof.
  intros [Hl Hr]%chained_app. inversion Hr as [|p' n' r' rows Hs Hp Hh]; subst.
  split_and!; [done|done|]. rewrite Hh. unfold row_hash, hash_entry, row_text. by rewrite Hp.
Qed.

Lemma chain_end_snoc p n l r : chain_end p n (l ++ [r]) = (u_hash r, u_seq r).
Proof. unfold chain_end. by rewrite last_snoc. Qed.

Lemma chain_end_lacks_bar n l :
  chained GENESIS_HASH n l → Str.lacks "|" (chain_end GENESIS_HASH n l).1 = true.
Proof.
  destruct l as [|r l _] using rev_ind; [done|].
  intros (_ & _ & Hh)%chained_snoc. rewrite chain_end_snoc. simpl. rewrite Hh. apply digest_lacks_bar.
Qed.

Lemma chain_determined l1 l2 :
  chained GENESIS_HASH 0 l1 → chained GENESIS_HASH 0 l2 →
  (chain_end GENESIS_HASH 0 l1).1 = (chain_end GENESIS_HASH 0 l2).1 →
  map row_text l1 = map row_text l2 ∨ collision.
Proof.
  revert l2. induction l1 as [|r1 l1 IH] using rev_ind; intros l2 H1 H2;
    destruct l2 as [|r2 l2 _] using rev_ind.
  - by left.
  - apply chained_snoc in H2 as (_ & _ & Hh). rewrite chain_end_snoc. simpl. rewrite Hh.
    intros E. by destruct (digest_not_genesis (row_text r2)).
  - apply chained_snoc in H1 as (_ & _ & Hh). rewrite chain_end_snoc. simpl. rewrite Hh.
    intros E. by destruct (digest_not_genesis (row_text r1)).
  - apply chained_snoc in H1 as (Hc1 & Hp1 & Hh1), H2 as (Hc2 & Hp2 & Hh2).
    rewrite !chain_end_snoc. simpl. rewrite Hh1, Hh2. intros Hd.
    destruct (decide (row_text r1 = row_text r2)) as [Ht|Ht]; [|by right; do 2 eexists].
    assert (u_prev_hash r1 = u_prev_hash r2) as Hprev.
    { unfold row_text, hash_payload in Ht. cbn [String.append] in Ht. apply Str.cut_inj in Ht as [? _]; [done|..].
      - rewrite Hp1. by apply chain_end_lacks_bar.
      - rewrite Hp2. by apply chain_end_lacks_bar. }
    destruct (IH l2) as [Hm|?]; [done|done|congruence| |by right].
    left. rewrite !map_app, Hm. simpl. by rewrite Ht.
Qed.

(** No field before the details holds the separator. *)
Definition bar_free (r : audit_row) : Prop :=
  Str.lacks "|" (u_actor r) = true ∧ Str.lacks "|" (u_action r) = true.

Lemma Forall_order_by (P : audit_row → Prop) l : Forall P l → Forall P (order_by u_seq l).
Proof. rewrite !Forall_forall. intros HP x Hx%elem_of_order_by. by apply HP. Qed.

(** A text then gives its row back; the hash is its digest. *)
Lemma row_text_inj r1 r2 :
  row_text r1 = row_text r2 → bar_free r1 → bar_free r2 →
  Str.lacks "|" (u_prev_hash r1) = true → Str.lacks "|" (u_prev_hash r2) = true →
  u_hash r1 = u_hash r2 → r1 = r2.
Proof.
  intros Ht [Ha1 Hc1] [Ha2 Hc2] Hp1 Hp2 Hh. unfold row_text, hash_payload in Ht. cbn [String.append] in Ht.
  apply Str.cut_inj in Ht as [Hp Ht]; [|done..].
  apply Str.cut_inj in Ht as [Hs Ht]; [|apply pretty_Z_lacks_bar..].
  apply Str.cut_inj in Ht as [Ha Ht]; [|done..].
  apply Str.cut_inj in Ht as [Hc Ht]; [|done..].
  apply Str.cut_inj_r in Ht as [Hd Hz]; [|apply pretty_Z_lacks_bar..].
  apply (inj pretty) in Hs, Hz. destruct r1, r2; simpl in *. congruence.
Qed.

Lemma chained_lacks_bar p n l :
  chained p n l → Str.lacks "|" p = true → Forall (λ r, Str.lacks "|" (u_prev_hash r) = true) l.
Proof.
  induction 1 as [p n|p n r rows Hs Hp Hh Hc IH]; intros Hb; constructor; [by rewrite Hp|].
  apply IH. rewrite Hh. apply digest_lacks_bar.
Qed.

Lemma texts_determine p n1 n2 l1 l2 :
  chained p n1 l1 → chained p n2 l2 → Str.lacks "|" p = true →
  map row_text l1 = map row_text l2 → Forall bar_free l1 → Forall bar_free l2 → l1 = l2.
Proof.
  intros H1 H2 Hp Hm Hb1 Hb2.
  pose proof (chained_lacks_bar _ _ _ H1 Hp) as Hl1. pose proof (chained_lacks_bar _ _ _ H2 Hp) as Hl2.
  assert (∀ q n l, chained q n l → Forall (λ r, u_hash r = sha256_hexdigest (row_text r)) l) as Hh.
  { induction 1 as [|q n r rows Hs Hq Hh Hc IH]; constructor; [|done]. by rewrite Hh, <- Hq. }
  apply Hh in H1, H2. clear Hh Hp. revert l2 Hm Hb2 Hl2 H2.
  induction l1 as [|r1 l1 IH]; intros [|r2 l2] Hm Hb2 Hl2 H2; simplify_eq/=; [done|].
  match goal with Ht : row_text r1 = row_text r2 |- _ => rename Ht into Htext end.
  apply Forall_cons in Hb1 as [? ?], Hb2 as [? ?], Hl1 as [? ?], Hl2 as [? ?], H1 as [Hh1 ?], H2 as [Hh2 ?].
  f_equal; [|by apply IH]. apply row_text_inj; [done..|]. by rewrite Hh1, Hh2, Htext.
Qed.
End Digests.
End Audit.

#[export] Hint Resolve audit_steps_extends silent_audit : wsteps.

(** ** Properties *)

Section Properties.
Context {X : Type} `{Ext X, PyEnv}.

(** Appending to an intact log succeeds, adds exactly one row, numbered next
    and holding the redacted details, and leaves a log that [verify] accepts. *)
Theorem append_keeps_verified actor action details (w : world X) :
  w_closed w = false → verify_log (audit_log (w_db w)) = [] →
  ∃ r w', append actor action details w = (Ok (u_seq r), w') ∧
    w_db w' = set_audit_log (λ l, l ++ [r]) (w_db w) ∧
    order_by u_seq (audit_log (w_db w')) = order_by u_seq (audit_log (w_db w)) ++ [r] ∧
    u_seq r = Z.of_nat (length (audit_log (w_db w)) + 1) ∧
    u_details r = json_dumps float_repr (_redact (PDict details)) ∧
    verify_log (audit_log (w_db w')) = [].
Proof.
  intros Hopen Hv. unfold append, db_write. rewrite Hopen.
  pose proof (append_run actor action details w) as Hrun.
  destruct (ext_time (w_ext w)) as [t x]. cbv zeta in Hrun.
  set (r := next_entry _ _ _ _ _) in *.
  destruct (next_entry_extends (audit_log (w_db w)) (last_entry (w_db w)) actor action
    (json_dumps float_repr (_redact (PDict details))) t eq_refl Hv) as (Hf & Ho & Hs & Hv').
  exists r. eexists. split_and!.
  - rewrite Hrun. unfold mbind, ST_bind. rewrite insert_audit_fresh by exact Hf. reflexivity.
  - reflexivity.
  - exact Ho.
  - rewrite <- (length_order_by u_seq). exact Hs.
  - reflexivity.
  - exact Hv'.
Qed.

(** C39: the last hash of an intact log fixes everything it covers: two intact
    logs that end in the same hash hash the same texts, row by row, and are the same
    log, field by field, when no actor or action holds the separator [|] — unless the
    digest collides on two texts that can be exhibited.  (With the separator in
    those fields two different rows can hash the same text:
    [hash_entry_ambiguous].) *)
Theorem tamper_evidence (log1 log2 : list audit_row) :
  (∀ s, Str.all hex_char (sha256_hexdigest s) = true) →
  verify_log log1 = [] → verify_log log2 = [] →
  (chain_end GENESIS_HASH 0 (order_by u_seq log1)).1 =
    (chain_end GENESIS_HASH 0 (order_by u_seq log2)).1 →
  (map row_text (order_by u_seq log1) = map row_text (order_by u_seq log2) ∧
   (Forall bar_free log1 → Forall bar_free log2 → order_by u_seq log1 = order_by u_seq log2)) ∨ collision.
Proof.
  intros Hhex Hv1%verify_rows_chained Hv2%verify_rows_chained He.
  destruct (chain_determined Hhex _ _ Hv1 Hv2 He) as [Hm|Hc]; [left|by right]. split; [exact Hm|].
  intros H1%Forall_order_by H2%Forall_order_by. by apply (texts_determine Hhex GENESIS_HASH 0 0).
Qed.

(** Deleting a row from the middle of an intact log is always reported. *)
Theorem interior_deletion_detected rows1 r rows2 :
  verify_rows GENESIS_HASH 0 (rows1 ++ r :: rows2) = [] → rows2 ≠ [] →
  ∃ s n, (s, SequenceGap n) ∈ verify_rows GENESIS_HASH 0 (rows1 ++ rows2).
Proof.
  intros Hv%verify_rows_chained Hne. destruct rows2 as [|r2 rows2]; [done|].
  apply chained_app in Hv as [H1 Hv]. inversion Hv as [|p n r' rows Hs _ _ Hv2]; subst.
  inversion Hv2 as [|p n r' rows Hs2 _ _ _]; subst.
  exists (u_seq r2), ((chain_end GENESIS_HASH 0 rows1).2 + 1)%Z.
  clear Hv. revert H1 Hs. generalize GENESIS_HASH, 0%Z. induction rows1 as [|x rows1 IH]; intros p n H1 Hs.
  - unfold chain_end in *. cbn [app verify_rows last fst snd] in *.
    rewrite (proj2 (Z.eqb_neq _ _)) by lia. apply elem_of_app. left. by left.
  - rewrite chain_end_cons in Hs |- *. inversion H1; subst.
    cbn [app verify_rows]. rewrite !elem_of_app. right. right. right. by apply IH.
Qed.

(** Cutting rows off the end of an intact log leaves a log that [verify]
    accepts: the chain alone does not show that the newest entries are gone. *)
Theorem truncation_undetected rows1 rows2 :
  verify_rows GENESIS_HASH 0 (rows1 ++ rows2) = [] → verify_rows GENESIS_HASH 0 rows1 = [].
Proof. rewrite !verify_rows_chained, chained_app. tauto. Qed.

(** Redaction replaces the value of every sensitive key at every depth of
    the details, whatever it was, and changes nothing in details without one. *)
Theorem redact_spec (v : pyval) :
  (∀ k x, at_key (_redact v) k x → sensitive k = true → x = PStr "***REDACTED***") ∧
  ((∀ k x, at_key v k x → sensitive k = false) → _redact v = v).
Proof. split; [apply redact_sensitive|apply redact_id]. Qed.
End Properties.

(** ** Witnesses *)

#[local] Existing Instance outside_ext.
#[local] Existing Instance sample_env.

(** The log after two appends. *)
Definition sample_world : world outside :=
  (append "agent" "second" [("account_id", PStr "a"); ("api_key", PStr "k")]
    (append "agent" "first" [] (start empty_db)).2).2.
Definition sample_log : list audit_row := audit_log (w_db sample_world).

Lemma append_keeps_verified_witness :
  w_closed sample_world = false ∧ length sample_log = 2 ∧
  ∃ r w', append "agent" "third" [] sample_world = (Ok (u_seq r), w') ∧ u_seq r = 3%Z.
Proof.
  split; [reflexivity|split; [vm_compute; reflexivity|]].
  destruct (append_keeps_verified "agent" "third" [] sample_world) as (r & w' & Hr & _ & _ & Hs & _);
    [reflexivity|vm_compute; reflexivity|].
  exists r, w'. split; [exact Hr|rewrite Hs; vm_compute; reflexivity].
Defined.

Lemma hex_all s : Str.all hex_char (hex s) = true.
Proof.
  induction s as [|c s IH]; [done|]. simpl. rewrite IH.
  destruct c as [[] [] [] [] [] [] [] []]; vm_compute; reflexivity.
Qed.

Lemma tamper_evidence_witness :
  verify_log sample_log = [] ∧
  ((map row_text (order_by u_seq sample_log) = map row_text (order_by u_seq sample_log) ∧
    (Forall bar_free sample_log → Forall bar_free sample_log →
     order_by u_seq sample_log = order_by u_seq sample_log)) ∨ collision).
Proof.
  split; [vm_compute; reflexivity|].
  apply tamper_evidence; [apply hex_all|vm_compute; reflexivity..].
Defined.

Definition sample_row (i : nat) : audit_row :=
  nth i sample_log (mk_audit 0 EmptyString EmptyString EmptyString EmptyString EmptyString 0).

Lemma interior_deletion_detected_witness :
  verify_log sample_log = [] ∧
  ∃ s n, (s, SequenceGap n) ∈ verify_rows GENESIS_HASH 0 ([] ++ [sample_row 1]).
Proof.
  split; [vm_compute; reflexivity|].
  apply (interior_deletion_detected [] (sample_row 0) [sample_row 1]);
    [vm_compute; reflexivity|discriminate].
Defined.

Lemma truncation_undetected_witness :
  verify_log sample_log = [] ∧ verify_rows GENESIS_HASH 0 [sample_row 0] = [].
Proof.
  split; [vm_compute; reflexivity|].
  apply (truncation_undetected [sample_row 0] [sample_row 1]); vm_compute; reflexivity.
Defined.

(** The fields of a row are joined with a character they may hold. *)
Example hash_entry_ambiguous :
  hash_entry GENESIS_HASH 1 "a|b" "c" "{}" 0 = hash_entry GENESIS_HASH 1 "a" "b|c" "{}" 0.
Proof. reflexivity. Qed.
