(* ===== verification/EmergencyLog.v ===== *)
(** [storage/emergency_log.py]: the hash-chained log file of the emergency stop,
    and its reconciliation into the audit log when the daemon starts.

    A line of the file is an entry as [append] writes it, or text that is no JSON.
    The details of an entry are the JSON value itself. *)

From Stdlib Require Import ZArith String.
From S2P Require Import Prelude PyFloat PyVal Errors Monad Broker Db Sample AuditLog.
Local Open Scope string_scope.
Local Open Scope list_scope.

Record log_entry := mk_entry {
  n_seq : Z;
  n_actor : string;
  n_action : string;
  n_details : list (string * pyval);
  n_prev_hash : string;
  n_hash : string;
  n_created_at : Z }.

Inductive log_line := Entry (e : log_entry) | Corrupt (raw : string).

Definition entries_of (log : list log_line) : list log_entry :=
  omap (λ l, match l with Entry e => Some e | Corrupt _ => None end) log.

(** The process of the emergency stop: the world of the services, and the file. *)
Record emergency (X : Type) := mk_em {
  em_world : world X;
  em_log : list log_line }.
Arguments mk_em {X}.
Arguments em_world {X}.
Arguments em_log {X}.

Abbreviation EM X := (ST (emergency X)).

Definition in_world {X A} (m : M X A) : EM X A := λ s,
  let '(r, w) := m (em_world s) in (r, mk_em w (em_log s)).

Inductive line_fault := BrokenLine (r : broken_reason) | NotJson.

Definition details_field (k : string) (e : log_entry) : pyval := default PNone (assoc k (n_details e)).

(** ** The operations *)

Section EmergencyLog.
Context {X : Type} `{Ext X, PyEnv}.

(** The entry as a row of the audit log: the same hash chain. *)
Definition row_of (e : log_entry) : audit_row :=
  mk_audit (n_seq e) (n_actor e) (n_action e) (json_dumps float_repr (PDict (n_details e)))
    (n_prev_hash e) (n_hash e) (n_created_at e).

(** [_redact] keeps a dict a dict. *)
Definition redact_details (details : list (string * pyval)) : list (string * pyval) :=
  match _redact (PDict details) with PDict d => d | _ => [] end.

(** [prev["seq"]] of a line that is no JSON: [KeyError]. *)
Definition tail_of (log : list log_line) : result (Z * string) :=
  match last log with
  | None => Ok (0%Z, GENESIS_HASH)
  | Some (Entry e) => Ok (n_seq e, n_hash e)
  | Some (Corrupt _) => Err KeyError
  end.

Definition entry_after (prev_seq : Z) (prev_hash actor action : string)
    (details : list (string * pyval)) (created_at : Z) : log_entry :=
  let seq := (prev_seq + 1)%Z in
  let safe := redact_details details in
  mk_entry seq actor action safe prev_hash
    (hash_entry prev_hash seq actor action (json_dumps float_repr (PDict safe)) created_at) created_at.

Definition log_append (actor action : string) (details : list (string * pyval)) : EM X string :=
  log ← gets em_log;
  '(prev_seq, prev_hash) ← lift (tail_of log);
  created_at ← in_world time_now;
  let e := entry_after prev_seq prev_hash actor action details created_at in
  modify (λ s, mk_em (em_world s) (em_log s ++ [Entry e]));;
  mret (n_hash e).

(** A line that is no JSON is reported and skipped. *)
Fixpoint verify_lines (prev_hash : string) (prev_seq : Z) (log : list log_line)
    : list (option Z * line_fault) :=
  match log with
  | [] => []
  | Corrupt _ :: log' => (None, NotJson) :: verify_lines prev_hash prev_seq log'
  | Entry e :: log' =>
      map (λ f, (Some f.1, BrokenLine f.2))
        ((if (n_seq e =? prev_seq + 1)%Z then [] else [(n_seq e, SequenceGap (prev_seq + 1))])
         ++ (if String.eqb (n_prev_hash e) prev_hash then [] else [(n_seq e, ChainBreak)])
         ++ (if String.eqb (n_hash e) (row_hash prev_hash (row_of e)) then [] else [(n_seq e, HashMismatch)]))
      ++ verify_lines (n_hash e) (n_seq e) log'
  end.

Definition log_verify (log : list log_line) : list (option Z * line_fault) :=
  verify_lines GENESIS_HASH 0 log.

(** [details.get("idem_key") == idem_key], and the status when one is asked for. *)
Definition is_action_done (action idem_key : string) (status : option string) (log : list log_line) : bool :=
  existsb (λ e, String.eqb (n_action e) action
                && py_eq (details_field "idem_key" e) (PStr idem_key)
                && match status with
                   | None => true
                   | Some s => py_eq (details_field "status" e) (PStr s)
                   end) (entries_of log).

(** ** Reconciliation *)

Definition reconciled_hashes (d : db) : list string := map e_entry_hash (emergency_reconciled d).

(** [INSERT INTO emergency_reconciled]: the hash is the primary key. *)
Definition insert_reconciled (r : reconciled_row) : M X unit :=
  known ← db_read reconciled_hashes;
  if str_in (e_entry_hash r) known then throw IntegrityError
  else db_modify (set_emergency_reconciled (λ l, l ++ [r])).

Definition reconcile_line (existing : list string) (written : nat) (line : log_line) : M X nat :=
  match line with
  | Corrupt _ => mret written
  | Entry e =>
      if str_in (n_hash e) existing then mret written
      else
        append_in_connection "emergency_stop" "emergency_stop"
          [("source", PStr "emergency_stop.log"); ("entry_seq", PInt (n_seq e));
           ("action", PStr (n_action e)); ("entry", PDict (n_details e))];;
        now ← time_now;
        insert_reconciled (mk_reconciled (n_hash e) (n_seq e) now);;
        mret (S written)
  end.

Definition reconcile_emergency_log (log : list log_line) : M X (nat * list (option Z * line_fault)) :=
  let broken := log_verify log in
  written ← db_write (
    existing ← db_read reconciled_hashes;
    foldM (reconcile_line existing) 0%nat log);
  mret (written, broken).

(** ** The chain of the file *)

Lemma verify_lines_chained p n log :
  verify_lines p n log = [] ↔ ∃ es, log = map Entry es ∧ chained p n (map row_of es).
Proof.
  revert p n. induction log as [|[e|raw] log IH]; intros p n; simpl.
  - split; [intros _; exists []; split; [done|constructor]|done].
  - change (n_seq e) with (u_seq (row_of e)). change (n_hash e) with (u_hash (row_of e)).
    change (n_prev_hash e) with (u_prev_hash (row_of e)). split.
    + intros [Hh Ht]%app_eq_nil. apply fmap_nil_inv in Hh. apply app_eq_nil in Hh as [H1 [H2 H3]%app_eq_nil].
      apply IH in Ht as (es & -> & Hc). exists (e :: es). split; [done|]. simpl. constructor; [..|done].
      * by destruct (Z.eqb_spec (u_seq (row_of e)) (n + 1)).
      * by destruct (String.eqb_spec (u_prev_hash (row_of e)) p).
      * by destruct (String.eqb_spec (u_hash (row_of e)) (row_hash p (row_of e))).
    + intros ([|e' es] & Hl & Hc); [done|]. simpl in Hl. injection Hl as <- ->.
      inversion Hc as [|? ? ? ? Hs Hp Hh Hc']; subst. rewrite Hs, Z.eqb_refl, String.eqb_refl.
      rewrite <- Hh, String.eqb_refl. simpl. rewrite <- Hs. apply IH. by exists es.
  - split; [done|]. by intros ([|e es] & ? & _).
Qed.

(** Every append extends an intact file by one intact entry. *)
Definition log_extends : relation (emergency X) := λ s s',
  em_log s `prefix_of` em_log s' ∧ (log_verify (em_log s) = [] → log_verify (em_log s') = []).

#[export] Instance log_extends_preorder : PreOrder log_extends.
Proof. split; [by intros s|]. intros s1 s2 s3 [? ?] [? ?]. split; [by etrans|auto]. Qed.

Lemma steps_in_world {A} (m : M X A) : steps log_extends (in_world m).
Proof. intros s. unfold in_world. by destruct (m (em_world s)). Qed.

Lemma entry_after_chained p n es actor action details t :
  chained p n (map row_of es) →
  chained p n (map row_of (es ++ [entry_after (chain_end p n (map row_of es)).2
    (chain_end p n (map row_of es)).1 actor action details t])).
Proof.
  intros Hc. rewrite map_app. apply chained_app. split; [done|]. simpl.
  constructor; [done..|constructor].
Qed.

Lemma log_append_extends actor action details : steps log_extends (log_append actor action details).
Proof.
  unfold log_append. intros s. unfold gets, mbind, ST_bind, lift. simpl.
  destruct (tail_of (em_log s)) as [[n p]|e] eqn:Et; [|by simpl].
  unfold in_world. destruct (time_now (em_world s)) as [[t|e] w] eqn:Etime; [|by split].
  simpl. split; [by apply prefix_app_r|]. simpl. unfold log_verify.
  intros (es & Hes & Hc)%verify_lines_chained. apply verify_lines_chained. simpl in *.
  rewrite Hes. unfold tail_of in Et. rewrite Hes in Et.
  assert (chain_end GENESIS_HASH 0 (map row_of es) = (p, n)) as He.
  { unfold chain_end. destruct es as [|e es _] using rev_ind; [simpl in *; congruence|].
    rewrite map_app in Et. rewrite map_app. cbn [map] in Et |- *. rewrite last_snoc in Et. rewrite last_snoc. simpl in *. congruence. }
  exists (es ++ [entry_after n p actor action details t]). split; [by rewrite map_app|].
  pose proof (entry_after_chained _ _ _ actor action details t Hc) as Hn. by rewrite He in Hn.
Qed.
End EmergencyLog.

(** ** Reconciliation is complete and happens once *)

Section Reconcile.
Context {X : Type} `{Ext X, PyEnv}.

Definition hashes_of (log : list log_line) : list string := map n_hash (entries_of log).

(** The entries of a file that are not reconciled yet. *)
Definition fresh (existing : list string) (log : list log_line) : list log_entry :=
  List.filter (λ e, negb (str_in (n_hash e) existing)) (entries_of log).

(** A row of the audit log that says what the entry says. *)
Record mirrors (e : log_entry) (r : audit_row) : Prop := {
  mi_actor : u_actor r = "emergency_stop";
  mi_action : u_action r = "emergency_stop";
  mi_details : u_details r = json_dumps float_repr (_redact (PDict
    [("source", PStr "emergency_stop.log"); ("entry_seq", PInt (n_seq e));
     ("action", PStr (n_action e)); ("entry", PDict (n_details e))])) }.

(** The table of what is reconciled names the entry. *)
Definition names (e : log_entry) (r : reconciled_row) : Prop := e_entry_hash r = n_hash e ∧ e_seq r = n_seq e.

Lemma wp_append_ok actor action details (w : world X) : verified (w_db w) →
  wp (append_in_connection actor action details) (λ r w', is_ok r = true ∧ verified (w_db w') ∧
    reconciled_hashes (w_db w') = reconciled_hashes (w_db w) ∧ w_closed w' = w_closed w ∧
    emergency_reconciled (w_db w') = emergency_reconciled (w_db w) ∧
    ∃ r, audit_log (w_db w') = audit_log (w_db w) ++ [r] ∧ u_actor r = actor ∧ u_action r = action ∧
      u_details r = json_dumps float_repr (_redact (PDict details))) w.
Proof.
  intros Hv. unfold wp. pose proof (append_run actor action details w) as Hrun.
  destruct (ext_time (w_ext w)) as [t x]. cbv zeta in Hrun. rewrite Hrun.
  destruct (next_entry_extends (audit_log (w_db w)) (last_entry (w_db w)) actor action
    (json_dumps float_repr (_redact (PDict details))) t eq_refl Hv) as (Hlt & _ & _ & Hv').
  set (r := next_entry _ _ _ _ _) in *. unfold mbind, ST_bind. rewrite insert_audit_fresh by done. simpl.
  split; [done|]. split; [exact Hv'|]. split; [done|]. split; [done|]. split; [done|]. by exists r.
Qed.

Lemma reconcile_nothing existing log n (w : world X) :
  fresh existing log = [] → foldM (reconcile_line existing) n log w = (Ok n, w).
Proof.
  unfold fresh, hashes_of. revert n. induction log as [|[e|raw] log IH]; intros n Hf; simpl in *; [done| |].
  - destruct (str_in (n_hash e) existing) eqn:E; simpl in Hf; [|done]. by apply IH.
  - by apply IH.
Qed.

Lemma wp_reconcile_loop existing log : ∀ handled n (w : world X),
  verified (w_db w) → reconciled_hashes (w_db w) = existing ++ handled →
  NoDup (handled ++ hashes_of log) →
  wp (foldM (reconcile_line existing) n log) (λ r w', r = Ok (n + length (fresh existing log))%nat ∧
    verified (w_db w') ∧ reconciled_hashes (w_db w') = existing ++ handled ++ map n_hash (fresh existing log) ∧
    w_closed w' = w_closed w ∧
    (∃ rows, audit_log (w_db w') = audit_log (w_db w) ++ rows ∧ Forall2 mirrors (fresh existing log) rows) ∧
    ∃ named, emergency_reconciled (w_db w') = emergency_reconciled (w_db w) ++ named ∧
      Forall2 names (fresh existing log) named) w.
Proof.
  induction log as [|[e|raw] log IH]; intros handled n w Hv Hr Hn.
  - apply wp_ret. unfold fresh. simpl. rewrite Nat.add_0_r, app_nil_r. split_and?; try done.
    all: exists []; by rewrite app_nil_r.
  - cbn [foldM]. apply wp_bind. unfold reconcile_line. unfold fresh, hashes_of in *. simpl in *.
    destruct (str_in (n_hash e) existing) eqn:Ein; simpl.
    + apply wp_ret. apply IH; [done..|]. apply NoDup_app in Hn as (? & Hd & [_ ?]%NoDup_cons).
      apply NoDup_app. split_and?; [done| |done]. intros h Hh Hin. apply (Hd h Hh). by right.
    + apply wp_bind. eapply wp_mono; [by apply wp_append_ok|].
      intros [seq|err] w1 (Hok & Hv1 & Hr1 & Hc1 & He1 & row & Hl1 & Hact); [|done].
      apply wp_bind, wp_time. intros t x. apply wp_bind. unfold insert_reconciled.
      apply wp_bind, wp_db_read. simpl. rewrite Hr1, Hr.
      destruct (str_in (n_hash e) (existing ++ handled)) eqn:Edup.
      { exfalso. apply str_in_spec in Edup. apply elem_of_app in Edup as [Hin|Hin].
        - apply str_in_spec in Hin. congruence.
        - apply NoDup_app in Hn as (_ & Hd & _). apply (Hd _ Hin). by left. }
      apply wp_db_modify, wp_ret. eapply wp_mono; [apply (IH (handled ++ [n_hash e])); simpl|].
      * done.
      * unfold reconciled_hashes in *. simpl. rewrite map_app. simpl. by rewrite Hr1, Hr, <- app_assoc.
      * by rewrite <- app_assoc.
      * intros r w2 (-> & Hv2 & Hr2 & Hc2 & (rows & Hl2 & Hall) & named & Hn2 & Hnamed). simpl in *.
        split; [f_equal; lia|]. split; [done|]. split; [by rewrite Hr2, <- !app_assoc|].
        split; [congruence|]. split.
        -- exists (row :: rows). rewrite Hl2, Hl1, <- app_assoc. split; [done|]. constructor; [|done].
           destruct Hact as (? & ? & ?). by split.
        -- eexists (_ :: named). rewrite Hn2, He1, <- app_assoc. split; [done|]. by constructor.
  - cbn [foldM]. apply wp_bind, wp_ret. by apply IH.
Qed.

(** C35: at every start of the daemon, each entry of the emergency log that has not
    been mirrored yet is written to the audit log exactly once, in the order of the file:
    the rows added are one for each such entry, of the emergency stop, with the entry's
    number, action and details in theirs, and no other row; each is named as reconciled
    by its hash and number.  The audit log stays intact, and doing it again changes
    nothing.  All this whatever lines the file has, broken ones included, as long as no
    two entries share a hash; what is broken is in the report alone. *)
Theorem reconcile_once log (w : world X) :
  verified (w_db w) → w_closed w = false → NoDup (hashes_of log) →
  let missing := fresh (reconciled_hashes (w_db w)) log in
  let '(r, w1) := reconcile_emergency_log log w in
  r = Ok (length missing, log_verify log) ∧ verified (w_db w1) ∧
  (∀ h, h ∈ hashes_of log → h ∈ reconciled_hashes (w_db w1)) ∧
  (∃ rows, audit_log (w_db w1) = audit_log (w_db w) ++ rows ∧ Forall2 mirrors missing rows) ∧
  (∃ named, emergency_reconciled (w_db w1) = emergency_reconciled (w_db w) ++ named ∧ Forall2 names missing named) ∧
  reconcile_emergency_log log w1 = (Ok (0%nat, log_verify log), w1).
Proof.
  intros Hv Hc Hn missing.
  assert (wp (reconcile_emergency_log log) (λ r w1,
    r = Ok (length missing, log_verify log) ∧ verified (w_db w1) ∧ w_closed w1 = false ∧
    reconciled_hashes (w_db w1) = reconciled_hashes (w_db w) ++ map n_hash missing ∧
    (∃ rows, audit_log (w_db w1) = audit_log (w_db w) ++ rows ∧ Forall2 mirrors missing rows) ∧
    ∃ named, emergency_reconciled (w_db w1) = emergency_reconciled (w_db w) ++ named ∧ Forall2 names missing named) w) as Hwp.
  { unfold reconcile_emergency_log. apply wp_bind, wp_db_write; [congruence|intros _].
    apply wp_bind, wp_db_read. eapply wp_mono; [apply (wp_reconcile_loop _ log [])|].
    - done.
    - by rewrite app_nil_r.
    - done.
    - intros r w1 (-> & Hv1 & Hr1 & Hc1 & Hrows & Hnamed). apply wp_ret. split_and!; try done. congruence. }
  unfold wp in Hwp. destruct (reconcile_emergency_log log w) as [r w1] eqn:E. simpl in Hwp.
  destruct Hwp as (-> & Hv1 & Hc1 & Hr1 & Hrows & Hnamed).
  assert (∀ e, e ∈ entries_of log → str_in (n_hash e) (reconciled_hashes (w_db w1)) = true) as Hall.
  { intros e He. apply str_in_spec. rewrite Hr1. apply elem_of_app.
    destruct (str_in (n_hash e) (reconciled_hashes (w_db w))) eqn:Eh; [left; by apply str_in_spec|right].
    apply list_elem_of_fmap. exists e. split; [done|]. apply elem_of_filter_b. split; [done|]. by rewrite Eh. }
  do 2 (split; [done|]). split.
  { intros h (e & -> & He)%list_elem_of_fmap. by apply str_in_spec, Hall. }
  do 2 (split; [done|]).
  assert (fresh (reconciled_hashes (w_db w1)) log = []) as Hnone.
  { unfold fresh. destruct (List.filter _ _) as [|e l] eqn:Ef; [done|]. exfalso.
    assert (e ∈ e :: l) as He by left. rewrite <- Ef in He. apply elem_of_filter_b in He as [He Hneg].
    by rewrite (Hall e He) in Hneg. }
  unfold reconcile_emergency_log. unfold db_write, db_read, gets, mbind, ST_bind. rewrite Hc1. simpl.
  by rewrite reconcile_nothing.
Qed.

(** Whatever the emergency stop logs, the file only grows, and one that
    verifies keeps verifying. *)
Theorem emergency_log_append_only (ops : list (string * string * list (string * pyval))) (s : emergency X) :
  let '(_, s') := mapM (λ '(actor, action, details), attempt (log_append actor action details)) ops s in
  em_log s `prefix_of` em_log s' ∧ (log_verify (em_log s) = [] → log_verify (em_log s') = []).
Proof.
  destruct (mapM _ ops s) as [r s'] eqn:E.
  assert (steps log_extends (mapM (λ '(actor, action, details),
    attempt (log_append actor action details) : EM X _) ops)) as Hs.
  { apply steps_mapM; [tc_solve|]. intros [[a b] c] _. apply steps_attempt, log_append_extends. }
  specialize (Hs s). by rewrite E in Hs.
Qed.

(** A last line that is no JSON — a write cut short — stops every later append. *)
Lemma append_after_corrupt log raw actor action details (w : world X) :
  log_append actor action details (mk_em w (log ++ [Corrupt raw])) =
    (Err KeyError, mk_em w (log ++ [Corrupt raw])).
Proof.
  unfold log_append, gets, mbind, ST_bind, lift, tail_of. simpl. by rewrite last_snoc.
Qed.
End Reconcile.

#[local] Existing Instances outside_ext sample_env.

Definition sample_log : list log_line :=
  [Entry (mk_entry 1 "emergency_stop" "emergency_cancel" [] GENESIS_HASH "h1" 5); Corrupt "{";
   Entry (mk_entry 2 "emergency_stop" "emergency_sell" [] "h1" "h2" 6)].

Lemma reconcile_once_witness :
  "h1" ∈ reconciled_hashes (w_db (reconcile_emergency_log sample_log (start empty_db)).2) ∧
  "h2" ∈ reconciled_hashes (w_db (reconcile_emergency_log sample_log (start empty_db)).2).
Proof.
  pose proof (reconcile_once sample_log (start empty_db) eq_refl eq_refl
    ltac:(by apply (bool_decide_unpack (NoDup (hashes_of sample_log))))) as Hr.
  destruct (reconcile_emergency_log sample_log (start empty_db)) as [r w1].
  split; apply (proj1 (proj2 (proj2 Hr))); vm_compute; repeat constructor.
Defined.
