(* ===== verification/Credentials.v ===== *)
(** [storage/credentials.py]: the secret store over DPAPI or an OS keyring.

    The two backends ([win32crypt], [keyring]) are parameters. *)

From Stdlib Require Import ZArith String Ascii.
From S2P Require Import Prelude PyFloat PyVal Errors Monad.
Local Open Scope string_scope.
Local Open Scope list_scope.

(** [SecretStoreError] and its two subclasses. *)
Inductive secret_error := SecretStoreError | SecretStoreUnavailable | SecretDecryptError.
Abbreviation secret := (res secret_error).

(** What the account service asks of a secret store. *)
Class SecretStore (X : Type) := {
  encrypt : string → string → string → ST X (secret string);
  decrypt : string → string → string → ST X (secret string);
  delete_secret : string → string → option string → X → X }.

(** The operating system's backends; [None] and [false] stand for an exception
    (which [delete] swallows). *)
Class OsBackends (X : Type) := {
  has_win32crypt : bool;
  os_is_nt : bool;
  has_keyring : bool;
  crypt_protect : string → ST X (option string);
  crypt_unprotect : string → ST X (option string);
  keyring_set : string → string → ST X bool;
  keyring_get : string → ST X (option (option string));
  keyring_delete : string → X → X }.

Definition DPAPI_PREFIX : string := "dpapi:v1:".
Definition KEYRING_PREFIX : string := "keyring:v1:".

(** [blob[len(prefix):]] *)
Fixpoint drop_prefix (p s : string) : string :=
  match p, s with
  | String _ p', String _ s' => drop_prefix p' s'
  | _, _ => s
  end.

Definition _keyring_username (account_id field : string) : string :=
  account_id +:+ ":" +:+ field.

Section Store.
Context {X : Type} `{OsBackends X}.

Definition backend : option string :=
  if has_win32crypt && os_is_nt then Some "dpapi"
  else if has_keyring then Some "keyring" else None.

Definition store_encrypt (account_id field value : string) : ST X (secret string) :=
  if Str.empty value then mret (Err SecretStoreError)
  else if has_win32crypt && os_is_nt then
    protected ← crypt_protect value;
    mret match protected with
         | Some ciphertext => Ok (DPAPI_PREFIX +:+ ciphertext)
         | None => Err SecretStoreUnavailable
         end
  else if has_keyring then
    let username := _keyring_username account_id field in
    stored ← keyring_set username value;
    mret (if (stored : bool) then Ok (KEYRING_PREFIX +:+ username) else Err SecretStoreUnavailable)
  else mret (Err SecretStoreUnavailable).

Definition store_decrypt (account_id field blob : string) : ST X (secret string) :=
  if Str.starts_with DPAPI_PREFIX blob then
    if negb has_win32crypt then mret (Err SecretDecryptError)
    else
      plaintext ← crypt_unprotect (drop_prefix DPAPI_PREFIX blob);
      mret match plaintext with Some p => Ok p | None => Err SecretDecryptError end
  else if Str.starts_with KEYRING_PREFIX blob then
    if negb has_keyring then mret (Err SecretDecryptError)
    else
      let username := drop_prefix KEYRING_PREFIX blob in
      if negb (String.eqb username (_keyring_username account_id field))
      then mret (Err SecretDecryptError)
      else
        value ← keyring_get username;
        mret match value with
             | Some (Some v) => if Str.empty v then Err SecretDecryptError else Ok v
             | _ => Err SecretDecryptError
             end
  else mret (Err SecretDecryptError).

Definition store_delete (account_id field : string) (opaque : option string) (x : X) : X :=
  match opaque with
  | None => x
  | Some blob =>
      if Str.empty blob || negb has_keyring || negb (Str.starts_with KEYRING_PREFIX blob) then x
      else
        let username := drop_prefix KEYRING_PREFIX blob in
        if negb (String.eqb username (_keyring_username account_id field)) then x
        else keyring_delete username x
  end.

#[export] Instance OsSecretStore : SecretStore X := {|
  encrypt := store_encrypt; decrypt := store_decrypt; delete_secret := store_delete |}.

Lemma starts_with_app p s : Str.starts_with p (p +:+ s) = true.
Proof.
  unfold Str.starts_with. induction p as [|c p IH]; simpl; [by destruct s|].
  rewrite IH. by destruct (Ascii.ascii_dec c c).
Qed.

Lemma drop_prefix_app p s : drop_prefix p (p +:+ s) = s.
Proof. induction p as [|c p IH]; simpl; [by destruct s|done]. Qed.

(** A keyring reference is good for the account and field it was made for. *)
Lemma keyring_reference_bound account field account' field' x :
  _keyring_username account field ≠ _keyring_username account' field' →
  store_decrypt account' field' (KEYRING_PREFIX +:+ _keyring_username account field) x
    = (Ok (Err SecretDecryptError), x).
Proof.
  intros Hne. unfold store_decrypt.
  replace (Str.starts_with DPAPI_PREFIX (KEYRING_PREFIX +:+ _keyring_username account field))
    with false by reflexivity.
  rewrite starts_with_app, drop_prefix_app. destruct has_keyring; [|done]. simpl.
  apply String.eqb_neq in Hne. by rewrite Hne.
Qed.

(** What the backends promise: what was protected can be unprotected, and a
    stored password is found again. *)
Class BackendLaws := {
  unprotect_protect v x c x' : crypt_protect v x = (Ok (Some c), x') →
    ∃ x'', crypt_unprotect c x' = (Ok (Some v), x'');
  get_set u v x x' : keyring_set u v x = (Ok true, x') →
    ∃ x'', keyring_get u x' = (Ok (Some (Some v)), x'') }.

(** A credential that was encrypted for an account and field is decrypted to
    the same secret for them, through either backend. *)
Theorem encrypt_decrypt `{!BackendLaws} account field value blob x x' :
  store_encrypt account field value x = (Ok (Ok blob), x') →
  ∃ x'', store_decrypt account field blob x' = (Ok (Ok value), x'').
Proof.
  unfold store_encrypt. destruct (Str.empty value) eqn:Hv; [done|].
  destruct (has_win32crypt && os_is_nt) eqn:Hw; [|destruct has_keyring eqn:Hk; [|done]];
    unfold mbind, ST_bind, mret, ST_ret.
  - destruct (crypt_protect value x) as [[[c|]|e] x0] eqn:E; try done. intros [= <- <-].
    unfold store_decrypt. rewrite starts_with_app, drop_prefix_app.
    apply andb_true_iff in Hw as [-> _]. simpl.
    destruct (unprotect_protect _ _ _ _ E) as [x'' Hx]. unfold mbind, ST_bind. rewrite Hx. by eexists.
  - destruct (keyring_set _ value x) as [[[]|e] x0] eqn:E; try done. intros [= <- <-].
    unfold store_decrypt.
    replace (Str.starts_with DPAPI_PREFIX (KEYRING_PREFIX +:+ _keyring_username account field))
      with false by reflexivity.
    rewrite starts_with_app, drop_prefix_app, Hk, String.eqb_refl. simpl.
    destruct (get_set _ _ _ _ E) as [x'' Hx]. unfold mbind, ST_bind. rewrite Hx.
    rewrite Hv. by eexists.
Qed.
End Store.

(** A keyring held in memory. *)
Definition memory_backends : OsBackends (list (string * string)) := {|
  has_win32crypt := false; os_is_nt := false; has_keyring := true;
  crypt_protect v := mret None;
  crypt_unprotect c := mret None;
  keyring_set u v := λ x, (Ok true, (u, v) :: x);
  keyring_get u := λ x, (Ok (Some (assoc u x)), x);
  keyring_delete u x := List.filter (λ kv, negb (String.eqb kv.1 u)) x |}.

#[local] Existing Instance memory_backends.

Lemma memory_laws : BackendLaws.
Proof.
  split; [done|]. intros u v x x' [= <-]. eexists. simpl. by rewrite String.eqb_refl.
Defined.

Lemma encrypt_decrypt_witness :
  ∃ x'', store_decrypt "acc" "api_key" "keyring:v1:acc:api_key" [("acc:api_key", "k")]
           = (Ok (Ok "k"), x'').
Proof.
  apply (@encrypt_decrypt _ _ memory_laws "acc" "api_key" "k" "keyring:v1:acc:api_key" []).
  reflexivity.
Defined.
