(* ===== verification/Accounts.v ===== *)
(** [storage/accounts.py]: account rows, their trading lock and their credentials. *)

From Stdlib Require Import ZArith String.
From stdpp Require Import pretty.
From S2P Require Import Prelude PyFloat PyVal Errors Monad Broker Db Sample AuditLog Credentials.
Local Open Scope string_scope.
Local Open Scope list_scope.

Definition _MAX_LABEL_LENGTH : nat := 200.
Definition _ALLOWED_MARKET : string := "spot".
Definition _ACTIVE_ORDER_STATUSES : list order_status :=
  [NEW; PARTIALLY_FILLED; UNKNOWN; RECONCILE_REQUIRED].

(** [not isinstance(v, str) or not v.strip()] is an [INVALID_REQUEST]; otherwise
    the stripped string. *)
Definition require_str (v : pyval) : result string :=
  match v with
  | PStr s => if Str.empty (Str.strip s) then raise INVALID_REQUEST else Ok (Str.strip s)
  | _ => raise INVALID_REQUEST
  end.

(** [actor or "mcp-agent"] *)
Definition actor_or_default (actor : string) : string :=
  if Str.empty actor then "mcp-agent" else actor.

(** A stored credential column is truthy. *)
Definition has_value (o : option string) : bool :=
  match o with Some s => negb (Str.empty s) | None => false end.

Definition credentials_configured (row : account_row) : bool :=
  has_value (a_encrypted_api_key row) && has_value (a_encrypted_secret row).

(** The dict of [_public_account]: an account without its encrypted columns. *)
Record public_account := mk_public {
  pub_account_id : string;
  pub_label : string;
  pub_tags : list string;
  pub_market : string;
  pub_trading_lock : trading_lock_t;
  pub_credentials_configured : bool;
  pub_read_only : bool;
  pub_created_at : Z;
  pub_updated_at : Z }.

Definition _public_account (row : account_row) : public_account :=
  mk_public (a_account_id row) (a_label row) (a_tags row) (a_market row) (a_trading_lock row)
    (credentials_configured row) (negb (credentials_configured row))
    (a_created_at row) (a_updated_at row).

Definition _validate_label (label : pyval) : result string :=
  match label with
  | PStr s =>
      let normalized := Str.strip s in
      _ ← reject_if (Str.empty normalized) INVALID_REQUEST;
      _ ← reject_if (_MAX_LABEL_LENGTH <? String.length normalized)%nat INVALID_REQUEST;
      Ok normalized
  | _ => raise INVALID_REQUEST
  end.

Fixpoint normalize_tags (tags : list pyval) (normalized : list string) : result (list string) :=
  match tags with
  | [] => Ok normalized
  | PStr tag :: tags' =>
      let value := Str.strip tag in
      if Str.empty value then raise INVALID_REQUEST
      else normalize_tags tags' (if str_in value normalized then normalized else normalized ++ [value])
  | _ :: _ => raise INVALID_REQUEST
  end.

Definition _validate_tags (tags : pyval) : result (list string) :=
  match tags with
  | PNone => Ok []
  | PList l => normalize_tags l []
  | _ => raise INVALID_REQUEST
  end.

Definition _validate_credentials (api_key api_secret : pyval) : result (option (string * string)) :=
  match api_key, api_secret with
  | PNone, PNone => Ok None
  | PStr k, PStr s =>
      if Str.empty k || Str.empty s then raise INVALID_REQUEST else Ok (Some (k, s))
  | _, _ => raise INVALID_REQUEST
  end.

Definition is_account (account_id : string) (row : account_row) : bool :=
  String.eqb (a_account_id row) account_id.

Definition find_account (account_id : string) (d : db) : option account_row :=
  List.find (is_account account_id) (accounts d).

(** [f"open_orders={n}"] and the other reasons an account cannot be deleted. *)
Inductive removal_reason :=
| TradingLockReal
| OpenOrders (n : nat)
| ActivePendingOrders (n : nat)
| HasRiskPolicy (n : nat)
| RiskOverrides (n : nat).

Definition reason_str (r : removal_reason) : string :=
  match r with
  | TradingLockReal => "trading_lock=real"
  | OpenOrders n => "open_orders=" +:+ pretty n
  | ActivePendingOrders n => "active_pending_orders=" +:+ pretty n
  | HasRiskPolicy n => "risk_policy=" +:+ pretty n
  | RiskOverrides n => "risk_overrides=" +:+ pretty n
  end.

Definition reason_if (n : nat) (r : nat → removal_reason) : list removal_reason :=
  if (0 <? n)%nat then [r n] else [].

Definition active_order (account_id : string) (o : order_row) : bool :=
  String.eqb (o_account_id o) account_id && status_in (o_status o) _ACTIVE_ORDER_STATUSES.

Definition active_pending (account_id : string) (q : pending_row) : bool :=
  String.eqb (q_account_id q) account_id && bool_decide (q_status q ∈ PENDING_ACTIVE_STATUSES).

Definition _removal_reasons (d : db) (account_id : string) (row : account_row) : list removal_reason :=
  (if decide (a_trading_lock row = Real) then [TradingLockReal] else [])
  ++ reason_if (count_where (active_order account_id) (orders d)) OpenOrders
  ++ reason_if (count_where (active_pending account_id) (pending_orders d)) ActivePendingOrders
  ++ reason_if (count_where (λ p, String.eqb (p_account_id p) account_id) (risk_policy d)) HasRiskPolicy
  ++ reason_if (count_where (λ v, String.eqb (v_account_id v) account_id) (risk_override d)) RiskOverrides.

Section Accounts.
Context {X : Type} `{Ext X, PyEnv, SecretStore X}.

(** [INSERT INTO accounts]: [account_id] is UNIQUE. *)
Definition insert_account (row : account_row) : M X unit :=
  d ← db_read id;
  match find_account (a_account_id row) d with
  | Some _ => throw IntegrityError
  | None => db_modify (set_accounts (λ l, l ++ [row]))
  end.

Definition delete_both (account_id : string) (key secret : option string) : M X unit :=
  on_ext (λ x, (Ok tt, delete_secret account_id "api_key" key x));;
  on_ext (λ x, (Ok tt, delete_secret account_id "api_secret" secret x)).

(** The first [try] block of [add_account]. *)
Definition encrypt_pair (account_id : string) (credentials : option (string * string))
    : M X (option string * option string) :=
  match credentials with
  | None => mret (None, None)
  | Some (api_key, api_secret) =>
      k ← on_ext (encrypt account_id "api_key" api_key);
      match k with
      | Err _ => delete_both account_id None None;; raise_ CREDENTIAL_STORE_UNAVAILABLE
      | Ok k =>
          s ← on_ext (encrypt account_id "api_secret" api_secret);
          match s with
          | Err _ => delete_both account_id (Some k) None;; raise_ CREDENTIAL_STORE_UNAVAILABLE
          | Ok s => mret (Some k, Some s)
          end
      end
  end.

Definition is_some {A} (o : option A) : bool := match o with Some _ => true | None => false end.

Definition add_account (label api_key api_secret tags market : pyval) (actor : string)
    : M X public_account :=
  normalized_label ← lift (_validate_label label);
  normalized_tags ← lift (_validate_tags tags);
  credentials ← lift (_validate_credentials api_key api_secret);
  _ ← lift (match market with
            | PStr m => reject_if (negb (String.eqb m _ALLOWED_MARKET)) INVALID_REQUEST
            | _ => raise INVALID_REQUEST
            end);
  account_id ← uuid4_hex;
  '(key, secret) ← encrypt_pair account_id credentials;
  now ← time_now;
  let configured := is_some key && is_some secret in
  r ← attempt (db_write (
    insert_account (mk_account account_id normalized_label normalized_tags _ALLOWED_MARKET Paper
      key secret now now);;
    audit (actor_or_default actor) "add_account"
      [("account_id", PStr account_id); ("label", PStr normalized_label);
       ("market", PStr _ALLOWED_MARKET); ("tags", PList (map PStr normalized_tags));
       ("credentials_configured", PBool configured)];;
    mret (mk_public account_id normalized_label normalized_tags _ALLOWED_MARKET Paper
            configured (negb configured) now now)));
  match r with
  | Ok account => mret account
  | Err IntegrityError => delete_both account_id key secret;; raise_ ACCOUNT_EXISTS
  | Err e => delete_both account_id key secret;; throw e
  end.

(** [ORDER BY created_at DESC, account_id] *)
Definition account_before (x y : account_row) : bool :=
  (a_created_at y <? a_created_at x)%Z
  || (a_created_at x =? a_created_at y)%Z && String.leb (a_account_id x) (a_account_id y).

Fixpoint insert_account_by (x : account_row) (l : list account_row) : list account_row :=
  match l with
  | [] => [x]
  | y :: l' => if account_before x y then x :: l else y :: insert_account_by x l'
  end.

Definition list_accounts : M X (list public_account) :=
  db_read (λ d, map _public_account (foldr insert_account_by [] (accounts d))).

(** What the transaction of [remove_account] returns. *)
Inductive removal :=
| NoSuchAccount
| Refused (reasons : list removal_reason)
| Removed (account_id : string) (read_only : bool) (key secret : option string).

Definition _remove (account_id actor : string) : M X removal :=
  d ← db_read id;
  match find_account account_id d with
  | None => mret NoSuchAccount
  | Some row =>
      let public := _public_account row in
      match _removal_reasons d account_id row with
      | (_ :: _) as reasons =>
          audit (actor_or_default actor) "remove_account_refused"
            [("account_id", PStr account_id); ("label", PStr (pub_label public));
             ("reasons", PList (map (λ r, PStr (reason_str r)) reasons))];;
          mret (Refused reasons)
      | [] =>
          db_modify (set_accounts (delete_where (is_account account_id)));;
          audit (actor_or_default actor) "remove_account"
            [("account_id", PStr account_id); ("label", PStr (pub_label public))];;
          mret (Removed account_id (pub_read_only public) (a_encrypted_api_key row)
                  (a_encrypted_secret row))
      end
  end.

Definition remove_account (account_id : pyval) (actor : string) : M X (string * bool) :=
  aid ← lift (require_str account_id);
  removed ← db_write (_remove aid actor);
  match removed with
  | NoSuchAccount => raise_ ACCOUNT_NOT_FOUND
  | Refused _ => raise_ ACCOUNT_IN_USE
  | Removed _ read_only key secret =>
      delete_both aid key secret;;
      mret (aid, read_only)
  end.

Definition set_lock (account_id : string) (lock : trading_lock_t) (now : Z) : db → db :=
  set_accounts (update_where (is_account account_id) (λ a,
    mk_account (a_account_id a) (a_label a) (a_tags a) (a_market a) lock
      (a_encrypted_api_key a) (a_encrypted_secret a) (a_created_at a) now)).

(** Returns [already_real]. *)
Definition enable_real_trading (account_id : pyval) (actor : string) : M X bool :=
  aid ← lift (require_str account_id);
  db_write (
    d ← db_read id;
    match find_account aid d with
    | None => raise_ ACCOUNT_NOT_FOUND
    | Some row =>
        if negb (credentials_configured row) then raise_ ACCOUNT_NO_CREDENTIALS
        else if decide (a_trading_lock row = Real) then mret true
        else
          now ← time_now;
          db_modify (set_lock aid Real now);;
          audit (actor_or_default actor) "enable_real_trading"
            [("account_id", PStr aid); ("trading_lock", PStr "real")];;
          mret false
    end).

(** Returns [already_paper]. *)
Definition disable_real_trading (account_id : pyval) (actor : string) : M X bool :=
  aid ← lift (require_str account_id);
  db_write (
    d ← db_read id;
    match find_account aid d with
    | None => raise_ ACCOUNT_NOT_FOUND
    | Some row =>
        if decide (a_trading_lock row = Paper) then mret true
        else
          now ← time_now;
          db_modify (set_lock aid Paper now);;
          audit (actor_or_default actor) "disable_real_trading"
            [("account_id", PStr aid); ("trading_lock", PStr "paper")];;
          mret false
    end).

Definition get_account (account_id : string) : M X public_account :=
  row ← db_read (find_account account_id);
  match row with
  | None => raise_ ACCOUNT_NOT_FOUND
  | Some row => mret (_public_account row)
  end.

Definition get_credentials (account_id : string) : M X (string * string) :=
  row ← db_read (find_account account_id);
  match row with
  | None => raise_ ACCOUNT_NOT_FOUND
  | Some row =>
      match a_encrypted_api_key row, a_encrypted_secret row with
      | Some key, Some secret =>
          if Str.empty key || Str.empty secret then raise_ ACCOUNT_NO_CREDENTIALS
          else
            k ← on_ext (decrypt account_id "api_key" key);
            match k with
            | Err SecretDecryptError => raise_ CREDENTIAL_DECRYPT_FAILED
            | Err _ => throw RuntimeError
            | Ok k =>
                s ← on_ext (decrypt account_id "api_secret" secret);
                match s with
                | Err SecretDecryptError => raise_ CREDENTIAL_DECRYPT_FAILED
                | Err _ => throw RuntimeError
                | Ok s => mret (k, s)
                end
            end
      | _, _ => raise_ ACCOUNT_NO_CREDENTIALS
      end
  end.
(** ** The invariant of the accounts table

    Ids are unique, and an account that trades for real has credentials. *)

Definition accounts_ok (l : list account_row) : Prop :=
  NoDup (map a_account_id l) ∧
  Forall (λ a, a_trading_lock a = Real → credentials_configured a = true) l.

Definition accounts_wf (d : db) : Prop := accounts_ok (accounts d).

Lemma find_account_Some aid d row :
  find_account aid d = Some row → row ∈ accounts d ∧ a_account_id row = aid.
Proof. intros [? ?%String.eqb_eq]%find_Some_elem. done. Qed.

Lemma find_account_None aid d :
  find_account aid d = None → aid ∉ map a_account_id (accounts d).
Proof.
  intros Hf%find_None_Forall (row & -> & Hin)%list_elem_of_fmap. rewrite Forall_forall in Hf.
  specialize (Hf _ Hin). unfold is_account in Hf. by rewrite String.eqb_refl in Hf.
Qed.

Lemma accounts_ok_snoc l row :
  accounts_ok l → a_account_id row ∉ map a_account_id l → a_trading_lock row = Paper →
  accounts_ok (l ++ [row]).
Proof.
  intros [Hn Hr] Hid Hp. split.
  - rewrite map_app. apply NoDup_app. simpl. split_and!; [done| |apply NoDup_singleton].
    intros x Hx ->%list_elem_of_singleton. done.
  - apply Forall_app. split; [done|]. constructor; [congruence|constructor].
Qed.

Lemma accounts_ok_delete p l : accounts_ok l → accounts_ok (delete_where p l).
Proof.
  intros [Hn Hr]. unfold delete_where. induction l as [|a l IH]; simpl; [done|].
  cbn [map] in Hn. apply NoDup_cons in Hn as [Ha Hn]. apply Forall_cons in Hr as [Hc Hr].
  destruct (IH Hn Hr) as [IH1 IH2]. destruct (p a); simpl; [done|]. split; [|by constructor].
  cbn [map]. apply NoDup_cons. split; [|done]. intros (b & Hb & Hin)%list_elem_of_fmap.
  apply elem_of_filter_b in Hin as [Hin _]. apply Ha. rewrite Hb. by apply list_elem_of_fmap_2.
Qed.

Lemma map_id_set_lock aid lock now d :
  map a_account_id (accounts (set_lock aid lock now d)) = map a_account_id (accounts d).
Proof.
  simpl. unfold update_where, fmap. induction (accounts d) as [|a l IH]; simpl; [done|].
  rewrite IH. by destruct (is_account aid a).
Qed.

Lemma NoDup_account_eq (l : list account_row) a b :
  NoDup (map a_account_id l) → a ∈ l → b ∈ l → a_account_id a = a_account_id b → a = b.
Proof.
  intros Hn [i Hi]%list_elem_of_lookup [j Hj]%list_elem_of_lookup Heq.
  assert (i = j) as ->; [|congruence].
  eapply (NoDup_lookup _ _ _ (a_account_id a) Hn); rewrite list_lookup_fmap.
  - by rewrite Hi.
  - by rewrite Hj, Heq.
Qed.

Lemma set_lock_wf aid lock now d row :
  find_account aid d = Some row → (lock = Real → credentials_configured row = true) →
  accounts_wf d → accounts_wf (set_lock aid lock now d).
Proof.
  intros [Hrow Hid]%find_account_Some Hlock [Hn Hr]. split; [by rewrite map_id_set_lock|].
  apply Forall_forall. intros a Ha. simpl in Ha. apply elem_of_update_where in Ha as (b & Hb & ->).
  rewrite Forall_forall in Hr. destruct (is_account aid b) eqn:E; [|by apply Hr].
  apply String.eqb_eq in E. simpl. intros ->.
  rewrite (NoDup_account_eq _ b row Hn) by congruence. by apply Hlock.
Qed.

(** *** Every operation *)

Inductive account_op :=
| OpAdd (label api_key api_secret tags market : pyval) (actor : string)
| OpRemove (account_id : pyval) (actor : string)
| OpEnable (account_id : pyval) (actor : string)
| OpDisable (account_id : pyval) (actor : string).

Definition run_account_op (op : account_op) : M X unit :=
  match op with
  | OpAdd l k s t m a => add_account l k s t m a;; mret tt
  | OpRemove i a => remove_account i a;; mret tt
  | OpEnable i a => enable_real_trading i a;; mret tt
  | OpDisable i a => disable_real_trading i a;; mret tt
  end.

(** What one operation may do to the accounts table. *)
Inductive account_step : account_op → db → db → Prop :=
| acc_same op d d' : accounts d' = accounts d → account_step op d d'
| acc_add l k s t m actor d d' row :
    find_account (a_account_id row) d = None → a_trading_lock row = Paper →
    accounts d' = accounts d ++ [row] → account_step (OpAdd l k s t m actor) d d'
| acc_remove id actor d d' aid row :
    require_str id = Ok aid → find_account aid d = Some row → _removal_reasons d aid row = [] →
    accounts d' = delete_where (is_account aid) (accounts d) → account_step (OpRemove id actor) d d'
| acc_enable id actor d d' aid row now :
    require_str id = Ok aid → find_account aid d = Some row → credentials_configured row = true →
    accounts d' = accounts (set_lock aid Real now d) → account_step (OpEnable id actor) d d'
| acc_disable id actor d d' aid row now :
    require_str id = Ok aid → find_account aid d = Some row →
    accounts d' = accounts (set_lock aid Paper now d) → account_step (OpDisable id actor) d d'.

Lemma wp_delete_both aid k s Q (w : world X) :
  (∀ x, Q (Ok tt) (mk_world (w_db w) (w_closed w) x (w_trace w))) → wp (delete_both aid k s) Q w.
Proof. intros HQ. unfold delete_both. repeat wp1; simplify_eq/=; apply HQ. Qed.

Lemma wp_encrypt_pair aid c Q (w : world X) :
  (∀ r x, Q r (mk_world (w_db w) (w_closed w) x (w_trace w))) → wp (encrypt_pair aid c) Q w.
Proof.
  intros HQ. unfold encrypt_pair. repeat first [wp1|apply wp_delete_both; intros];
    try apply HQ. specialize (HQ (Ok (None, None)) (w_ext w)). by destruct w.
Qed.

Ltac wpa := repeat first
  [ wp1 | progress (unfold insert_account) | apply wp_delete_both; intros ?
  | apply wp_encrypt_pair; intros ? ?
  | apply wp_audit; intros ? ? (? & ? & ->) ].

Lemma account_op_step op w : account_step op (w_db w) (w_db (run_account_op op w).2).
Proof.
  change (wp (run_account_op op) (λ _ w', account_step op (w_db w) (w_db w')) w).
  destruct op; simpl; unfold add_account, remove_account, _remove, enable_real_trading,
    disable_real_trading; wpa; simpl in *; simplify_eq; try (by apply acc_same);
    try (match goal with |- context [_ ++ [?row]] => by apply (acc_add _ _ _ _ _ _ _ _ row) end);
    try (by eapply acc_remove); try (by eapply acc_disable).
  by eapply acc_enable; [| |apply negb_false_iff|].
Qed.

Lemma account_step_wf op d d' : account_step op d d' → accounts_wf d → accounts_wf d'.
Proof.
  unfold accounts_wf at 2. intros [? d0 d1 ->|? ? ? ? ? ? d0 d1 row Hf Hp ->|? ? d0 d1 aid row _ _ _ ->
    |? ? d0 d1 aid row now _ Hf Hc ->|? ? d0 d1 aid row now _ Hf ->] Hwf.
  - done.
  - apply accounts_ok_snoc; [done|by apply find_account_None|done].
  - by apply accounts_ok_delete.
  - by eapply (set_lock_wf aid Real).
  - by eapply (set_lock_wf aid Paper).
Qed.

(** A sequence of operations; the caller goes on after an error. *)
Definition run_account_ops (ops : list account_op) : M X unit :=
  foldM (λ _ op, attempt (run_account_op op);; mret tt) tt ops.

Lemma run_account_ops_rtc ops w :
  rtc (λ d d', ∃ op, account_step op d d') (w_db w) (w_db (run_account_ops ops w).2).
Proof.
  unfold run_account_ops. revert w. induction ops as [|op ops IH]; intros w; [apply rtc_refl|].
  cbn [foldM]. pose proof (account_op_step op w) as Hs. unfold mbind, ST_bind, attempt, mret, ST_ret.
  destruct (run_account_op op w) as [r w']. simpl in *. eapply rtc_l; [by exists op|apply IH].
Qed.

(** Whatever sequence of account operations runs, and whatever fails on the
    way, account ids stay unique and an account only ever trades for real while
    both its credentials are stored. *)
Theorem account_ops_invariant ops (w : world X) :
  accounts_wf (w_db w) → accounts_wf (w_db (run_account_ops ops w).2).
Proof.
  intros Hwf. pose proof (run_account_ops_rtc ops w) as Hr. revert Hwf.
  induction Hr as [d|d1 d2 d3 [op Hs] _ IH]; [done|]. intros Hwf. by eapply IH, account_step_wf.
Qed.

(** A row that trades for real after an operation was there before, or the
    operation is [enable_real_trading] of that account, which had both its
    credentials then. *)
Theorem only_enable_makes_real op (w : world X) a :
  a ∈ accounts (w_db (run_account_op op w).2) → a_trading_lock a = Real →
  a ∈ accounts (w_db w) ∨
  ∃ id actor row, op = OpEnable id actor ∧ require_str id = Ok (a_account_id a) ∧
    find_account (a_account_id a) (w_db w) = Some row ∧ credentials_configured row = true.
Proof.
  intros Ha Hreal. pose proof (account_op_step op w) as Hs. revert Ha.
  inversion Hs as [? d0 d1 Heq|? ? ? ? ? ? d0 d1 row Hf Hp Heq|? ? d0 d1 aid row _ _ _ Heq
    |id actor d0 d1 aid row now Hid Hf Hc Heq|? ? d0 d1 aid row now _ Hf Heq]; subst; rewrite Heq.
  - by left.
  - rewrite elem_of_app, list_elem_of_singleton. intros [?| ->]; [by left|congruence].
  - unfold delete_where. intros [? _]%elem_of_filter_b. by left.
  - simpl. intros (b & Hb & ->)%elem_of_update_where. destruct (is_account aid b) eqn:E; [|by left].
    apply String.eqb_eq in E. simpl in *. subst aid. right. by exists id, actor, row.
  - simpl. intros (b & Hb & ->)%elem_of_update_where. destruct (is_account aid b); by left.
Qed.

Lemma count_reason n r : reason_if n r = [] ↔ n = 0%nat.
Proof. unfold reason_if. destruct (Nat.ltb_spec 0 n); split; (done || lia). Qed.

Lemma removal_reasons_nil d aid row :
  _removal_reasons d aid row = [] →
  a_trading_lock row = Paper ∧
  Forall (λ o, o_account_id o = aid → o_status o ∉ _ACTIVE_ORDER_STATUSES) (orders d) ∧
  Forall (λ q, q_account_id q = aid → q_status q ∉ PENDING_ACTIVE_STATUSES) (pending_orders d) ∧
  Forall (λ p, p_account_id p ≠ aid) (risk_policy d) ∧
  Forall (λ v, v_account_id v ≠ aid) (risk_override d).
Proof.
  unfold _removal_reasons. intros [Hl [Ho [Hq [Hp Hv]%app_nil]%app_nil]%app_nil]%app_nil.
  apply count_reason, count_where_0 in Ho, Hq, Hp, Hv.
  split_and!.
  - destruct (decide _) as [?|Hr]; [done|]. by destruct (a_trading_lock row).
  - eapply Forall_impl; [exact Ho|]. unfold active_order. intros o Hf Ha Hin.
    apply status_in_spec in Hin. by rewrite Ha, String.eqb_refl, Hin in Hf.
  - eapply Forall_impl; [exact Hq|]. unfold active_pending. intros q Hf Ha Hin.
    by rewrite Ha, String.eqb_refl, bool_decide_eq_true_2 in Hf.
  - eapply Forall_impl; [exact Hp|]. simpl. intros q Hf%String.eqb_neq. done.
  - eapply Forall_impl; [exact Hv|]. simpl. intros q Hf%String.eqb_neq. done.
Qed.

(** [remove_account] succeeds only for a paper account without active
    orders, active pending orders, policy or overrides, and then deletes exactly
    its row; when it raises, only the audit log may have changed. *)
Theorem remove_account_fail_closed account_id actor (w : world X) :
  let '(r, w') := remove_account account_id actor w in
  match r with
  | Ok (aid, _) => ∃ row log, find_account aid (w_db w) = Some row ∧
      a_trading_lock row = Paper ∧
      Forall (λ o, o_account_id o = aid → o_status o ∉ _ACTIVE_ORDER_STATUSES) (orders (w_db w)) ∧
      Forall (λ q, q_account_id q = aid → q_status q ∉ PENDING_ACTIVE_STATUSES)
        (pending_orders (w_db w)) ∧
      Forall (λ p, p_account_id p ≠ aid) (risk_policy (w_db w)) ∧
      Forall (λ v, v_account_id v ≠ aid) (risk_override (w_db w)) ∧
      w_db w' = set_audit_log (λ _, log)
        (set_accounts (delete_where (is_account aid)) (w_db w))
  | Err _ => ∃ log, w_db w' = set_audit_log (λ _, log) (w_db w)
  end.
Proof.
  assert (∀ d, d = set_audit_log (λ _, audit_log d) d) as Hid by (by intros []).
  destruct (remove_account account_id actor w) as [r w'] eqn:E. revert r w' E.
  enough (wp (remove_account account_id actor) (λ r w', match r with
    | Ok (aid, _) => ∃ row log, find_account aid (w_db w) = Some row ∧
        _removal_reasons (w_db w) aid row = [] ∧
        w_db w' = set_audit_log (λ _, log) (set_accounts (delete_where (is_account aid)) (w_db w))
    | Err _ => ∃ log, w_db w' = set_audit_log (λ _, log) (w_db w) end) w) as Hwp.
  { intros r w' E. pose proof (wp_run _ _ _ _ _ Hwp E) as Hr. simpl in Hr.
    destruct r as [[aid ro]|e]; [|done]. destruct Hr as (row & log & Hf & Hr & Hd).
    exists row, log. apply removal_reasons_nil in Hr. naive_solver. }
  unfold remove_account, _remove. wpa; simpl in *; simplify_eq; eauto.
Qed.
(** [add_account] is atomic: it either adds one paper account under a fresh
    id (and one audit entry), or raises and leaves the whole store as it was. *)
Theorem add_account_atomic label api_key api_secret tags market actor (w : world X) :
  let '(r, w') := add_account label api_key api_secret tags market actor w in
  match r with
  | Ok pub => ∃ row log, find_account (a_account_id row) (w_db w) = None ∧
      a_account_id row = pub_account_id pub ∧ a_trading_lock row = Paper ∧
      market = PStr "spot" ∧ _validate_label label = Ok (a_label row) ∧
      w_db w' = set_audit_log (λ _, log) (set_accounts (λ l, l ++ [row]) (w_db w))
  | Err _ => w_db w' = w_db w
  end.
Proof.
  assert (wp (add_account label api_key api_secret tags market actor) (λ r w', match r with
    | Ok pub => ∃ row log, find_account (a_account_id row) (w_db w) = None ∧
        a_account_id row = pub_account_id pub ∧ a_trading_lock row = Paper ∧
        market = PStr "spot" ∧ _validate_label label = Ok (a_label row) ∧
        w_db w' = set_audit_log (λ _, log) (set_accounts (λ l, l ++ [row]) (w_db w))
    | Err _ => w_db w' = w_db w end) w) as Hwp;
    [|revert Hwp; unfold wp; by destruct (add_account _ _ _ _ _ _ w)].
  unfold add_account. wpa; simpl in *; try done;
    (destruct market; try done;
     match goal with Hm : reject_if _ _ = _ |- _ =>
       apply reject_if_Ok in Hm; apply negb_false_iff, String.eqb_eq in Hm as -> end;
     do 2 eexists; split_and!; try reflexivity; done).
Qed.
End Accounts.

(** ** Witnesses *)

#[local] Existing Instance outside_ext.
#[local] Existing Instance sample_env.

Definition sample_store : SecretStore outside := {|
  encrypt _ _ v := mret (Ok ("enc:" +:+ v));
  decrypt _ _ b := mret (Ok (drop_prefix "enc:" b));
  delete_secret _ _ _ x := x |}.
#[local] Existing Instance sample_store.

Definition sample_ops : list account_op :=
  [OpAdd (PStr " main ") (PStr "k") (PStr "s") PNone (PStr "spot") "agent";
   OpEnable (PStr "id0") "agent"; OpRemove (PStr "id0") "agent"].

Definition sample_accounts : world outside := (run_account_ops sample_ops (start empty_db)).2.

(** The real account is still there: it could not be removed. *)
Example sample_accounts_real :
  map (λ a, (a_account_id a, a_label a, a_trading_lock a)) (accounts (w_db sample_accounts))
    = [("id0", "main", Real)].
Proof. vm_compute. reflexivity. Qed.

Lemma account_ops_invariant_witness :
  accounts_wf (w_db (run_account_ops sample_ops (start empty_db)).2).
Proof.
  apply account_ops_invariant. split; [apply NoDup_nil_2|apply Forall_nil_2].
Defined.

Definition sample_paper : world outside := (run_account_op (OpAdd (PStr " main ") (PStr "k")
  (PStr "s") PNone (PStr "spot") "agent") (start empty_db)).2.
Definition sample_real_row : account_row :=
  mk_account "id0" "main" [] "spot" Real (Some "enc:k") (Some "enc:s") 1000 1000.

Lemma only_enable_makes_real_witness :
  sample_real_row ∈ accounts (w_db sample_paper) ∨
  ∃ id actor row, OpEnable (PStr "id0") "agent" = OpEnable id actor ∧
    require_str id = Ok "id0" ∧
    find_account "id0" (w_db sample_paper) = Some row ∧ credentials_configured row = true.
Proof.
  apply (only_enable_makes_real (OpEnable (PStr "id0") "agent") sample_paper sample_real_row);
    [|reflexivity].
  replace (accounts _) with [sample_real_row] by (vm_compute; reflexivity). left.
Defined.
