(* ===== verification/RiskPolicy.v ===== *)
(** [storage/risk_policy.py]: per-account caps and the one-time override. *)

From Stdlib Require Import ZArith String.
From S2P Require Import Prelude PyFloat PyVal Errors Risk Monad Broker Db Sample AuditLog Credentials Accounts.
Import RiskCaps.
Local Open Scope string_scope.
Local Open Scope list_scope.

Definition SCOPE_NEXT_ORDER : string := "next_order".
Definition DEFAULT_OVERRIDE_TTL_SECONDS : Z := 86400.

(** [_parse_symbols] on a list: stripped, upper case, without duplicates. *)
Fixpoint parse_symbols_from (seen : list string) (raw : list pyval) : list string :=
  match raw with
  | [] => seen
  | PStr entry :: raw' =>
      let value := Str.upper (Str.strip entry) in
      parse_symbols_from
        (if negb (Str.empty value) && negb (str_in value seen) then seen ++ [value] else seen) raw'
  | _ :: raw' => parse_symbols_from seen raw'
  end.

Definition _parse_symbols (raw : pyval) : list string :=
  match raw with PList l => parse_symbols_from [] l | _ => [] end.

Definition _validate_optional_amount (value : pyval) : result (option float) :=
  match value with
  | PNone => Ok None
  | PInt _ | PFloat _ =>
      amount ← require_finite value;
      _ ← reject_if (fle amount fzero) INVALID_REQUEST;
      Ok (Some amount)
  | _ => raise INVALID_REQUEST
  end.

Definition _validate_clear_flag (value : pyval) : result bool :=
  match value with PBool b => Ok b | _ => raise INVALID_REQUEST end.

Definition nonblank_str (v : pyval) : bool :=
  match v with PStr s => negb (Str.empty (Str.strip s)) | _ => false end.

Definition _validate_symbols (value : pyval) : result (list string) :=
  match value with
  | PNone => Ok []
  | PList l => _ ← reject_if (negb (forallb nonblank_str l)) INVALID_REQUEST; Ok (_parse_symbols value)
  | _ => raise INVALID_REQUEST
  end.

(** The dict [get_policy] returns. *)
Record policy := mk_policy_view {
  pol_caps : caps;
  pol_version : Z;
  pol_configured : bool }.

Definition _policy_default : policy := mk_policy_view (mk_caps None None []) 0 false.

Definition stored_symbols (row : policy_row) : list string :=
  _parse_symbols (PList (map PStr (p_allowed_symbols row))).

Definition _policy_row (row : option policy_row) : policy :=
  match row with
  | None => _policy_default
  | Some row =>
      mk_policy_view (mk_caps (p_max_notional_per_order row) (p_max_aggregate_exposure row)
                        (stored_symbols row)) (p_policy_version row) true
  end.

Definition is_policy (account_id : string) (p : policy_row) : bool :=
  String.eqb (p_account_id p) account_id.

Definition find_policy (account_id : string) (d : db) : option policy_row :=
  List.find (is_policy account_id) (risk_policy d).

(** [!=] on optional floats and on lists. *)
Definition opt_float_eqb (x y : option float) : bool :=
  match x, y with
  | None, None => true
  | Some x, Some y => feq x y
  | _, _ => false
  end.

Definition pick {A} (clear : bool) (new prev : option A) : option A :=
  if clear then None else match new with Some _ => new | None => prev end.

(** The merged columns, and whether anything changed. *)
Definition merge_policy (row : policy_row) (notional aggregate : option float) (symbols : list string)
    (clear_notional clear_aggregate clear_symbols : bool)
    : option float * option float * list string * bool :=
  let prev_symbols := stored_symbols row in
  let merged_notional := pick clear_notional notional (p_max_notional_per_order row) in
  let merged_aggregate := pick clear_aggregate aggregate (p_max_aggregate_exposure row) in
  let merged_symbols :=
    if clear_symbols then [] else match symbols with [] => prev_symbols | _ => symbols end in
  let changed :=
    negb (opt_float_eqb merged_notional (p_max_notional_per_order row))
    || negb (opt_float_eqb merged_aggregate (p_max_aggregate_exposure row))
    || negb (bool_decide (merged_symbols = prev_symbols)) in
  (merged_notional, merged_aggregate, merged_symbols, changed).

Definition opt_float_val (o : option float) : pyval :=
  match o with Some x => PFloat x | None => PNone end.

(** [UPDATE risk_override SET state = ..., ... WHERE ...] *)
Definition close_override (now : Z) (reason : string) (v : override_row) : override_row :=
  mk_override (v_override_id v) (v_account_id v) (v_policy_version v) (v_idempotency_key v)
    (v_actor v) (v_reason v) (v_scope v) Reconciled (v_created_at v) (v_expires_at v)
    (v_applied_at v) (v_consumed_by_idem v) (Some now) (Some reason).

Definition apply_override (now : Z) (idem : string) (v : override_row) : override_row :=
  mk_override (v_override_id v) (v_account_id v) (v_policy_version v) (v_idempotency_key v)
    (v_actor v) (v_reason v) (v_scope v) Applied (v_created_at v) (v_expires_at v)
    (Some now) (Some idem) (v_reconciled_at v) (v_reconcile_reason v).

Definition is_override (override_id : string) (v : override_row) : bool :=
  String.eqb (v_override_id v) override_id.

Definition reserved (v : override_row) : bool := bool_decide (v_state v = Reserved).

(** [WHERE account_id = ? AND state = ? AND policy_version = ? AND expires_at > ?] *)
Definition consumable (account_id : string) (policy_version now : Z) (v : override_row) : bool :=
  String.eqb (v_account_id v) account_id && reserved v
  && (v_policy_version v =? policy_version)%Z && (now <? v_expires_at v)%Z.

(** [... ORDER BY created_at ASC, id ASC LIMIT 1] *)
Definition find_consumable (account_id : string) (policy_version now : Z) (d : db)
    : option override_row :=
  head (order_by v_created_at (List.filter (consumable account_id policy_version now) (risk_override d))).

Definition same_override_key (account_id idem : string) (v : override_row) : bool :=
  String.eqb (v_account_id v) account_id && String.eqb (v_idempotency_key v) idem.

(** [isinstance(v, (int, float))] and [int(v)] *)
Definition int_of (v : pyval) : result Z :=
  match v with
  | PBool b => Ok (if b then 1 else 0)%Z
  | PInt z => Ok z
  | PFloat x => ftrunc x
  | _ => raise INVALID_REQUEST
  end.

Section RiskPolicy.
Context {X : Type} `{Ext X, PyEnv}.

Definition get_policy (account_id : pyval) : M X policy :=
  aid ← lift (require_str account_id);
  d ← db_read id;
  match find_account aid d with
  | None => raise_ ACCOUNT_NOT_FOUND
  | Some _ => mret (_policy_row (find_policy aid d))
  end.

(** Close the reserved overrides that [stale] selects, one statement and one
    audit entry per row. *)
Definition close_overrides (stale : override_row → bool) (now : Z) (reason actor : string) : M X nat :=
  rows ← db_read (λ d, List.filter stale (risk_override d));
  foldM (λ n v,
    db_modify (set_risk_override (update_where (is_override (v_override_id v)) (close_override now reason)));;
    audit actor "risk_override_reconciled"
      [("override_id", PStr (v_override_id v)); ("account_id", PStr (v_account_id v));
       ("reason", PStr reason)];;
    mret (S n)) 0%nat rows.

Definition stale_override (account_id : string) (keep_version : Z) (v : override_row) : bool :=
  String.eqb (v_account_id v) account_id && reserved v
  && negb (v_policy_version v =? keep_version)%Z.

Definition _reconcile_stale_overrides (account_id : string) (keep_version : Z) (actor reason : string)
    : M X unit :=
  now ← time_now;
  close_overrides (stale_override account_id keep_version) now reason (actor_or_default actor);;
  mret tt.

Definition expired_override (now : Z) (v : override_row) : bool :=
  reserved v && (v_expires_at v <=? now)%Z.

Definition now_or (now : option Z) : M X Z :=
  match now with Some t => mret t | None => time_now end.

Definition reconcile_overrides (now : option Z) : M X nat :=
  now ← now_or now;
  db_write (close_overrides (expired_override now) now "expired" "system").

Record set_policy_args := mk_set_policy {
  sp_max_notional : pyval;
  sp_max_aggregate : pyval;
  sp_allowed_symbols : pyval;
  sp_clear_notional : pyval;
  sp_clear_aggregate : pyval;
  sp_clear_symbols : pyval }.

(** The dict [set_risk_policy] returns. *)
Record set_policy_result := mk_set_policy_result {
  spr_caps : caps;
  spr_version : Z;
  spr_changed : bool;
  spr_created_at : Z;
  spr_updated_at : Z }.

Definition policy_of (row : policy_row) : caps :=
  mk_caps (p_max_notional_per_order row) (p_max_aggregate_exposure row) (p_allowed_symbols row).

(** [INSERT] of a first policy or [UPDATE] of the stored one; returns the row
    written and [changed]. *)
Definition upsert_policy (aid : string) (notional aggregate : option float) (symbols : list string)
    (clear_n clear_a clear_s : bool) (row : option policy_row) : M X (policy_row * bool) :=
  match row with
  | None =>
      now ← time_now;
      let new := mk_policy aid (if clear_n then None else notional)
                   (if clear_a then None else aggregate) (if clear_s then [] else symbols) 1 now now in
      db_modify (set_risk_policy_rows (λ l, l ++ [new]));;
      mret (new, true)
  | Some row =>
      let '(n, a, s, changed) := merge_policy row notional aggregate symbols clear_n clear_a clear_s in
      let version := if changed then (p_policy_version row + 1)%Z else p_policy_version row in
      updated_at ← (if changed then time_now else mret (p_updated_at row));
      let upd r := mk_policy (p_account_id r) n a s version (p_created_at r) updated_at in
      db_modify (set_risk_policy_rows (update_where (is_policy aid) upd));;
      mret (upd row, changed)
  end.

Definition set_risk_policy (account_id : pyval) (args : set_policy_args) (actor : string)
    : M X set_policy_result :=
  aid ← lift (require_str account_id);
  notional ← lift (_validate_optional_amount (sp_max_notional args));
  aggregate ← lift (_validate_optional_amount (sp_max_aggregate args));
  symbols ← lift (_validate_symbols (sp_allowed_symbols args));
  clear_n ← lift (_validate_clear_flag (sp_clear_notional args));
  clear_a ← lift (_validate_clear_flag (sp_clear_aggregate args));
  clear_s ← lift (_validate_clear_flag (sp_clear_symbols args));
  db_write (
    d ← db_read id;
    match find_account aid d with
    | None => raise_ ACCOUNT_NOT_FOUND
    | Some _ =>
        '(row, changed) ← upsert_policy aid notional aggregate symbols clear_n clear_a clear_s
                            (find_policy aid d);
        (if (changed : bool)
         then _reconcile_stale_overrides aid (p_policy_version row) actor "policy_version_changed"
         else mret tt);;
        audit (actor_or_default actor) "set_risk_policy"
          [("account_id", PStr aid); ("policy_version", PInt (p_policy_version row));
           ("max_notional_per_order", opt_float_val (p_max_notional_per_order row));
           ("max_aggregate_exposure", opt_float_val (p_max_aggregate_exposure row));
           ("allowed_symbols", PList (map PStr (p_allowed_symbols row)));
           ("clear_max_notional", PBool clear_n); ("clear_max_exposure", PBool clear_a);
           ("clear_allowed_symbols", PBool clear_s); ("changed", PBool changed)];;
        mret (mk_set_policy_result (policy_of row) (p_policy_version row) changed
                (p_created_at row) (p_updated_at row))
    end).

(** [INSERT INTO risk_override]: [override_id] and the pair of account and
    idempotency key are UNIQUE. *)
Definition insert_override (v : override_row) : M X unit :=
  rows ← db_read risk_override;
  if existsb (is_override (v_override_id v)) rows
     || existsb (same_override_key (v_account_id v) (v_idempotency_key v)) rows
  then throw IntegrityError
  else db_modify (set_risk_override (λ l, l ++ [v])).

Definition create_override (account_id reason scope idempotency_key : pyval) (actor : string)
    (expires_at : pyval) (ttl_seconds : Z) : M X override_row :=
  aid ← lift (require_str account_id);
  reason ← lift (require_str reason);
  _ ← lift (match scope with
            | PStr s => reject_if (negb (String.eqb s SCOPE_NEXT_ORDER)) INVALID_REQUEST
            | _ => raise INVALID_REQUEST
            end);
  key ← (match idempotency_key with
         | PNone => u ← uuid4_hex; mret (PStr u)
         | v => mret v
         end);
  idem ← lift (require_str key);
  now ← time_now;
  expires ← lift (match expires_at with PNone => Ok (now + ttl_seconds)%Z | v => int_of v end);
  _ ← lift (reject_if (expires <=? now)%Z INVALID_REQUEST);
  r ← attempt (db_write (
    d ← db_read id;
    match find_account aid d with
    | None => raise_ ACCOUNT_NOT_FOUND
    | Some _ =>
        match List.find (same_override_key aid idem) (risk_override d) with
        | Some existing => mret existing
        | None =>
            let version := match find_policy aid d with
                           | Some p => p_policy_version p | None => 0%Z end in
            override_id ← uuid4_hex;
            let v := mk_override override_id aid version idem (actor_or_default actor) reason
                       SCOPE_NEXT_ORDER Reserved now expires None None None None in
            insert_override v;;
            audit (actor_or_default actor) "override_risk_policy"
              [("override_id", PStr override_id); ("account_id", PStr aid);
               ("policy_version", PInt version); ("scope", PStr SCOPE_NEXT_ORDER);
               ("reason", PStr reason); ("expires_at", PInt expires)];;
            mret v
        end
    end));
  match r with
  | Ok v => mret v
  | Err IntegrityError => raise_ INVALID_REQUEST
  | Err e => throw e
  end.

(** The transaction of [consume_override]. *)
Definition _consume (aid : string) (policy_version now : Z) (idem : string) : M X (option override_row) :=
  d ← db_read id;
  match find_consumable aid policy_version now d with
  | None => mret None
  | Some candidate =>
      let hit v := is_override (v_override_id candidate) v && reserved v in
      db_modify (set_risk_override (update_where hit (apply_override now idem)));;
      if negb (count_where hit (risk_override d) =? 1)%nat then mret None
      else
        audit "system" "risk_override_applied"
          [("override_id", PStr (v_override_id candidate)); ("account_id", PStr aid);
           ("consumed_by_idem", PStr idem); ("policy_version", PInt (v_policy_version candidate))];;
        mret (Some (apply_override now idem candidate))
  end.

Definition consume_override (account_id : pyval) (policy_version : Z) (consumed_by_idem : pyval)
    (now : option Z) : M X (option override_row) :=
  aid ← lift (require_str account_id);
  _ ← lift (require_str consumed_by_idem);
  let idem := match consumed_by_idem with PStr s => s | _ => EmptyString end in
  now ← now_or now;
  db_write (_consume aid policy_version now idem).

Definition get_active_override (account_id : pyval) (policy_version : Z) (now : option Z)
    : M X (option override_row) :=
  aid ← lift (require_str account_id);
  now ← now_or now;
  db_read (find_consumable aid policy_version now).
End RiskPolicy.

(** ** The life of an override *)

Definition ids_unique (d : db) : Prop := NoDup (map v_override_id (risk_override d)).

(** The columns that say what an override is for never change, and a row that has
    left [Reserved] never changes again. *)
Definition ov_keep (v v' : override_row) : Prop :=
  v_override_id v' = v_override_id v ∧ v_account_id v' = v_account_id v ∧
  v_policy_version v' = v_policy_version v ∧ v_idempotency_key v' = v_idempotency_key v ∧
  v_expires_at v' = v_expires_at v ∧ (v_state v ≠ Reserved → v' = v).

#[export] Instance ov_keep_preorder : PreOrder ov_keep.
Proof.
  split; [by intros v; repeat split|].
  intros v1 v2 v3 (?&?&?&?&?&H12) (?&?&?&?&?&H23). repeat split; try congruence.
  intros Hs. specialize (H12 Hs) as ->. auto.
Qed.

(** Rows are kept in place; new ones come after them. *)
Definition ov_rows (l l' : list override_row) : Prop :=
  ∃ l1 l2, l' = l1 ++ l2 ∧ Forall2 ov_keep l l1.

Definition ov_evolve : relation db := λ d d',
  ids_unique d → ids_unique d' ∧ ov_rows (risk_override d) (risk_override d').

#[export] Instance ov_rows_preorder : PreOrder ov_rows.
Proof.
  split.
  - intros l. exists l, []. by rewrite app_nil_r.
  - intros l1 l2 l3 (a & b & -> & H1) (c & e & -> & H2).
    apply Forall2_app_inv_l in H2 as (c1 & c2 & Hc1 & Hc2 & ->).
    exists c1, (c2 ++ e). split; [by rewrite app_assoc|]. by etrans.
Qed.

#[export] Instance ov_evolve_preorder : PreOrder ov_evolve.
Proof.
  split; [by intros d ?|]. intros d1 d2 d3 H12 H23 H1.
  destruct (H12 H1) as [H2 R12]. destruct (H23 H2) as [H3 R23]. split; [done|by etrans].
Qed.

Lemma ov_same d d' : risk_override d' = risk_override d → ov_evolve d d'.
Proof. unfold ov_evolve, ids_unique. by intros ->. Qed.

Lemma ov_rows_lookup l l' v :
  ov_rows l l' → v ∈ l → ∃ v', v' ∈ l' ∧ ov_keep v v'.
Proof.
  intros (l1 & l2 & -> & HF) [i Hi]%list_elem_of_lookup.
  destruct (Forall2_lookup_l _ _ _ _ _ HF Hi) as (v' & Hv' & Hk).
  exists v'. split; [|done]. apply elem_of_app. left. by eapply list_elem_of_lookup_2.
Qed.

(** An update of reserved rows that keeps the identifying columns. *)
Lemma ov_update p f d :
  (∀ v, p v = true → v ∈ risk_override d → v_state v = Reserved) →
  (∀ v, v_override_id (f v) = v_override_id v ∧ v_account_id (f v) = v_account_id v ∧
        v_policy_version (f v) = v_policy_version v ∧
        v_idempotency_key (f v) = v_idempotency_key v ∧ v_expires_at (f v) = v_expires_at v) →
  ov_evolve d (set_risk_override (update_where p f) d).
Proof.
  intros Hp Hf Hu. unfold ids_unique in *. simpl. split.
  - rewrite map_update_where; [done|]. intros v. apply Hf.
  - exists (update_where p f (risk_override d)), []. rewrite app_nil_r. split; [done|].
    clear Hu. revert Hp. induction (risk_override d) as [|v l IH]; intros Hp; constructor;
      [|apply IH; intros; apply Hp; [done|by right]].
    destruct (p v) eqn:E; [|done].
    destruct (Hf v) as (?&?&?&?&?). split_and!; try done.
    intros Hs. destruct Hs. apply Hp; [done|]. by left.
Qed.

Lemma override_unique d v v' :
  ids_unique d → v ∈ risk_override d → v' ∈ risk_override d →
  v_override_id v = v_override_id v' → v = v'.
Proof.
  intros Hn [i Hi]%list_elem_of_lookup [j Hj]%list_elem_of_lookup Heq.
  assert (i = j) as ->; [|congruence].
  eapply (NoDup_lookup _ _ _ (v_override_id v) Hn); rewrite list_lookup_fmap.
  - by rewrite Hi.
  - by rewrite Hj, Heq.
Qed.

(** Updating row by row, by id, is one update of all the selected rows. *)
Lemma update_by_ids f (l rows : list override_row) :
  (∀ v, v_override_id (f v) = v_override_id v) → NoDup (map v_override_id rows) →
  foldl (λ l v, update_where (is_override (v_override_id v)) f l) l rows =
  update_where (λ x, bool_decide (v_override_id x ∈ map v_override_id rows)) f l.
Proof.
  intros Hf. revert l. induction rows as [|r rows IH]; intros l; cbn [map foldl].
  - intros _. symmetry. apply update_where_none, Forall_forall. intros x _.
    apply bool_decide_eq_false_2. apply not_elem_of_nil.
  - intros [Hr Hn]%NoDup_cons. rewrite IH, update_where_twice by done.
    unfold update_where. apply list_fmap_ext. intros i x _. cbv zeta.
    unfold is_override. destruct (String.eqb_spec (v_override_id x) (v_override_id r)) as [E|E].
    + rewrite Hf, !E, (bool_decide_eq_false_2 _ Hr).
      rewrite bool_decide_eq_true_2 by (by left). done.
    + rewrite (bool_decide_ext (v_override_id x ∈ v_override_id r :: map v_override_id rows)
        (v_override_id x ∈ map v_override_id rows)); [done|].
      rewrite elem_of_cons. naive_solver.
Qed.

Lemma update_filtered d stale f :
  ids_unique d →
  update_where (λ x, bool_decide (v_override_id x ∈
      map v_override_id (List.filter stale (risk_override d)))) f (risk_override d) =
  update_where stale f (risk_override d).
Proof.
  intros Hu. apply update_where_ext. intros x Hx.
  destruct (stale x) eqn:E.
  - apply bool_decide_eq_true_2, list_elem_of_fmap_2, elem_of_filter_b. done.
  - apply bool_decide_eq_false_2. intros (y & Hy & Hin)%list_elem_of_fmap.
    apply elem_of_filter_b in Hin as [Hin Hs].
    rewrite (override_unique d x y Hu Hx Hin Hy) in E. congruence.
Qed.

Section Steps.
Context {X : Type} `{Ext X, PyEnv}.

(** The store with its overrides and audit log replaced. *)
Definition with_overrides (w : world X) (l : list override_row) (log : list audit_row) (x : X) : world X :=
  mk_world (set_audit_log (λ _, log) (set_risk_override (λ _, l) (w_db w))) (w_closed w) x (w_trace w).

Ltac wpr := repeat first [ wp1 | apply wp_audit; intros ? ? (? & ? & ->) ].

Lemma wp_close_rows now reason actor rows n w :
  wp (foldM (λ n v,
      db_modify (set_risk_override (update_where (is_override (v_override_id v)) (close_override now reason)));;
      audit actor "risk_override_reconciled"
        [("override_id", PStr (v_override_id v)); ("account_id", PStr (v_account_id v));
         ("reason", PStr reason)];;
      mret (S n)) n rows)
    (λ r w', match r with
     | Ok n' => n' = (n + length rows)%nat ∧ ∃ log x, w' = with_overrides w
         (foldl (λ l v, update_where (is_override (v_override_id v)) (close_override now reason) l)
            (risk_override (w_db w)) rows) log x
     | Err _ => True
     end) w.
Proof.
  revert n w. induction rows as [|v rows IH]; intros n w; cbn [foldM foldl length].
  - apply wp_ret. split; [lia|]. exists (audit_log (w_db w)), (w_ext w).
    unfold with_overrides. destruct w as [[] ? ? ?]. done.
  - wpr; try done. eapply wp_mono; [apply IH|]. intros [n'|e] w'; [|done].
    intros (-> & log & x' & ->). split; [lia|]. by exists log, x'.
Qed.

Lemma wp_close stale now reason actor w :
  ids_unique (w_db w) →
  wp (close_overrides stale now reason actor) (λ r w', match r with
    | Ok n => n = count_where stale (risk_override (w_db w)) ∧ ∃ log x, w' = with_overrides w
        (update_where stale (close_override now reason) (risk_override (w_db w))) log x
    | Err _ => True
    end) w.
Proof.
  intros Hu. unfold close_overrides. wpr. eapply wp_mono; [apply wp_close_rows|].
  intros [n|e] w'; [|done]. intros (-> & log & x & ->). split; [done|]. exists log, x.
  rewrite update_by_ids, update_filtered; [done|done|done|].
  unfold ids_unique in Hu. revert Hu. generalize (risk_override (w_db w)).
  induction l as [|v l IH]; simpl; [done|]. intros [Hv Hn]%NoDup_cons.
  destruct (stale v); cbn [map]; [|auto]. apply NoDup_cons. split; [|auto].
  intros (y & Hy & Hin)%list_elem_of_fmap. apply elem_of_filter_b in Hin as [Hin _].
  apply Hv. rewrite Hy. by apply list_elem_of_fmap_2.
Qed.

(** *** Every operation *)

Inductive policy_op :=
| OpSetPolicy (account_id : pyval) (args : set_policy_args) (actor : string)
| OpCreateOverride (account_id reason scope key : pyval) (actor : string) (expires : pyval) (ttl : Z)
| OpConsume (account_id : pyval) (version : Z) (idem : pyval) (now : option Z)
| OpReconcile (now : option Z).

(** The override an operation consumed, if any. *)
Definition run_policy_op (op : policy_op) : M X (option override_row) :=
  match op with
  | OpSetPolicy a args actor => set_risk_policy a args actor;; mret None
  | OpCreateOverride a r s k actor e t => create_override a r s k actor e t;; mret None
  | OpConsume a v i now => consume_override a v i now
  | OpReconcile now => reconcile_overrides now;; mret None
  end.

(** The store of a world that came from [w] by evolving the overrides. *)
Definition evolved (w w' : world X) : Prop :=
  ids_unique (w_db w') ∧ ov_rows (risk_override (w_db w)) (risk_override (w_db w')).

Lemma evolve_wp {A} (m : M X A) :
  (∀ w, ids_unique (w_db w) → wp m (λ _ w', evolved w w') w) → steps (on_db ov_evolve) m.
Proof. intros Hm w Hu. by apply (Hm w). Qed.

Lemma evolved_refl w w' :
  ids_unique (w_db w) → risk_override (w_db w') = risk_override (w_db w) → evolved w w'.
Proof. unfold evolved, ids_unique. by intros ? ->. Qed.

Lemma evolved_update p f w w' log x :
  ids_unique (w_db w) → risk_override (w_db w') = risk_override (w_db w) →
  (∀ v, p v = true → v ∈ risk_override (w_db w) → v_state v = Reserved) →
  (∀ v, v_override_id (f v) = v_override_id v ∧ v_account_id (f v) = v_account_id v ∧
        v_policy_version (f v) = v_policy_version v ∧
        v_idempotency_key (f v) = v_idempotency_key v ∧ v_expires_at (f v) = v_expires_at v) →
  evolved w (with_overrides w' (update_where p f (risk_override (w_db w'))) log x).
Proof. intros Hu Heq Hp Hf. unfold with_overrides. rewrite Heq. by apply (ov_update p f (w_db w) Hp Hf). Qed.

Lemma evolved_insert v w w' log x :
  ids_unique (w_db w) → risk_override (w_db w') = risk_override (w_db w) →
  existsb (is_override (v_override_id v)) (risk_override (w_db w)) = false →
  evolved w (with_overrides w' (risk_override (w_db w') ++ [v]) log x).
Proof.
  intros Hu Heq Hv. unfold with_overrides, evolved, ids_unique in *. simpl. rewrite Heq. split.
  - rewrite map_app. apply NoDup_app. split_and!; [done| |apply NoDup_singleton].
    intros i Hi ->%list_elem_of_singleton. apply list_elem_of_fmap in Hi as (y & Hy & Hin).
    assert (existsb (is_override (v_override_id v)) (risk_override (w_db w)) = true); [|congruence].
    apply existsb_exists. exists y. split; [by apply list_elem_of_In|].
    unfold is_override. rewrite Hy. apply String.eqb_refl.
  - exists (risk_override (w_db w)), [v]. done.
Qed.

Lemma reserved_state v : reserved v = true → v_state v = Reserved.
Proof. apply bool_decide_eq_true_1. Qed.

(** Closing some of the reserved rows, inside a transaction. *)
Lemma close_evolve stale now reason actor w w0 :
  ids_unique (w_db w) → risk_override (w_db w0) = risk_override (w_db w) →
  (∀ v, stale v = true → reserved v = true) →
  wp (close_overrides stale now reason actor) (λ r w', match r with
    | Ok _ => evolved w w' ∧ risk_policy (w_db w') = risk_policy (w_db w0) ∧
        accounts (w_db w') = accounts (w_db w0) ∧
        risk_override (w_db w') = update_where stale (close_override now reason) (risk_override (w_db w))
    | Err _ => True end) w0.
Proof.
  intros Hu Heq Hs. eapply wp_mono.
  - apply wp_close. unfold ids_unique. by rewrite Heq.
  - intros [n|e] w'; [|done]. intros (_ & log & x & ->). split_and!; [|done|done|by rewrite <- Heq].
    apply evolved_update; [done|done| |done]. intros v Hv _. by apply reserved_state, Hs.
Qed.

Lemma steps_now_or R `{!WRel R} now : steps R (now_or (X:=X) now).
Proof. unfold now_or. walk. Qed.

(** The argument checks before a transaction. *)
Ltac lifts := repeat first
  [ apply steps_bind; [tc_solve|apply steps_lift; tc_solve|intros ?]
  | apply steps_bind; [tc_solve|apply steps_now_or; tc_solve|intros ?] ].

Lemma reconcile_evolve now : steps (on_db ov_evolve) (reconcile_overrides now).
Proof.
  unfold reconcile_overrides. lifts. apply evolve_wp. intros w Hu. apply wp_db_write; intros _; [by apply evolved_refl|].
  eapply wp_mono; [apply (close_evolve _ _ _ _ w w); [done|done|]|].
  - unfold expired_override. by intros v [? _]%andb_true_iff.
  - intros [n|e] w'; [naive_solver|]. intros _. by apply evolved_refl.
Qed.

Lemma wp_upsert aid n a s cn ca cs row Q w :
  (∀ r t x f, (∃ row' changed, r = Ok (row', changed)) → 
     Q r (mk_world (set_risk_policy_rows f (w_db w)) (w_closed w) x t)) →
  wp (upsert_policy aid n a s cn ca cs row) Q w.
Proof. intros HQ. unfold upsert_policy. wpr; apply HQ; eauto. Qed.

Lemma set_policy_evolve a args actor : steps (on_db ov_evolve) (set_risk_policy a args actor).
Proof.
  unfold set_risk_policy. lifts. apply evolve_wp. intros w Hu. apply wp_db_write; intros _;
    [by apply evolved_refl|].
  wpr; try (by apply evolved_refl). apply wp_upsert. intros r t x f (row' & changed & ->).
  destruct changed; wpr; try (by apply evolved_refl).
  unfold _reconcile_stale_overrides. wpr. eapply wp_mono.
  - apply (close_evolve _ _ _ _ w); [done|done|].
    unfold stale_override. by intros v [[_ ?]%andb_true_iff _]%andb_true_iff.
  - intros [k|e] w'; [|intros _; by apply evolved_refl]. intros [[Hu' Hr] _].
    wpr; try (by apply evolved_refl); by split.
Qed.

Lemma find_consumable_Some aid version now d c :
  find_consumable aid version now d = Some c →
  c ∈ risk_override d ∧ consumable aid version now c = true.
Proof.
  unfold find_consumable. intros Hh. assert (c ∈ order_by v_created_at
    (List.filter (consumable aid version now) (risk_override d))) as Hc.
  { destruct (order_by _ _); simplify_eq/=. left. }
  by apply elem_of_order_by, elem_of_filter_b in Hc.
Qed.

Lemma count_by_id (p : override_row → bool) (l : list override_row) c :
  NoDup (map v_override_id l) → c ∈ l → p c = true →
  count_where (λ v, is_override (v_override_id c) v && p v) l = 1%nat.
Proof.
  unfold count_where. induction l as [|v l IH]; [by intros ? ?%not_elem_of_nil|].
  cbn [map]. intros [Hv Hn]%NoDup_cons Hc Hp. simpl. unfold is_override at 1.
  destruct (String.eqb_spec (v_override_id v) (v_override_id c)) as [E|E].
  - assert (c = v) as ->.
    { apply elem_of_cons in Hc as [?|Hc]; [done|]. destruct Hv. rewrite E. by apply list_elem_of_fmap_2. }
    rewrite Hp. cbn [andb length]. f_equal. apply count_where_0, Forall_forall. intros x Hx.
    unfold is_override. destruct (String.eqb_spec (v_override_id x) (v_override_id v)) as [E'|]; [|done].
    destruct Hv. rewrite <- E'. by apply list_elem_of_fmap_2.
  - cbn [andb]. apply IH; [done| |done]. apply elem_of_cons in Hc as [->|?]; [done|done].
Qed.

(** What a consumption does, inside its transaction. *)
Lemma wp_consume aid version now idem w :
  ids_unique (w_db w) →
  wp (_consume aid version now idem) (λ r w', match r with
    | Ok (Some v) => ∃ c, find_consumable aid version now (w_db w) = Some c ∧
        v = apply_override now idem c ∧ evolved w w' ∧ v ∈ risk_override (w_db w')
    | Ok None => evolved w w' ∧ find_consumable aid version now (w_db w) = None ∧ w' = w
    | Err _ => True end) w.
Proof.
  intros Hu. unfold _consume. apply wp_bind, wp_db_read.
  destruct (find_consumable _ _ _ _) as [c|] eqn:Hf; [|apply wp_ret; by repeat split].
  destruct (find_consumable_Some _ _ _ _ _ Hf) as [Hin Hc].
  pose proof Hc as [[[_ Hr]%andb_true_iff _]%andb_true_iff _]%andb_true_iff.
  change (id (w_db w)) with (w_db w). rewrite count_by_id by done. cbn [negb Nat.eqb].
  apply wp_bind, wp_db_modify, wp_bind, wp_audit. intros [u|e] w' (log & x & ->); [|done].
  apply wp_ret. exists c. split_and!; [done|done| |].
  - apply (evolved_update (λ v, is_override (v_override_id c) v && reserved v) _ w w log x);
      [done|done| |done].
    intros v [_ Hv]%andb_true_iff _. by apply reserved_state.
  - simpl. apply elem_of_update_where. exists c. split; [done|].
    unfold is_override. by rewrite String.eqb_refl, Hr.
Qed.

Lemma consume_evolve a v i now : steps (on_db ov_evolve) (consume_override a v i now).
Proof.
  unfold consume_override. lifts. apply evolve_wp; intros w Hu.
  apply wp_db_write; intros _; [by apply evolved_refl|].
  eapply wp_mono; [by apply wp_consume|]. intros [[c|]|e] w'; [naive_solver..|].
  intros _. by apply evolved_refl.
Qed.

Lemma create_evolve a r s k actor e t : steps (on_db ov_evolve) (create_override a r s k actor e t).
Proof.
  unfold create_override. lifts. apply steps_bind; [tc_solve|walk|intros key]. lifts.
  apply steps_bind; [tc_solve|walk|intros now]. lifts.
  apply steps_bind; [tc_solve|apply steps_attempt|intros; walk].
  apply evolve_wp; intros w Hu. apply wp_db_write; intros _; [by apply evolved_refl|].
  unfold insert_override. wpr; try (by apply evolved_refl).
  all: apply orb_false_iff in Heqb as [Hv _]; by apply (evolved_insert _ w w).
Qed.

(** *** At most one consumption *)

Definition consumed_from (w w' : world X) (v : override_row) : Prop :=
  v ∈ risk_override (w_db w') ∧ v_state v = Applied ∧
  ∃ c, c ∈ risk_override (w_db w) ∧ v_override_id c = v_override_id v ∧ v_state c = Reserved.

Lemma policy_op_run op w :
  ids_unique (w_db w) →
  wp (run_policy_op op) (λ r w', evolved w w' ∧
    match r with Ok (Some v) => consumed_from w w' v | _ => True end) w.
Proof.
  intros Hu.
  assert (∀ A (m : M X A), steps (on_db ov_evolve) m →
    wp (m;; mret None) (λ r w', evolved w w' ∧
      match r with Ok (Some v) => consumed_from w w' v | _ => True end) w) as Hq.
  { intros A m Hm. apply wp_bind. eapply wp_steps; [exact Hm|].
    intros [a|e] w' Hw; [apply wp_ret|]; split; try exact (Hw Hu); exact I. }
  destruct op as [a args actor|a r s k actor e t|a v i now|now]; cbn [run_policy_op].
  - apply Hq, set_policy_evolve.
  - apply Hq, create_evolve.
  - unfold consume_override. apply wp_bind, wp_lift.
    destruct (require_str a) as [aid|]; [|split; [by apply evolved_refl|exact I]].
    apply wp_bind, wp_lift.
    destruct (require_str i) as [idem|]; [|split; [by apply evolved_refl|exact I]].
    apply wp_bind. apply (wp_steps (on_db eq)); [apply steps_now_or; tc_solve|].
    intros r w1 E1. unfold on_db in E1.
    destruct r as [t|e]; [|split; [apply evolved_refl; [done|by rewrite E1]|exact I]].
    apply wp_db_write; intros _; [split; [apply evolved_refl; [done|by rewrite E1]|exact I]|].
    unfold ids_unique in Hu. rewrite E1 in Hu.
    eapply wp_mono; [by apply wp_consume|]. unfold evolved, consumed_from. rewrite !E1.
    intros [[c|]|e] w'; [|naive_solver|]; [|intros _; split; [by split|done]].
    intros (c0 & Hf & -> & He & Hin). destruct (find_consumable_Some _ _ _ _ _ Hf) as [Hc0 Hc].
    apply andb_true_iff in Hc as [[[_ Hr]%andb_true_iff _]%andb_true_iff _].
    split; [done|]. split_and!; [done|done|]. exists c0. split_and!; [done|done|].
    by apply reserved_state.
  - apply Hq, reconcile_evolve.
Qed.

(** A sequence of operations, from any mix of callers; the overrides consumed. *)
Fixpoint run_policy_ops (ops : list policy_op) : M X (list override_row) :=
  match ops with
  | [] => mret []
  | op :: ops' =>
      r ← attempt (run_policy_op op);
      rest ← run_policy_ops ops';
      mret (match r with Ok (Some v) => v :: rest | _ => rest end)
  end.

Lemma run_policy_ops_spec ops w :
  ids_unique (w_db w) →
  wp (run_policy_ops ops) (λ r w', ∃ l, r = Ok l ∧ NoDup (map v_override_id l) ∧
    ∀ v c, v ∈ l → c ∈ risk_override (w_db w) → v_override_id c = v_override_id v →
      v_state c = Reserved) w.
Proof.
  revert w. induction ops as [|op ops IH]; intros w Hu; cbn [run_policy_ops].
  - apply wp_ret. exists []. split_and!; [done|apply NoDup_nil_2|by intros ? ? ?%not_elem_of_nil].
  - apply wp_bind, wp_attempt. eapply wp_mono; [by apply policy_op_run|].
    intros r w1 [[Hu1 Hrows] Hr]. apply wp_bind. eapply wp_mono; [by apply IH|].
    intros ? w2 (l & -> & Hn & Hl). apply wp_ret.
    assert (∀ v c, v ∈ l → c ∈ risk_override (w_db w) → v_override_id c = v_override_id v →
      v_state c = Reserved) as Hold.
    { intros v c Hv Hc Hid. destruct (ov_rows_lookup _ _ _ Hrows Hc) as (c' & Hc' & Hk).
      destruct (decide (v_state c = Reserved)) as [|Hs]; [done|].
      destruct Hk as (Hid' & _ & _ & _ & _ & Heq). rewrite (Heq Hs) in *. by apply (Hl v). }
    destruct r as [[v|]|e]; eexists; split_and!; try done.
    + cbn [map]. apply NoDup_cons. split; [|done].
      intros (v' & Hid & Hv')%list_elem_of_fmap. destruct Hr as (Hin & Happ & _).
      rewrite (Hl v' v Hv' Hin Hid) in Happ. done.
    + intros v' c Hv' Hc Hid. apply elem_of_cons in Hv' as [->|?]; [|by eapply Hold].
      destruct Hr as (_ & _ & c0 & Hc0 & Hid0 & Hres).
      by rewrite (override_unique (w_db w) c c0 Hu Hc Hc0) by congruence.
Qed.

(** C37: however many orders try, in whatever order with other operations of the
    service and with failures on the way, no override is consumed twice, and
    none that was already applied or reconciled is consumed at all. *)
Theorem override_consumed_at_most_once ops (w : world X) :
  ids_unique (w_db w) →
  ∃ l w', run_policy_ops ops w = (Ok l, w') ∧ NoDup (map v_override_id l) ∧
    ∀ v c, v ∈ l → c ∈ risk_override (w_db w) → v_override_id c = v_override_id v →
      v_state c = Reserved.
Proof.
  intros Hu. pose proof (run_policy_ops_spec ops w Hu) as Hw. unfold wp in Hw.
  destruct (run_policy_ops ops w) as [r w']. simpl in Hw. destruct Hw as (l & -> & ?). by exists l, w'.
Qed.

(** *** What a consumption and a reservation promise *)

Lemma order_by_head {A} (key : A → Z) l x :
  head (order_by key l) = Some x → Forall (λ y, key x <= key y)%Z l.
Proof.
  revert x. induction l as [|a l IH]; intros x; [constructor|]. simpl. fold (order_by key l).
  destruct (order_by key l) as [|y m] eqn:E; simpl.
  - intros [= <-]. destruct l as [|b l]; [repeat constructor; lia|].
    assert (b ∈ order_by key (b :: l)) as Hb by (apply elem_of_order_by; left).
    rewrite E in Hb. by apply not_elem_of_nil in Hb.
  - specialize (IH y eq_refl). destruct (Z.leb_spec (key a) (key y)); simpl; intros [= <-];
      constructor; try lia; [|done]. eapply Forall_impl; [exact IH|]. simpl. lia.
Qed.

Lemma find_consumable_None aid version now d :
  find_consumable aid version now d = None →
  ∀ c, c ∈ risk_override d → consumable aid version now c = false.
Proof.
  unfold find_consumable. intros Hh c Hc. destruct (consumable aid version now c) eqn:E; [|done].
  assert (c ∈ order_by v_created_at
    (List.filter (consumable aid version now) (risk_override d))) as Hin
    by by apply elem_of_order_by, elem_of_filter_b.
  destruct (order_by _ _); [by apply not_elem_of_nil in Hin|done].
Qed.

(** [consume_override] takes the oldest override that is reserved, unexpired,
    of the same account and of the given policy version, and marks it applied;
    it answers [None], changing nothing, exactly when there is none; when it
    raises, the store is unchanged. *)
Theorem consume_override_spec account version idem now (w : world X) :
  ids_unique (w_db w) →
  match consume_override (PStr account) version (PStr idem) (Some now) w with
  | (Ok (Some v), w') => ∃ c, c ∈ risk_override (w_db w) ∧
      v_account_id c = Str.strip account ∧ v_state c = Reserved ∧
      v_policy_version c = version ∧ (now < v_expires_at c)%Z ∧
      (∀ c', c' ∈ risk_override (w_db w) → consumable (Str.strip account) version now c' = true →
         v_created_at c <= v_created_at c')%Z ∧
      v = apply_override now idem c ∧ v ∈ risk_override (w_db w')
  | (Ok None, w') => w' = w ∧
      ∀ c, c ∈ risk_override (w_db w) → consumable (Str.strip account) version now c = false
  | (Err _, w') => w_db w' = w_db w
  end.
Proof.
  intros Hu.
  enough (wp (consume_override (PStr account) version (PStr idem) (Some now)) (λ r w', match r with
    | Ok (Some v) => ∃ c, find_consumable (Str.strip account) version now (w_db w) = Some c ∧
        v = apply_override now idem c ∧ evolved w w' ∧ v ∈ risk_override (w_db w')
    | Ok None => evolved w w' ∧ find_consumable (Str.strip account) version now (w_db w) = None ∧ w' = w
    | Err _ => w_db w' = w_db w end) w) as Hwp.
  { revert Hwp. unfold wp. destruct (consume_override _ _ _ _ w) as [[[v|]|e] w']; simpl; [| |done].
    - intros (c & Hf & Hv & _ & Hin). exists c.
      destruct (find_consumable_Some _ _ _ _ _ Hf) as [Hc Hp].
      apply andb_true_iff in Hp as [[[Ha%String.eqb_eq Hr%reserved_state]%andb_true_iff
        Hver%Z.eqb_eq]%andb_true_iff Hexp%Z.ltb_lt].
      split_and!; try done. intros c' Hc' Hp'. unfold find_consumable in Hf.
      apply order_by_head in Hf. rewrite Forall_forall in Hf. apply Hf. by apply elem_of_filter_b.
    - intros (_ & Hf & ->). split; [done|]. by apply find_consumable_None. }
  unfold consume_override. apply wp_bind, wp_lift. cbn [require_str].
  destruct (Str.empty (Str.strip account)); [done|]. cbn [raise].
  apply wp_bind, wp_lift. destruct (Str.empty (Str.strip idem)); [done|]. cbn [raise].
  apply wp_bind, wp_ret, wp_db_write; [done|]. intros _.
  eapply wp_mono; [by apply wp_consume|]. intros [[c|]|e] w'; done.
Qed.

Lemma require_str_inv s t : require_str (PStr s) = Ok t → t = Str.strip s.
Proof. simpl. destruct (Str.empty (Str.strip s)); [done|]. by intros [= <-]. Qed.

Lemma find_snoc {A} (p : A → bool) l x :
  List.find p l = None → p x = true → List.find p (l ++ [x]) = Some x.
Proof.
  intros Hl Hx. induction l as [|y l IH]; simpl in *; [by rewrite Hx|]. destruct (p y); [done|auto].
Qed.

#[local] Arguments require_str : simpl never.

(** Reserving an override is idempotent in the account and the key: once a
    call has returned an override, a repeated call, whatever its other arguments,
    changes nothing and returns the same override if it returns at all. *)
Theorem create_override_idempotent account key reason scope actor expires ttl
    reason' scope' actor' expires' ttl' (w w1 : world X) v :
  create_override account reason scope (PStr key) actor expires ttl w = (Ok v, w1) →
  let '(r, w2) := create_override account reason' scope' (PStr key) actor' expires' ttl' w1 in
  w_db w2 = w_db w1 ∧ match r with Ok v' => v' = v | Err _ => True end.
Proof.
  intros Hrun.
  assert (∃ aid acc, require_str account = Ok aid ∧ find_account aid (w_db w1) = Some acc ∧
    List.find (same_override_key aid (Str.strip key)) (risk_override (w_db w1)) = Some v)
    as (aid & acc & Haid & Hacc & Hfind).
  { refine (wp_run _ (λ r w1, match r with Ok v => ∃ aid acc, require_str account = Ok aid ∧
        find_account aid (w_db w1) = Some acc ∧ List.find (same_override_key aid (Str.strip key))
          (risk_override (w_db w1)) = Some v | Err _ => True end) _ _ _ _ Hrun).
    unfold create_override, insert_override.
    wpr; simplify_eq/=; try done.
    all: match goal with Hk : require_str (PStr _) = Ok _ |- _ => apply require_str_inv in Hk as -> end.
    all: do 2 eexists; split_and!; [done|done|].
    - done.
    - apply find_snoc; [done|]. unfold same_override_key. simpl. by rewrite !String.eqb_refl. }
  enough (wp (create_override account reason' scope' (PStr key) actor' expires' ttl')
    (λ r w2, w_db w2 = w_db w1 ∧ match r with Ok v' => v' = v | Err _ => True end) w1) as Hwp
    by (revert Hwp; unfold wp; by destruct (create_override _ _ _ _ _ _ _ w1)).
  unfold create_override, insert_override. rewrite Haid. apply wp_bind, wp_lift.
  wpr; simplify_eq/=; try done.
  all: match goal with Hk : require_str (PStr _) = Ok _ |- _ => apply require_str_inv in Hk as -> end.
  all: first [congruence|split; [done|congruence]].
Qed.

(** *** Policy versions *)

Definition policy_version_of (aid : string) (d : db) : Z :=
  match find_policy aid d with Some p => p_policy_version p | None => 0%Z end.

Lemma find_policy_update aid aid' f l :
  (∀ r, p_account_id (f r) = p_account_id r) →
  List.find (is_policy aid') (update_where (is_policy aid) f l) =
  (if String.eqb aid' aid then f <$> List.find (is_policy aid') l else List.find (is_policy aid') l).
Proof.
  intros Hf. unfold is_policy, update_where, fmap at 1.
  induction l as [|r l IH]; simpl; [by destruct (_ =? _)%string|]. rewrite IH. clear IH.
  destruct (String.eqb_spec (p_account_id r) aid) as [<-|E]; rewrite ?Hf.
  - rewrite (String.eqb_sym aid' (p_account_id r)).
    by destruct (String.eqb_spec (p_account_id r) aid').
  - destruct (String.eqb_spec (p_account_id r) aid') as [<-|E'].
    + apply String.eqb_neq in E. by rewrite E.
    + done.
Qed.

Lemma find_policy_snoc aid aid' r l :
  p_account_id r = aid → List.find (is_policy aid) l = None →
  List.find (is_policy aid') (l ++ [r]) =
  (if String.eqb aid' aid then Some r else List.find (is_policy aid') l).
Proof.
  intros Hr. unfold is_policy. induction l as [|y l IH]; simpl.
  - intros _. rewrite Hr, String.eqb_sym. by destruct (String.eqb aid' aid).
  - destruct (String.eqb_spec (p_account_id y) aid) as [E|E]; [done|]. intros Hl. rewrite IH by done.
    destruct (String.eqb_spec (p_account_id y) aid') as [<-|E']; [|done].
    apply String.eqb_neq in E. by rewrite E.
Qed.

(** The policy row after [upsert_policy]. *)
Lemma upsert_spec aid n a s cn ca cs w :
  wp (upsert_policy aid n a s cn ca cs (find_policy aid (w_db w))) (λ r w',
    ∃ row changed l x, r = Ok (row, changed) ∧
      w' = mk_world (set_risk_policy_rows (λ _, l) (w_db w)) (w_closed w) x (w_trace w) ∧
      (∀ aid', List.find (is_policy aid') l =
         if String.eqb aid' aid then Some row else find_policy aid' (w_db w)) ∧
      p_policy_version row = (policy_version_of aid (w_db w) + if changed then 1 else 0)%Z) w.
Proof.
  unfold upsert_policy, policy_version_of. destruct (find_policy aid (w_db w)) as [row|] eqn:Hf.
  - destruct (merge_policy row n a s cn ca cs) as [[[n' a'] s'] changed].
    assert (∀ t (w0 : world X), w_db w0 = w_db w → w_closed w0 = w_closed w → w_trace w0 = w_trace w →
      let upd r := mk_policy (p_account_id r) n' a' s'
        (if changed then (p_policy_version row + 1)%Z else p_policy_version row) (p_created_at r) t in
      wp (db_modify (set_risk_policy_rows (update_where (is_policy aid) upd));; mret (upd row, changed))
       (λ r w', ∃ row' changed' l x, r = Ok (row', changed') ∧
      w' = mk_world (set_risk_policy_rows (λ _, l) (w_db w)) (w_closed w) x (w_trace w) ∧
      (∀ aid', List.find (is_policy aid') l =
         if String.eqb aid' aid then Some row' else find_policy aid' (w_db w)) ∧
      p_policy_version row' = (p_policy_version row + if changed' then 1 else 0)%Z) w0) as Hwr.
    { intros t w0 Hd Hc Ht upd. apply wp_bind, wp_db_modify, wp_ret. eexists _, _, _, (w_ext w0).
      split_and!; [done|by rewrite <- Hd, <- Hc, <- Ht| |].
      - intros aid'. rewrite Hd, find_policy_update by done. unfold find_policy in *.
        destruct (String.eqb_spec aid' aid) as [->|]; [by rewrite Hf|done].
      - simpl. destruct changed; lia. }
    destruct changed; wpr; by apply Hwr.
  - wpr. eexists _, _, _, _. split_and!; [done|done| |done].
    intros aid'. by rewrite (find_policy_snoc aid).
Qed.

(** A successful [set_risk_policy] bumps the policy version by one exactly
    when it reports a change, touches no other account's policy, and leaves no
    reserved override of the account behind with an older version; when it
    raises, the store is unchanged. *)
Theorem set_risk_policy_spec account args actor (w : world X) :
  ids_unique (w_db w) →
  match set_risk_policy (PStr account) args actor w with
  | (Ok res, w') => let aid := Str.strip account in
      ∃ row, find_policy aid (w_db w') = Some row ∧ spr_caps res = policy_of row ∧
      spr_version res = p_policy_version row ∧
      spr_version res = (policy_version_of aid (w_db w) + if spr_changed res then 1 else 0)%Z ∧
      (∀ aid', aid' ≠ aid → find_policy aid' (w_db w') = find_policy aid' (w_db w)) ∧
      (spr_changed res = true → ∀ v, v ∈ risk_override (w_db w') → v_account_id v = aid →
         v_state v = Reserved → v_policy_version v = spr_version res)
  | (Err _, w') => w_db w' = w_db w
  end.
Proof.
  intros Hu.
  assert (wp (set_risk_policy (PStr account) args actor) (λ r w', match r with
    | Ok res => let aid := Str.strip account in
      ∃ row, find_policy aid (w_db w') = Some row ∧ spr_caps res = policy_of row ∧
      spr_version res = p_policy_version row ∧
      spr_version res = (policy_version_of aid (w_db w) + if spr_changed res then 1 else 0)%Z ∧
      (∀ aid', aid' ≠ aid → find_policy aid' (w_db w') = find_policy aid' (w_db w)) ∧
      (spr_changed res = true → ∀ v, v ∈ risk_override (w_db w') → v_account_id v = aid →
         v_state v = Reserved → v_policy_version v = spr_version res)
    | Err _ => w_db w' = w_db w end) w) as Hwp;
    [|revert Hwp; unfold wp; by destruct (set_risk_policy _ _ _ w) as [[?|?] ?]].
  unfold set_risk_policy. wpr; simplify_eq/=; try done.
  match goal with Hk : require_str _ = Ok ?x |- _ => apply require_str_inv in Hk as -> end.
  eapply wp_mono; [apply upsert_spec|]. intros ? w1 (row & changed & l & x & -> & -> & Hl & Hver).
  assert (∀ d, accounts d = accounts d) as _ by done.
  destruct changed; simpl.
  - apply wp_bind. unfold _reconcile_stale_overrides. wpr; simplify_eq/=.
    eapply wp_mono; [by apply wp_close|]. intros [k|e] w2; [|done]. intros (_ & log & x' & ->).
    wpr; simplify_eq/=; try done.
    all: exists row; unfold find_policy; simpl; rewrite !Hl, String.eqb_refl; split_and!; try done.
    all: try (intros aid' Hne%String.eqb_neq; by rewrite Hl, Hne).
    all: intros _ v (v0 & Hv0 & ->)%elem_of_update_where; unfold stale_override;
      destruct (reserved v0) eqn:Hr; [|rewrite andb_false_r; simpl; intros _ Hs;
        apply bool_decide_eq_false_1 in Hr; done].
    all: destruct (String.eqb_spec (v_account_id v0) (Str.strip account)) as [Ha|Ha]; simpl; [|done].
    all: destruct (v_policy_version v0 =? p_policy_version row)%Z eqn:E; simpl; [|done].
    all: intros _ _; by apply Z.eqb_eq.
  - wpr; simplify_eq/=; try done.
    all: exists row; unfold find_policy; simpl; rewrite !Hl, String.eqb_refl; split_and!; try done.
    all: intros aid' Hne%String.eqb_neq; by rewrite Hl, Hne.
Qed.
End Steps.

(** ** Witnesses *)

#[local] Existing Instance outside_ext.
#[local] Existing Instance sample_env.

Definition sample_account (lock : trading_lock_t) : account_row :=
  mk_account "acc" "main" [] "spot" lock (Some "k") (Some "s") 0 0.
Definition sample_policy_world : world outside :=
  start (set_accounts (λ _, [sample_account Paper]) empty_db).
Definition sample_set_policy : set_policy_args :=
  mk_set_policy (PInt 100) PNone (PList [PStr " btcusdt "]) (PBool false) (PBool false) (PBool false).
Definition sample_create (key : string) (w : world outside) :=
  create_override (PStr "acc") (PStr "urgent") (PStr "next_order") (PStr key) "agent" PNone 60 w.

(** A policy, an override reserved under it. *)
Definition sample_reserved : world outside :=
  (sample_create "k1" (set_risk_policy (PStr "acc") sample_set_policy "agent" sample_policy_world).2).2.

Lemma override_consumed_at_most_once_witness :
  ∃ l w', run_policy_ops [OpConsume (PStr "acc") 1 (PStr "o1") None;
      OpConsume (PStr "acc") 1 (PStr "o2") None] sample_reserved = (Ok l, w') ∧
    NoDup (map v_override_id l) ∧
    ∀ v c, v ∈ l → c ∈ risk_override (w_db sample_reserved) →
      v_override_id c = v_override_id v → v_state c = Reserved.
Proof.
  apply override_consumed_at_most_once. unfold ids_unique.
  replace (map _ _) with ["id0"] by (vm_compute; reflexivity). apply NoDup_singleton.
Defined.

(** The first of the two orders gets the override, the second gets nothing. *)
Example sample_consumed :
  (λ r, match r with Ok l => map v_consumed_by_idem l | Err _ => [] end)
    (run_policy_ops [OpConsume (PStr "acc") 1 (PStr "o1") None;
       OpConsume (PStr "acc") 1 (PStr "o2") None] sample_reserved).1 = [Some "o1"].
Proof. vm_compute. reflexivity. Qed.

Lemma consume_override_spec_witness :
  match consume_override (PStr "acc") 1 (PStr "o1") (Some 1000%Z) sample_reserved with
  | (Ok (Some v), w') => ∃ c, c ∈ risk_override (w_db sample_reserved) ∧ v = apply_override 1000 "o1" c
  | _ => False
  end.
Proof.
  assert (ids_unique (w_db sample_reserved)) as Hu.
  { unfold ids_unique. replace (map _ _) with ["id0"] by (vm_compute; reflexivity). apply NoDup_singleton. }
  pose proof (consume_override_spec "acc" 1 "o1" 1000 sample_reserved Hu) as Hs. revert Hs.
  destruct (consume_override _ _ _ _ sample_reserved) as [[[v|]|e] w'] eqn:E.
  - intros (c & Hc & _ & _ & _ & _ & _ & Hv & _). exists c. split; [exact Hc|exact Hv].
  - exfalso. assert (is_ok (consume_override (PStr "acc") 1 (PStr "o1") (Some 1000%Z) sample_reserved).1 = true ∧
      (consume_override (PStr "acc") 1 (PStr "o1") (Some 1000%Z) sample_reserved).1 ≠ Ok None) as [_ Hn]
      by (split; [vm_compute; reflexivity|vm_compute; discriminate]).
    rewrite E in Hn. exact (Hn eq_refl).
  - exfalso. assert (is_ok (consume_override (PStr "acc") 1 (PStr "o1") (Some 1000%Z) sample_reserved).1 = true) as Hn
      by (vm_compute; reflexivity).
    rewrite E in Hn. discriminate Hn.
Defined.

Definition sample_override : override_row :=
  mk_override "id1" "acc" 1 "k2" "agent" "urgent" "next_order" Reserved 1000 1060 None None None None.

Definition sample_reserved2 : world outside := (sample_create "k2" sample_reserved).2.

Lemma create_override_idempotent_witness :
  let '(r, w2) := sample_create "k2" sample_reserved2 in
  w_db w2 = w_db sample_reserved2 ∧
  match r with Ok v' => v' = sample_override | Err _ => True end.
Proof.
  apply (create_override_idempotent (PStr "acc") "k2" (PStr "urgent") (PStr "next_order") "agent"
    PNone 60 (PStr "urgent") (PStr "next_order") "agent" PNone 60 sample_reserved).
  vm_compute. reflexivity.
Defined.

Lemma set_risk_policy_spec_witness :
  ∃ w' res, set_risk_policy (PStr "acc") sample_set_policy "agent" sample_policy_world = (Ok res, w') ∧
    spr_version res = (policy_version_of "acc" (w_db sample_policy_world)
                        + if spr_changed res then 1 else 0)%Z.
Proof.
  assert (ids_unique (w_db sample_policy_world)) as Hu by apply NoDup_nil_2.
  pose proof (set_risk_policy_spec "acc" sample_set_policy "agent" sample_policy_world Hu) as Hs.
  revert Hs. destruct (set_risk_policy _ _ _ _) as [[res|e] w'] eqn:E.
  - intros (row & _ & _ & _ & Hv & _). exists w', res. split; [reflexivity|exact Hv].
  - exfalso. assert (is_ok (set_risk_policy (PStr "acc") sample_set_policy "agent"
      sample_policy_world).1 = true) as Hn by (vm_compute; reflexivity).
    rewrite E in Hn. discriminate Hn.
Defined.
