(* ===== verification/Orders.v ===== *)
(** [storage/orders.py]: order execution.  Idempotency by the key of the order
    record, reconciliation after a timeout, balance and exposure gates, and the
    one chokepoint [_place_and_record] through which orders reach the exchange. *)

From Stdlib Require Import ZArith String.
From S2P Require Import Prelude PyFloat PyVal Errors Risk Sizing Validation Monad Broker Db Sample AuditLog Credentials Accounts RiskPolicy.
Import RiskCaps.
Local Open Scope string_scope.
Local Open Scope list_scope.

(** The daemon's market snapshot ([class MarketFeed(Protocol)]). *)
Class MarketFeed (X : Type) := {
  symbol_valid : string → ST X bool;
  price : string → ST X (option float);
  filters : string → ST X (option SymbolFilters) }.

(** [storage/orders.py] and its configuration. *)
Class OrderConfig := { default_fee_rate : float }.

(** Required numeric parameter. *)
Definition _require_number (value : pyval) : result float :=
  match value with
  | PNone | PBool _ => raise INVALID_REQUEST
  | _ =>
      match py_float value with
      | Err TypeError | Err ValueError => raise INVALID_REQUEST
      | Err e => Err e
      | Ok num => if negb (isfinite num) then raise INVALID_REQUEST else Ok num
      end
  end.

Definition _require_string (value : pyval) : result string :=
  match value with
  | PStr s => if Str.empty (Str.strip s) then raise INVALID_REQUEST else Ok (Str.strip s)
  | _ => raise INVALID_REQUEST
  end.

(** The result dict of one order. *)
Record exec_result := mk_exec {
  x_account_id : string;
  x_status : order_status;
  x_symbol : string;
  x_side : string;
  x_order_type : string;
  x_quantity : float;
  x_price : option float;
  x_stop_price : option float;
  x_stop_limit_price : option float;
  x_notional : float;
  x_order_id : string;
  x_exchange_order_id : option string;
  x_executed_qty : float;
  x_avg_price : float;
  x_equity_snapshot : float;
  x_position_size : option float;
  x_error : option ErrorCode }.

Definition _order_to_result (o : order_row) (position_size : option float) (error : option ErrorCode)
    : exec_result :=
  mk_exec (o_account_id o) (o_status o) (o_symbol o) (o_side o) (o_order_type o) (o_quantity o)
    (o_price o) (o_stop_price o) (o_stop_limit_price o) (o_notional o) (o_order_id o)
    (o_exchange_order_id o) (o_executed_qty o) (o_avg_price o) (o_equity_snapshot o)
    position_size error.

Definition status_str (s : order_status) : string :=
  match s with
  | NEW => "NEW" | PARTIALLY_FILLED => "PARTIALLY_FILLED" | FILLED => "FILLED"
  | CANCELED => "CANCELED" | REJECTED => "REJECTED" | EXPIRED => "EXPIRED"
  | UNKNOWN => "UNKNOWN" | PAPER => "paper" | RECONCILE_REQUIRED => "RECONCILE_REQUIRED"
  end.

Definition code_str (c : ErrorCode) : string :=
  match c with
  | INTERNAL_ERROR => "INTERNAL_ERROR" | INVALID_REQUEST => "INVALID_REQUEST"
  | UNAUTHORIZED => "UNAUTHORIZED" | NOT_READY => "NOT_READY"
  | TOOL_NOT_FOUND => "TOOL_NOT_FOUND" | INVALID_SYMBOL => "INVALID_SYMBOL"
  | STALE_DATA => "STALE_DATA" | RATE_LIMITED => "RATE_LIMITED" | TIMEOUT => "TIMEOUT"
  | INSUFFICIENT_BALANCE => "INSUFFICIENT_BALANCE"
  | PIPELINE_UNAVAILABLE => "PIPELINE_UNAVAILABLE"
  | ACCOUNT_NOT_FOUND => "ACCOUNT_NOT_FOUND" | ACCOUNT_EXISTS => "ACCOUNT_EXISTS"
  | ACCOUNT_IN_USE => "ACCOUNT_IN_USE" | ACCOUNT_NO_CREDENTIALS => "ACCOUNT_NO_CREDENTIALS"
  | CREDENTIAL_STORE_UNAVAILABLE => "CREDENTIAL_STORE_UNAVAILABLE"
  | CREDENTIAL_DECRYPT_FAILED => "CREDENTIAL_DECRYPT_FAILED"
  | RISK_LIMIT_EXCEEDED => "RISK_LIMIT_EXCEEDED" | SYMBOL_NOT_ALLOWED => "SYMBOL_NOT_ALLOWED"
  | OVERRIDE_NOT_AVAILABLE => "OVERRIDE_NOT_AVAILABLE"
  | TRADING_NOT_ENABLED => "TRADING_NOT_ENABLED" | FILTER_VIOLATION => "FILTER_VIOLATION"
  | ORDER_REJECTED => "ORDER_REJECTED" | ORDER_EXPIRED => "ORDER_EXPIRED"
  | ORDER_UNKNOWN => "ORDER_UNKNOWN" | ORDER_RECONCILE_REQUIRED => "ORDER_RECONCILE_REQUIRED"
  | ORDER_NOT_FOUND => "ORDER_NOT_FOUND" | NOT_IMPLEMENTED => "NOT_IMPLEMENTED"
  | NOT_FOUND => "NOT_FOUND"
  end.

(** The statuses whose notional counts as exposure, and that a retry queries. *)
Definition OPEN_OR_UNKNOWN : list order_status := [NEW; PARTIALLY_FILLED; UNKNOWN].

(** [WHERE order_id = ?] *)
Definition is_order (order_id : string) (o : order_row) : bool := String.eqb (o_order_id o) order_id.

Definition same_order_key (account_id idem : string) (o : order_row) : bool :=
  String.eqb (o_account_id o) account_id && String.eqb (o_idempotency_key o) idem.

(** [_load_order] *)
Definition _load_order (account_id idem : string) (d : db) : option order_row :=
  List.find (same_order_key account_id idem) (orders d).

(** [{**order, status: ..., ...}]: the columns an exchange answer fills in. *)
Definition with_fill (r : OrderResult) (o : order_row) : order_row :=
  mk_order (o_order_id o) (o_account_id o) (o_idempotency_key o) (o_symbol o) (o_side o)
    (o_order_type o) (o_quantity o) (o_price o) (o_stop_price o) (o_stop_limit_price o)
    (r_status r) (r_exchange_order_id r) (o_client_order_id o) (r_executed_qty r) (r_avg_price r)
    (o_fee o) (o_notional o) (o_reference_price o) (o_equity_snapshot o) (o_error_code o)
    (o_created_at o) (o_updated_at o).

(** [{**order, status: s, error_code: c, ...}]; [None] leaves the error code. *)
Definition with_status (s : order_status) (c : option ErrorCode) (o : order_row) : order_row :=
  mk_order (o_order_id o) (o_account_id o) (o_idempotency_key o) (o_symbol o) (o_side o)
    (o_order_type o) (o_quantity o) (o_price o) (o_stop_price o) (o_stop_limit_price o)
    s (o_exchange_order_id o) (o_client_order_id o) (o_executed_qty o) (o_avg_price o)
    (o_fee o) (o_notional o) (o_reference_price o) (o_equity_snapshot o)
    (match c with Some _ => c | None => o_error_code o end) (o_created_at o) (o_updated_at o).

Definition with_updated_at (t : Z) (o : order_row) : order_row :=
  mk_order (o_order_id o) (o_account_id o) (o_idempotency_key o) (o_symbol o) (o_side o)
    (o_order_type o) (o_quantity o) (o_price o) (o_stop_price o) (o_stop_limit_price o)
    (o_status o) (o_exchange_order_id o) (o_client_order_id o) (o_executed_qty o) (o_avg_price o)
    (o_fee o) (o_notional o) (o_reference_price o) (o_equity_snapshot o) (o_error_code o)
    (o_created_at o) t.

(** The arguments of [_insert_order]. *)
Record new_order := mk_new {
  n_account_id : string;
  n_idempotency_key : string;
  n_symbol : string;
  n_side : string;
  n_order_type : string;
  n_quantity : float;
  n_price : option float;
  n_stop_price : option float;
  n_stop_limit_price : option float;
  n_notional : float;
  n_reference_price : float;
  n_equity_snapshot : float;
  n_client_order_id : string }.

Definition order_of (n : new_order) (order_id : string) (status : order_status) (now : Z) : order_row :=
  mk_order order_id (n_account_id n) (n_idempotency_key n) (n_symbol n) (n_side n) (n_order_type n)
    (n_quantity n) (n_price n) (n_stop_price n) (n_stop_limit_price n) status None
    (n_client_order_id n) fzero fzero fzero (n_notional n) (n_reference_price n)
    (n_equity_snapshot n) None now now.

Section Orders.
Context {X : Type} `{Ext X, PyEnv, SecretStore X, OrderBroker X, MarketFeed X, OrderConfig}.

(** [INSERT INTO orders]: [order_id] and the pair of account and idempotency key
    are UNIQUE. *)
Definition _insert_order (n : new_order) (status : order_status) : M X order_row :=
  now ← time_now;
  order_id ← uuid4_hex;
  rows ← db_read orders;
  if existsb (is_order order_id) rows
     || existsb (same_order_key (n_account_id n) (n_idempotency_key n)) rows
  then throw IntegrityError
  else
    let o := order_of n order_id status now in
    db_modify (set_orders (λ l, l ++ [o]));;
    mret o.

(** [UPDATE orders SET ..., updated_at = ? WHERE order_id = ?] *)
Definition _update_order (order_id : string) (f : order_row → order_row) : M X unit :=
  now ← time_now;
  db_modify (set_orders (update_where (is_order order_id) (λ o, with_updated_at now (f o)))).

(** ** Exposure and equity *)

Definition _open_order_notional (account_id : string) (d : db) : float :=
  sql_sum (map o_notional (List.filter (λ o,
    String.eqb (o_account_id o) account_id && status_in (o_status o) OPEN_OR_UNKNOWN) (orders d))).

Definition broker_balance (account_id : string) : M X (list (string * float)) :=
  call_broker (CGetBalance account_id) (get_balance account_id).

Definition _current_exposure (account_id quote_asset : string) : M X float :=
  open_notional ← db_read (_open_order_notional account_id);
  balances ← broker_balance account_id;
  held_value ← foldM (λ held '(asset, free),
    if String.eqb asset quote_asset || fle free fzero then mret held
    else
      p ← on_ext (price (asset +:+ quote_asset));
      match p with
      | None => raise_ STALE_DATA
      | Some p => mret (fadd held (fmul free p))
      end) fzero balances;
  mret (fadd open_notional held_value).

Definition _equity_from_balances (balances : list (string * float)) (quote_asset : string) : M X float :=
  foldM (λ equity '(asset, free),
    if String.eqb asset quote_asset then mret (fadd equity free)
    else
      p ← on_ext (price (asset +:+ quote_asset));
      mret (match p with Some p => fadd equity (fmul free p) | None => equity end)) fzero balances.

Record asset_balance := mk_asset {
  ab_asset : string; ab_free : float; ab_locked : float; ab_value : option float }.

Record balance_breakdown := mk_breakdown {
  bb_free : float;
  bb_locked : float;
  bb_holdings_value : float;
  bb_total : float;
  bb_assets : list asset_balance }.

Definition _account_balance_breakdown (account_id quote_asset : string) : M X balance_breakdown :=
  detail ← call_broker (CGetBalanceDetail account_id) (get_balance_detail account_id);
  '(free, locked, holdings, assets) ← foldM (λ '(free, locked, holdings, assets) '(asset, bal),
    if String.eqb asset quote_asset
    then mret (fadd free (b_free bal), fadd locked (b_locked bal), holdings,
               assets ++ [mk_asset asset (b_free bal) (b_locked bal) (Some (b_free bal))])
    else
      p ← on_ext (price (asset +:+ quote_asset));
      match p with
      | None => mret (free, locked, holdings,
                      assets ++ [mk_asset asset (b_free bal) (b_locked bal) None])
      | Some p => mret (free, fadd locked (fmul (b_locked bal) p), fadd holdings (fmul (b_free bal) p),
                        assets ++ [mk_asset asset (b_free bal) (b_locked bal)
                                     (Some (fmul (fadd (b_free bal) (b_locked bal)) p))])
      end) (fzero, fzero, fzero, []) detail;
  mret (mk_breakdown free locked holdings (fadd (fadd free locked) holdings) assets).

(** ** Gates *)

(** Real mode, with credentials that can be decrypted. *)
Definition _is_real (account : public_account) : M X bool :=
  if decide (pub_trading_lock account = Real)
  then get_credentials (pub_account_id account);; mret true
  else mret false.

Definition fresh_if (p : option float) : option string :=
  match p with Some _ => Some FRESHNESS_FRESH | None => None end.

Definition _accuracy_preflight (symbol side : string) (entry stop_loss : float) : M X unit :=
  valid ← on_ext (symbol_valid symbol);
  if negb valid then raise_ INVALID_SYMBOL
  else
    p ← on_ext (price symbol);
    lift (Accuracy.check_price_fresh (fresh_if p));;
    lift (Accuracy.check_stop_direction (Some side) entry stop_loss).

(** [float(balances.get(asset, 0) or 0)] *)
Definition balance_of (asset : string) (balances : list (string * float)) : float :=
  match assoc asset balances with
  | Some free => if ftruthy free then free else fzero
  | None => fzero
  end.

Definition _check_available_balance (balances : list (string * float)) (side base_asset quote_asset : string)
    (quantity notional fee : float) : result unit :=
  let side_norm := side_norm (Some side) in
  if String.eqb side_norm "BUY" then
    reject_if (fgt (fadd notional fee) (balance_of quote_asset balances)) INSUFFICIENT_BALANCE
  else if String.eqb side_norm "SELL" then
    reject_if (fgt quantity (balance_of base_asset balances)) INSUFFICIENT_BALANCE
  else raise INVALID_REQUEST.

(** Caps, or a one-time override in their place. *)
Definition _enforce_caps_or_override (account : public_account) (policy : policy) (symbol : string)
    (notional exposure_after : float) (idempotency_key : string) : M X unit :=
  match enforce_policy_caps (PStr symbol) notional (pol_caps policy) (Some exposure_after) with
  | Ok _ => mret tt
  | Err (RasatError RISK_LIMIT_EXCEEDED as exc) | Err (RasatError SYMBOL_NOT_ALLOWED as exc) =>
      override ← consume_override (PStr (pub_account_id account)) (pol_version policy)
                   (PStr idempotency_key) None;
      match override with
      | None => throw exc
      | Some _ => mret tt
      end
  | Err e => throw e
  end.

(** ** Sending an order *)

(** [query_oco] for an OCO list, [query_order] otherwise. *)
Definition query_state (account_id order_type symbol cid : string) : M X (option OrderResult) :=
  if String.eqb order_type "OCO"
  then call_broker (CQueryOco account_id cid) (query_oco account_id cid)
  else call_broker (CQueryOrder account_id symbol cid) (query_order account_id symbol cid).

(** [except RasatError: found = None] *)
Definition query_or_none (account_id order_type symbol cid : string) : M X (option OrderResult) :=
  r ← attempt (query_state account_id order_type symbol cid);
  match r with
  | Ok found => mret found
  | Err (RasatError _) => mret None
  | Err e => throw e
  end.

Definition opt_str (o : option string) : pyval := match o with Some s => PStr s | None => PNone end.

(** After a network timeout: ask the exchange; never send again. *)
Definition _reconcile_after_timeout (account : public_account) (order : order_row)
    (symbol client_order_id actor : string) : M X exec_result :=
  let account_id := pub_account_id account in
  found ← query_or_none account_id (o_order_type order) symbol client_order_id;
  match found with
  | Some found =>
      db_write (
        _update_order (o_order_id order) (with_fill found);;
        audit actor "order_reconciled"
          [("account_id", PStr account_id); ("order_id", PStr (o_order_id order));
           ("symbol", PStr symbol); ("status", PStr (status_str (r_status found)));
           ("exchange_order_id", opt_str (r_exchange_order_id found))]);;
      mret (_order_to_result (with_fill found order) None None)
  | None =>
      db_write (
        _update_order (o_order_id order) (with_status UNKNOWN (Some ORDER_UNKNOWN));;
        audit actor "order_unknown"
          [("account_id", PStr account_id); ("order_id", PStr (o_order_id order));
           ("symbol", PStr symbol)]);;
      mret (_order_to_result (with_status UNKNOWN (Some ORDER_UNKNOWN) order) None (Some ORDER_UNKNOWN))
  end.

(** The [try] around a submission: record what came back, whatever it was.
    [fill] is the transaction of the success path. *)
Definition submit_and_record (account : public_account) (order : order_row) (symbol cid actor : string)
    (quantity : float) (c : broker_call) (send : ST X OrderResult) (failed_action : string)
    (fill : OrderResult → M X order_row) : M X exec_result :=
  r ← attempt (call_broker c send);
  match r with
  | Ok result =>
      order ← db_write (fill result);
      mret (_order_to_result order (Some quantity) None)
  | Err TimeoutError | Err (RasatError TIMEOUT) =>
      _reconcile_after_timeout account order symbol cid actor
  | Err (RasatError code) =>
      let status := if decide (code = ORDER_REJECTED) then REJECTED else UNKNOWN in
      db_write (
        _update_order (o_order_id order) (with_status status (Some code));;
        audit actor failed_action
          [("account_id", PStr (pub_account_id account)); ("order_id", PStr (o_order_id order));
           ("symbol", PStr symbol); ("error_code", PStr (code_str code))]);;
      mret (_order_to_result (with_status status (Some code) order) (Some quantity) None)
  | Err e => throw e
  end.

Definition _place_and_record (account : public_account) (is_real : bool)
    (symbol side order_type : string) (quantity : float) (price : option float)
    (notional reference_price : float) (idempotency_key : string) (equity_snapshot : float)
    (actor : string) (stop_price : option float) : M X exec_result :=
  let account_id := pub_account_id account in
  lift (validate_execution_order (PStr side) (PStr order_type) (PFloat quantity) (opt_float_val price)
          (opt_float_val stop_price) PNone None (PFloat reference_price));;
  let cid := to_client_order_id sha1_hexdigest idempotency_key in
  let n := mk_new account_id idempotency_key symbol side order_type quantity price stop_price None
             notional reference_price equity_snapshot cid in
  if negb is_real then
    order ← db_write (
      order ← _insert_order n PAPER;
      audit actor "place_order_paper"
        [("account_id", PStr account_id); ("order_id", PStr (o_order_id order));
         ("symbol", PStr symbol); ("side", PStr side); ("quantity", PFloat quantity);
         ("notional", PFloat notional); ("stop_price", opt_float_val stop_price)];;
      mret order);
    mret (_order_to_result order (Some quantity) None)
  else
    order ← db_write (_insert_order n NEW);
    let a := mk_place account_id symbol side order_type quantity price cid stop_price in
    submit_and_record account order symbol cid actor quantity (CPlaceOrder a) (place_order a)
      "place_order_failed" (λ result,
        _update_order (o_order_id order) (with_fill result);;
        audit actor "place_order"
          [("account_id", PStr account_id); ("order_id", PStr (o_order_id order));
           ("symbol", PStr symbol); ("side", PStr side); ("quantity", PFloat quantity);
           ("status", PStr (status_str (r_status result)));
           ("exchange_order_id", opt_str (r_exchange_order_id result))];;
        mret (with_fill result order)).

(** A retry with the same key: never a new order. *)
Definition _handle_existing (account : public_account) (existing : order_row) : M X exec_result :=
  if negb (status_in (o_status existing) OPEN_OR_UNKNOWN)
  then mret (_order_to_result existing None None)
  else if decide (pub_trading_lock account ≠ Real)
  then mret (_order_to_result existing None None)
  else
    found ← query_or_none (pub_account_id account) (o_order_type existing) (o_symbol existing)
              (o_client_order_id existing);
    match found with
    | None => mret (_order_to_result existing None None)
    | Some found =>
        db_write (
          _update_order (o_order_id existing) (with_fill found);;
          audit "system" "order_reconciled"
            [("account_id", PStr (pub_account_id account)); ("order_id", PStr (o_order_id existing));
             ("status", PStr (status_str (r_status found)))]);;
        mret (_order_to_result (with_fill found existing) None None)
    end.

(** ** The three ways an order is made *)

Definition notional_of (v : validated) : result float :=
  match v_notional v with Some n => Ok n | None => Err TypeError end.

(** Unknown symbol, stale price, missing filters: the checks before an order. *)
Definition market_gate (symbol : string) : M X (float * SymbolFilters) :=
  valid ← on_ext (symbol_valid symbol);
  if negb valid then raise_ INVALID_SYMBOL
  else
    p ← on_ext (price symbol);
    lift (Accuracy.check_price_fresh (fresh_if p));;
    f ← on_ext (filters symbol);
    match f, p with
    | None, _ => raise_ FILTER_VIOLATION
    | Some f, Some p => mret (p, f)
    | Some _, None => raise_ STALE_DATA
    end.

Definition _execute_one_direct (account_id symbol side order_type : string) (quantity : float)
    (price : option float) (idempotency_key actor : string) (stop_price : option float)
    : M X exec_result :=
  account ← get_account account_id;
  existing ← db_read (_load_order account_id idempotency_key);
  match existing with
  | Some existing => _handle_existing account existing
  | None =>
      is_real ← _is_real account;
      '(market_price, filters) ← market_gate symbol;
      v ← lift (validate_execution_order (PStr side) (PStr order_type) (PFloat quantity)
                  (opt_float_val price) (opt_float_val stop_price) PNone (Some filters)
                  (PFloat market_price));
      notional ← lift (notional_of v);
      balances ← broker_balance account_id;
      lift (_check_available_balance balances (v_side v) (base_asset filters) "USDT" (v_quantity v)
              notional (fmul notional default_fee_rate));;
      policy ← get_policy (PStr account_id);
      exposure ← _current_exposure account_id "USDT";
      _enforce_caps_or_override account policy symbol notional (fadd exposure notional) idempotency_key;;
      equity ← _equity_from_balances balances "USDT";
      _place_and_record account is_real symbol (v_side v) (v_order_type v) (v_quantity v) (v_price v)
        notional market_price idempotency_key equity actor (v_stop_price v)
  end.

(** [x if cond else None] *)
Definition when_type (order_type : string) (types : list string) (x : float) : option float :=
  if str_in order_type types then Some x else None.

Definition _execute_one_sized (account : public_account) (symbol side : string)
    (entry stop_loss risk_pct : float) (idempotency_key order_type actor : string) : M X exec_result :=
  let account_id := pub_account_id account in
  existing ← db_read (_load_order account_id idempotency_key);
  match existing with
  | Some existing => _handle_existing account existing
  | None =>
      is_real ← _is_real account;
      _accuracy_preflight symbol side entry stop_loss;;
      p ← on_ext (price symbol);
      balances ← broker_balance account_id;
      equity ← _equity_from_balances balances "USDT";
      f ← on_ext (filters symbol);
      match f with
      | None => raise_ FILTER_VIOLATION
      | Some f =>
          let side_n := side_norm (Some side) in
          let sizing_balance :=
            if String.eqb side_n "BUY" then balance_of "USDT" balances else equity in
          lift (reject_if (fle sizing_balance fzero) INSUFFICIENT_BALANCE);;
          sized ← lift (calculate_position_size (PStr symbol) (PFloat sizing_balance) (PFloat risk_pct)
                    (PFloat entry) (PFloat stop_loss) f (Some side) (PFloat default_fee_rate));
          let quantity := sz_quantity sized in
          price ← lift (match p with Some p => Ok p | None => Err TypeError end);
          let notional := fmul quantity price in
          v ← lift (validate_execution_order (PStr side) (PStr order_type) (PFloat quantity)
                (opt_float_val (when_type order_type ["LIMIT"; "STOP_LOSS_LIMIT"] entry))
                (opt_float_val (when_type order_type ["STOP_LOSS_LIMIT"] stop_loss)) PNone (Some f)
                (PFloat price));
          lift (_check_available_balance balances side_n (base_asset f) "USDT" quantity notional
                  (fmul notional default_fee_rate));;
          policy ← get_policy (PStr account_id);
          exposure ← _current_exposure account_id "USDT";
          _enforce_caps_or_override account policy symbol notional (fadd exposure notional)
            idempotency_key;;
          _place_and_record account is_real symbol (v_side v) (v_order_type v) quantity (Some entry)
            notional price idempotency_key equity actor
            (when_type (v_order_type v) ["STOP_LOSS_LIMIT"] stop_loss)
      end
  end.

Definition oco_details (account_id : string) (order : order_row) (symbol side : string)
    (quantity price stop_price stop_limit_price : float) : list (string * pyval) :=
  [("account_id", PStr account_id); ("order_id", PStr (o_order_id order)); ("symbol", PStr symbol);
   ("side", PStr side); ("quantity", PFloat quantity); ("price", PFloat price);
   ("stop_price", PFloat stop_price); ("stop_limit_price", PFloat stop_limit_price)].

Definition _execute_oco_direct (account_id symbol side : string)
    (quantity price stop_price stop_limit_price : float) (idempotency_key actor : string)
    : M X exec_result :=
  account ← get_account account_id;
  existing ← db_read (_load_order account_id idempotency_key);
  match existing with
  | Some existing => _handle_existing account existing
  | None =>
      is_real ← _is_real account;
      '(market_price, filters) ← market_gate symbol;
      v ← lift (validate_execution_order (PStr side) (PStr "OCO") (PFloat quantity) (PFloat price)
                  (PFloat stop_price) (PFloat stop_limit_price) (Some filters) (PFloat market_price));
      let side := v_side v in
      notional ← lift (notional_of v);
      balances ← broker_balance account_id;
      lift (_check_available_balance balances side (base_asset filters) "USDT" quantity notional
              (fmul notional default_fee_rate));;
      policy ← get_policy (PStr account_id);
      exposure ← _current_exposure account_id "USDT";
      _enforce_caps_or_override account policy symbol notional (fadd exposure notional) idempotency_key;;
      equity ← _equity_from_balances balances "USDT";
      let cid := to_client_order_id sha1_hexdigest idempotency_key in
      let n := mk_new account_id idempotency_key symbol side "OCO" quantity (Some price)
                 (Some stop_price) (Some stop_limit_price) notional market_price equity cid in
      if negb is_real then
        order ← db_write (
          order ← _insert_order n PAPER;
          audit actor "place_oco_paper"
            (oco_details account_id order symbol side quantity price stop_price stop_limit_price);;
          mret order);
        mret (_order_to_result order (Some quantity) None)
      else
        order ← db_write (_insert_order n NEW);
        let a := mk_oco account_id symbol side quantity price stop_price stop_limit_price cid in
        submit_and_record account order symbol cid actor quantity (CPlaceOco a) (place_oco a)
          "place_oco_failed" (λ result,
            _update_order (o_order_id order) (with_fill result);;
            audit actor "place_oco"
              (oco_details account_id order symbol side quantity price stop_price stop_limit_price);;
            mret order)
  end.

(** ** The public operations *)

(** [OrderService.place_order] *)
Definition service_place_order (account_id symbol side order_type quantity price stop_price
    idempotency_key : pyval) (actor : string) : M X exec_result :=
  account_id ← lift (_require_string account_id);
  idem ← lift (_require_string idempotency_key);
  symbol ← lift (_require_string symbol);
  side ← lift (_require_string side);
  quantity ← lift (_require_number quantity);
  price ← lift (match price with PNone => Ok None | p => x ← _require_number p; Ok (Some x) end);
  stop_price ← lift (match stop_price with PNone => Ok None | p => x ← _require_number p; Ok (Some x) end);
  v ← lift (validate_execution_order (PStr side) order_type (PFloat quantity) (opt_float_val price)
              (opt_float_val stop_price) PNone None PNone);
  _execute_one_direct account_id symbol (v_side v) (v_order_type v) quantity price idem
    (actor_or_default actor) stop_price.

Definition place_oco_order (account_id symbol side quantity price stop_price stop_limit_price
    idempotency_key : pyval) (actor : string) : M X exec_result :=
  account_id ← lift (_require_string account_id);
  idem ← lift (_require_string idempotency_key);
  symbol ← lift (_require_string symbol);
  side ← lift (_require_string side);
  quantity ← lift (_require_number quantity);
  price ← lift (_require_number price);
  stop_price ← lift (_require_number stop_price);
  stop_limit_price ← lift (_require_number stop_limit_price);
  v ← lift (validate_execution_order (PStr side) (PStr "OCO") (PFloat quantity) (PFloat price)
              (PFloat stop_price) (PFloat stop_limit_price) None PNone);
  _execute_oco_direct account_id symbol (v_side v) quantity price stop_price stop_limit_price idem
    (actor_or_default actor).

(** [[str(a).strip() for a in (v or []) if a]]: the items of a list, the
    characters of a string, the keys of a dict. *)
Definition iter_items (v : pyval) : result (list pyval) :=
  if negb (truthy v) then Ok []
  else match v with
       | PList l => Ok l
       | PStr s => Ok (map (λ c, PStr (String c EmptyString)) (String.list_ascii_of_string s))
       | PDict d => Ok (map (λ kv, PStr kv.1) d)
       | _ => Err TypeError
       end.

Definition stripped_items (v : pyval) : result (list string) :=
  l ← iter_items v;
  Ok (map (λ a, Str.strip (py_str str_of_other a)) (List.filter truthy l)).

Definition _resolve_targets (account_ids tags : pyval) : M X (list public_account) :=
  if negb (truthy account_ids) && negb (truthy tags) then raise_ INVALID_REQUEST
  else
    ids ← lift (stripped_items account_ids);
    tag_list ← lift (stripped_items tags);
    accounts ← list_accounts;
    if existsb (λ a, negb (existsb (λ acc, String.eqb (pub_account_id acc) a) accounts)) ids
    then raise_ ACCOUNT_NOT_FOUND
    else mret (List.filter (λ acc, str_in (pub_account_id acc) ids
                                   || existsb (λ t, str_in t (pub_tags acc)) tag_list) accounts).

(** A result of a bulk call: an order, or the error of one account. *)
Inductive account_outcome :=
| Executed (r : exec_result)
| AccountFailed (account_id : string) (status : order_status) (code : ErrorCode).

Definition outcome_status (o : account_outcome) : order_status :=
  match o with Executed r => x_status r | AccountFailed _ s _ => s end.

Record bulk_result := mk_bulk {
  br_results : list account_outcome;
  br_succeeded : nat;
  br_failed : nat }.

Definition summarize (results : list account_outcome) : bulk_result :=
  let succeeded := count_where (λ o, negb (status_in (outcome_status o) [REJECTED; UNKNOWN])) results in
  mk_bulk results succeeded (length results - succeeded).

Definition execute_on_accounts (account_ids tags symbol side entry stop_loss risk_pct idempotency_key
    order_type : pyval) (actor : string) : M X bulk_result :=
  idem ← lift (_require_string idempotency_key);
  symbol ← lift (_require_string symbol);
  side ← lift (_require_string side);
  entry ← lift (_require_number entry);
  stop_loss ← lift (_require_number stop_loss);
  risk_pct ← lift (_require_number risk_pct);
  order_type ← lift (normalize_order_type order_type);
  targets ← _resolve_targets account_ids tags;
  results ← mapM (λ account,
    r ← attempt (_execute_one_sized account symbol side entry stop_loss risk_pct idem order_type
                   (actor_or_default actor));
    mret match r with
         | Ok result => Executed result
         | Err (RasatError code) => AccountFailed (pub_account_id account) REJECTED code
         | Err _ => AccountFailed (pub_account_id account) UNKNOWN INTERNAL_ERROR
         end) targets;
  mret (summarize results).

(** ** Startup reconciliation *)

Record reconcile_summary := mk_reconcile {
  rs_scanned : nat; rs_reconciled : nat; rs_unchanged : nat; rs_errors : list (string * ErrorCode) }.

Definition same_fill (found : OrderResult) (o : order_row) : bool :=
  bool_decide (r_status found = o_status o)
  && bool_decide (r_exchange_order_id found = o_exchange_order_id o)
  && feq (r_executed_qty found) (o_executed_qty o) && feq (r_avg_price found) (o_avg_price o).

Definition mark_unknown (s : reconcile_summary) (order : order_row) : M X reconcile_summary :=
  db_write (
    _update_order (o_order_id order) (with_status UNKNOWN (Some ORDER_UNKNOWN));;
    audit "system" "order_reconciled_unknown"
      [("account_id", PStr (o_account_id order)); ("order_id", PStr (o_order_id order));
       ("symbol", PStr (o_symbol order))]);;
  mret (mk_reconcile (rs_scanned s) (S (rs_reconciled s)) (rs_unchanged s) (rs_errors s)).

Definition reconcile_one (s : reconcile_summary) (order : order_row) : M X reconcile_summary :=
  r ← attempt (query_state (o_account_id order) (o_order_type order) (o_symbol order)
                 (o_client_order_id order));
  match r with
  | Err (RasatError code) =>
      mret (mk_reconcile (rs_scanned s) (rs_reconciled s) (rs_unchanged s)
              (rs_errors s ++ [(o_order_id order, code)]))
  | Err e => throw e
  | Ok found =>
      match found with
      | Some found =>
          if decide (r_status found = UNKNOWN) then mark_unknown s order
          else if same_fill found order then
            mret (mk_reconcile (rs_scanned s) (rs_reconciled s) (S (rs_unchanged s)) (rs_errors s))
          else
            db_write (
              _update_order (o_order_id order) (with_fill found);;
              audit "system" "order_reconciled"
                [("account_id", PStr (o_account_id order)); ("order_id", PStr (o_order_id order));
                 ("symbol", PStr (o_symbol order)); ("status", PStr (status_str (r_status found)));
                 ("executed_qty", PFloat (r_executed_qty found)); ("avg_price", PFloat (r_avg_price found))]);;
            mret (mk_reconcile (rs_scanned s) (S (rs_reconciled s)) (rs_unchanged s) (rs_errors s))
      | None => mark_unknown s order
      end
  end.

Definition reconcile_open_orders : M X reconcile_summary :=
  accounts ← list_accounts;
  let ids := map pub_account_id
    (List.filter (λ a, bool_decide (pub_trading_lock a = Real)) accounts) in
  match ids with
  | [] => mret (mk_reconcile 0 0 0 [])
  | _ =>
      stuck ← db_read (λ d, List.filter (λ o,
        str_in (o_account_id o) ids && status_in (o_status o) OPEN_OR_UNKNOWN) (orders d));
      foldM reconcile_one (mk_reconcile (length stuck) 0 0 []) stuck
  end.
End Orders.
