(* ===== verification/Close.v ===== *)
(** [storage/orders.py]: closing positions ([close_all_positions]) and the views of
    exposure, balance and unprotected positions. *)

From Stdlib Require Import ZArith String.
From S2P Require Import Prelude PyFloat PyVal Errors Risk Sizing Validation Monad Broker Db Sample AuditLog Credentials Accounts RiskPolicy Orders.
Local Open Scope string_scope.
Local Open Scope list_scope.

(** ** What a close run reports *)

Record close_error := mk_close_error {
  ce_symbol : string;
  ce_order_id : option string;
  ce_client_order_id : option string;
  ce_code : ErrorCode }.

(** The lists [cancelled] and [cancel_errors] that a run appends to. *)
Record cancel_log := mk_cancel_log {
  cl_cancelled : list string;
  cl_errors : list close_error }.

Definition add_cancelled (symbol : string) (acc : cancel_log) : cancel_log :=
  if str_in symbol (cl_cancelled acc) then acc
  else mk_cancel_log (cl_cancelled acc ++ [symbol]) (cl_errors acc).

Definition add_error (e : close_error) (acc : cancel_log) : cancel_log :=
  mk_cancel_log (cl_cancelled acc) (cl_errors acc ++ [e]).

Inductive sold_entry :=
| Sold (symbol : string) (quantity : float) (status : order_status) (order_id : string)
| Skipped (symbol reason : string).

(** [s.get("status") == "FILLED"] *)
Definition is_filled (s : sold_entry) : bool :=
  match s with Sold _ _ st _ => bool_decide (st = FILLED) | Skipped _ _ => false end.

Record close_result := mk_close {
  cr_account_id : string;
  cr_closed : bool;
  cr_simulated : bool;
  cr_cancel : cancel_log;
  cr_sold : list sold_entry }.

Inductive close_outcome :=
| CloseDone (r : close_result)
| CloseFailed (account_id : string) (code : ErrorCode).

Definition outcome_closed (o : close_outcome) : bool :=
  match o with CloseDone r => cr_closed r | CloseFailed _ _ => false end.

(** [o.get("client_order_id")], where it is truthy. *)
Definition client_id_of (o : open_order) : option string :=
  match oo_client_order_id o with
  | Some c => if Str.empty c then None else Some c
  | None => None
  end.

(** Local open orders and open orders of the exchange, by client order id. *)
Definition cancel_targets (open_orders : list order_row) (exchange_open : list open_order)
    : list (string * (string * option order_row)) :=
  let local_by_cid := foldl (λ m o, assoc_set (o_client_order_id o) o m) [] open_orders in
  let exchange_by_cid := foldl (λ m o,
    match client_id_of o with Some cid => assoc_set cid o m | None => m end) [] exchange_open in
  let targets := map (λ '(cid, o), (cid, (o_symbol o, Some o))) local_by_cid in
  foldl (λ t '(cid, ex), if has_key cid t then t else t ++ [(cid, (oo_symbol ex, None))])
    targets exchange_by_cid.

Definition NOT_TERMINAL : list order_status := [NEW; PARTIALLY_FILLED; UNKNOWN].

(** The canonical code of an exception the cancel paths catch. *)
Definition caught_code (e : pyexn) : option ErrorCode :=
  match e with RasatError c => Some c | TimeoutError => Some TIMEOUT | _ => None end.

(** [_load_open_close]: the latest close order still in flight ([LIKE] ignores case). *)
Definition is_open_close (account_id symbol : string) (o : order_row) : bool :=
  String.eqb (o_account_id o) account_id && String.eqb (o_symbol o) symbol
  && String.eqb (o_side o) "SELL" && Str.starts_with "close-" (Str.lower (o_idempotency_key o))
  && status_in (o_status o) NOT_TERMINAL.

Fixpoint latest (rows : list order_row) : option order_row :=
  match rows with
  | [] => None
  | r :: rows' =>
      match latest rows' with
      | Some r' => if (o_created_at r <? o_created_at r')%Z then Some r' else Some r
      | None => Some r
      end
  end.

Definition _load_open_close (account_id symbol : string) (d : db) : option order_row :=
  latest (List.filter (is_open_close account_id symbol) (orders d)).

(** [float(x or 0)] of a balance field. *)
Definition or_zero (x : float) : float := if ftruthy x then x else fzero.

(** [sorted(l, key=lambda x: -key(x))]: descending, equal keys in their order. *)
Fixpoint insert_desc {A} (key : A → float) (x : A) (l : list A) : list A :=
  match l with
  | [] => [x]
  | y :: l' => if flt (key x) (key y) then y :: insert_desc key x l' else x :: l
  end.

Definition sort_desc {A} (key : A → float) (l : list A) : list A :=
  foldr (insert_desc key) [] l.

Section Close.
Context {X : Type} `{Ext X, PyEnv, SecretStore X, OrderBroker X, MarketFeed X, OrderConfig}.

(** ** Cancelling *)

Definition _query_safe (account_id symbol cid : string) (is_oco : bool)
    : M X (option OrderResult + ErrorCode) :=
  r ← attempt (if is_oco then call_broker (CQueryOco account_id cid) (query_oco account_id cid)
               else call_broker (CQueryOrder account_id symbol cid) (query_order account_id symbol cid));
  match r with
  | Ok found => mret (inl found)
  | Err TimeoutError => mret (inr TIMEOUT)
  | Err (RasatError _) => mret (inl None)
  | Err e => throw e
  end.

Definition _write_cancel (actor account_id : string) (order : order_row) : M X unit :=
  _update_order (o_order_id order) (with_status CANCELED None);;
  audit actor "order_canceled"
    [("account_id", PStr account_id); ("order_id", PStr (o_order_id order));
     ("symbol", PStr (o_symbol order)); ("client_order_id", PStr (o_client_order_id order))].

Definition _write_unknown (actor account_id : string) (code : ErrorCode) (order : order_row) : M X unit :=
  _update_order (o_order_id order) (with_status UNKNOWN (Some code));;
  audit actor "order_cancel_failed"
    [("account_id", PStr account_id); ("order_id", PStr (o_order_id order));
     ("symbol", PStr (o_symbol order)); ("error_code", PStr (code_str code))].

Definition _write_sync (actor account_id : string) (found : OrderResult) (order : order_row) : M X unit :=
  _update_order (o_order_id order) (with_fill found);;
  audit actor "order_reconciled"
    [("account_id", PStr account_id); ("order_id", PStr (o_order_id order));
     ("symbol", PStr (o_symbol order)); ("status", PStr (status_str (r_status found)))].

(** [if order is not None: await self.db.write(...)] *)
Definition write_local (order : option order_row) (m : order_row → M X unit) : M X unit :=
  match order with Some o => db_write (m o) | None => mret tt end.

Definition cancel_failed (actor account_id symbol cid : string) (order : option order_row)
    (code : ErrorCode) (acc : cancel_log) : M X cancel_log :=
  write_local order (_write_unknown actor account_id code);;
  mret (add_error (mk_close_error symbol (o_order_id <$> order) (Some cid) code) acc).

Definition _cancel_one (actor account_id cid symbol : string) (order : option order_row)
    (acc : cancel_log) : M X cancel_log :=
  let is_oco := match order with Some o => String.eqb (o_order_type o) "OCO" | None => false end in
  r ← attempt (if is_oco
    then call_broker (CCancelOco account_id symbol cid) (cancel_oco account_id symbol cid)
    else call_broker (CCancelOrder account_id symbol cid) (cancel_order account_id symbol cid));
  match r with
  | Err e =>
      match caught_code e with
      | Some code => cancel_failed actor account_id symbol cid order code acc
      | None => throw e
      end
  | Ok None =>
      found ← _query_safe account_id symbol cid is_oco;
      match found with
      | inr code => cancel_failed actor account_id symbol cid order code acc
      | inl None =>
          write_local order (_write_cancel actor account_id);;
          mret (add_cancelled symbol acc)
      | inl (Some found) =>
          if status_in (r_status found) NOT_TERMINAL
          then cancel_failed actor account_id symbol cid order ORDER_UNKNOWN acc
          else
            write_local order (_write_sync actor account_id found);;
            mret (if decide (r_status found = CANCELED) then add_cancelled symbol acc else acc)
      end
  | Ok (Some res) =>
      if decide (r_status res = CANCELED) then
        write_local order (_write_cancel actor account_id);;
        mret (add_cancelled symbol acc)
      else if status_in (r_status res) NOT_TERMINAL
      then cancel_failed actor account_id symbol cid order ORDER_RECONCILE_REQUIRED acc
      else
        write_local order (_write_sync actor account_id res);;
        mret acc
  end.

Definition opt_id_val (o : option string) : pyval := match o with Some s => PStr s | None => PNone end.

(** [if self.audit is not None: await self.db.write(...)] *)
Definition write_audit (actor action : string) (details : list (string * pyval)) : M X unit :=
  if audit_enabled then db_write (audit actor action details) else mret tt.

(** An exchange order without a client id: cancel everything of its symbol. *)
Definition _cancel_orphan (actor account_id : string) (acc : cancel_log) (ex : open_order)
    : M X cancel_log :=
  match client_id_of ex with
  | Some _ => mret acc
  | None =>
      let symbol := oo_symbol ex in
      if Str.empty symbol then mret acc
      else
        r ← attempt (
          call_broker (CCancelAll account_id symbol) (cancel_all_open_orders account_id symbol);;
          write_audit actor "order_canceled"
            [("account_id", PStr account_id); ("order_id", opt_id_val (oo_order_id ex));
             ("symbol", PStr symbol); ("client_order_id", PNone);
             ("scope", PStr "exchange_open_order_without_client_id")]);
        match r with
        | Ok _ => mret (add_cancelled symbol acc)
        | Err e =>
            match caught_code e with
            | Some code =>
                write_audit actor "order_cancel_failed"
                  [("account_id", PStr account_id); ("order_id", opt_id_val (oo_order_id ex));
                   ("symbol", PStr symbol); ("error_code", PStr (code_str code));
                   ("scope", PStr "exchange_open_order_without_client_id")];;
                mret (add_error (mk_close_error symbol (oo_order_id ex) None code) acc)
            | None => throw e
            end
        end
  end.

Definition _cancel_target (is_real : bool) (actor account_id : string) (acc : cancel_log)
    (target : string * (string * option order_row)) : M X cancel_log :=
  let '(cid, (symbol, order)) := target in
  if Str.empty symbol then mret acc
  else if is_real then _cancel_one actor account_id cid symbol order acc
  else match order with
       | Some o =>
           db_write (_write_cancel actor account_id o);;
           mret (add_cancelled symbol acc)
       | None => mret acc
       end.

(** ** Selling *)

(** An earlier close order still in flight is asked for before selling again:
    [Some entry] when it takes the place of a new sale. *)
Definition _reconcile_close (account_id symbol : string) : M X (option sold_entry) :=
  open_close ← db_read (_load_open_close account_id symbol);
  match open_close with
  | None => mret None
  | Some oc =>
      r ← attempt (call_broker (CQueryOrder account_id symbol (o_client_order_id oc))
                     (query_order account_id symbol (o_client_order_id oc)));
      found ← match r with
              | Ok found => mret found
              | Err (RasatError _) => mret None
              | Err e => throw e
              end;
      match found with
      | None => mret None
      | Some found =>
          db_write (_update_order (o_order_id oc) (with_fill found));;
          mret (if status_in (r_status found) [NEW; PARTIALLY_FILLED; UNKNOWN; FILLED]
                then Some (Sold symbol (o_quantity oc) (r_status found) (o_order_id oc))
                else None)
      end
  end.

Definition _sell_one (account : public_account) (actor run_nonce : string) (sold : list sold_entry)
    (bal : string * float) : M X (list sold_entry) :=
  let '(asset, free) := bal in
  let account_id := pub_account_id account in
  if String.eqb asset "USDT" || fle free fzero then mret sold
  else
    let symbol := asset +:+ "USDT" in
    valid ← on_ext (symbol_valid symbol);
    if negb valid then mret sold
    else
      p ← on_ext (price symbol);
      match p with
      | None => mret (sold ++ [Skipped symbol "stale price"])
      | Some p =>
          f ← on_ext (filters symbol);
          match f with
          | None => mret (sold ++ [Skipped symbol "no filters"])
          | Some f =>
              qty ← lift (round_down_to_step free (step_size f));
              if flt qty (min_qty f) then mret (sold ++ [Skipped symbol "below min_qty"])
              else
                earlier ← _reconcile_close account_id symbol;
                match earlier with
                | Some entry => mret (sold ++ [entry])
                | None =>
                    let idem := "close-" +:+ account_id +:+ "-" +:+ symbol +:+ "-"
                                +:+ float_repr qty +:+ "-" +:+ run_nonce in
                    result ← _place_and_record account true symbol "SELL" "MARKET" qty None
                               (fmul qty p) p idem fzero actor None;
                    mret (sold ++ [Sold symbol (x_quantity result) (x_status result)
                                     (x_order_id result)])
                end
          end
      end.

Definition _close_one (account : public_account) (actor : string) : M X close_result :=
  let account_id := pub_account_id account in
  is_real ← _is_real account;
  open_orders ← db_read (λ d, List.filter (λ o,
    String.eqb (o_account_id o) account_id && status_in (o_status o) OPEN_STATUSES) (orders d));
  exchange_open ← (if is_real
    then call_broker (CGetOpenOrders account_id) (get_all_open_orders account_id)
    else mret []);
  acc ← foldM (_cancel_orphan actor account_id) (mk_cancel_log [] []) exchange_open;
  acc ← foldM (_cancel_target is_real actor account_id) acc (cancel_targets open_orders exchange_open);
  if negb is_real then mret (mk_close account_id false true acc [])
  else
    nonce ← uuid4_hex;
    balances ← broker_balance account_id;
    sold ← foldM (_sell_one account actor (Str.take 12 nonce)) [] balances;
    mret (mk_close account_id
            (match cl_errors acc with [] => forallb is_filled sold | _ => false end) false acc sold).

Record close_summary := mk_close_summary {
  cs_results : list close_outcome;
  cs_closed : nat;
  cs_failed : nat }.

Definition close_all_positions (account_id : pyval) (actor : string) : M X close_summary :=
  account_id ← lift (_require_string account_id);
  targets ← (if String.eqb account_id "all" then list_accounts
              else account ← get_account account_id; mret [account]);
  results ← mapM (λ account,
    r ← attempt (_close_one account (actor_or_default actor));
    mret match r with
         | Ok result => CloseDone result
         | Err (RasatError code) => CloseFailed (pub_account_id account) code
         | Err _ => CloseFailed (pub_account_id account) INTERNAL_ERROR
         end) targets;
  let closed := count_where outcome_closed results in
  mret (mk_close_summary results closed (length results - closed)).

(** ** Views *)

Definition str_ltb (a b : string) : bool := String.ltb a b.

Fixpoint insert_sorted_str (s : string) (l : list string) : list string :=
  match l with
  | [] => [s]
  | t :: l' => if String.eqb s t then l
               else if str_ltb s t then s :: l else t :: insert_sorted_str s l'
  end.

(** [SUM(notional) ... GROUP BY symbol], in the order of the group key. *)
Definition open_notional_by_symbol (account_id : string) (d : db) : list (string * float) :=
  let rows := List.filter (λ o,
    String.eqb (o_account_id o) account_id && status_in (o_status o) OPEN_OR_UNKNOWN) (orders d) in
  map (λ symbol, (symbol, sql_sum (map o_notional
    (List.filter (λ o, String.eqb (o_symbol o) symbol) rows))))
    (foldr insert_sorted_str [] (map o_symbol rows)).

Definition add_to (k : string) (x : float) (d : list (string * float)) : list (string * float) :=
  assoc_set k (fadd (default fzero (assoc k d)) x) d.

Definition _exposure_by_symbol (account_id : string) : M X (list (string * float)) :=
  by_symbol ← db_read (open_notional_by_symbol account_id);
  balances ← broker_balance account_id;
  foldM (λ by_symbol '(asset, free),
    if String.eqb asset "USDT" || fle free fzero then mret by_symbol
    else
      let symbol := asset +:+ "USDT" in
      p ← on_ext (price symbol);
      match p with
      | None => raise_ STALE_DATA
      | Some p => mret (add_to symbol (fmul free p) by_symbol)
      end) by_symbol balances.

(** What an account that failed is reported with. *)
Definition error_code_of (e : pyexn) : ErrorCode :=
  match e with RasatError c => c | _ => INTERNAL_ERROR end.

Record exposure_view := mk_exposure {
  ev_total : float;
  ev_by_symbol : list (string * float);
  ev_per_account : list (string * float);
  ev_account_count : nat;
  ev_complete : bool;
  ev_errors : list (string * ErrorCode) }.

Definition get_total_exposure : M X exposure_view :=
  accounts ← list_accounts;
  '(by_symbol, per_account, errors) ← foldM (λ '(by_symbol, per_account, errors) account,
    let account_id := pub_account_id account in
    r ← attempt (_exposure_by_symbol account_id);
    mret match r with
         | Err e => (by_symbol, per_account, errors ++ [(account_id, error_code_of e)])
         | Ok per =>
             (foldl (λ t '(symbol, value), add_to symbol value t) by_symbol per,
              assoc_set account_id (fsum (map snd per)) per_account, errors)
         end) ([], [], []) accounts;
  mret (mk_exposure (fsum (map snd by_symbol)) (sort_desc snd by_symbol) per_account
          (length accounts) (match errors with [] => true | _ => false end) errors).

Definition get_account_balance (account_id : pyval) : M X balance_breakdown :=
  account_id ← lift (_require_string account_id);
  account ← get_account account_id;
  if negb (pub_credentials_configured account) then raise_ ACCOUNT_NO_CREDENTIALS
  else _account_balance_breakdown account_id "USDT".

(** What [get_open_orders] tells of an order. *)
Record open_order_view := mk_open_view {
  ov_order : open_order;
  ov_order_list_id : option string;
  ov_type : pyval;
  ov_status : pyval;
  ov_price : option float;
  ov_stop_price : option float;
  ov_time : pyval }.

(** [float(raw[key]) if raw.get(key) not in absent else None] *)
Definition float_unless (key : string) (absent : list pyval) (raw : list (string * pyval)) : result (option float) :=
  let v := default PNone (assoc key raw) in
  if existsb (py_eq v) absent then Ok None else x ← py_float v; Ok (Some x).

Definition view_open_order (o : open_order) : result open_order_view :=
  let raw := oo_raw o in
  let get key := default PNone (assoc key raw) in
  let list_id := get "orderListId" in
  price ← float_unless "price" [PNone; PStr ""] raw;
  stop_price ← float_unless "stopPrice" [PNone; PStr ""; PStr "0.00000000"] raw;
  Ok (mk_open_view o
        (if existsb (py_eq list_id) [PNone; PInt (-1)] then None else Some (py_str str_of_other list_id))
        (get "type") (get "status") price stop_price (get "time")).

Definition get_open_orders (account_id : pyval) : M X (list open_order_view) :=
  account_id ← lift (_require_string account_id);
  account ← get_account account_id;
  if negb (pub_credentials_configured account) then raise_ ACCOUNT_NO_CREDENTIALS
  else
    orders ← call_broker (CGetOpenOrders account_id) (get_all_open_orders account_id);
    lift (res_map view_open_order orders).

Definition MIN_UNPROTECTED_VALUE_USD : float := fZ 10.

Record unprotected_position := mk_unprotected {
  up_account_id : string;
  up_account_label : string;
  up_symbol : string;
  up_quantity : float;
  up_value_usd : float }.

Definition scan_asset (account : public_account) (sell_symbols : list string)
    (found : list unprotected_position) (asset_bal : string * balance)
    : M X (list unprotected_position) :=
  let '(asset, bal) := asset_bal in
  if String.eqb asset "USDT" then mret found
  else
    let qty := fadd (or_zero (b_free bal)) (or_zero (b_locked bal)) in
    if fle qty fzero then mret found
    else
      let symbol := asset +:+ "USDT" in
      p ← on_ext (price symbol);
      match p with
      | None => mret found
      | Some p =>
          let value := fmul qty p in
          if flt value MIN_UNPROTECTED_VALUE_USD || str_in symbol sell_symbols then mret found
          else mret (found ++ [mk_unprotected (pub_account_id account) (pub_label account) symbol
                                 qty value])
      end.

Record unprotected_view := mk_unprotected_view {
  uv_unprotected : list unprotected_position;
  uv_account_count : nat;
  uv_complete : bool;
  uv_errors : list (string * ErrorCode) }.

Definition scan_account (acc : list unprotected_position * list (string * ErrorCode))
    (account : public_account) : M X (list unprotected_position * list (string * ErrorCode)) :=
  let '(found, errors) := acc in
  let account_id := pub_account_id account in
  r ← attempt (
    detail ← call_broker (CGetBalanceDetail account_id) (get_balance_detail account_id);
    open_orders ← call_broker (CGetOpenOrders account_id) (get_all_open_orders account_id);
    mret (detail, open_orders));
  match r with
  | Err e => mret (found, errors ++ [(account_id, error_code_of e)])
  | Ok (detail, open_orders) =>
      let sell_symbols := map oo_symbol
        (List.filter (λ o, String.eqb (Str.upper (oo_side o)) "SELL") open_orders) in
      found ← foldM (scan_asset account sell_symbols) found detail;
      mret (found, errors)
  end.

Definition find_unprotected_positions : M X unprotected_view :=
  all ← list_accounts;
  let accounts := List.filter (λ a,
    bool_decide (pub_trading_lock a = Real) && pub_credentials_configured a) all in
  '(found, errors) ← foldM scan_account ([], []) accounts;
  mret (mk_unprotected_view found (length accounts) (match errors with [] => true | _ => false end)
          errors).

Definition get_audit_log (limit : pyval) : M X (bool * list (Z * broken_reason) * list audit_row) :=
  if negb audit_enabled then raise_ NOT_IMPLEMENTED
  else
    let n := match limit with PInt z => Some z | PBool b => Some (if b then 1 else 0)%Z | _ => None end in
    match n with
    | None => raise_ INVALID_REQUEST
    | Some z =>
        if (z <? 1)%Z || (500 <? z)%Z then raise_ INVALID_REQUEST
        else
          broken ← verify;
          rows ← tail (Z.to_nat z);
          mret (match broken with [] => true | _ => false end, broken, rows)
    end.
End Close.
