(* ===== verification/Pending.v ===== *)
(** [pa/alarms.py], the approval queue: [pending_orders] and its state machine.

    [awaiting_approval → approved → executing → executed | rejected |
    reconcile_required]; every transition is a compare-and-set on the status. *)

From Stdlib Require Import ZArith String.
From S2P Require Import Prelude PyFloat PyVal Errors Monad Broker Db Sample Orders.
Local Open Scope string_scope.
Local Open Scope list_scope.

(** [WHERE order_id=?] *)
Definition is_pending (order_id : string) (q : pending_row) : bool := String.eqb (q_order_id q) order_id.

Definition find_pending (order_id : string) (d : db) : option pending_row :=
  List.find (is_pending order_id) (pending_orders d).

(** [WHERE order_id=? AND status=?] *)
Definition pending_in (order_id : string) (status : pending_status) (q : pending_row) : bool :=
  is_pending order_id q && bool_decide (q_status q = status).

(** ** The columns each statement sets *)

Definition mark_approved (now : Z) (q : pending_row) : pending_row :=
  mk_pending (q_order_id q) (q_alert_id q) (q_account_id q) (q_symbol q) (q_side q) (q_order_type q)
    (q_entry q) (q_stop_loss q) (q_risk_pct q) P_approved (q_note q) (q_created_at q) (Some now)
    (q_rejected_at q) (q_executed_order_id q) (q_reject_reason q) (q_execution_started_at q)
    (q_execution_finished_at q) (q_execution_error_code q) (q_last_attempt_at q).

Definition mark_rejected (now : Z) (reason : option string) (q : pending_row) : pending_row :=
  mk_pending (q_order_id q) (q_alert_id q) (q_account_id q) (q_symbol q) (q_side q) (q_order_type q)
    (q_entry q) (q_stop_loss q) (q_risk_pct q) P_rejected (q_note q) (q_created_at q) (q_approved_at q)
    (Some now) (q_executed_order_id q) reason (q_execution_started_at q)
    (q_execution_finished_at q) (q_execution_error_code q) (q_last_attempt_at q).

Definition mark_executing (now : Z) (q : pending_row) : pending_row :=
  mk_pending (q_order_id q) (q_alert_id q) (q_account_id q) (q_symbol q) (q_side q) (q_order_type q)
    (q_entry q) (q_stop_loss q) (q_risk_pct q) P_executing (q_note q) (q_created_at q) (q_approved_at q)
    (q_rejected_at q) (q_executed_order_id q) (q_reject_reason q) (Some now)
    (q_execution_finished_at q) None (Some now).

Definition mark_executed (now : Z) (executed_order_id : option string) (q : pending_row) : pending_row :=
  mk_pending (q_order_id q) (q_alert_id q) (q_account_id q) (q_symbol q) (q_side q) (q_order_type q)
    (q_entry q) (q_stop_loss q) (q_risk_pct q) P_executed (q_note q) (q_created_at q) (q_approved_at q)
    (q_rejected_at q) executed_order_id (q_reject_reason q) (q_execution_started_at q)
    (Some now) (q_execution_error_code q) (Some now).

Definition mark_failed (now : Z) (status : pending_status) (code : ErrorCode) (q : pending_row) : pending_row :=
  mk_pending (q_order_id q) (q_alert_id q) (q_account_id q) (q_symbol q) (q_side q) (q_order_type q)
    (q_entry q) (q_stop_loss q) (q_risk_pct q) status (q_note q) (q_created_at q) (q_approved_at q)
    (q_rejected_at q) (q_executed_order_id q) (q_reject_reason q) (q_execution_started_at q)
    (Some now) (Some code) (Some now).

Definition with_entry (entry : float) (q : pending_row) : pending_row :=
  mk_pending (q_order_id q) (q_alert_id q) (q_account_id q) (q_symbol q) (q_side q) (q_order_type q)
    (PFloat entry) (q_stop_loss q) (q_risk_pct q) (q_status q) (q_note q) (q_created_at q)
    (q_approved_at q) (q_rejected_at q) (q_executed_order_id q) (q_reject_reason q)
    (q_execution_started_at q) (q_execution_finished_at q) (q_execution_error_code q)
    (q_last_attempt_at q).

(** The pending rows in descending order of creation, ties in rowid order. *)
Fixpoint insert_newest (x : pending_row) (l : list pending_row) : list pending_row :=
  match l with
  | [] => [x]
  | y :: l' => if (q_created_at x <? q_created_at y)%Z then y :: insert_newest x l' else x :: l
  end.

Section Pending.
Context {X : Type} `{Ext X, PyEnv}.

(** [UPDATE pending_orders SET ... WHERE order_id=? AND status=?], and what every
    transition does when it matched no row. *)
Definition cas (order_id : string) (from : pending_status) (f : pending_row → pending_row) : M X nat :=
  rows ← db_read pending_orders;
  db_modify (set_pending_orders (update_where (pending_in order_id from) f));;
  mret (count_where (pending_in order_id from) rows).

Definition not_matched {A} (order_id : string) : M X A :=
  row ← db_read (find_pending order_id);
  match row with None => raise_ NOT_FOUND | Some _ => raise_ INVALID_REQUEST end.

Definition transition (order_id : string) (from : pending_status) (f : pending_row → pending_row) : M X unit :=
  n ← cas order_id from f;
  match n with O => not_matched order_id | S _ => mret tt end.

Definition _pending_order (order_id : string) : M X pending_row :=
  rec ← db_read (find_pending order_id);
  match rec with None => raise_ NOT_FOUND | Some r => mret r end.

Definition _fill_pending_entry (order_id : string) (entry : float) : M X unit :=
  db_write (db_modify (set_pending_orders (update_where (is_pending order_id) (with_entry entry)))).

Definition approve_pending_order (order_id : string) : M X pending_status :=
  now ← time_now;
  db_write (transition order_id P_awaiting_approval (mark_approved now);; mret P_approved).

Definition reject_pending_order (order_id : string) (reason : option string) : M X pending_status :=
  now ← time_now;
  db_write (transition order_id P_awaiting_approval (mark_rejected now reason);; mret P_rejected).

Definition approve_and_claim_pending_execution (order_id : string) : M X pending_status :=
  now ← time_now;
  db_write (
    transition order_id P_awaiting_approval (mark_approved now);;
    n ← cas order_id P_approved (mark_executing now);
    match n with
    | O => raise_ INTERNAL_ERROR
    | S _ => mret P_executing
    end).

Definition complete_pending_execution (order_id : string) (executed_order_id : option string)
    : M X pending_status :=
  now ← time_now;
  db_write (transition order_id P_executing (mark_executed now executed_order_id);; mret P_executed).

Definition fail_pending_execution (order_id : string) (status : pending_status) (code : ErrorCode)
    : M X pending_status :=
  if decide (status = P_rejected ∨ status = P_reconcile_required) then
    now ← time_now;
    db_write (transition order_id P_executing (mark_failed now status code);; mret status)
  else raise_ INVALID_REQUEST.

Definition get_pending_orders (status : option pending_status) (limit : Z) : M X (list pending_row) :=
  if negb ((1 <=? limit) && (limit <=? 500))%Z then raise_ INVALID_REQUEST
  else
    db_read (λ d, firstn (Z.to_nat limit) (foldr insert_newest []
      (List.filter (λ q, match status with Some s => bool_decide (q_status q = s) | None => true end)
         (pending_orders d)))).

(** ** Recovery after a restart *)

Record recovery := mk_recovery {
  rc_scanned : nat;
  rc_matched : nat;
  rc_completed : nat;
  rc_failed : nat;
  rc_untouched : nat }.

(** The order of a pending record: [idempotency_key = 'pending:' || order_id]. *)
Definition pending_key (order_id : string) : string := "pending:" +:+ order_id.

(** What becomes of an order status. *)
Inductive order_fate := Executed_ok | Ended | Undecided.

Definition fate_of (s : order_status) : order_fate :=
  if status_in s [FILLED; PAPER] then Executed_ok
  else if status_in s [REJECTED; CANCELED; EXPIRED] then Ended
  else Undecided.

Definition recover_one (now stale_after_seconds : Z) (s : recovery) (rec : pending_row) : M X recovery :=
  let order_id := q_order_id rec in
  order ← db_read (_load_order (q_account_id rec) (pending_key order_id));
  match order with
  | Some o =>
      match fate_of (o_status o) with
      | Executed_ok =>
          complete_pending_execution order_id (o_exchange_order_id o);;
          mret (mk_recovery (rc_scanned s) (S (rc_matched s)) (S (rc_completed s)) (rc_failed s)
                  (rc_untouched s))
      | Ended =>
          fail_pending_execution order_id P_rejected ORDER_REJECTED;;
          mret (mk_recovery (rc_scanned s) (S (rc_matched s)) (rc_completed s) (S (rc_failed s))
                  (rc_untouched s))
      | Undecided =>
          fail_pending_execution order_id P_reconcile_required ORDER_UNKNOWN;;
          mret (mk_recovery (rc_scanned s) (S (rc_matched s)) (rc_completed s) (S (rc_failed s))
                  (rc_untouched s))
      end
  | None =>
      let stale := match q_execution_started_at rec with
                   | Some started => (stale_after_seconds <? now - started)%Z
                   | None => false
                   end in
      if stale then
        fail_pending_execution order_id P_reconcile_required ORDER_UNKNOWN;;
        mret (mk_recovery (rc_scanned s) (rc_matched s) (rc_completed s) (S (rc_failed s))
                (rc_untouched s))
      else
        mret (mk_recovery (rc_scanned s) (rc_matched s) (rc_completed s) (rc_failed s)
                (S (rc_untouched s)))
  end.

Definition reconcile_pending_executions (stale_after_seconds : Z) : M X recovery :=
  now ← time_now;
  records ← db_read (λ d, List.filter (λ q, bool_decide (q_status q = P_executing)) (pending_orders d));
  foldM (recover_one now stale_after_seconds) (mk_recovery (length records) 0 0 0 0) records.
End Pending.

(** ** The state machine *)

Inductive pending_edge : pending_status → pending_status → Prop :=
| edge_approve : pending_edge P_awaiting_approval P_approved
| edge_reject : pending_edge P_awaiting_approval P_rejected
| edge_claim : pending_edge P_approved P_executing
| edge_executed : pending_edge P_executing P_executed
| edge_failed : pending_edge P_executing P_rejected
| edge_unclear : pending_edge P_executing P_reconcile_required.

(** The same rows in the same order, each moved along the edges. *)
Definition row_flows (q q' : pending_row) : Prop :=
  q_order_id q' = q_order_id q ∧ rtc pending_edge (q_status q) (q_status q').

Definition pending_flow : relation db := λ d d',
  Forall2 row_flows (pending_orders d) (pending_orders d').

#[export] Instance row_flows_preorder : PreOrder row_flows.
Proof.
  split; [by intros q|]. intros q1 q2 q3 [? ?] [? ?]. split; [congruence|by etrans].
Qed.

#[export] Instance pending_flow_preorder : PreOrder pending_flow.
Proof. unfold pending_flow. split; [intros d|intros d1 d2 d3 ? ?]; [reflexivity|by etrans]. Qed.

Lemma flow_update d p f :
  (∀ q, p q = true → row_flows q (f q)) → pending_flow d (set_pending_orders (update_where p f) d).
Proof.
  intros Hf. unfold pending_flow. simpl. unfold update_where, fmap.
  induction (pending_orders d) as [|q l IH]; simpl; constructor; [|exact IH].
  destruct (p q) eqn:E; [by apply Hf|reflexivity].
Qed.

(** A terminal state has no way out; only [awaiting_approval] has no way in. *)
Lemma terminal_final s s' : s ∈ PENDING_TERMINAL_STATUSES → rtc pending_edge s s' → s' = s.
Proof.
  unfold PENDING_TERMINAL_STATUSES. rewrite !elem_of_cons, elem_of_nil.
  intros Hs Hr. destruct Hr as [|s s1 s2 He]; [done|]. inversion He; subst; naive_solver.
Qed.

Lemma never_awaiting s s' : s ≠ P_awaiting_approval → rtc pending_edge s s' → s' ≠ P_awaiting_approval.
Proof. intros Hs Hr. induction Hr as [|s s1 s2 He _ IH]; [done|]. apply IH. by inversion He. Qed.

(** The operations of the queue, as one step each. *)
Inductive pending_op :=
| PApprove (order_id : string)
| PReject (order_id : string) (reason : option string)
| PClaim (order_id : string)
| PComplete (order_id : string) (executed_order_id : option string)
| PFail (order_id : string) (status : pending_status) (code : ErrorCode)
| PFillEntry (order_id : string) (entry : float)
| PRecover (stale_after_seconds : Z).

Section Flow.
Context {X : Type} `{Ext X, PyEnv}.

Definition run_pending_op (op : pending_op) : M X unit :=
  match op with
  | PApprove i => approve_pending_order i;; mret tt
  | PReject i r => reject_pending_order i r;; mret tt
  | PClaim i => approve_and_claim_pending_execution i;; mret tt
  | PComplete i e => complete_pending_execution i e;; mret tt
  | PFail i s c => fail_pending_execution i s c;; mret tt
  | PFillEntry i e => _fill_pending_entry i e
  | PRecover n => reconcile_pending_executions n;; mret tt
  end.

(** Each operation with whether it succeeded. *)
Definition run_pending_ops (ops : list pending_op) : M X (list (pending_op * bool)) :=
  mapM (λ op, r ← attempt (run_pending_op op); mret (op, is_ok r)) ops.

Lemma flow_cas i from f :
  (∀ q, q_status q = from → row_flows q (f q)) → steps (on_db pending_flow) (cas i from f : M X nat).
Proof.
  intros Hf. unfold cas. walk. apply db_steps_modify. intros d. apply flow_update.
  unfold pending_in. intros q [_ Hs]%andb_true_iff. by apply Hf, (bool_decide_eq_true_1 _ Hs).
Qed.

Lemma flow_transition i from f :
  (∀ q, q_status q = from → row_flows q (f q)) → steps (on_db pending_flow) (transition i from f : M X unit).
Proof. intros Hf. unfold transition, not_matched. walk. by apply flow_cas. Qed.

Ltac flows := intros q Hq; split; [done|]; rewrite Hq; apply rtc_once; constructor.

Lemma flow_complete i e : steps (on_db pending_flow) (complete_pending_execution i e : M X _).
Proof. unfold complete_pending_execution. walk. apply flow_transition. flows. Qed.

Lemma flow_fail i s c : steps (on_db pending_flow) (fail_pending_execution i s c : M X _).
Proof.
  unfold fail_pending_execution. destruct (decide _) as [Hs|]; [|walk]. walk. apply flow_transition.
  destruct Hs as [-> | ->]; flows.
Qed.
Hint Resolve flow_complete flow_fail : wsteps.

Lemma flow_op op : steps (on_db pending_flow) (run_pending_op op).
Proof.
  destruct op; cbn [run_pending_op].
  - unfold approve_pending_order. walk. apply flow_transition. flows.
  - unfold reject_pending_order. walk. apply flow_transition. flows.
  - unfold approve_and_claim_pending_execution. walk; [apply flow_transition|apply flow_cas]; flows.
  - walk.
  - walk.
  - unfold _fill_pending_entry. walk. apply db_steps_modify. intros d. apply flow_update. intros q _.
    by split.
  - unfold reconcile_pending_executions, recover_one. walk.
Qed.

Lemma flow_ops ops : steps (on_db pending_flow) (run_pending_ops ops).
Proof. unfold run_pending_ops. walk. apply flow_op. Qed.

(** ** One decision per record *)

(** The operations that take a record out of [awaiting_approval]. *)
Definition decides (i : string) (op : pending_op) : bool :=
  match op with
  | PApprove j | PReject j _ | PClaim j => String.eqb i j
  | _ => false
  end.

Definition decided (i : string) (d : db) : Prop :=
  ∀ q, q ∈ pending_orders d → q_order_id q = i → q_status q ≠ P_awaiting_approval.

Lemma decided_stays i d d' : pending_flow d d' → decided i d → decided i d'.
Proof.
  intros Hflow Hd q' Hq' Hi. apply list_elem_of_lookup in Hq' as [k Hk].
  destruct (Forall2_lookup_r _ _ _ _ _ Hflow Hk) as (q & Hq & Hid & Hs).
  eapply never_awaiting; [|exact Hs]. apply Hd; [by eapply list_elem_of_lookup_2|congruence].
Qed.

Lemma decided_no_match i d :
  decided i d → count_where (pending_in i P_awaiting_approval) (pending_orders d) = 0%nat.
Proof.
  intros Hd. apply count_where_0, Forall_forall. intros q Hq. unfold pending_in, is_pending.
  destruct (String.eqb_spec (q_order_id q) i) as [Hi|]; [|done]. simpl.
  apply bool_decide_eq_false. by apply Hd.
Qed.

(** A first transition out of [awaiting_approval]: it fails when the record is
    decided, and decides it otherwise. *)
Lemma wp_decide {A} i f (m : M X A) (w : world X) :
  (∀ q, q_status (f q) ≠ P_awaiting_approval) → steps (on_db pending_flow) m →
  (∀ q, q_status q = P_awaiting_approval → row_flows q (f q)) →
  wp (db_write (transition i P_awaiting_approval f;; m)) (λ r w', is_ok r = true →
    ¬ decided i (w_db w) ∧ decided i (w_db w')) w.
Proof.
  intros Hf Hm Hflow. apply wp_db_write; [done|intros _]. apply wp_bind. unfold transition, cas.
  apply wp_bind, wp_bind, wp_db_read, wp_bind, wp_db_modify, wp_ret.
  destruct (count_where _ _) as [|n] eqn:E.
  { unfold not_matched. repeat wp1; done. }
  apply wp_ret. eapply wp_steps; [exact Hm|]. intros [a|e] w' Hw'; [|done]. intros _. split.
  - intros Hd. by rewrite decided_no_match in E.
  - eapply decided_stays; [exact Hw'|]. intros q' Hq' Hi. simpl in Hq'.
    apply elem_of_update_where in Hq' as (q & _ & ->). revert Hi.
    destruct (pending_in i P_awaiting_approval q) eqn:Ep; [intros _; apply Hf|].
    intros Hi Hs. unfold pending_in, is_pending in Ep. by rewrite Hi, String.eqb_refl, Hs in Ep.
Qed.

Lemma wp_decides i op (w : world X) : decides i op = true →
  wp (run_pending_op op) (λ r w', is_ok r = true → ¬ decided i (w_db w) ∧ decided i (w_db w')) w.
Proof.
  assert (∀ A (m : M X A), (∀ w0, w_db w0 = w_db w → wp m (λ r w', is_ok r = true →
      ¬ decided i (w_db w0) ∧ decided i (w_db w')) w0) →
    wp (_ ← (_ ← time_now; m); mret tt) (λ r w', is_ok r = true →
      ¬ decided i (w_db w) ∧ decided i (w_db w')) w) as Hgo.
  { intros A m Hm. apply wp_bind, wp_bind, wp_time. intros t x.
    eapply wp_mono; [by apply Hm|]. intros [a|e] w'; [|done]. simpl. intros Hr. by apply wp_ret. }
  destruct op; simpl; try done; intros <-%String.eqb_eq; apply wp_bind.
  all: unfold approve_pending_order, reject_pending_order, approve_and_claim_pending_execution.
  all: apply wp_bind, wp_time; intros t x.
  all: eapply wp_mono; [apply wp_decide|intros [a|e] w' Hr; [by apply wp_ret|done]].
  all: try done; try (intros q Hq; split; [done|]; rewrite Hq; apply rtc_once; constructor); walk.
  apply flow_cas. intros q Hq; split; [done|]; rewrite Hq; apply rtc_once; constructor.
Qed.

Definition decisions (i : string) (l : list (pending_op * bool)) : nat :=
  count_where (λ ob, decides i ob.1 && ob.2) l.

Lemma run_pending_ops_decisions i ops (w : world X) :
  wp (run_pending_ops ops) (λ r w', ∃ l, r = Ok l ∧ map fst l = ops ∧
    (decisions i l ≤ 1)%nat ∧ (decided i (w_db w) → decisions i l = 0%nat)) w.
Proof.
  unfold run_pending_ops. revert w. induction ops as [|op ops IH]; intros w; cbn [mapM].
  { apply wp_ret. exists []. unfold decisions, count_where. simpl. auto. }
  apply wp_bind, wp_bind, wp_attempt.
  assert (wp (run_pending_op op) (λ r w', pending_flow (w_db w) (w_db w') ∧
    (decides i op = true → is_ok r = true → ¬ decided i (w_db w) ∧ decided i (w_db w'))) w) as Hop.
  { split; [apply flow_op|]. intros Hd. by apply (wp_decides i op w Hd). }
  eapply wp_mono; [exact Hop|]. intros r w1 [Hflow Hdec]. apply wp_ret.
  apply wp_bind. eapply wp_mono; [apply IH|]. intros ? w2 (l & -> & Hops & Hle & Hzero). apply wp_ret.
  exists ((op, is_ok r) :: l). split; [done|]. split; [simpl; by rewrite Hops|].
  unfold decisions, count_where in *. simpl.
  destruct (decides i op && is_ok r) eqn:E; simpl.
  - apply andb_true_iff in E as [E1 E2]. destruct (Hdec E1 E2) as [Hn Hd1].
    rewrite (Hzero Hd1). split; [lia|done].
  - split; [done|]. intros Hd. by apply Hzero, (decided_stays i (w_db w)).
Qed.

(** C14: over any sequence of operations of the approval queue, whatever fails, no
    record appears, disappears or changes place; each moves only along the edges
    of the state machine, and one in a terminal state keeps it for good. *)
Theorem pending_states_flow ops (w : world X) :
  Forall2 (λ q q', row_flows q q' ∧
      (q_status q ∈ PENDING_TERMINAL_STATUSES → q_status q' = q_status q))
    (pending_orders (w_db w)) (pending_orders (w_db (run_pending_ops ops w).2)).
Proof.
  eapply Forall2_impl; [exact (flow_ops ops w)|]. intros q q' Hq. split; [done|].
  intros Ht. destruct Hq as [_ Hq]. by apply terminal_final.
Qed.

(** C13: over any sequence of operations, at most one of all the calls that approve,
    reject or claim a given record succeeds: a record is executed on behalf of at
    most one approval. *)
Theorem pending_decided_once i ops (w : world X) :
  ∃ l, (run_pending_ops ops w).1 = Ok l ∧ map fst l = ops ∧ (decisions i l ≤ 1)%nat.
Proof.
  destruct (run_pending_ops_decisions i ops w) as (l & Hl & Hops & Hle & _). eauto.
Qed.

(** ** Recovery *)

(** What the order placed for a pending record says about it. *)
Definition order_outcome (s : order_status) : pending_status :=
  match s with
  | FILLED | PAPER => P_executed
  | REJECTED | CANCELED | EXPIRED => P_rejected
  | NEW | PARTIALLY_FILLED | UNKNOWN | RECONCILE_REQUIRED => P_reconcile_required
  end.

(** What becomes of a record left in [executing]. *)
Definition recovered_status (d : db) (now stale_after : Z) (q : pending_row) : pending_status :=
  match _load_order (q_account_id q) (pending_key (q_order_id q)) d with
  | Some o => order_outcome (o_status o)
  | None =>
      match q_execution_started_at q with
      | Some started => if (stale_after <? now - started)%Z then P_reconcile_required else P_executing
      | None => P_executing
      end
  end.

Definition recovered (d : db) (now stale_after : Z) (recs : list pending_row) (q q' : pending_row) : Prop :=
  q_order_id q' = q_order_id q ∧ q_account_id q' = q_account_id q ∧
  (q ∈ recs → q_status q' = recovered_status d now stale_after q) ∧
  (q_order_id q ∉ map q_order_id recs → q' = q).

Lemma pending_unique l q q' :
  NoDup (map q_order_id l) → q ∈ l → q' ∈ l → q_order_id q = q_order_id q' → q = q'.
Proof.
  intros Hn (i & Hi)%list_elem_of_lookup (j & Hj)%list_elem_of_lookup Heq.
  assert (i = j) as ->; [|congruence].
  eapply NoDup_lookup; [exact Hn| |]; rewrite list_lookup_fmap; [by rewrite Hi|].
  rewrite Hj. simpl. by rewrite Heq.
Qed.

(** The transition of one record out of [executing], which cannot miss. *)
Lemma wp_transition_hit {A} rec f (a : A) (w : world X) :
  rec ∈ pending_orders (w_db w) → q_status rec = P_executing → w_closed w = false →
  wp (db_write (transition (q_order_id rec) P_executing f;; mret a)) (λ r w', r = Ok a ∧
    w_closed w' = false ∧
    w_db w' = set_pending_orders (update_where (pending_in (q_order_id rec) P_executing) f) (w_db w)) w.
Proof.
  intros Hin Hs Hc. apply wp_db_write; [congruence|intros _]. apply wp_bind. unfold transition, cas.
  apply wp_bind, wp_bind, wp_db_read, wp_bind, wp_db_modify, wp_ret.
  destruct (count_where _ _) as [|n] eqn:E.
  - apply count_where_0 in E. rewrite Forall_forall in E. specialize (E _ Hin).
    unfold pending_in, is_pending in E. by rewrite String.eqb_refl, Hs in E.
  - apply wp_ret, wp_ret. done.
Qed.

Lemma outcome_fate s :
  order_outcome s = match fate_of s with
    | Executed_ok => P_executed | Ended => P_rejected | Undecided => P_reconcile_required end.
Proof. by destruct s. Qed.

(** One turn of the loop: the record gets its status, the others stay. *)
Definition one_recovered (now stale_after : Z) (rec : pending_row) (w w' : world X) : Prop :=
  orders (w_db w') = orders (w_db w) ∧ w_closed w' = false ∧
  ∃ f, pending_orders (w_db w') =
      update_where (pending_in (q_order_id rec) P_executing) f (pending_orders (w_db w)) ∧
    ∀ q, q_order_id (f q) = q_order_id q ∧ q_account_id (f q) = q_account_id q ∧
      (q = rec → q_status (f q) = recovered_status (w_db w) now stale_after rec).

Lemma wp_recover_one now stale_after s rec (w : world X) :
  rec ∈ pending_orders (w_db w) → q_status rec = P_executing → w_closed w = false →
  wp (recover_one now stale_after s rec)
    (λ r w', is_ok r = true ∧ one_recovered now stale_after rec w w') w.
Proof.
  intros Hin Hs Hc. unfold recover_one. apply wp_bind, wp_db_read.
  assert (∀ st code (s' : recovery), st = P_rejected ∨ st = P_reconcile_required →
    st = recovered_status (w_db w) now stale_after rec →
    wp (fail_pending_execution (q_order_id rec) st code;; mret s' : M X recovery)
      (λ r w', is_ok r = true ∧ one_recovered now stale_after rec w w') w) as Hfail.
  { intros st code s' Hst Heq. unfold fail_pending_execution. destruct (decide _); [|done].
    apply wp_bind, wp_bind, wp_time. intros t x. eapply wp_mono; [by apply wp_transition_hit|].
    intros r w' (-> & Hc' & Hw'). apply wp_ret. split; [done|]. unfold one_recovered. rewrite Hw'.
    split_and!; [done..|]. by exists (mark_failed t st code). }
  unfold recovered_status in Hfail.
  destruct (_load_order _ _ _) as [o|] eqn:El.
  - rewrite outcome_fate in Hfail. destruct (fate_of (o_status o)) eqn:Ef; [|apply Hfail; auto..].
    unfold complete_pending_execution. apply wp_bind, wp_bind, wp_time. intros t x.
    eapply wp_mono; [by apply wp_transition_hit|]. intros r w' (-> & Hc' & Hw'). apply wp_ret.
    split; [done|]. unfold one_recovered, recovered_status. rewrite Hw', El, outcome_fate, Ef.
    split_and!; [done..|]. by exists (mark_executed t (o_exchange_order_id o)).
  - assert (recovered_status (w_db w) now stale_after rec = P_executing →
      one_recovered now stale_after rec w w) as Hstay.
    { intros Hst. split_and!; [done..|]. exists id. unfold update_where. split.
      - transitivity (id <$> pending_orders (w_db w)); [by rewrite list_fmap_id|].
        apply list_fmap_ext. intros k q _. by destruct (pending_in _ _ q).
      - intros q. split_and!; [done..|]. intros ->. by rewrite Hst. }
    unfold recovered_status in Hstay. rewrite El in Hstay.
    destruct (q_execution_started_at rec) as [started|]; [|by apply wp_ret; auto].
    destruct (_ <? _)%Z; [apply Hfail; auto|apply wp_ret; auto].
Qed.

Lemma recovered_status_orders d d' now stale_after q :
  orders d' = orders d → recovered_status d' now stale_after q = recovered_status d now stale_after q.
Proof. unfold recovered_status, _load_order. by intros ->. Qed.

Lemma recovered_step now stale_after rec recs f d (l l2 : list pending_row) :
  NoDup (map q_order_id l) → rec ∈ l → q_status rec = P_executing → rec ∉ recs → recs ⊆ l →
  (∀ q, q_order_id (f q) = q_order_id q ∧ q_account_id (f q) = q_account_id q ∧
    (q = rec → q_status (f q) = recovered_status d now stale_after rec)) →
  Forall2 (recovered d now stale_after recs)
    (update_where (pending_in (q_order_id rec) P_executing) f l) l2 →
  Forall2 (recovered d now stale_after (rec :: recs)) l l2.
Proof.
  intros Hn Hrec Hs Hnot Hsub Hf Hl2.
  apply Forall2_same_length_lookup. split.
  { apply Forall2_length in Hl2. by rewrite length_update_where in Hl2. }
  intros k q q2 Hq Hq2.
  assert (update_where (pending_in (q_order_id rec) P_executing) f l !! k =
    Some (if pending_in (q_order_id rec) P_executing q then f q else q)) as Hq1.
  { by rewrite update_where_lookup, Hq. }
  pose proof (Forall2_lookup_lr _ _ _ _ _ _ Hl2 Hq1 Hq2) as (Hi & Ha & Hst & Hsame).
  assert (q ∈ l) as Hin by by eapply list_elem_of_lookup_2.
  unfold pending_in, is_pending in *.
  destruct (String.eqb_spec (q_order_id q) (q_order_id rec)) as [Heq|Hne].
  - assert (q = rec) as -> by by apply (pending_unique l).
    rewrite bool_decide_eq_true_2 in * by done. simpl in *. destruct (Hf rec) as (Hfi & Hfa & Hfs).
    rewrite Hsame; [split_and!; [done|done|by intros; apply Hfs|by intros Hno; destruct Hno; left]|].
    rewrite Hfi. intros (r & Hr & Hrin)%list_elem_of_fmap.
    assert (r = rec) as -> by (apply (pending_unique l); auto). done.
  - simpl in *. split_and!; [done..| |].
    + rewrite elem_of_cons. intros [->|]; [done|by apply Hst].
    + cbn [map]. rewrite not_elem_of_cons. intros [_ ?]. by apply Hsame.
Qed.

Lemma wp_recover_loop now stale_after recs s (w : world X) :
  NoDup (map q_order_id (pending_orders (w_db w))) → NoDup recs → w_closed w = false →
  (∀ rec, rec ∈ recs → rec ∈ pending_orders (w_db w) ∧ q_status rec = P_executing) →
  wp (foldM (recover_one now stale_after) s recs) (λ r w', is_ok r = true ∧
    Forall2 (recovered (w_db w) now stale_after recs) (pending_orders (w_db w)) (pending_orders (w_db w'))) w.
Proof.
  revert s w. induction recs as [|rec recs IH]; intros s w Hn Hnr Hc Hrecs; cbn [foldM].
  { apply wp_ret. split; [done|]. apply Forall2_same_length_lookup. split; [done|].
    intros k q q' Hq Hq'. assert (q' = q) as -> by congruence.
    split_and!; [done..| |done]. by intros ?%not_elem_of_nil. }
  apply NoDup_cons in Hnr as [Hnot Hnr]. destruct (Hrecs rec) as [Hin Hs]; [by left|].
  apply wp_bind. eapply wp_mono; [by apply wp_recover_one|].
  intros [s'|e] w1 [Hok (Ho & Hc1 & f & Hl & Hf)]; [|done].
  eapply wp_mono; [apply IH; [|done|done|]|].
  - rewrite Hl, map_update_where; [done|]. intros q. apply Hf.
  - intros r Hr. destruct (Hrecs r) as [Hrin Hrs]; [by right|]. split; [|done]. rewrite Hl.
    apply elem_of_update_where. exists r. split; [done|]. unfold pending_in, is_pending.
    destruct (String.eqb_spec (q_order_id r) (q_order_id rec)) as [Heq|]; [|done].
    assert (r = rec) as -> by by apply (pending_unique (pending_orders (w_db w))). done.
  - intros r w2 [Hok2 Hl2]. split; [done|]. rewrite Hl in Hl2.
    eapply recovered_step; [done|done|done|done| |done|].
    + intros r' Hr'. apply Hrecs. by right.
    + eapply Forall2_impl; [exact Hl2|]. intros q q' (? & ? & Hst & ?). split_and!; try done.
      intros Hq. rewrite Hst by done. by apply recovered_status_orders.
Qed.

(** Recovery after a restart always completes on an open store with unique
    record ids, and moves every record left in [executing] exactly as its order
    says: executed for a filled or paper order, rejected for one that ended,
    [reconcile_required] for one that is undecided or, past the threshold, has no
    record; every other record keeps its status. *)
Theorem recovery_complete stale_after (w : world X) :
  w_closed w = false → NoDup (map q_order_id (pending_orders (w_db w))) →
  ∃ now s, (reconcile_pending_executions stale_after w).1 = Ok s ∧
    Forall2 (λ q q', q_order_id q' = q_order_id q ∧
        q_status q' = if decide (q_status q = P_executing)
                      then recovered_status (w_db w) now stale_after q else q_status q)
      (pending_orders (w_db w)) (pending_orders (w_db (reconcile_pending_executions stale_after w).2)).
Proof.
  intros Hc Hn.
  assert (wp (reconcile_pending_executions stale_after) (λ r w', ∃ now s, r = Ok s ∧
    Forall2 (λ q q', q_order_id q' = q_order_id q ∧
        q_status q' = if decide (q_status q = P_executing)
                      then recovered_status (w_db w) now stale_after q else q_status q)
      (pending_orders (w_db w)) (pending_orders (w_db w'))) w) as Hwp; [|exact Hwp].
  unfold reconcile_pending_executions. apply wp_bind, wp_time. intros now x. apply wp_bind, wp_db_read.
  simpl. eapply wp_mono; [apply wp_recover_loop; [done| |done|]|].
  - apply NoDup_ListNoDup, List.NoDup_filter, NoDup_ListNoDup. by eapply NoDup_fmap_1.
  - intros rec [Hin Hs]%elem_of_filter_b. split; [done|]. by eapply bool_decide_eq_true_1.
  - intros [s|e] w' [Hok Hl]; [|done]. exists now, s. split; [done|].
    apply Forall2_same_length_lookup. split; [by eapply Forall2_length|].
    intros k q q' Hq Hq'. pose proof (Forall2_lookup_lr _ _ _ _ _ _ Hl Hq Hq') as (Hi & _ & Hst & Hsame).
    split; [done|]. simpl in *. assert (q ∈ pending_orders (w_db w)) by by eapply list_elem_of_lookup_2.
    destruct (decide _) as [He|He].
    + apply Hst, elem_of_filter_b. split; [done|]. by apply bool_decide_eq_true_2.
    + rewrite Hsame; [done|]. intros (r & Hr & [Hrin Hrs]%elem_of_filter_b)%list_elem_of_fmap.
      apply bool_decide_eq_true_1 in Hrs. apply He. by rewrite (pending_unique _ q r Hn).
Qed.
End Flow.

(** ** Witness *)

#[local] Existing Instances outside_ext sample_env.

Definition sample_pending : pending_row :=
  mk_pending "p1" "alert" "acc" "BTCUSDT" "BUY" "market" PNone PNone (PFloat (fQ 1 100)) P_executing PNone
    10 (Some 10%Z) None None None (Some 10%Z) None None (Some 10%Z).
Definition sample_executing : world outside :=
  start (set_pending_orders (λ _, [sample_pending]) empty_db).

Lemma sample_executing_ids : NoDup (map q_order_id (pending_orders (w_db sample_executing))).
Proof. apply NoDup_singleton. Defined.

Lemma recovery_complete_witness :
  ∃ now s, (reconcile_pending_executions 300 sample_executing).1 = Ok s ∧
    Forall2 (λ q q', q_order_id q' = q_order_id q ∧
        q_status q' = if decide (q_status q = P_executing)
                      then recovered_status (w_db sample_executing) now 300 q else q_status q)
      (pending_orders (w_db sample_executing))
      (pending_orders (w_db (reconcile_pending_executions 300 sample_executing).2)).
Proof. exact (recovery_complete 300 sample_executing eq_refl sample_executing_ids). Defined.
