(* ===== verification/OrdersSpec.v ===== *)
(** What the order service promises: every submission to the exchange follows the
    commit of a fresh order record, once per idempotency key. *)

From Stdlib Require Import ZArith String.
From S2P Require Import Prelude PyFloat PyVal Errors Risk Sizing Validation Monad Broker Db Sample AuditLog Credentials Accounts RiskPolicy Orders Close.
Import RiskCaps.
Local Open Scope string_scope.
Local Open Scope list_scope.

(** The columns that identify an order. *)
Definition okey (o : order_row) : string * string * string :=
  (o_order_id o, o_account_id o, o_idempotency_key o).
Definition okeys (d : db) : list (string * string * string) := map okey (orders d).

(** No order record appears or disappears, nothing is submitted. *)
Definition quiet {X} : relation (world X) := λ w w',
  okeys (w_db w') = okeys (w_db w) ∧ submissions (w_trace w') = submissions (w_trace w).

#[export] Instance quiet_wrel {X} : WRel (quiet (X:=X)).
Proof.
  unfold quiet. split; simpl.
  - split; [by intros ?|]. intros ??? [??] [??]. split; congruence.
  - done.
  - intros w x c Hc. split; [done|]. exact (wrel_query (R := same_submissions) w x c Hc).
  - intros w w' [_ ?]. done.
Qed.

#[export] Instance quiet_cancel {X} : WCancel (quiet (X:=X)).
Proof. intros w x c Hc. split; [done|]. exact (wrel_cancel (R := same_submissions) w x c Hc). Qed.

(** A record under keys that no other record has. *)
Definition fresh_order {X} (o : order_row) (w : world X) : Prop :=
  o_order_id o ∉ map o_order_id (orders (w_db w)) ∧
  Forall (λ o', same_order_key (o_account_id o) (o_idempotency_key o) o' = false) (orders (w_db w)).

(** The submission [c] sends the order recorded as [o]. *)
Definition describes (c : broker_call) (o : order_row) : Prop :=
  match c with
  | CPlaceOrder a =>
      pa_account_id a = o_account_id o ∧ pa_symbol a = o_symbol o ∧ pa_side a = o_side o ∧
      pa_order_type a = o_order_type o ∧ pa_quantity a = o_quantity o ∧ pa_price a = o_price o ∧
      pa_stop_price a = o_stop_price o ∧ pa_client_order_id a = o_client_order_id o
  | CPlaceOco a =>
      oa_account_id a = o_account_id o ∧ oa_symbol a = o_symbol o ∧ oa_side a = o_side o ∧
      o_order_type o = "OCO" ∧ oa_quantity a = o_quantity o ∧ o_price o = Some (oa_price a) ∧
      o_stop_price o = Some (oa_stop_price a) ∧
      o_stop_limit_price o = Some (oa_stop_limit_price a) ∧
      oa_client_order_id a = o_client_order_id o
  | _ => False
  end.

(** What one order operation may do: nothing to the records; record a simulated
    order; or commit a fresh [NEW] record and then submit that order, once. *)
Inductive order_step {X} (w w' : world X) : Prop :=
| step_quiet : quiet w w' → order_step w w'
| step_paper o :
    fresh_order o w → o_status o = PAPER →
    okeys (w_db w') = okeys (w_db w) ++ [okey o] →
    submissions (w_trace w') = submissions (w_trace w) → order_step w w'
| step_submit o c d :
    fresh_order o w → o_status o = NEW → describes c o →
    last (orders d) = Some o → okeys d = okeys (w_db w) ++ [okey o] →
    okeys (w_db w') = okeys d →
    submissions (w_trace w') = submissions (w_trace w) ++ [(c, d)] → order_step w w'.

Lemma fresh_okeys {X} o (w w' : world X) :
  okeys (w_db w') = okeys (w_db w) → fresh_order o w → fresh_order o w'.
Proof.
  unfold fresh_order, okeys. intros Hk [H1 H2]. revert Hk H1 H2.
  generalize (orders (w_db w)) (orders (w_db w')). intros l l'. revert l.
  induction l' as [|o' l' IH]; intros [|o0 l] Hk H1 H2; simplify_eq/=; [done|].
  apply Forall_cons in H2 as [H2 H2']. rewrite not_elem_of_cons in H1. destruct H1 as [H1 H1'].
  destruct (IH l) as [? ?]; [done..|]. unfold okey in *. simplify_eq. split.
  - rewrite not_elem_of_cons. split; congruence.
  - constructor; [|done]. unfold same_order_key in *. congruence.
Qed.

(** A relation that ignores the audit log and updates of order rows in place. *)
Class OrderFrame {X} (R : relation (world X)) := {
  frame_audit_log f w : R w (with_db w (set_audit_log f (w_db w)));
  frame_orders i f w : (∀ o, okey (f o) = okey o) →
    R w (with_db w (set_orders (update_where (is_order i) f) (w_db w))) }.

Lemma okeys_update i f d : (∀ o, okey (f o) = okey o) →
  okeys (set_orders (update_where (is_order i) f) d) = okeys d.
Proof. intros Hf. unfold okeys. simpl. by apply map_update_where. Qed.

#[export] Instance quiet_frame {X} : OrderFrame (quiet (X:=X)).
Proof. split; [done|]. intros i f w Hf. split; [by apply okeys_update|done]. Qed.

(** No order record appears, and the overrides, policies and accounts stay. *)
Definition calm : relation db := λ d d',
  okeys d' = okeys d ∧ risk_override d' = risk_override d ∧ risk_policy d' = risk_policy d ∧
  accounts d' = accounts d.

#[export] Instance calm_preorder : PreOrder calm.
Proof. split; [by intros d|]. intros d1 d2 d3 (?&?&?&?) (?&?&?&?). repeat split; congruence. Qed.

#[export] Instance calm_frame {X} : OrderFrame (on_db (X:=X) calm).
Proof. split; [done|]. intros i f w Hf. unfold on_db, calm. simpl. split; [by apply okeys_update|done]. Qed.

Section Frame.
Context {X : Type} `{Ext X, PyEnv, SecretStore X, OrderBroker X, MarketFeed X, OrderConfig}.
Context (R : relation (world X)) `{!WRel R, !OrderFrame R}.

Lemma frame_audit a b c : steps R (audit a b c : M X unit).
Proof. unfold audit, append_in_connection, insert_audit. walk. intros w. apply frame_audit_log. Qed.

Lemma frame_update i f : (∀ o, okey (f o) = okey o) → steps R (_update_order i f : M X unit).
Proof.
  intros Hf. unfold _update_order. walk. intros w. apply frame_orders. intros o. by rewrite <- (Hf o).
Qed.

Lemma frame_fill i r : steps R (_update_order i (with_fill r) : M X unit).
Proof. by apply frame_update. Qed.
Lemma frame_status i s c : steps R (_update_order i (with_status s c) : M X unit).
Proof. by apply frame_update. Qed.
Hint Resolve frame_audit frame_fill frame_status : wsteps.

Lemma frame_balance a : steps R (broker_balance a : M X _).
Proof. unfold broker_balance. walk. Qed.
Hint Resolve frame_balance : wsteps.

Lemma frame_exposure a q : steps R (_current_exposure a q : M X _).
Proof. unfold _current_exposure. walk. Qed.

Lemma frame_equity b q : steps R (_equity_from_balances b q : M X _).
Proof. unfold _equity_from_balances. walk. Qed.

Lemma frame_credentials a : steps R (get_credentials a : M X _).
Proof. unfold get_credentials. walk. Qed.
Hint Resolve frame_exposure frame_equity frame_credentials : wsteps.

Lemma frame_is_real a : steps R (_is_real a : M X _).
Proof. unfold _is_real. walk. Qed.

Lemma frame_preflight a b c d : steps R (_accuracy_preflight a b c d : M X _).
Proof. unfold _accuracy_preflight. walk. Qed.

Lemma frame_get_policy a : steps R (get_policy a : M X _).
Proof. unfold get_policy. walk. Qed.

Hint Resolve frame_is_real frame_preflight frame_get_policy : wsteps.

Lemma frame_market_gate s : steps R (market_gate s : M X _).
Proof. unfold market_gate. walk. Qed.

Lemma frame_query a b c d : steps R (query_state a b c d : M X _).
Proof. unfold query_state. walk. Qed.
Hint Resolve frame_market_gate frame_query : wsteps.

Lemma frame_query_or_none a b c d : steps R (query_or_none a b c d : M X _).
Proof. unfold query_or_none. walk. Qed.
Hint Resolve frame_query_or_none : wsteps.

Lemma frame_reconcile_after_timeout a b c d e :
  steps R (_reconcile_after_timeout a b c d e : M X _).
Proof. unfold _reconcile_after_timeout. walk. Qed.

Lemma frame_handle_existing a b : steps R (_handle_existing a b : M X _).
Proof. unfold _handle_existing. walk. Qed.

Lemma frame_get_account a : steps R (get_account a : M X _).
Proof. unfold get_account. walk. Qed.
Hint Resolve frame_reconcile_after_timeout frame_handle_existing frame_get_account : wsteps.
End Frame.

#[export] Hint Resolve frame_audit frame_fill frame_status frame_balance frame_exposure frame_equity
  frame_credentials frame_is_real frame_preflight frame_get_policy frame_market_gate frame_query
  frame_query_or_none frame_reconcile_after_timeout frame_handle_existing frame_get_account : wsteps.

Section Steps.
Context {X : Type} `{Ext X, PyEnv, SecretStore X, OrderBroker X, MarketFeed X, OrderConfig}.

Lemma quiet_modify (f : db → db) :
  (∀ d, okeys (f d) = okeys d) → steps quiet (db_modify f : M X unit).
Proof. intros Hf w. split; [apply Hf|done]. Qed.

Lemma quiet_consume a b c d : steps quiet (consume_override a b c d : M X _).
Proof. unfold consume_override, now_or, _consume. walk. by apply quiet_modify. Qed.
Hint Resolve quiet_consume : wsteps.

Lemma quiet_caps a b c d e f : steps quiet (_enforce_caps_or_override a b c d e f : M X _).
Proof. unfold _enforce_caps_or_override. walk. Qed.
Hint Resolve quiet_caps : wsteps.

(** ** One operation is one step *)

Lemma order_step_pre (w w1 w2 : world X) : quiet w w1 → order_step w1 w2 → order_step w w2.
Proof.
  intros [Hk Hs] [[Hk2 Hs2]|o Hf Hst Hk2 Hs2|o c d Hf Hst Hd Hl Hk2 Hk3 Hs2].
  - apply step_quiet. split; congruence.
  - apply (step_paper _ _ o); [by eapply fresh_okeys|done|congruence..].
  - apply (step_submit _ _ o c d); [by eapply fresh_okeys|congruence..].
Qed.

Lemma order_step_post (w w1 w2 : world X) : order_step w w1 → quiet w1 w2 → order_step w w2.
Proof.
  intros [[Hk2 Hs2]|o Hf Hst Hk2 Hs2|o c d Hf Hst Hd Hl Hk2 Hk3 Hs2] [Hk Hs].
  - apply step_quiet. split; congruence.
  - apply (step_paper _ _ o); [done|done|congruence..].
  - apply (step_submit _ _ o c d); congruence.
Qed.

Definition ostep {A} (m : M X A) : Prop := ∀ w, order_step w (m w).2.

Lemma ostep_quiet {A} (m : M X A) : steps quiet m → ostep m.
Proof. intros Hm w. apply step_quiet, Hm. Qed.

Lemma ostep_bind {A B} (m : M X A) (f : A → M X B) :
  steps quiet m → (∀ a, ostep (f a)) → ostep (m ≫= f).
Proof.
  intros Hm Hf w. specialize (Hm w). unfold mbind, ST_bind.
  destruct (m w) as [[a|e] w'] eqn:E; simpl in *; [|by apply step_quiet].
  eapply order_step_pre; [exact Hm|apply Hf].
Qed.

Lemma ostep_post {A B} (m : M X A) (f : A → M X B) :
  ostep m → (∀ a, steps quiet (f a)) → ostep (m ≫= f).
Proof.
  intros Hm Hf w. specialize (Hm w). unfold mbind, ST_bind.
  destruct (m w) as [[a|e] w'] eqn:E; simpl in *; [|done].
  eapply order_step_post; [exact Hm|apply Hf].
Qed.

Lemma wp_insert n st (Q : result order_row → world X → Prop) (w : world X) :
  (∀ x, Q (Err IntegrityError) (mk_world (w_db w) (w_closed w) x (w_trace w))) →
  (∀ i t x, let o := order_of n i st t in fresh_order o w →
    Q (Ok o) (mk_world (set_orders (λ l, l ++ [o]) (w_db w)) (w_closed w) x (w_trace w))) →
  wp (_insert_order n st) Q w.
Proof.
  intros He Ho. unfold _insert_order. repeat wp1; simplify_eq/=; [apply He|].
  match goal with Hb : _ || _ = false |- _ => apply orb_false_iff in Hb as [Hi Hk] end.
  apply Ho. split; simpl.
  - intros (y & Hy & Hin)%list_elem_of_fmap.
    apply not_true_iff_false in Hi. apply Hi, existsb_exists. exists y. split; [by apply list_elem_of_In|].
    unfold is_order. rewrite <- Hy. apply String.eqb_refl.
  - apply Forall_forall. intros y Hy. destruct (same_order_key _ _ y) eqn:E; [|done].
    rewrite <- Hk. symmetry. apply existsb_exists. exists y. split; [by apply list_elem_of_In|done].
Qed.

Lemma insert_order_run n st (w : world X) :
  wp (_insert_order n st) (λ r w', match r with
    | Ok o => fresh_order o w ∧ (∃ i t, o = order_of n i st t) ∧
        orders (w_db w') = orders (w_db w) ++ [o] ∧ w_trace w' = w_trace w
    | Err _ => quiet w w'
    end) w.
Proof.
  apply wp_insert; [by split|]. intros i t x o Hf. split_and!; [done|by do 2 eexists|done|done].
Qed.

(** A simulated order. *)
Lemma ostep_paper {B} n actor action (details : order_row → list (string * pyval)) (f : order_row → M X B) :
  (∀ o, steps quiet (f o)) →
  ostep (o ← db_write (o ← _insert_order n PAPER; audit actor action (details o);; mret o); f o).
Proof.
  intros Hf. apply ostep_post; [|done].
  intros w. change (wp (db_write (o ← _insert_order n PAPER; audit actor action (details o);; mret o))
    (λ _ w', order_step w w') w).
  apply wp_db_write; [intros _; by apply step_quiet|intros _].
  assert (∀ (w0 w' : world X), quiet w w0 → order_step w (with_db w0 (w_db w))) as Hroll.
  { intros w0 _ Hq. apply step_quiet. by apply (wrel_rollback w w0). }
  apply wp_bind. eapply wp_mono; [apply insert_order_run|]. intros [o|e] w1; [|intros Hq; by apply Hroll].
  intros (Hfr & (i & t & ->) & Ho & Ht). apply wp_bind, wp_audit. intros r w2 (log & x & ->).
  destruct r as [u|e]; [apply wp_ret|].
  - eapply (step_paper _ _ (order_of n i PAPER t)); [done|done| |by simpl; rewrite Ht].
    unfold okeys. simpl. by rewrite Ho, map_app.
  - apply step_quiet. split; simpl; [done|by rewrite Ht].
Qed.

Lemma quiet_after_submission account order symbol cid actor quantity failed_action
    (fill : OrderResult → M X order_row) (r : result OrderResult) (m := match r with
  | Ok result => order ← db_write (fill result); mret (_order_to_result order (Some quantity) None)
  | Err TimeoutError | Err (RasatError TIMEOUT) =>
      _reconcile_after_timeout account order symbol cid actor
  | Err (RasatError code) =>
      let status := if decide (code = ORDER_REJECTED) then REJECTED else UNKNOWN in
      db_write (
        _update_order (o_order_id order) (with_status status (Some code));;
        audit actor failed_action
          [("account_id", PStr (pub_account_id account)); ("order_id", PStr (o_order_id order));
           ("symbol", PStr symbol); ("error_code", PStr (code_str code))]);;
      mret (_order_to_result (with_status status (Some code) order) (Some quantity) None)
  | Err e => throw e
  end) : (∀ x, steps quiet (fill x)) → steps quiet m.
Proof. intros Hfill. subst m. walk. Qed.

(** A real order: the record, then the submission. *)
Lemma ostep_submit n account symbol cid actor quantity c send failed_action
    (fill : order_row → OrderResult → M X order_row) :
  is_submission c = true → (∀ i t, describes c (order_of n i NEW t)) →
  (∀ o r, steps quiet (fill o r)) →
  ostep (o ← db_write (_insert_order n NEW);
         submit_and_record account o symbol cid actor quantity c send failed_action (fill o)).
Proof.
  intros Hc Hd Hfill w.
  change (wp (o ← db_write (_insert_order n NEW);
    submit_and_record account o symbol cid actor quantity c send failed_action (fill o))
    (λ _ w', order_step w w') w).
  apply wp_bind, wp_db_write; [intros _; by apply step_quiet|intros _].
  eapply wp_mono; [apply insert_order_run|]. intros [o|e] w1;
    [|intros Hq; apply step_quiet; by apply (wrel_rollback w w1)].
  intros (Hfr & (i & t & Heq) & Ho & Ht).
  unfold submit_and_record. apply wp_bind, wp_attempt, wp_call_broker. intros r x Hr.
  eapply wp_steps; [by apply quiet_after_submission; auto|]. intros r' w2 [Hk2 Hs2].
  simpl in Hk2, Hs2. eapply (step_submit _ _ o c (w_db w1)).
  - done.
  - by rewrite Heq.
  - by rewrite Heq.
  - by rewrite Ho, last_snoc.
  - unfold okeys. by rewrite Ho, map_app.
  - done.
  - rewrite Hs2. unfold submissions. rewrite List.filter_app, Ht. simpl. by rewrite Hc.
Qed.

Ltac owalk :=
  repeat match goal with
  | |- ostep (let x := _ in _) => cbv zeta
  | |- ostep (match ?x with _ => _ end) => destruct x eqn:?
  | |- ostep (let '_ := ?x in _) => destruct x eqn:?
  | |- ostep (mbind _ _) => apply ostep_bind; [by walk|intros ?]
  | |- ostep _ => apply ostep_quiet; by walk
  end.

Lemma ostep_place_and_record account is_real symbol side ot q p n rp idem eq actor sp :
  ostep (_place_and_record account is_real symbol side ot q p n rp idem eq actor sp : M X _).
Proof.
  unfold _place_and_record. apply ostep_bind; [by walk|intros _]. destruct is_real; simpl.
  - apply ostep_submit; [done|done|]. intros o r. walk.
  - apply (ostep_paper _ actor "place_order_paper"). intros o. walk.
Qed.

Create HintDb osteps.
Hint Resolve ostep_place_and_record : osteps.
Ltac osteps := repeat first [progress owalk | solve [auto with osteps]].

Lemma ostep_direct a s sd ot q p idem actor sp :
  ostep (_execute_one_direct a s sd ot q p idem actor sp : M X _).
Proof. unfold _execute_one_direct. osteps. Qed.

Lemma ostep_sized a s sd e sl rp idem ot actor :
  ostep (_execute_one_sized a s sd e sl rp idem ot actor : M X _).
Proof. unfold _execute_one_sized. osteps. Qed.

Lemma ostep_oco a s sd q p sp sl idem actor :
  ostep (_execute_oco_direct a s sd q p sp sl idem actor : M X _).
Proof.
  unfold _execute_oco_direct. osteps.
  - apply (ostep_paper _ actor "place_oco_paper"). intros o. walk.
  - apply ostep_submit; [done|done|]. intros o r. walk.
Qed.

Lemma ostep_service_place_order a s sd ot q p sp idem actor :
  ostep (service_place_order a s sd ot q p sp idem actor : M X _).
Proof. unfold service_place_order. osteps. apply ostep_direct. Qed.

Lemma ostep_place_oco_order a s sd q p sp sl idem actor :
  ostep (place_oco_order a s sd q p sp sl idem actor : M X _).
Proof. unfold place_oco_order. osteps. apply ostep_oco. Qed.

Lemma quiet_list_accounts : steps quiet (list_accounts : M X _).
Proof. unfold list_accounts. walk. Qed.

Lemma quiet_mark_unknown r o : steps quiet (mark_unknown r o : M X _).
Proof. unfold mark_unknown. walk. Qed.
Hint Resolve quiet_list_accounts quiet_mark_unknown : wsteps.

Lemma quiet_reconcile_one r o : steps quiet (reconcile_one r o : M X _).
Proof. unfold reconcile_one. walk. Qed.
Hint Resolve quiet_reconcile_one : wsteps.

Lemma quiet_reconcile_open_orders : steps quiet (reconcile_open_orders : M X _).
Proof. unfold reconcile_open_orders. walk. Qed.

Lemma quiet_resolve_targets a t : steps quiet (_resolve_targets a t : M X _).
Proof. unfold _resolve_targets. walk. Qed.

(** The bulk call is a sequence of steps, one per account. *)
Definition many_steps {A} (m : M X A) : Prop := ∀ w, rtc order_step w (m w).2.

Lemma many_one {A} (m : M X A) : ostep m → many_steps m.
Proof. intros Hm w. by apply rtc_once. Qed.

Lemma many_bind {A B} (m : M X A) (f : A → M X B) :
  many_steps m → (∀ a, many_steps (f a)) → many_steps (m ≫= f).
Proof.
  intros Hm Hf w. specialize (Hm w). unfold mbind, ST_bind.
  destruct (m w) as [[a|e] w'] eqn:E; simpl in *; [|done]. etrans; [exact Hm|apply Hf].
Qed.

Lemma many_attempt {A} (m : M X A) : many_steps m → many_steps (attempt m).
Proof. intros Hm w. specialize (Hm w). unfold attempt. by destruct (m w). Qed.

Lemma many_mapM {A B} (f : A → M X B) l : (∀ x, many_steps (f x)) → many_steps (mapM f l).
Proof.
  intros Hf. induction l as [|x l IH]; cbn [mapM].
  - apply many_one, ostep_quiet. walk.
  - apply many_bind; [done|intros y]. apply many_bind; [done|intros ys].
    apply many_one, ostep_quiet. walk.
Qed.

Lemma many_foldM {A B} (f : B → A → M X B) b l : (∀ b x, many_steps (f b x)) → many_steps (foldM f b l).
Proof.
  intros Hf. revert b. induction l as [|x l IH]; intros b; cbn [foldM].
  - apply many_one, ostep_quiet. walk.
  - apply many_bind; [done|]. intros b'. apply IH.
Qed.

(** Closing positions: cancellations add no record; each sale is a step. *)
Lemma quiet_write_unknown a b c o : steps quiet (_write_unknown a b c o : M X _).
Proof. unfold _write_unknown. walk. Qed.
Lemma quiet_write_cancel a b o : steps quiet (_write_cancel a b o : M X _).
Proof. unfold _write_cancel. walk. Qed.
Lemma quiet_write_sync a b r o : steps quiet (_write_sync a b r o : M X _).
Proof. unfold _write_sync. walk. Qed.
Hint Resolve quiet_write_unknown quiet_write_cancel quiet_write_sync : wsteps.

Lemma quiet_cancel_failed a b c d o e acc : steps quiet (cancel_failed a b c d o e acc : M X _).
Proof. unfold cancel_failed, write_local. walk. Qed.
Hint Resolve quiet_cancel_failed : wsteps.

Lemma quiet_cancel_one a b c d o acc : steps quiet (_cancel_one a b c d o acc : M X _).
Proof. unfold _cancel_one, _query_safe, write_local. walk. Qed.

Lemma quiet_cancel_orphan a b acc ex : steps quiet (_cancel_orphan a b acc ex : M X _).
Proof. unfold _cancel_orphan, write_audit. walk. Qed.
Hint Resolve quiet_cancel_one quiet_cancel_orphan : wsteps.

Lemma quiet_cancel_target r a b acc t : steps quiet (_cancel_target r a b acc t : M X _).
Proof. unfold _cancel_target. walk. Qed.

Lemma quiet_reconcile_close a s : steps quiet (_reconcile_close a s : M X _).
Proof. unfold _reconcile_close. walk. Qed.
Hint Resolve quiet_cancel_target quiet_reconcile_close : wsteps.

Lemma ostep_sell_one account actor nonce sold bal :
  ostep (_sell_one account actor nonce sold bal : M X _).
Proof.
  unfold _sell_one. osteps. apply ostep_post; [apply ostep_place_and_record|]. intros r. walk.
Qed.

Lemma many_close_one account actor : many_steps (_close_one account actor : M X _).
Proof.
  unfold _close_one. cbv zeta.
  do 5 (apply many_bind; [apply many_one, ostep_quiet; walk|intros ?]).
  destruct (negb _); [apply many_one, ostep_quiet; walk|].
  do 2 (apply many_bind; [apply many_one, ostep_quiet; walk|intros ?]).
  apply many_bind; [|intros ?; apply many_one, ostep_quiet; walk].
  apply many_foldM. intros. apply many_one, ostep_sell_one.
Qed.

Lemma many_close_all a actor : many_steps (close_all_positions a actor : M X _).
Proof.
  unfold close_all_positions.
  do 2 (apply many_bind; [apply many_one, ostep_quiet; walk|intros ?]).
  apply many_bind; [|intros ?; apply many_one, ostep_quiet; walk].
  apply many_mapM. intros account. apply many_bind; [|intros ?; apply many_one, ostep_quiet; walk].
  apply many_attempt, many_close_one.
Qed.

Lemma many_execute_on_accounts a t s sd e sl rp idem ot actor :
  many_steps (execute_on_accounts a t s sd e sl rp idem ot actor : M X _).
Proof.
  unfold execute_on_accounts.
  do 7 (apply many_bind; [apply many_one, ostep_quiet; walk|intros ?]).
  apply many_bind; [apply many_one, ostep_quiet, quiet_resolve_targets|intros targets].
  apply many_bind; [|intros ?; apply many_one, ostep_quiet; walk].
  apply many_mapM. intros account. apply many_bind; [|intros ?; apply many_one, ostep_quiet; walk].
  apply many_attempt, many_one, ostep_sized.
Qed.

(** ** Every operation *)

Inductive order_op :=
| OpPlace (account symbol side order_type quantity price stop_price key : pyval) (actor : string)
| OpOco (account symbol side quantity price stop limit key : pyval) (actor : string)
| OpExecute (accounts tags symbol side entry stop risk key order_type : pyval) (actor : string)
| OpReconcileOrders
| OpClose (account : pyval) (actor : string).

Definition run_order_op (op : order_op) : M X unit :=
  match op with
  | OpPlace a s sd ot q p sp k actor => service_place_order a s sd ot q p sp k actor;; mret tt
  | OpOco a s sd q p sp sl k actor => place_oco_order a s sd q p sp sl k actor;; mret tt
  | OpExecute a t s sd e sl rp k ot actor => execute_on_accounts a t s sd e sl rp k ot actor;; mret tt
  | OpReconcileOrders => reconcile_open_orders;; mret tt
  | OpClose a actor => close_all_positions a actor;; mret tt
  end.

Lemma many_order_op op : many_steps (run_order_op op).
Proof.
  destruct op; cbn [run_order_op]; (apply many_bind; [|intros ?; apply many_one, ostep_quiet; walk]).
  - apply many_one, ostep_service_place_order.
  - apply many_one, ostep_place_oco_order.
  - apply many_execute_on_accounts.
  - apply many_one, ostep_quiet, quiet_reconcile_open_orders.
  - apply many_close_all.
Qed.

Definition run_order_ops (ops : list order_op) : M X unit :=
  foldM (λ _ op, attempt (run_order_op op);; mret tt) tt ops.

Lemma many_order_ops ops : many_steps (run_order_ops ops).
Proof.
  unfold run_order_ops. induction ops as [|op ops IH]; cbn [foldM].
  - apply many_one, ostep_quiet. walk.
  - apply many_bind; [|intros []; exact IH]. apply many_bind; [apply many_attempt, many_order_op|].
    intros ?. apply many_one, ostep_quiet. walk.
Qed.
End Steps.

(** ** The invariant *)

Definition pair_of (o : order_row) : string * string := (o_account_id o, o_idempotency_key o).

Definition sub_keys {X} (w : world X) : list (option (string * string * string)) :=
  map (λ cd, okey <$> last (orders cd.2)) (submissions (w_trace w)).

(** Order ids, and pairs of account and key, are unique; every submission made
    was recorded as [NEW] beforehand, each under a record of its own. *)
Record orders_ok {X} (w : world X) : Prop := {
  ids_nodup : NoDup (map o_order_id (orders (w_db w)));
  keys_nodup : NoDup (map pair_of (orders (w_db w)));
  recorded : Forall (λ cd, ∃ o, last (orders cd.2) = Some o ∧ o_status o = NEW ∧ describes cd.1 o ∧
    okey o ∈ okeys (w_db w)) (submissions (w_trace w));
  sent_once : NoDup (sub_keys w) }.

Lemma okeys_map {B} (g : order_row → B) h d d' :
  (∀ o, g o = h (okey o)) → okeys d' = okeys d → map g (orders d') = map g (orders d).
Proof.
  intros Hg. unfold okeys. intros Hk.
  assert (∀ l, map g l = map h (map okey l)) as Hm.
  { intros l. rewrite map_map. apply map_ext, Hg. }
  by rewrite !Hm, Hk.
Qed.

Lemma fresh_nodup {X} o (w : world X) ks :
  fresh_order o w → ks = okeys (w_db w) ++ [okey o] →
  NoDup (map o_order_id (orders (w_db w))) → NoDup (map pair_of (orders (w_db w))) →
  NoDup (map (λ k, k.1.1) ks) ∧ NoDup (map (λ k, (k.1.2, k.2)) ks).
Proof.
  intros [Hid Hkey] -> Hn1 Hn2. unfold okeys. rewrite !map_app, !map_map. simpl. split.
  - apply NoDup_app. split_and!; [done| |apply NoDup_singleton].
    intros i Hi ->%list_elem_of_singleton. done.
  - apply NoDup_app. split_and!; [done| |apply NoDup_singleton].
    intros k (o' & -> & Hin)%list_elem_of_fmap Hk%list_elem_of_singleton.
    rewrite Forall_forall in Hkey. specialize (Hkey _ Hin). unfold same_order_key in Hkey.
    injection Hk as Ha Hi. by rewrite Ha, Hi, !String.eqb_refl in Hkey.
Qed.

Lemma orders_nodup_okeys d :
  NoDup (map (λ k, k.1.1) (okeys d)) ∧ NoDup (map (λ k, (k.1.2, k.2)) (okeys d)) →
  NoDup (map o_order_id (orders d)) ∧ NoDup (map pair_of (orders d)).
Proof. unfold okeys. rewrite !map_map. intros Hn. exact Hn. Qed.

Lemma order_step_ok {X} (w w' : world X) : order_step w w' → orders_ok w → orders_ok w'.
Proof.
  intros Hs [H1 H2 H3 H4].
  destruct Hs as [[Hk Hsub]|o Hf Hst Hk Hsub|o c d Hf Hst Hd Hl Hk1 Hk2 Hsub].
  - split.
    + by rewrite (okeys_map o_order_id (λ k, k.1.1) (w_db w)).
    + by rewrite (okeys_map pair_of (λ k, (k.1.2, k.2)) (w_db w)).
    + by rewrite Hsub, Hk.
    + unfold sub_keys. by rewrite Hsub.
  - destruct (orders_nodup_okeys (w_db w')) as [??]; [by eapply fresh_nodup|]. split; [done|done| |].
    + rewrite Hsub, Hk. eapply Forall_impl; [exact H3|]. intros cd (o' & ? & ? & ? & ?).
      exists o'. split_and!; [done..|]. apply elem_of_app. by left.
    + unfold sub_keys. by rewrite Hsub.
  - destruct (orders_nodup_okeys (w_db w')) as [??].
    { eapply (fresh_nodup o w); [done| |done|done]. congruence. }
    split; [done|done| |].
    + rewrite Hsub, Hk2, Hk1. apply Forall_app. split.
      * eapply Forall_impl; [exact H3|]. intros cd (o' & ? & ? & ? & ?).
        exists o'. split_and!; [done..|]. apply elem_of_app. by left.
      * constructor; [|constructor]. exists o. split_and!; [done..|]. apply elem_of_app. right. left.
    + unfold sub_keys. rewrite Hsub, map_app. apply NoDup_app. split_and!; [done| |apply NoDup_singleton].
      simpl. rewrite Hl. simpl. intros k (cd & -> & Hin)%list_elem_of_fmap Hk%list_elem_of_singleton.
      rewrite Forall_forall in H3. destruct (H3 _ Hin) as (o' & Hl' & _ & _ & Hin').
      rewrite Hl' in Hk. simplify_eq/=. apply list_elem_of_fmap in Hin' as (o2 & Ho2 & Hin2).
      destruct Hf as [Hid _]. apply Hid. apply list_elem_of_fmap. exists o2. split; [|done].
      unfold okey in *. congruence.
Qed.

(** ** Properties *)

Section Properties.
Context {X : Type} `{Ext X, PyEnv, SecretStore X, OrderBroker X, MarketFeed X, OrderConfig}.

(** C2: over any sequence of order operations, bulk calls, position
    closings and startup reconciliations included, order ids and pairs of account and idempotency key
    stay unique, every submission follows the commit of its [NEW] record, and no
    record is ever submitted twice. *)
Theorem submissions_recorded_once ops (w : world X) :
  orders_ok w → orders_ok (run_order_ops ops w).2.
Proof.
  intros Hok. pose proof (many_order_ops ops w) as Hr. revert Hok.
  induction Hr as [w1|w1 w2 w3 Hs _ IH]; [done|]. intros Hok. by eapply IH, order_step_ok.
Qed.

Lemma handle_existing_result account existing (w : world X) :
  wp (_handle_existing account existing) (λ r w', quiet w w' ∧
    ∀ res, r = Ok res → x_order_id res = o_order_id existing) w.
Proof.
  apply (wp_mono _ (λ r w', quiet w w' ∧ ∀ res, r = Ok res → x_order_id res = o_order_id existing));
    [|done].
  unfold wp. split; [apply frame_handle_existing; tc_solve|].
  change (wp (_handle_existing account existing)
    (λ r _, ∀ res, r = Ok res → x_order_id res = o_order_id existing) w).
  unfold _handle_existing, query_or_none.
  repeat first [wp1 | apply wp_audit; intros ? ? ? | progress (intros; simplify_eq/=)
    | progress unfold query_state, _update_order]; done.
Qed.

Lemma require_string_inv s t : _require_string (PStr s) = Ok t → t = Str.strip s.
Proof. simpl. destruct (Str.empty (Str.strip s)); [done|]. by intros [= <-]. Qed.

(** Reading an account changes nothing. *)
Lemma wp_get_account a Q (w : world X) :
  (find_account a (w_db w) = None → Q (Err (RasatError ACCOUNT_NOT_FOUND)) w) →
  (∀ row, find_account a (w_db w) = Some row → Q (Ok (_public_account row)) w) →
  wp (get_account a) Q w.
Proof. intros HN HS. unfold get_account. repeat wp1; auto. Qed.

(** C8: a call whose account and idempotency key already have an order record
    creates no record and submits nothing; it answers with that very order if it
    answers at all. *)
Theorem retry_never_submits account_id symbol side order_type quantity price stop_price
    stop_limit_price key actor existing (w : world X) :
  _load_order (Str.strip account_id) (Str.strip key) (w_db w) = Some existing →
  (let '(r, w') := service_place_order (PStr account_id) symbol side order_type quantity price
                     stop_price (PStr key) actor w in
   quiet w w' ∧ ∀ res, r = Ok res → x_order_id res = o_order_id existing) ∧
  (let '(r, w') := place_oco_order (PStr account_id) symbol side quantity price
                     stop_price stop_limit_price (PStr key) actor w in
   quiet w w' ∧ ∀ res, r = Ok res → x_order_id res = o_order_id existing).
Proof.
  intros Hex.
  assert (∀ m : M X exec_result, wp m (λ r w', quiet w w' ∧
      ∀ res, r = Ok res → x_order_id res = o_order_id existing) w →
    let '(r, w') := m w in quiet w w' ∧ ∀ res, r = Ok res → x_order_id res = o_order_id existing)
    as Hwp by (intros m; unfold wp; by destruct (m w)).
  split; apply Hwp; [unfold service_place_order|unfold place_oco_order].
  all: apply wp_lift_bind; [done|intros a ->%require_string_inv].
  all: apply wp_lift_bind; [done|intros k ->%require_string_inv].
  all: repeat (apply wp_lift_bind; [done|intros ? _]).
  1: unfold _execute_one_direct. 2: unfold _execute_oco_direct.
  all: apply wp_bind, wp_get_account; [done|intros row Hrow].
  all: apply wp_bind, wp_db_read; rewrite Hex; apply handle_existing_result.
Qed.

End Properties.

(** ** Witnesses *)

#[local] Existing Instance outside_ext.
#[local] Existing Instance sample_env.

Definition plain_store : SecretStore outside := {|
  encrypt _ _ v := mret (Ok v); decrypt _ _ b := mret (Ok b); delete_secret _ _ _ x := x |}.
#[local] Existing Instance plain_store.

(** An exchange that fills every order at once, with 1000 USDT free. *)
Definition filled_result : OrderResult := mk_result FILLED (Some "42") (fZ 2) (fZ 100).
Definition filling_broker : OrderBroker outside := {|
  place_order _ := mret filled_result;
  place_oco _ := mret (mk_result NEW (Some "7") fzero fzero);
  query_order _ _ _ := mret (Some filled_result);
  query_oco _ _ := mret None;
  cancel_order _ _ _ := mret None;
  cancel_oco _ _ _ := mret None;
  get_all_open_orders _ := mret [];
  cancel_all_open_orders _ _ := mret 0%Z;
  get_balance _ := mret [("USDT", fZ 1000); ("BTC", fZ 3)];
  get_balance_detail _ := mret [("USDT", mk_balance (fZ 1000) fzero)] |}.
#[local] Existing Instance filling_broker.

Definition btc_filters : SymbolFilters :=
  mk_filters "BTCUSDT" "BTC" "USDT" "TRADING" (fZ 1) (fZ 1) (fZ 1000) (fZ 10) (fZ 1) (fZ 1) (fZ 100000).
Definition btc_market : MarketFeed outside := {|
  symbol_valid s := mret (String.eqb s "BTCUSDT");
  price _ := mret (Some (fZ 100));
  filters _ := mret (Some btc_filters) |}.
#[local] Existing Instance btc_market.
#[local] Instance fee_config : OrderConfig := {| default_fee_rate := fQ 1 1000 |}.

Definition real_world : world outside := start (set_accounts (λ _, [sample_account Real]) empty_db).
Definition paper_world : world outside := start (set_accounts (λ _, [sample_account Paper]) empty_db).

Definition buy (key : string) (w : world outside) : result exec_result * world outside :=
  service_place_order (PStr "acc") (PStr "BTCUSDT") (PStr "BUY") (PStr "MARKET") (PInt 2) PNone PNone
    (PStr key) "agent" w.

(** A real order is sent once and filled; a second call with its key sends nothing. *)
Example buy_twice :
  let w := (buy "k" real_world).2 in
  (length (submissions (w_trace w)), map o_status (orders (w_db w)),
   length (submissions (w_trace (buy "k" w).2)), is_ok (buy "k" w).1) = (1, [FILLED], 1, true).
Proof. vm_compute. reflexivity. Qed.

Lemma start_orders_ok (d : db) : orders d = [] → orders_ok (start d).
Proof.
  intros Ho. split; unfold sub_keys; simpl; rewrite ?Ho; try apply NoDup_nil_2. apply Forall_nil_2.
Defined.

Lemma submissions_recorded_once_witness :
  orders_ok (run_order_ops [OpPlace (PStr "acc") (PStr "BTCUSDT") (PStr "BUY") (PStr "MARKET") (PInt 2)
    PNone PNone (PStr "k") "agent"] real_world).2.
Proof. apply submissions_recorded_once, start_orders_ok. reflexivity. Defined.

Definition bought_world : world outside := (buy "k" real_world).2.
Definition bought_order : order_row :=
  match orders (w_db bought_world) with
  | o :: _ => o
  | [] => order_of (mk_new "none" "none" "none" "none" "none" fzero None None None fzero fzero fzero "none") "none" NEW 0
  end.

Lemma bought_order_exists :
  _load_order (Str.strip "acc") (Str.strip "k") (w_db bought_world) = Some bought_order.
Proof. vm_compute. reflexivity. Qed.

Lemma retry_never_submits_witness :
  (let '(r, w') := service_place_order (PStr "acc") (PStr "BTCUSDT") (PStr "BUY") (PStr "MARKET")
                     (PInt 2) PNone PNone (PStr "k") "agent" bought_world in
   quiet bought_world w' ∧ ∀ res, r = Ok res → x_order_id res = o_order_id bought_order) ∧
  (let '(r, w') := place_oco_order (PStr "acc") PNone PNone PNone PNone PNone PNone (PStr "k") "agent"
                     bought_world in
   quiet bought_world w' ∧ ∀ res, r = Ok res → x_order_id res = o_order_id bought_order).
Proof.
  split.
  - destruct (retry_never_submits "acc" (PStr "BTCUSDT") (PStr "BUY") (PStr "MARKET") (PInt 2) PNone
      PNone PNone "k" "agent" bought_order bought_world bought_order_exists) as [Hr _]. exact Hr.
  - destruct (retry_never_submits "acc" PNone PNone PNone PNone PNone PNone PNone "k" "agent"
      bought_order bought_world bought_order_exists) as [_ Hr]. exact Hr.
Defined.
