(* ===== verification/EmergencyStop.v ===== *)
(** [emergency_stop.py]: the emergency stop, which needs no daemon.  It cancels
    every open order, then sells every holding at market price, and logs what it
    did.  The process around it is in file [EmergencyRun]; printing is left out; the
    price source and the operator's answer are reads of the outside. *)

From Stdlib Require Import ZArith String.
From S2P Require Import Prelude PyFloat PyVal Errors Monad Sizing Broker Db Sample AuditLog EmergencyLog Credentials Accounts Orders OrdersSpec.
Local Open Scope string_scope.
Local Open Scope list_scope.

Definition SELL_LOG_ACTION : string := "emergency_sell".
Definition CANCEL_LOG_ACTION : string := "emergency_cancel".
Definition _NON_TERMINAL_SELL_STATUSES : list order_status := [NEW; PARTIALLY_FILLED; UNKNOWN].

(** ** The price source *)

Module PublicPriceSource.
Section Source.
Context (str_of_other : pyval → string).

(** [price]: what is made of the HTTP answer. *)
Definition price_of (status : Z) (data : pyval) : result float :=
  if (status =? 400)%Z then raise INVALID_SYMBOL
  else if (400 <=? status)%Z then raise INTERNAL_ERROR
  else
    match data with
    | PDict d =>
        match assoc "price" d with
        | None => raise INTERNAL_ERROR
        | Some v =>
            match py_float v with
            | Ok p => if negb (isfinite p) || fle p fzero then raise INTERNAL_ERROR else Ok p
            | Err TypeError | Err ValueError => raise INTERNAL_ERROR
            | Err e => Err e
            end
        end
    | _ => raise INTERNAL_ERROR
    end.

(** [_exchange_info]: the entries by symbol; the last of a symbol wins. *)
Fixpoint index_symbols (l : list pyval) (acc : list (string * list (string * pyval)))
    : result (list (string * list (string * pyval))) :=
  match l with
  | [] => Ok acc
  | PDict e :: l' =>
      let sym := default PNone (assoc "symbol" e) in
      index_symbols l' (if truthy sym then assoc_set (py_str str_of_other sym) e acc else acc)
  | _ :: _ => Err AttributeError
  end.

Definition exchange_info_of (data : pyval) : result (list (string * list (string * pyval))) :=
  match data with
  | PDict d => match assoc "symbols" d with Some (PList l) => index_symbols l [] | _ => raise INTERNAL_ERROR end
  | _ => raise INTERNAL_ERROR
  end.

Definition _FILTERS_TTL_SECONDS : Z := 3600.

(** The cache: when an entry was stored, and the filters. *)
Definition cache : Type := list (string * (Z * SymbolFilters)).

(** [filters], at the time [now], given what fetching exchangeInfo comes to. *)
Definition filters_of (symbol : string) (now : Z) (fetched : result pyval) (c : cache)
    : result (option SymbolFilters) * cache :=
  let fetch :=
    match (data ← fetched; exchange_info_of data) with
    | Err (RasatError _) => (Ok None, c)
    | Err e => (Err e, c)
    | Ok info =>
        match assoc symbol info with
        | None => (Ok None, c)
        | Some entry =>
            match from_exchange_info str_of_other entry with
            | Ok f => (Ok (Some f), assoc_set symbol (now, f) c)
            | Err e => (Err e, c)
            end
        end
    end in
  match assoc symbol c with
  | Some (at_time, f) => if (now - at_time <? _FILTERS_TTL_SECONDS)%Z then (Ok (Some f), c) else fetch
  | None => fetch
  end.
End Source.
End PublicPriceSource.

(** ** The runner *)

(** [market_price] of the runner, and the operator at the terminal: [None] when
    standard input is closed or ends. *)
Class EmergencyFeed (X : Type) := {
  feed_price : string → ST X (option float);
  feed_filters : string → ST X (option SymbolFilters);
  answer : ST X (option string) }.

Inductive sale_status := SStatus (s : order_status) | SDryRun | SFailed (c : ErrorCode).

Record planned := mk_planned {
  pl_symbol : string;
  pl_asset : string;
  pl_quantity : float;
  pl_price : float }.

Record sale := mk_sale {
  sl_plan : planned;
  sl_status : sale_status;
  sl_pending : bool;
  sl_exchange_order_id : option string;
  sl_cid : option string }.

Inductive stop_error := StopCode (c : ErrorCode) | ConfirmationRequired | Aborted.

Record stop_result := mk_stop {
  sr_account_id : string;
  sr_ok : bool;
  sr_error : option stop_error;
  sr_cancelled : Z;
  sr_cancel_errors : list (string * ErrorCode);
  sr_sold : list sale;
  sr_price_errors : list (string * ErrorCode);
  sr_filter_errors : list string;
  sr_plan : list planned }.

Definition stopped_with (account_id : string) (e : stop_error) (plan : list planned) : stop_result :=
  mk_stop account_id false (Some e) 0 [] [] [] [] plan.

(** [_mark_sell]: the status of a sale, pending while it is not terminal. *)
Definition _mark_sell (p : planned) (s : sale_status) (exchange_order_id cid : option string) : sale :=
  let pending := match s with SStatus s => status_in s _NON_TERMINAL_SELL_STATUSES | _ => false end in
  mk_sale p s pending exchange_order_id cid.

(** [EmergencyStopRunner._round_down] *)
Definition _round_down (value step : float) : result float :=
  if fle step fzero then Ok value
  else
    q ← fdiv value step;
    n ← ffloor (fadd q (fQ 1 1000000000));
    n ← float_of_int n;
    Ok (fmul n step).

(** The open orders by symbol, in the order of the symbols. *)
Definition group_orders (l : list open_order) : list (string * list open_order) :=
  foldl (λ g o, assoc_set (oo_symbol o) (default [] (assoc (oo_symbol o) g) ++ [o]) g) [] l.


Section Runner.
Context {X : Type} `{Ext X, PyEnv, SecretStore X, OrderBroker X, EmergencyFeed X}.
Context (quote_asset : string).

(** [f"{account_id}:{symbol}:{client_order_id or order_id}"] *)
Definition cancel_key (account_id symbol : string) (o : open_order) : string :=
  let id_of i := match i with Some i => if Str.empty i then None else Some i | None => None end in
  let id := match id_of (oo_client_order_id o) with
            | Some i => i
            | None => match oo_order_id o with Some i => i | None => "None" end
            end in
  account_id +:+ ":" +:+ symbol +:+ ":" +:+ id.

(** The orders of one symbol: skipped in a dry run or when all of them are logged
    as canceled; otherwise canceled and logged. *)
Definition cancel_symbol (account_id : string) (dry_run : bool)
    (acc : Z * list (string * ErrorCode)) (group : string * list open_order)
    : EM X (Z * list (string * ErrorCode)) :=
  let '(cancelled, errors) := acc in
  let '(symbol, os) := group in
  if dry_run then mret (cancelled, errors)
  else
    let keys := map (cancel_key account_id symbol) os in
    done ← gets (λ s, forallb (λ k, is_action_done CANCEL_LOG_ACTION k None (em_log s)) keys);
    if (done : bool) then mret (cancelled, errors)
    else
      r ← attempt (in_world (call_broker (CCancelAll account_id symbol) (cancel_all_open_orders account_id symbol)));
      match r with
      | Ok n =>
          mapM (λ k, log_append "emergency_stop" CANCEL_LOG_ACTION
            [("idem_key", PStr k); ("account_id", PStr account_id); ("symbol", PStr symbol);
             ("cancelled", PInt n)]) keys;;
          mret ((cancelled + n)%Z, errors)
      | Err (RasatError c) => mret (cancelled, errors ++ [(symbol, c)])
      | Err e => throw e
      end.

Record plan_log := mk_plan_log {
  pg_plan : list planned;
  pg_price_errors : list (string * ErrorCode);
  pg_filter_errors : list string }.

Definition filter_error (g : plan_log) (symbol : string) : plan_log :=
  mk_plan_log (pg_plan g) (pg_price_errors g) (pg_filter_errors g ++ [symbol]).

(** [_price]: no price is an error, never a silent skip. *)
Definition _price (symbol : string) : M X float :=
  p ← on_ext (feed_price symbol);
  match p with Some p => mret p | None => raise_ STALE_DATA end.

(** One holding: planned, or reported as an error. *)
Definition plan_asset (g : plan_log) (holding : string * float) : M X plan_log :=
  let '(asset, free) := holding in
  if String.eqb asset quote_asset || fle free fzero then mret g
  else
    let symbol := asset +:+ quote_asset in
    f ← on_ext (feed_filters symbol);
    match f with
    | None => mret (filter_error g symbol)
    | Some f =>
        qty ← lift (_round_down free (step_size f));
        if flt qty (min_qty f) then mret (filter_error g symbol)
        else
          r ← attempt (_price symbol);
          match r with
          | Err (RasatError c) =>
              mret (mk_plan_log (pg_plan g) (pg_price_errors g ++ [(symbol, c)]) (pg_filter_errors g))
          | Err e => throw e
          | Ok price =>
              if flt (fmul qty price) (min_notional f) then mret (filter_error g symbol)
              else mret (mk_plan_log (pg_plan g ++ [mk_planned symbol asset qty price])
                          (pg_price_errors g) (pg_filter_errors g))
          end
    end.

(** What the operator says to a plan that is not confirmed in advance. *)
Definition confirm (plan : list planned) (yes dry_run : bool) : M X (option stop_error) :=
  match plan with
  | [] => mret None
  | _ =>
      if yes || dry_run then mret None
      else
        a ← on_ext answer;
        mret match a with
             | None => Some ConfirmationRequired
             | Some a => if str_in (Str.lower (Str.strip a)) ["y"; "yes"] then None else Some Aborted
             end
  end.

(** The last logged sale of a symbol. *)
Definition _latest_sell_details (account_id symbol : string) (log : list log_line)
    : option (list (string * pyval)) :=
  let prefix := account_id +:+ ":" +:+ symbol +:+ ":" in
  last (map n_details (List.filter (λ e,
    String.eqb (n_action e) SELL_LOG_ACTION
    && Str.starts_with prefix (py_str str_of_other (default (PStr "") (assoc "idem_key" (n_details e)))))
    (entries_of log))).

Definition status_name (s : order_status) : string := status_str s.

Definition is_non_terminal (v : pyval) : bool :=
  existsb (λ s, py_eq v (PStr (status_name s))) _NON_TERMINAL_SELL_STATUSES.

(** [prior.get("cid") or f"e-{...}-{prior.get('run_nonce') or ''}-{...}"] *)
Definition cid_of (account_id run_nonce symbol : string) : string :=
  "e-" +:+ Str.take 6 account_id +:+ "-" +:+ run_nonce +:+ "-" +:+ Str.take 8 symbol.

Definition prior_cid (account_id symbol : string) (prior : list (string * pyval)) : string :=
  let get k := default PNone (assoc k prior) in
  if truthy (get "cid") then py_str str_of_other (get "cid")
  else cid_of account_id (if truthy (get "run_nonce") then py_str str_of_other (get "run_nonce") else "") symbol.

(** A sale still under way at the exchange is not repeated. *)
Definition still_selling (account_id : string) (p : planned) : EM X (option (OrderResult * string)) :=
  prior ← gets (λ s, _latest_sell_details account_id (pl_symbol p) (em_log s));
  match prior with
  | None => mret None
  | Some prior =>
      if is_non_terminal (default PNone (assoc "status" prior)) then
        let cid := prior_cid account_id (pl_symbol p) prior in
        r ← attempt (in_world (call_broker (CQueryOrder account_id (pl_symbol p) cid)
                                 (query_order account_id (pl_symbol p) cid)));
        match r with
        | Err (RasatError _) => mret None
        | Err e => throw e
        | Ok None => mret None
        | Ok (Some found) =>
            mret (if status_in (r_status found) _NON_TERMINAL_SELL_STATUSES then Some (found, cid) else None)
        end
      else mret None
  end.

Definition opt_str_val (o : option string) : pyval := match o with Some s => PStr s | None => PNone end.

Definition sell_one (account_id run_nonce : string) (dry_run : bool) (p : planned) : EM X sale :=
  if dry_run then mret (_mark_sell p SDryRun None None)
  else
    let cid := cid_of account_id run_nonce (pl_symbol p) in
    going ← still_selling account_id p;
    match going with
    | Some (found, cid) =>
        mret (_mark_sell p (SStatus (r_status found)) (r_exchange_order_id found) (Some cid))
    | None =>
        let a := mk_place account_id (pl_symbol p) "SELL" "MARKET" (pl_quantity p) None cid None in
        r ← attempt (
          result ← in_world (call_broker (CPlaceOrder a) (place_order a));
          log_append "emergency_stop" SELL_LOG_ACTION
            [("idem_key", PStr (account_id +:+ ":" +:+ pl_symbol p +:+ ":" +:+ float_repr (pl_quantity p)
                                +:+ ":" +:+ run_nonce));
             ("cid", PStr cid); ("run_nonce", PStr run_nonce); ("account_id", PStr account_id);
             ("symbol", PStr (pl_symbol p)); ("quantity", PFloat (pl_quantity p));
             ("status", PStr (status_name (r_status result)));
             ("exchange_order_id", opt_str_val (r_exchange_order_id result))];;
          mret result);
        match r with
        | Ok result =>
            mret (_mark_sell p (SStatus (r_status result)) (r_exchange_order_id result) (Some cid))
        | Err (RasatError c) => mret (mk_sale p (SFailed c) false None None)
        | Err e => throw e
        end
    end.

(** [s.get("status") in ("FILLED", "DRY_RUN")] *)
Definition filled_sale (s : sale) : bool :=
  match sl_status s with SStatus FILLED | SDryRun => true | _ => false end.

Definition is_nil {A} (l : list A) : bool := match l with [] => true | _ => false end.

Definition _stop_one (account_id : string) (yes dry_run : bool) : EM X stop_result :=
  creds ← attempt (in_world (get_credentials account_id));
  match creds with
  | Err (RasatError ACCOUNT_NO_CREDENTIALS) =>
      mret (stopped_with account_id (StopCode ACCOUNT_NO_CREDENTIALS) [])
  | Err e => throw e
  | Ok _ =>
      open_orders ← in_world (call_broker (CGetOpenOrders account_id) (get_all_open_orders account_id));
      '(cancelled, cancel_errors) ←
        foldM (cancel_symbol account_id dry_run) (0%Z, []) (sort_symbols (group_orders open_orders));
      balances ← in_world (call_broker (CGetBalance account_id) (get_balance account_id));
      g ← in_world (foldM plan_asset (mk_plan_log [] [] []) balances);
      refused ← in_world (confirm (pg_plan g) yes dry_run);
      match refused with
      | Some e => mret (stopped_with account_id e (pg_plan g))
      | None =>
          uuid ← in_world uuid4_hex;
          sold ← mapM (sell_one account_id (Str.take 8 uuid) dry_run) (pg_plan g);
          mret (mk_stop account_id
                  (is_nil (pg_price_errors g) && is_nil (pg_filter_errors g) && is_nil cancel_errors
                   && forallb filled_sale sold)
                  None cancelled cancel_errors sold (pg_price_errors g) (pg_filter_errors g)
                  (if dry_run then pg_plan g else []))
      end
  end.

(** [_resolve_accounts]: all accounts, or the wanted ones, which must exist. *)
Definition _resolve_accounts (account_ids : list string) : M X (list public_account) :=
  accounts ← list_accounts;
  match account_ids with
  | [] => mret accounts
  | _ =>
      if existsb (λ a, negb (existsb (λ acc, String.eqb (pub_account_id acc) a) accounts)) account_ids
      then raise_ ACCOUNT_NOT_FOUND
      else mret (List.filter (λ acc, str_in (pub_account_id acc) account_ids) accounts)
  end.

(** [run]: the accounts one after the other, none stopping the next. *)
Definition run (account_ids : list string) (yes dry_run : bool) : EM X (bool * list stop_result) :=
  accounts ← in_world (_resolve_accounts account_ids);
  results ← mapM (λ account,
    let account_id := pub_account_id account in
    r ← attempt (_stop_one account_id yes dry_run);
    mret match r with
         | Ok res => res
         | Err (RasatError c) => stopped_with account_id (StopCode c) []
         | Err _ => stopped_with account_id (StopCode INTERNAL_ERROR) []
         end) accounts;
  mret (forallb sr_ok results, results).
End Runner.

(** ** Reasoning *)

Lemma wp_in_world {X A} (m : M X A) Q (s : emergency X) :
  wp m (λ r w, Q r (mk_em w (em_log s))) (em_world s) → wp (in_world m) Q s.
Proof. unfold wp, in_world. by destruct (m (em_world s)). Qed.

(** Whatever a computation of the services does, it leaves the file. *)
Lemma steps_in_world_log {X A} (R : relation (list log_line)) `{!PreOrder R} (m : M X A) :
  steps (λ s s', R (em_log s) (em_log s')) (in_world m).
Proof. intros s. unfold in_world. destruct (m (em_world s)). simpl. reflexivity. Qed.

Section Reasoning.
Context {X : Type} `{Ext X, PyEnv, SecretStore X, OrderBroker X, EmergencyFeed X}.
Context (quote_asset : string).

(** The file only grows. *)
Definition log_grows : relation (emergency X) := λ s s', em_log s `prefix_of` em_log s'.

#[local] Instance log_grows_preorder : PreOrder log_grows.
Proof. split; [by intros s; unfold log_grows|]. intros s1 s2 s3 ? ?. unfold log_grows in *. by etrans. Qed.

Lemma grows_in_world {A} (m : M X A) : steps log_grows (in_world m).
Proof. apply (steps_in_world_log prefix). Qed.

Lemma grows_append actor action details : steps log_grows (log_append actor action details).
Proof. intros s. apply (log_append_extends actor action details s). Qed.

Lemma grows_sell account_id nonce dry_run p : steps log_grows (sell_one account_id nonce dry_run p).
Proof.
  unfold sell_one, still_selling. destruct dry_run; [apply steps_ret; tc_solve|].
  repeat first [apply steps_ret; tc_solve | apply steps_throw; tc_solve | apply steps_gets; tc_solve
    | apply grows_in_world | apply grows_append | apply steps_attempt
    | apply steps_bind; [tc_solve| |intros ?]
    | match goal with |- steps _ (match ?x with _ => _ end) => destruct x end].
Qed.

(** What is logged as done stays done. *)
Lemma action_done_grows action k st log log' :
  log `prefix_of` log' → is_action_done action k st log = true → is_action_done action k st log' = true.
Proof.
  intros [l ->]. unfold is_action_done, entries_of. rewrite omap_app, existsb_app. intros Hd.
  apply orb_true_iff. by left.
Qed.

(** After logging an action under a key, the key is done. *)
Lemma wp_append_done action k rest (s : emergency X) :
  wp (log_append "emergency_stop" action (("idem_key", PStr k) :: rest)) (λ r s',
    log_grows s s' ∧ (is_ok r = true → is_action_done action k None (em_log s') = true)) s.
Proof.
  split; [apply grows_append|]. unfold log_append, gets, lift, mbind, ST_bind. simpl.
  destruct (tail_of (em_log s)) as [[n p]|e]; [|done]. unfold in_world.
  destruct (time_now (em_world s)) as [[t|e] w]; [|done]. simpl. intros _.
  unfold is_action_done, entries_of. rewrite omap_app, existsb_app. apply orb_true_iff. right.
  simpl. unfold details_field, redact_details. simpl. rewrite !String.eqb_refl. done.
Qed.

(** Every order of a group is logged as canceled, unless an error is reported. *)
Definition group_done (account_id : string) (log : list log_line) (g : string * list open_order) : Prop :=
  ∀ o, o ∈ g.2 → is_action_done CANCEL_LOG_ACTION (cancel_key account_id g.1 o) None log = true.

Lemma wp_log_keys account_id symbol n keys (s : emergency X) :
  wp (mapM (λ k, log_append "emergency_stop" CANCEL_LOG_ACTION
        [("idem_key", PStr k); ("account_id", PStr account_id); ("symbol", PStr symbol);
         ("cancelled", PInt n)]) keys) (λ r s', log_grows s s' ∧ (is_ok r = true →
    ∀ k, k ∈ keys → is_action_done CANCEL_LOG_ACTION k None (em_log s') = true)) s.
Proof.
  revert s. induction keys as [|k keys IH]; intros s; cbn [mapM].
  { apply wp_ret. split; [reflexivity|]. intros _ k Hk. by apply not_elem_of_nil in Hk. }
  apply wp_bind. eapply wp_mono; [apply wp_append_done|]. intros [h|e] s1 [Hg1 Hd1]; [|by split].
  apply wp_bind. eapply wp_mono; [apply IH|]. intros [hs|e] s2 [Hg2 Hd2]; [apply wp_ret|];
    (split; [by etrans|]); [|done]. intros _ k' [->|Hk']%elem_of_cons; [|by apply Hd2].
  eapply action_done_grows; [exact Hg2|]. by apply Hd1.
Qed.

Lemma wp_cancel_symbol account_id acc g (s : emergency X) :
  wp (cancel_symbol account_id false acc g) (λ r s', log_grows s s' ∧ match r with
    | Ok (_, errors) => errors = [] → acc.2 = [] ∧ group_done account_id (em_log s') g
    | Err _ => True end) s.
Proof.
  destruct acc as [c errors], g as [symbol os]. unfold cancel_symbol, group_done. simpl.
  apply wp_bind, wp_gets. destruct (forallb _ _) eqn:Ef.
  - apply wp_ret. split; [reflexivity|]. intros ->. split; [done|]. intros o Ho. simpl in Ho.
    rewrite forallb_forall in Ef. apply Ef. apply list_elem_of_In, list_elem_of_fmap. by exists o.
  - apply wp_bind, wp_attempt, wp_in_world. unfold wp, call_broker. destruct (cancel_all_open_orders _ _ _) as [r x].
    simpl. destruct r as [n|e].
    + eapply wp_bind. eapply wp_mono; [apply wp_log_keys|]. intros [hs|e] s' [Hg Hd]; [apply wp_ret|by split].
      split; [exact Hg|]. intros ->. split; [done|]. intros o Ho. apply Hd; [done|].
      apply list_elem_of_fmap. by exists o.
    + destruct e; (split; [change (em_log s `prefix_of` em_log s); reflexivity|]); try done. by intros [_ ?]%app_eq_nil.
Qed.

Lemma wp_cancel_all account_id groups : ∀ acc (s : emergency X),
  wp (foldM (cancel_symbol account_id false) acc groups) (λ r s', log_grows s s' ∧ match r with
    | Ok (_, errors) => errors = [] → acc.2 = [] ∧ Forall (group_done account_id (em_log s')) groups
    | Err _ => True end) s.
Proof.
  induction groups as [|g groups IH]; intros acc s; cbn [foldM].
  { apply wp_ret. split; [reflexivity|]. destruct acc. by intros ->. }
  apply wp_bind. eapply wp_mono; [apply wp_cancel_symbol|]. intros [acc1|e] s1 [Hg1 Hd1]; [|by split].
  eapply wp_mono; [apply IH|]. intros [[c errors]|e] s2 [Hg2 Hd2]; (split; [by etrans|]); [|done].
  intros He. destruct (Hd2 He) as [He1 Hall]. destruct acc1 as [c1 errors1]. simpl in *.
  destruct (Hd1 He1) as [? Hg]. split; [done|]. constructor; [|done].
  intros o Ho. eapply action_done_grows; [exact Hg2|]. by apply Hg.
Qed.

(** Grouping and sorting lose no order. *)
Lemma group_orders_elem l o : o ∈ l → ∃ os, (oo_symbol o, os) ∈ group_orders l ∧ o ∈ os.
Proof.
  unfold group_orders.
  assert (∀ l g, (∀ k os o, assoc k g = Some os → o ∈ os →
      ∃ os', assoc k (foldl (λ g o, assoc_set (oo_symbol o) (default [] (assoc (oo_symbol o) g) ++ [o]) g) g l)
             = Some os' ∧ o ∈ os') ∧
    (o ∈ l → ∃ os', assoc (oo_symbol o)
      (foldl (λ g o, assoc_set (oo_symbol o) (default [] (assoc (oo_symbol o) g) ++ [o]) g) g l) = Some os' ∧ o ∈ os'))
    as Hgo.
  { clear l. induction l as [|x l IH]; intros g; simpl; [split; [eauto|by intros ?%not_elem_of_nil]|].
    destruct (IH (assoc_set (oo_symbol x) (default [] (assoc (oo_symbol x) g) ++ [x]) g)) as [Hk Hl]. split.
    - intros k os o' Ha Ho. destruct (decide (oo_symbol x = k)) as [<-|Hne].
      + apply (Hk _ (os ++ [x])); [by rewrite assoc_set_same, Ha|]. apply elem_of_app. by left.
      + apply (Hk _ os); [by rewrite assoc_set_other|done].
    - intros [<-|Ho]%elem_of_cons; [|by apply Hl].
      eapply Hk; [apply assoc_set_same|]. apply elem_of_app. right. by left. }
  intros Ho. destruct (proj2 (Hgo l []) Ho) as (os & Ha & Hin). exists os. split; [by apply assoc_elem|done].
Qed.

(** A step whose outcome does not matter. *)
Lemma wp_any {S A B} (m : ST S A) (f : A → ST S B) (Q : result B → S → Prop) s :
  (∀ e s', Q (Err e) s') → (∀ a s', wp (f a) Q s') → wp (m ≫= f) Q s.
Proof. intros He Ha. apply wp_bind. unfold wp. destruct (m s) as [[a|e] s']; [apply Ha|apply He]. Qed.

Lemma wp_true {S A} (m : ST S A) s : wp m (λ _ _, True) s.
Proof. done. Qed.

(** A holding is the quote asset, empty, or in the plan with all of it that the
    lot step allows. *)
Definition planned_for (g : plan_log) (holding : string * float) : Prop :=
  holding.1 = quote_asset ∨ fle holding.2 fzero = true ∨
  ∃ p f, p ∈ pg_plan g ∧ pl_symbol p = holding.1 +:+ quote_asset ∧
    _round_down holding.2 (step_size f) = Ok (pl_quantity p).

Definition plan_clean (g : plan_log) : Prop := pg_price_errors g = [] ∧ pg_filter_errors g = [].

Lemma wp_plan_asset g holding (w : world X) :
  wp (plan_asset quote_asset g holding) (λ r _, match r with
    | Ok g' => plan_clean g' → plan_clean g ∧ pg_plan g ⊆ pg_plan g' ∧ planned_for g' holding
    | Err _ => True end) w.
Proof.
  assert (∀ s, ¬ plan_clean (filter_error g s)) as Hno.
  { intros s [_ Hf]. simpl in Hf. by apply app_eq_nil in Hf as [_ ?]. }
  destruct holding as [asset free]. unfold plan_asset, planned_for. simpl.
  destruct (String.eqb_spec asset quote_asset) as [->|Hq]; [apply wp_ret; naive_solver|].
  destruct (fle free fzero) eqn:Hf; simpl; [apply wp_ret; naive_solver|].
  apply wp_any; [done|]. intros [f|] w1; [|apply wp_ret; by intros ?%Hno].
  apply wp_lift_bind; [done|]. intros qty Hqty.
  destruct (flt qty (min_qty f)); [apply wp_ret; by intros ?%Hno|].
  apply wp_any; [done|]. intros [price|e] w2.
  - destruct (flt _ (min_notional f)); apply wp_ret; [by intros ?%Hno|].
    intros Hc. split; [exact Hc|]. simpl. split; [set_solver|]. right. right.
    exists (mk_planned (asset +:+ quote_asset) asset qty price), f. split; [|done].
    apply elem_of_app. right. by left.
  - destruct e; try done. apply wp_ret. intros [Hp _]. simpl in Hp. by apply app_eq_nil in Hp as [_ ?].
Qed.

Lemma wp_plan_all holdings : ∀ g (w : world X),
  wp (foldM (plan_asset quote_asset) g holdings) (λ r _, match r with
    | Ok g' => plan_clean g' → plan_clean g ∧ pg_plan g ⊆ pg_plan g' ∧ Forall (planned_for g') holdings
    | Err _ => True end) w.
Proof.
  induction holdings as [|h holdings IH]; intros g w; cbn [foldM]; [apply wp_ret; intros; split_and?; auto|].
  apply wp_bind. eapply wp_mono; [apply wp_plan_asset|]. intros [g1|e] w1 Hg1; [|done].
  eapply wp_mono; [apply IH|]. intros [g2|e] w2 Hg2; [|done]. intros Hc.
  destruct (Hg2 Hc) as (Hc1 & Hsub & Hall). destruct (Hg1 Hc1) as (Hc0 & Hsub0 & Hh).
  split; [done|]. split; [by etrans|]. constructor; [|done].
  destruct Hh as [?|[?|(p & f & Hp & ?)]]; [by left|by right; left|]. right. right. exists p, f.
  split; [by apply Hsub|done].
Qed.

(** A sale is of what was planned. *)
Lemma wp_emergency_sell account_id nonce dry_run p (s : emergency X) :
  wp (sell_one account_id nonce dry_run p) (λ r s', log_grows s s' ∧ match r with
    | Ok sl => sl_plan sl = p ∧ (dry_run = false → sl_status sl ≠ SDryRun) | Err _ => True end) s.
Proof.
  split; [apply grows_sell|].
  change (wp (sell_one account_id nonce dry_run p)
    (λ r _, match r with Ok sl => sl_plan sl = p ∧ (dry_run = false → sl_status sl ≠ SDryRun) | Err _ => True end) s).
  unfold sell_one. destruct dry_run; [by apply wp_ret|]. apply wp_any; [done|].
  intros [[found cid]|] s1; [by apply wp_ret|]. apply wp_any; [done|].
  intros [r|e] s2; [by apply wp_ret|]. by destruct e.
Qed.

Lemma wp_sell_all account_id nonce dry_run plan : ∀ s : emergency X,
  wp (mapM (sell_one account_id nonce dry_run) plan) (λ r s', log_grows s s' ∧ match r with
    | Ok sold => map sl_plan sold = plan ∧ (dry_run = false → Forall (λ sl, sl_status sl ≠ SDryRun) sold)
    | Err _ => True end) s.
Proof.
  induction plan as [|p plan IH]; intros s; cbn [mapM]; [apply wp_ret; split; [reflexivity|by split]|].
  apply wp_bind. eapply wp_mono; [apply wp_emergency_sell|].
  intros [sl|e] s1 [Hg1 Hp]; [destruct Hp as [Hp Hd]|by split]. apply wp_bind. eapply wp_mono; [apply IH|].
  intros [sold|e] s2 [Hg2 Hps]; (split; [by etrans|]); [|done]. destruct Hps as [Hps Hds]. simpl.
  split; [by rewrite Hp, Hps|]. intros Hdry. constructor; auto.
Qed.

(** When the emergency stop of an account reports success (and was no dry run),
    every order the exchange listed as open is logged as canceled, and every
    holding the exchange reported is the quote currency, empty, or was sold: an
    order for all of it that the lot step allows is filled. *)
Theorem emergency_stop_ok account_id yes (s : emergency X) res s' :
  _stop_one quote_asset account_id yes false s = (Ok res, s') → sr_ok res = true →
  ∃ x1 x2 open balances,
    (get_all_open_orders account_id x1).1 = Ok open ∧ (get_balance account_id x2).1 = Ok balances ∧
    (∀ o, o ∈ open →
       is_action_done CANCEL_LOG_ACTION (cancel_key account_id (oo_symbol o) o) None (em_log s') = true) ∧
    (∀ asset free, (asset, free) ∈ balances → asset = quote_asset ∨ fle free fzero = true ∨
       ∃ sl f, sl ∈ sr_sold res ∧ sl_status sl = SStatus FILLED ∧
         pl_symbol (sl_plan sl) = asset +:+ quote_asset ∧
         _round_down free (step_size f) = Ok (pl_quantity (sl_plan sl))).
Proof.
  intros Hrun Hok.
  assert (wp (_stop_one quote_asset account_id yes false) (λ r s', ∀ res, r = Ok res → sr_ok res = true →
    ∃ x1 x2 open balances,
    (get_all_open_orders account_id x1).1 = Ok open ∧ (get_balance account_id x2).1 = Ok balances ∧
    (∀ o, o ∈ open →
       is_action_done CANCEL_LOG_ACTION (cancel_key account_id (oo_symbol o) o) None (em_log s') = true) ∧
    (∀ asset free, (asset, free) ∈ balances → asset = quote_asset ∨ fle free fzero = true ∨
       ∃ sl f, sl ∈ sr_sold res ∧ sl_status sl = SStatus FILLED ∧
         pl_symbol (sl_plan sl) = asset +:+ quote_asset ∧
         _round_down free (step_size f) = Ok (pl_quantity (sl_plan sl)))) s) as Hwp.
  2:{ eapply wp_run in Hwp; [|exact Hrun]. by eapply Hwp. }
  clear Hrun Hok res s'. unfold _stop_one. apply wp_any; [done|].
  intros [creds|e] s1; [|destruct_exn e; try done; apply wp_ret; by intros res [= <-]].
  apply wp_bind, wp_in_world, wp_call_broker. intros ro x1 Ho. destruct ro as [open|e]; [|done].
  apply wp_bind. eapply wp_mono; [apply wp_cancel_all|]. intros [[n errors]|e] s2 [_ Hcancel]; [|done].
  apply wp_bind, wp_in_world, wp_call_broker. intros rb x2 Hb. destruct rb as [balances|e]; [|done].
  apply wp_bind, wp_in_world. simpl. eapply wp_mono; [apply wp_plan_all|]. intros [g|e] w3 Hplan; [|done].
  apply wp_bind, wp_in_world. eapply wp_mono; [apply wp_true|]. intros [[refused|]|e] w4 _; [|..|done].
  { apply wp_ret. by intros res [= <-]. }
  apply wp_bind, wp_in_world. eapply wp_mono; [apply wp_true|]. intros [uuid|e] w5 _; [|done].
  apply wp_bind. eapply wp_mono; [apply wp_sell_all|]. intros [sold|e] s6 [Hgrow Hsold]; [destruct Hsold as [Hsold Hreal]; specialize (Hreal eq_refl)|done].
  apply wp_ret. intros res [= <-]. simpl. intros Hok. inv_bool.
  assert (∀ A (l : list A), is_nil l = true → l = []) as Hnil by (by intros A []).
  exists (w_ext (em_world s1)), (w_ext (em_world s2)), open, balances.
  rewrite Ho, Hb. split; [done|]. split; [done|].
  destruct (Hcancel (Hnil _ _ ltac:(eassumption))) as [_ Hgroups].
  destruct Hplan as (_ & _ & Hall); [split; by apply Hnil|]. split.
  - intros o Hino. destruct (group_orders_elem _ _ Hino) as (os & Hg & Hos).
    rewrite Forall_forall in Hgroups. eapply action_done_grows; [exact Hgrow|].
    by apply (Hgroups (oo_symbol o, os)); [apply elem_of_sort_symbols|].
  - intros asset free Hin. rewrite Forall_forall in Hall.
    destruct (Hall _ Hin) as [?|[?|(p & f & Hp & Hsym & Hqty)]]; [by left|by right; left|]. right. right.
    rewrite <- Hsold in Hp. apply list_elem_of_fmap in Hp as (sl & -> & Hsl).
    exists sl, f. split; [done|]. split; [|done].
    match goal with Hf : forallb filled_sale sold = true |- _ =>
      rewrite forallb_forall in Hf; specialize (Hf sl (proj1 (list_elem_of_In _ _) Hsl)); revert Hf end.
    rewrite Forall_forall in Hreal. specialize (Hreal sl Hsl). unfold filled_sale.
    destruct (sl_status sl) as [[]| |]; try done.
Qed.
End Reasoning.

(** ** A dry run *)

Section DryRun.
Context {X : Type} `{Ext X, PyEnv, SecretStore X, OrderBroker X, EmergencyFeed X}.
Context (quote_asset : string).

Definition inert_world : relation (world X) := λ w w', w_db w' = w_db w ∧ same_effects w w'.
Definition inert : relation (emergency X) := λ s s',
  em_log s' = em_log s ∧ inert_world (em_world s) (em_world s').

#[local] Instance inert_world_preorder : PreOrder inert_world.
Proof. split; [by intros w|]. intros w1 w2 w3 [? ?] [? ?]. split; [congruence|by etrans]. Qed.
#[local] Instance inert_preorder : PreOrder inert.
Proof. split; [by intros s|]. intros s1 s2 s3 [? ?] [? ?]. split; [congruence|by etrans]. Qed.

Lemma inert_in_world {A} (m : M X A) : steps inert_world m → steps inert (in_world m).
Proof. intros Hm s. unfold in_world. specialize (Hm (em_world s)). by destruct (m (em_world s)). Qed.

Lemma inert_ext {A} (m : ST X A) : steps inert_world (on_ext m).
Proof. intros w. unfold on_ext. by destruct (m (w_ext w)). Qed.

Lemma inert_call {A} c (m : ST X A) : is_effect c = false → steps inert_world (call_broker c m).
Proof.
  intros Hc w. unfold call_broker. destruct (m (w_ext w)) as [r x]. split; [done|].
  exact (wrel_query (R := same_effects) w x c Hc).
Qed.

Ltac inert_tac :=
  repeat first [apply steps_ret; tc_solve | apply steps_throw; tc_solve | apply steps_raise; tc_solve
    | apply steps_gets; tc_solve | apply steps_lift; tc_solve
    | apply inert_in_world | apply inert_ext | apply inert_call; reflexivity | apply steps_attempt
    | apply steps_bind; [tc_solve| |intros ?]
    | apply steps_foldM; [tc_solve|intros ? ? ?] | apply steps_mapM; [tc_solve|intros ? ?]
    | match goal with
      | |- steps _ (db_read _) => apply steps_gets; tc_solve
      | |- steps _ (match ?x with _ => _ end) => destruct x
      | |- steps _ (let '_ := ?x in _) => destruct x
      end].

(** A dry run is only a plan: whatever the accounts hold and whatever fails, it
    sends no order and no cancellation, writes no line of the log, and leaves the
    store as it is. *)
Theorem dry_run_sends_nothing account_ids yes (s : emergency X) :
  let s' := (run quote_asset account_ids yes true s).2 in
  em_log s' = em_log s ∧ w_db (em_world s') = w_db (em_world s) ∧
  effects (w_trace (em_world s')) = effects (w_trace (em_world s)).
Proof.
  cbv zeta. assert (steps inert (run quote_asset account_ids yes true)) as Hs; [|apply (Hs s)].
  unfold run, _resolve_accounts, list_accounts, _stop_one, get_credentials, cancel_symbol, plan_asset, _price,
    confirm, uuid4_hex, sell_one. inert_tac.
Qed.
End DryRun.

(** ** Witnesses *)

#[local] Existing Instances outside_ext sample_env plain_store filling_broker.

#[local] Instance sample_feed : EmergencyFeed outside := {|
  feed_price _ := mret (Some (fZ 100));
  feed_filters _ := mret (Some btc_filters);
  answer := mret None |}.

(** One real account holding 1000 USDT and 3 BTC; an empty log, or one whose last
    line was cut short. *)
Definition calm_start : emergency outside := mk_em real_world [].
Definition torn_start : emergency outside := mk_em real_world [Corrupt "{"].

Definition stopped : result stop_result * emergency outside := _stop_one "USDT" "acc" true false calm_start.

Definition stop_res : stop_result :=
  match stopped.1 with Ok r => r | Err _ => stopped_with "acc" Aborted [] end.

Lemma stopped_run :
  _stop_one "USDT" "acc" true false calm_start = (Ok stop_res, stopped.2) ∧ sr_ok stop_res = true.
Proof. split; vm_compute; reflexivity. Qed.

Lemma emergency_stop_ok_witness :
  ∃ x1 x2 open balances,
    (get_all_open_orders "acc" x1).1 = Ok open ∧ (get_balance "acc" x2).1 = Ok balances ∧
    (∀ asset free, (asset, free) ∈ balances → asset = "USDT" ∨ fle free fzero = true ∨
       ∃ sl f, sl ∈ sr_sold stop_res ∧ sl_status sl = SStatus FILLED ∧
         pl_symbol (sl_plan sl) = asset +:+ "USDT" ∧
         _round_down free (step_size f) = Ok (pl_quantity (sl_plan sl))).
Proof.
  destruct stopped_run as [Hrun Hok].
  destruct (emergency_stop_ok "USDT" "acc" true calm_start stop_res stopped.2 Hrun Hok)
    as (x1 & x2 & o & b & Ho & Hb & _ & Hall).
  exists x1, x2, o, b. split; [exact Ho|split; [exact Hb|exact Hall]].
Defined.

(** With a torn last line the sale goes out, but logging it raises: the account is
    reported as an internal error, and nothing after the first sale is sold. *)
Example torn_log_hides_the_sale :
  let '(r, s') := run "USDT" ["acc"] true false torn_start in
  match r with
  | Ok (ok, [res]) => ok = false ∧ sr_error res = Some (StopCode INTERNAL_ERROR) ∧ sr_sold res = []
  | _ => False
  end ∧ length (submissions (w_trace (em_world s'))) = 1%nat.
Proof. vm_compute. done. Qed.
