(* ===== verification/CloseSpec.v ===== *)
(** What closing positions promises: an account is reported closed only when every
    sale is recorded as filled; and the views drop no account silently. *)

From Stdlib Require Import ZArith String.
From S2P Require Import Prelude PyFloat PyVal Errors Risk Sizing Validation Monad Broker Db Sample AuditLog Credentials Accounts RiskPolicy Orders Close OrdersSpec.
Local Open Scope string_scope.
Local Open Scope list_scope.

Definition order_ids_ok (d : db) : Prop := NoDup (map o_order_id (orders d)).

(** A filled sale of [symbol], recorded under [id]. *)
Definition filled_sale (account_id symbol id : string) (o : order_row) : Prop :=
  o_order_id o = id ∧ o_account_id o = account_id ∧ o_symbol o = symbol ∧ o_side o = "SELL" ∧
  o_status o = FILLED.

Definition backed (account_id : string) (d : db) (s : sold_entry) : Prop :=
  ∀ symbol q id, s = Sold symbol q FILLED id →
    ∃ o, o ∈ orders d ∧ filled_sale account_id symbol id o.

(** Filled orders stay as they are. *)
Definition keeps_filled : relation db := λ d d',
  order_ids_ok d → order_ids_ok d' ∧ ∀ o, o ∈ orders d → o_status o = FILLED → o ∈ orders d'.

#[export] Instance keeps_filled_preorder : PreOrder keeps_filled.
Proof.
  split; [by intros d|]. intros d1 d2 d3 H12 H23 H1. destruct (H12 H1) as [H2 ?].
  destruct (H23 H2) as [H3 ?]. auto.
Qed.

Definition same_orders : relation db := λ d d', orders d' = orders d.

#[export] Instance same_orders_preorder : PreOrder same_orders.
Proof. unfold same_orders. split; [by intros d|]. intros ??? -> ->. done. Qed.

Lemma keeps_filled_same d d' : same_orders d d' → keeps_filled d d'.
Proof. unfold same_orders, keeps_filled, order_ids_ok. intros ->. auto. Qed.

Lemma keeps_filled_snoc d d' o :
  orders d' = orders d ++ [o] → o_order_id o ∉ map o_order_id (orders d) → keeps_filled d d'.
Proof.
  unfold keeps_filled, order_ids_ok. intros -> Hf Hn. rewrite map_app. split.
  - apply NoDup_app. split_and!; [done| |apply NoDup_singleton].
    by intros i Hi ->%list_elem_of_singleton.
  - intros o' Ho' _. apply elem_of_app. by left.
Qed.

Lemma ids_unique_order d o o' :
  order_ids_ok d → o ∈ orders d → o' ∈ orders d → o_order_id o = o_order_id o' → o = o'.
Proof.
  unfold order_ids_ok. intros Hn (i & Hi)%list_elem_of_lookup (j & Hj)%list_elem_of_lookup Heq.
  assert (i = j) as ->; [|congruence].
  eapply NoDup_lookup; [exact Hn| |]; rewrite list_lookup_fmap; [by rewrite Hi|].
  rewrite Hj. simpl. by rewrite Heq.
Qed.

(** Updating a row that is not filled. *)
Lemma keeps_filled_update d d' o f :
  o ∈ orders d → o_status o ≠ FILLED → (∀ o, o_order_id (f o) = o_order_id o) →
  orders d' = update_where (is_order (o_order_id o)) f (orders d) → keeps_filled d d'.
Proof.
  intros Ho Hs Hf Heq Hn. split.
  - unfold order_ids_ok. rewrite Heq, map_update_where; done.
  - intros o' Ho' Hs'. rewrite Heq. apply elem_of_update_where. exists o'. split; [done|].
    unfold is_order. destruct (String.eqb_spec (o_order_id o') (o_order_id o)) as [E|]; [|done].
    by rewrite (ids_unique_order d o' o) in Hs'.
Qed.

Section CloseSpec.
Context {X : Type} `{Ext X, PyEnv, SecretStore X, OrderBroker X, MarketFeed X, OrderConfig}.

Lemma same_orders_audit a b c : steps (on_db same_orders) (audit a b c : M X unit).
Proof. apply steps_wp. intros w. apply wp_audit. by intros r w' (log & x & ->). Qed.
Hint Resolve same_orders_audit : wsteps.

(** ** One order, followed to its last write *)

Definition placed (l0 : list order_row) (account_id symbol side : string)
    (r : result exec_result) (w' : world X) : Prop :=
  (orders (w_db w') = l0 ∧ ∀ res, r ≠ Ok res) ∨
  ∃ o, orders (w_db w') = l0 ++ [o] ∧ o_order_id o ∉ map o_order_id l0 ∧
    o_account_id o = account_id ∧ o_symbol o = symbol ∧ o_side o = side ∧
    ∀ res, r = Ok res → x_order_id res = o_order_id o ∧ x_status res = o_status o.

(** [UPDATE] of the last row, with whatever the transaction does to the audit log. *)
Lemma wp_update_last {A} l0 o f (m : M X A) (w : world X) :
  orders (w_db w) = l0 ++ [o] → o_order_id o ∉ map o_order_id l0 → steps (on_db same_orders) m →
  wp (db_write (_update_order (o_order_id o) f;; m)) (λ r w', match r with
    | Ok a => ∃ t w0, orders (w_db w') = l0 ++ [with_updated_at t (f o)] ∧ (m w0).1 = Ok a
    | Err _ => w_db w' = w_db w
    end) w.
Proof.
  intros Ho Hf Hm. apply wp_db_write; [done|intros _]. apply wp_bind.
  unfold _update_order. wp1. wp1. wp1.
  match goal with |- wp m _ ?w1 => set (w1' := w1) in *; pose proof (Hm w1') as Hs; unfold wp;
    destruct (m w1') as [[a|e] w2] eqn:E end; simpl in *; [|done].
  unfold on_db, same_orders in Hs. simpl in Hs. do 2 eexists. split; [|by rewrite E]. rewrite Hs, Ho.
  rewrite update_where_app. f_equal.
  - apply update_where_none, Forall_forall. intros y Hy. unfold is_order. apply String.eqb_neq.
    intros Heq. apply Hf. rewrite <- Heq. by apply list_elem_of_fmap_2.
  - unfold update_where. simpl. unfold is_order. by rewrite String.eqb_refl.
Qed.

Lemma placed_row l0 o a s sd (r : result exec_result) (w' : world X) :
  orders (w_db w') = l0 ++ [o] → o_order_id o ∉ map o_order_id l0 →
  o_account_id o = a → o_symbol o = s → o_side o = sd →
  (∀ res, r = Ok res → x_order_id res = o_order_id o ∧ x_status res = o_status o) →
  placed l0 a s sd r w'.
Proof. intros. right. exists o. split_and!; done. Qed.

(** The [UPDATE] that records the outcome, then the answer built from it. *)
Lemma wp_record_outcome {A} l0 o f (m : M X A) (g : A → exec_result) (w : world X) :
  orders (w_db w) = l0 ++ [o] → o_order_id o ∉ map o_order_id l0 → steps (on_db same_orders) m →
  (∀ t, let o' := with_updated_at t (f o) in
    okey o' = okey o ∧ o_symbol o' = o_symbol o ∧ o_side o' = o_side o) →
  (∀ a w0, (m w0).1 = Ok a → x_order_id (g a) = o_order_id o ∧ x_status (g a) = o_status (f o)) →
  wp (a ← db_write (_update_order (o_order_id o) f;; m); mret (g a))
    (placed l0 (o_account_id o) (o_symbol o) (o_side o)) w.
Proof.
  intros Ho Hf Hm Hk Hg. apply wp_bind. eapply wp_mono; [by apply (wp_update_last l0 o)|].
  intros [a|e] w'.
  - intros (t & w0 & Hw & Ha). apply wp_ret. destruct (Hk t) as ([= Hk1 Hk2 Hk3] & Hs & Hd).
    simpl in *. destruct (Hg a w0 Ha) as [? ?].
    eapply placed_row; [exact Hw|..]; simpl; try congruence. intros res [= <-]. by rewrite Hk1.
  - intros Hw. eapply placed_row; [by rewrite Hw|..]; done.
Qed.

Lemma query_or_none_same a b c d : steps (on_db same_orders) (query_or_none a b c d : M X _).
Proof. unfold query_or_none, query_state. walk. Qed.

Lemma wp_submit_placed l0 account o symbol cid actor quantity c send action details (w : world X) :
  orders (w_db w) = l0 ++ [o] → o_order_id o ∉ map o_order_id l0 →
  wp (submit_and_record account o symbol cid actor quantity c send action (λ result,
        _update_order (o_order_id o) (with_fill result);;
        audit actor "place_order" (details result);; mret (with_fill result o)))
    (placed l0 (o_account_id o) (o_symbol o) (o_side o)) w.
Proof.
  intros Ho Hf. unfold submit_and_record. apply wp_bind, wp_attempt, wp_call_broker. intros r x _.
  assert (∀ e (w' : world X), orders (w_db w') = l0 ++ [o] →
    placed l0 (o_account_id o) (o_symbol o) (o_side o) (Err e) w') as Herr.
  { intros e w' Hw. by eapply placed_row. }
  assert (∀ (w' : world X), orders (w_db w') = l0 ++ [o] →
    wp (_reconcile_after_timeout account o symbol cid actor)
      (placed l0 (o_account_id o) (o_symbol o) (o_side o)) w') as Htimeout.
  { intros w1 Hw1. unfold _reconcile_after_timeout. apply wp_bind.
    eapply wp_steps; [apply query_or_none_same|]. intros r1 w2 Hw2. unfold on_db, same_orders in Hw2.
    rewrite Hw1 in Hw2. destruct r1 as [[found|]|e]; [| |by apply Herr].
    all: apply (wp_record_outcome l0 o _ _ (λ _, _)); [done|done|walk|done|done]. }
  destruct r as [result|e]; [|destruct_exn e]; try (by apply Htimeout); try (apply wp_throw; by apply Herr).
  1: apply (wp_record_outcome l0 o _ _ (λ y, _order_to_result y (Some quantity) None));
     [done|done|walk|done|].
  1: { intros y w0 Hy. unfold mbind, ST_bind in Hy. destruct (audit _ _ _ w0) as [[[]|e] w1]; [|done].
       simpl in Hy. injection Hy as <-. done. }
  all: cbv zeta; apply (wp_record_outcome l0 o _ _ (λ _, _)); [done|done|walk|done|done].
Qed.

Lemma wp_place_placed account symbol side ot q p n rp idem eq actor sp (w : world X) :
  wp (_place_and_record account true symbol side ot q p n rp idem eq actor sp)
    (placed (orders (w_db w)) (pub_account_id account) symbol side) w.
Proof.
  assert (∀ e (w' : world X), orders (w_db w') = orders (w_db w) →
    placed (orders (w_db w)) (pub_account_id account) symbol side (Err e) w') as Herr by (by left).
  unfold _place_and_record. apply wp_lift_bind; [by intros; apply Herr|intros _ _]. cbv zeta. simpl negb.
  cbv iota. apply wp_bind, wp_db_write; [by intros; apply Herr|intros _].
  eapply wp_mono; [apply insert_order_run|]. intros [o|e] w1; [|intros _; by apply Herr].
  intros (Hfr & (i & t & Heq) & Ho & _). destruct Hfr as [Hid _].
  eapply wp_mono; [by apply (wp_submit_placed (orders (w_db w)))|].
  intros r w2. by rewrite Heq.
Qed.

(** ** One asset *)

Definition sold_symbol (s : sold_entry) : string :=
  match s with Sold symbol _ _ _ => symbol | Skipped symbol _ => symbol end.

(** What became of one balance: nothing to sell, a symbol the market does not
    list, or an entry in the report. *)
Definition handled (sold : list sold_entry) (bal : string * float) : Prop :=
  bal.1 = "USDT" ∨ fle bal.2 fzero = true ∨
  (∃ x x', symbol_valid (bal.1 +:+ "USDT") x = (Ok false, x')) ∨
  ∃ s, s ∈ sold ∧ sold_symbol s = bal.1 +:+ "USDT".

Lemma latest_elem rows o : latest rows = Some o → o ∈ rows.
Proof.
  revert o. induction rows as [|r rows IH]; intros o; simpl; [done|].
  destruct (latest rows) as [r'|]; [|intros [= ->]; by left].
  case_match; intros [= <-]; [right; by apply IH|by left].
Qed.

Lemma load_open_close_spec a s d o :
  _load_open_close a s d = Some o →
  o ∈ orders d ∧ o_account_id o = a ∧ o_symbol o = s ∧ o_side o = "SELL" ∧ o_status o ≠ FILLED.
Proof.
  intros Ho%latest_elem%elem_of_filter_b. destruct Ho as [Hin Ho]. unfold is_open_close in Ho.
  rewrite !andb_true_iff, !String.eqb_eq in Ho. destruct Ho as [[[[? ?] ?] _] Hst].
  split_and!; try done. intros E. rewrite E in Hst. done.
Qed.

Lemma wp_reconcile_close_spec account_id symbol (w : world X) :
  wp (_reconcile_close account_id symbol) (λ r w', keeps_filled (w_db w) (w_db w') ∧
    ∀ e, r = Ok (Some e) → backed account_id (w_db w') e ∧ sold_symbol e = symbol) w.
Proof.
  unfold _reconcile_close. apply wp_bind, wp_db_read.
  assert (∀ (w' : world X), w_db w' = w_db w → keeps_filled (w_db w) (w_db w')) as Hsame.
  { intros w' ->. reflexivity. }
  destruct (_load_open_close account_id symbol (w_db w)) as [oc|] eqn:Eoc; [|by apply wp_ret; auto].
  apply load_open_close_spec in Eoc as (Hin & Ha & Hs & Hd & Hst).
  apply wp_bind, wp_attempt, wp_call_broker. intros r x _. apply wp_bind.
  assert (∀ found, wp (match found with
    | Some found =>
        db_write (_update_order (o_order_id oc) (with_fill found));;
        mret (if status_in (r_status found) [NEW; PARTIALLY_FILLED; UNKNOWN; FILLED]
              then Some (Sold symbol (o_quantity oc) (r_status found) (o_order_id oc))
              else None)
    | None => mret None
    end) (λ r w', keeps_filled (w_db w) (w_db w') ∧
      ∀ e, r = Ok (Some e) → backed account_id (w_db w') e ∧ sold_symbol e = symbol)
    (mk_world (w_db w) (w_closed w) x
      (w_trace w ++ [(CQueryOrder account_id symbol (o_client_order_id oc), w_db w)])))
    as Hfound.
  { intros [found|]; [|apply wp_ret; split; [by apply Hsame|done]]. apply wp_bind, wp_db_write; [by auto|intros _].
    unfold _update_order. do 3 wp1. apply wp_ret. simpl. split.
    { by apply (keeps_filled_update (w_db w) _ oc (λ o, with_updated_at t (with_fill found o))). }
    intros e. case_match; [|done]. intros [= <-]. split; [|done]. intros sym q id [= <- <- Hfill <-].
    exists (with_updated_at t (with_fill found oc)). split; [|unfold filled_sale; simpl; by split_and!].
    simpl. apply elem_of_update_where. exists oc. split; [done|].
    unfold is_order. by rewrite String.eqb_refl. }
  destruct r as [found|[]]; try (apply wp_throw; split; [by auto|done]).
  - apply wp_ret, Hfound.
  - apply wp_ret, (Hfound None).
Qed.

Lemma placed_keeps a s sd r (w w' : world X) :
  placed (orders (w_db w)) a s sd r w' → keeps_filled (w_db w) (w_db w').
Proof.
  intros [[Hw _]|(o & Hw & Hf & _)]; [by apply keeps_filled_same|by eapply keeps_filled_snoc].
Qed.

Lemma placed_backed a s r q (w w' : world X) res :
  placed (orders (w_db w)) a s "SELL" r w' → r = Ok res →
  backed a (w_db w') (Sold s q (x_status res) (x_order_id res)).
Proof.
  intros [[_ Hw]|(o & Hw & _ & Ha & Hs & Hd & Hr)] ->; [by destruct (Hw res)|].
  destruct (Hr res eq_refl) as [Hi Hst]. intros sym q' id [= <- <- Hf <-]. exists o.
  rewrite Hw. split; [apply elem_of_app; right; by left|]. unfold filled_sale. split_and!; congruence.
Qed.

Lemma backed_keeps a d d' s :
  order_ids_ok d → keeps_filled d d' → backed a d s → backed a d' s.
Proof.
  intros Hn Hk Hb sym q id ->. destruct (Hb sym q id eq_refl) as (o & Ho & Hs).
  exists o. split; [|done]. apply Hk; [done..|]. by destruct Hs as (? & ? & ? & ? & ?).
Qed.

(** ** The loop over the balances *)

Definition sell_post (account_id : string) (d0 : db) (sold : list sold_entry)
    (bal : string * float) (r : result (list sold_entry)) (w' : world X) : Prop :=
  keeps_filled d0 (w_db w') ∧
  ∀ sold', r = Ok sold' → (∃ new, sold' = sold ++ new ∧ Forall (backed account_id (w_db w')) new) ∧
    handled sold' bal.

Lemma sell_post_add account_id d0 sold asset free e (w' : world X) :
  keeps_filled d0 (w_db w') → backed account_id (w_db w') e → sold_symbol e = asset +:+ "USDT" →
  sell_post account_id d0 sold (asset, free) (Ok (sold ++ [e])) w'.
Proof.
  intros Hk Hb Hs. split; [done|]. intros sold' [= <-]. split.
  - exists [e]. split; [done|]. by constructor.
  - do 3 right. exists e. split; [apply elem_of_app; right; by left|done].
Qed.

Lemma wp_sell_one account actor nonce sold bal (w : world X) :
  wp (_sell_one account actor nonce sold bal)
    (sell_post (pub_account_id account) (w_db w) sold bal) w.
Proof.
  destruct bal as [asset free]. unfold _sell_one.
  assert (∀ (w' : world X) e, w_db w' = w_db w →
    sell_post (pub_account_id account) (w_db w) sold (asset, free) (Err e) w') as Herr.
  { intros w' e Hw. unfold sell_post. rewrite Hw. split; [reflexivity|done]. }
  assert (∀ (w' : world X), w_db w' = w_db w → handled sold (asset, free) →
    sell_post (pub_account_id account) (w_db w) sold (asset, free) (Ok sold) w') as Hkeep.
  { intros w' Hw Hh. unfold sell_post. rewrite Hw. split; [reflexivity|]. intros ? [= <-]. split; [|done].
    exists []. by rewrite app_nil_r. }
  assert (∀ (w' : world X) s, w_db w' = w_db w →
    sell_post (pub_account_id account) (w_db w) sold (asset, free)
      (Ok (sold ++ [Skipped (asset +:+ "USDT") s])) w') as Hskip.
  { intros w' s Hw. apply sell_post_add; [by rewrite Hw|by intros ?|done]. }
  destruct (String.eqb asset "USDT" || fle free fzero) eqn:E.
  { apply wp_ret, Hkeep; [done|]. unfold handled. apply orb_true_iff in E as [E|E];
      [left; by apply String.eqb_eq|by right; left]. }
  cbv zeta. apply wp_bind, wp_on_ext. intros r x Hv. destruct r as [valid|e]; [|by apply Herr].
  destruct valid; simpl negb; cbv iota; [|apply wp_ret, Hkeep; [done|]; right; right; left; eauto].
  apply wp_bind, wp_on_ext. intros r x1 _. destruct r as [[p|]|e]; [|by apply wp_ret, Hskip|by apply Herr].
  apply wp_bind, wp_on_ext. intros r x2 _. destruct r as [[f|]|e]; [|by apply wp_ret, Hskip|by apply Herr].
  apply wp_lift_bind; [by intros; apply Herr|]. intros qty _.
  destruct (flt qty (min_qty f)); [by apply wp_ret, Hskip|].
  apply wp_bind. eapply wp_mono; [apply wp_reconcile_close_spec|]. intros r w1 [Hk Hr]. simpl in Hk.
  destruct r as [[e|]|e]; [| |by split].
  - destruct (Hr e eq_refl) as [Hb Hs]. apply wp_ret. by apply sell_post_add.
  - apply wp_bind. eapply wp_mono; [apply wp_place_placed|]. intros r w2 Hp.
    pose proof (placed_keeps _ _ _ _ _ _ Hp) as Hk2.
    destruct r as [res|e]; [|split; [by etrans|done]].
    apply wp_ret, sell_post_add; [by etrans| |done]. by eapply placed_backed.
Qed.

Lemma sell_loop account actor nonce bals sold (w : world X) :
  order_ids_ok (w_db w) → Forall (backed (pub_account_id account) (w_db w)) sold →
  wp (foldM (_sell_one account actor nonce) sold bals) (λ r w', ∀ sold', r = Ok sold' →
    Forall (backed (pub_account_id account) (w_db w')) sold' ∧ sold `prefix_of` sold' ∧
    ∀ bal, bal ∈ bals → handled sold' bal) w.
Proof.
  revert sold w. induction bals as [|bal bals IH]; intros sold w Hn Hb; cbn [foldM].
  { apply wp_ret. intros ? [= <-]. split_and!; [done..|]. intros b Hb'. by apply not_elem_of_nil in Hb'. }
  apply wp_bind. eapply wp_mono; [apply wp_sell_one|]. intros [sold1|e] w1 [Hk Hpost]; [|done].
  destruct (Hpost sold1 eq_refl) as [(new & -> & Hnew) Hh]. destruct (Hk Hn) as [Hn1 _].
  eapply wp_mono; [apply IH; [done|]|].
  { apply Forall_app. split; [|done]. eapply Forall_impl; [exact Hb|].
    intros s Hs. by apply (backed_keeps _ (w_db w)). }
  intros r w2 Hr sold' Hsold. destruct (Hr sold' Hsold) as (Hb' & Hpre & Hall).
  split_and!; [done|by destruct Hpre as [k ->]; exists (new ++ k); rewrite app_assoc|]. intros b [->|Hin]%elem_of_cons; [|by apply Hall].
  destruct Hh as [?|[?|[?|(s & Hs & Hsym)]]]; [by left|by right; left|by right; right; left|].
  do 3 right. exists s. split; [|done]. destruct Hpre as [k ->]. apply elem_of_app. by left.
Qed.

(** ** Properties *)

Lemma quiet_ids (w w' : world X) : quiet w w' → order_ids_ok (w_db w) → order_ids_ok (w_db w').
Proof.
  intros [Hk _]. unfold order_ids_ok. by rewrite (okeys_map o_order_id (λ k, k.1.1) (w_db w) (w_db w')).
Qed.

Lemma wp_quiet_bind {A B} (m : M X A) (f : A → M X B) Q (w : world X) :
  steps quiet m → order_ids_ok (w_db w) → (∀ e w', Q (Err e) w') →
  (∀ a w', order_ids_ok (w_db w') → wp (f a) Q w') → wp (m ≫= f) Q w.
Proof.
  intros Hm Hn He Hf. apply wp_bind. eapply wp_steps; [exact Hm|]. intros [a|e] w' Hq; [|done].
  apply Hf. by eapply quiet_ids.
Qed.

Definition closed_post (account : public_account) (r : result close_result) (w' : world X) : Prop :=
  ∀ res, r = Ok res → cr_closed res = true →
    pub_trading_lock account = Real ∧ cl_errors (cr_cancel res) = [] ∧
    (∀ s, s ∈ cr_sold res → ∃ symbol q id o, s = Sold symbol q FILLED id ∧
       o ∈ orders (w_db w') ∧ filled_sale (pub_account_id account) symbol id o) ∧
    ∃ x balances x', get_balance (pub_account_id account) x = (Ok balances, x') ∧
      ∀ bal, bal ∈ balances → handled (cr_sold res) bal.

Lemma filled_entry s : is_filled s = true → ∃ symbol q id, s = Sold symbol q FILLED id.
Proof. destruct s; simpl; [|done]. intros ->%bool_decide_eq_true. eauto. Qed.

Lemma close_one_closed account actor (w : world X) :
  order_ids_ok (w_db w) → wp (_close_one account actor) (closed_post account) w.
Proof.
  intros Hn. unfold _close_one. cbv zeta.
  assert (∀ e (w' : world X), closed_post account (Err e) w') as Herr by (by intros e w' ?).
  apply wp_bind. eapply (wp_mono _ (λ r w', ∀ b, r = Ok b → order_ids_ok (w_db w') ∧
    (b = true → pub_trading_lock account = Real))).
  { unfold _is_real. destruct (decide (pub_trading_lock account = Real)) as [Hreal|];
      [|by apply wp_ret; intros ? [= <-]].
    apply wp_quiet_bind; [walk|done|done|]. intros [] w' Hn'. by apply wp_ret; intros ? [= <-]. }
  clear Hn. intros [is_real|e] w1 Hm; [|done]. destruct (Hm is_real eq_refl) as [Hn Hreal].
  apply wp_quiet_bind; [walk|done|done|]. intros open_orders w2 Hn2.
  apply wp_quiet_bind; [walk|done|done|]. intros exchange_open w3 Hn3.
  apply wp_quiet_bind; [walk; apply quiet_cancel_orphan|done|done|]. intros acc w4 Hn4.
  apply wp_quiet_bind; [walk; apply quiet_cancel_target|done|done|]. intros acc' w5 Hn5.
  destruct is_real; simpl negb; cbv iota; [|by apply wp_ret; intros res [= <-]].
  apply wp_quiet_bind; [walk|done|done|]. intros nonce w6 Hn6.
  unfold broker_balance. apply wp_bind, wp_call_broker. intros r x Hb. destruct r as [bals|e]; [|done].
  apply wp_bind. eapply wp_mono; [by apply sell_loop|]. intros [sold|e] w7 Hpost; [|done].
  apply wp_ret. intros res [= <-]. simpl. destruct (cl_errors acc') eqn:Eerr; [|done].
  intros Hfilled. destruct (Hpost sold eq_refl) as (Hbacked & _ & Hall).
  split_and!; [by apply Hreal|done| |by do 3 eexists].
  intros s Hs. rewrite forallb_forall in Hfilled.
  destruct (filled_entry s) as (sym & q & id & ->); [by apply Hfilled, list_elem_of_In|].
  rewrite Forall_forall in Hbacked. destruct (Hbacked _ Hs sym q id eq_refl) as (o & Ho & Hsale).
  by exists sym, q, id, o.
Qed.

(** C12: an account is reported closed only when it is a real account, no
    cancellation failed, every sale of the run is recorded as a FILLED SELL order
    of the account, and every balance the exchange reported was either sold, or
    quote currency or empty, or of a symbol the market does not list. *)
Theorem closed_means_sold account actor (w w' : world X) res :
  order_ids_ok (w_db w) → _close_one account actor w = (Ok res, w') → cr_closed res = true →
  pub_trading_lock account = Real ∧ cl_errors (cr_cancel res) = [] ∧
  (∀ s, s ∈ cr_sold res → ∃ symbol q id o, s = Sold symbol q FILLED id ∧
     o ∈ orders (w_db w') ∧ filled_sale (pub_account_id account) symbol id o) ∧
  ∃ x balances x', get_balance (pub_account_id account) x = (Ok balances, x') ∧
    ∀ bal, bal ∈ balances → handled (cr_sold res) bal.
Proof.
  intros Hn Hrun Hclosed. pose proof (close_one_closed account actor w Hn) as Hpost.
  by apply (wp_run _ _ _ _ _ Hpost Hrun res).
Qed.

Lemma elem_of_list_accounts row l : row ∈ foldr insert_account_by [] l ↔ row ∈ l.
Proof.
  assert (∀ x l, row ∈ insert_account_by x l ↔ row = x ∨ row ∈ l) as Hins.
  { intros x l0. induction l0 as [|y l0 IH]; simpl; [set_solver|].
    case_match; rewrite !elem_of_cons; [tauto|]. rewrite IH. tauto. }
  induction l as [|x l IH]; simpl; [done|]. by rewrite Hins, elem_of_cons, IH.
Qed.

(** The loop of [get_total_exposure]: every account ends in one of the two lists. *)
Lemma assoc_set_keys {A} k (v : A) d : ∀ k', k' ∈ map fst (assoc_set k v d) ↔ k' = k ∨ k' ∈ map fst d.
Proof.
  intros k'. induction d as [|[k0 v0] d IH]; simpl; [set_solver|].
  destruct (String.eqb_spec k0 k) as [->|]; simpl; rewrite !elem_of_cons; [tauto|].
  rewrite IH. tauto.
Qed.

(** The exposure view never fails and never drops an account silently: every
    account is either summed up or listed with its error, and the view calls
    itself complete exactly when there is no error. *)
Theorem exposure_accounts_for_all (w : world X) :
  ∃ v, (get_total_exposure w).1 = Ok v ∧
    ev_complete v = bool_decide (ev_errors v = []) ∧
    ∀ row, row ∈ accounts (w_db w) →
      a_account_id row ∈ map fst (ev_per_account v) ∨ a_account_id row ∈ map fst (ev_errors v).
Proof.
  assert (wp get_total_exposure (λ r w', ∃ v, r = Ok v ∧
    ev_complete v = bool_decide (ev_errors v = []) ∧
    ∀ row, row ∈ accounts (w_db w) → a_account_id row ∈ map fst (ev_per_account v) ∨
      a_account_id row ∈ map fst (ev_errors v)) w) as Hwp; [|exact Hwp].
  unfold get_total_exposure, list_accounts. apply wp_bind, wp_db_read, wp_bind.
  set (body := λ '(by_symbol, per_account, errors) account, _).
  assert (∀ (l : list public_account) (b p : list (string * float)) (e : list (string * ErrorCode)) (w1 : world X),
    wp (foldM body (b, p, e) l) (λ r _, ∃ b' p' e', r = Ok (b', p', e') ∧
      ∀ i, (i ∈ map pub_account_id l ∨ i ∈ map fst p ∨ i ∈ map fst e) →
        i ∈ map fst p' ∨ i ∈ map fst e') w1) as Hloop.
  { induction l as [|a l IH]; intros b p e w1; cbn [foldM].
    - apply wp_ret. exists b, p, e. split; [done|]. intros i [Hi|?]; [by apply not_elem_of_nil in Hi|done].
    - apply wp_bind. unfold body at 1. apply wp_bind, wp_attempt.
      eapply wp_mono; [apply (wp_steps (λ _ _, True)); [by intros ?|]; by instantiate (1 := λ _ _, True)|].
      intros r w2 _. destruct r as [per|err]; apply wp_ret; (eapply wp_mono; [apply IH|]);
        intros r' w3 (b' & p' & e' & -> & Hi'); exists b', p', e'; (split; [done|]); intros i Hi; apply Hi'.
      + simpl in Hi. rewrite elem_of_cons in Hi. rewrite assoc_set_keys. tauto.
      + simpl in Hi. rewrite elem_of_cons in Hi. rewrite map_app, elem_of_app. simpl.
        rewrite list_elem_of_singleton. tauto. }
  eapply wp_mono; [apply Hloop|]. intros r w' (b' & p' & e' & -> & Hi). apply wp_ret.
  eexists. split; [done|]. simpl. split; [by destruct e'|]. intros row Hrow. apply Hi. left.
  rewrite map_map. simpl. apply list_elem_of_fmap. exists row. split; [done|]. by apply elem_of_list_accounts.
Qed.
End CloseSpec.

(** ** Witness *)

#[local] Existing Instances outside_ext sample_env plain_store filling_broker btc_market fee_config.

Lemma real_world_ids : order_ids_ok (w_db real_world).
Proof. apply NoDup_nil_2. Defined.

Lemma real_world_closed :
  match (_close_one (_public_account (sample_account Real)) "agent" real_world).1 with
  | Ok res => cr_closed res = true ∧ length (cr_sold res) = 1%nat
  | Err _ => False
  end.
Proof. vm_compute. split; reflexivity. Qed.

Lemma closed_means_sold_witness :
  match _close_one (_public_account (sample_account Real)) "agent" real_world with
  | (Ok res, w') => length (cr_sold res) = 1%nat ∧
      ∀ s, s ∈ cr_sold res → ∃ symbol q id o, s = Sold symbol q FILLED id ∧ o ∈ orders (w_db w') ∧
        filled_sale (pub_account_id (_public_account (sample_account Real))) symbol id o
  | (Err _, _) => False
  end.
Proof.
  pose proof real_world_closed as Hr.
  destruct (_close_one (_public_account (sample_account Real)) "agent" real_world) as [[res|e] w'] eqn:E;
    [|destruct Hr].
  destruct Hr as [Hc Hlen].
  destruct (closed_means_sold (_public_account (sample_account Real)) "agent" real_world w' res
    real_world_ids E Hc) as (_ & _ & Hs & _).
  split; [exact Hlen|exact Hs].
Defined.
