(* ===== verification/Approve.v ===== *)
(** [approve_pending_order_handler] of [daemon/handlers.py]: the approval of a
    pending order, from the claim in the queue to the sized order and back.

    It composes the approval queue (file [Pending]) with the order service (file
    [Orders]); here is proved that every path settles the record it claimed. *)

From Stdlib Require Import ZArith String.
From S2P Require Import Prelude PyFloat PyVal Errors Monad Broker Db Sample AuditLog Credentials Accounts RiskPolicy Validation Sizing Orders Pending OrdersSpec.
Local Open Scope string_scope.
Local Open Scope list_scope.

(** ** Preflight *)

Definition is_none (v : pyval) : bool := match v with PNone => true | _ => false end.

(** A number that [float] takes and [ok] accepts; [bool] is no number here. *)
Definition number_where (ok : float → bool) (v : pyval) : result unit :=
  match v with
  | PInt _ | PFloat _ =>
      x ← py_float v;
      reject_if (negb (isfinite x) || negb (ok x)) INVALID_REQUEST
  | _ => raise INVALID_REQUEST
  end.

Definition positive_or_none (v : pyval) : result unit :=
  if is_none v then Ok tt else number_where (λ x, negb (fle x fzero)) v.

(** [AlarmService._validate_execution_inputs] *)
Definition _validate_execution_inputs (risk_pct entry stop_loss : pyval) (order_type : string) : result unit :=
  _ ← number_where (λ risk, flt fzero risk && fle risk (fZ 1)) risk_pct;
  _ ← positive_or_none entry;
  _ ← positive_or_none stop_loss;
  when (String.eqb (Str.lower (if Str.empty order_type then "market" else order_type)) "limit")
    (reject_if (is_none entry) INVALID_REQUEST).

(** ** What the result of the order means for the record *)

Definition _PENDING_DEFINITE_SUCCESS : list order_status := [FILLED; PAPER].
Definition _PENDING_DEFINITE_REJECTED : list order_status := [REJECTED; CANCELED; EXPIRED].
Definition _PENDING_TRANSIENT_ERRORS : list ErrorCode :=
  [TIMEOUT; STALE_DATA; RATE_LIMITED; ORDER_UNKNOWN; ORDER_RECONCILE_REQUIRED].

(** A transient error leaves the order to be reconciled. *)
Definition failure_status (c : ErrorCode) : pending_status :=
  if decide (c ∈ _PENDING_TRANSIENT_ERRORS) then P_reconcile_required else P_rejected.

Definition outcome_error (o : account_outcome) : option ErrorCode :=
  match o with Executed r => x_error r | AccountFailed _ _ c => Some c end.

(** [result.get("exchange_order_id") or result.get("order_id")] *)
Definition executed_id (o : account_outcome) : option string :=
  let truthy_id i := if Str.empty i then None else Some i in
  match o with
  | Executed r =>
      match x_exchange_order_id r ≫= truthy_id with
      | Some i => Some i
      | None => truthy_id (x_order_id r)
      end
  | AccountFailed _ _ _ => None
  end.

Definition rejected_code (status : order_status) : ErrorCode :=
  match status with EXPIRED => ORDER_EXPIRED | _ => ORDER_REJECTED end.

Section Approve.
Context {X : Type} `{Ext X, PyEnv, SecretStore X, OrderBroker X, MarketFeed X, OrderConfig}.
(** Whether the daemon runs with an order service, and the actor of its calls. *)
Context (has_order_service : bool) (actor : string).

(** The fresh market price; a price that is no number counts as none. *)
Definition _current_market_price (symbol : string) : M X (option float) :=
  r ← attempt (on_ext (price symbol));
  match r with
  | Ok p => mret p
  | Err TypeError | Err ValueError => mret None
  | Err e => throw e
  end.

(** A market order without an entry gets the market price. *)
Definition fill_entry (rec : pending_row) : M X pyval :=
  let order_type := if Str.empty (q_order_type rec) then "market" else q_order_type rec in
  if String.eqb (Str.lower order_type) "market" && is_none (q_entry rec) then
    p ← _current_market_price (q_symbol rec);
    match p with
    | None => raise_ STALE_DATA
    | Some p => _fill_pending_entry (q_order_id rec) p;; mret (PFloat p)
    end
  else mret (q_entry rec).

(** From the claimed record's bulk result to the state the record ends in. *)
Definition settle (order_id : string) (executed : bulk_result) : M X (string * bulk_result) :=
  match br_results executed with
  | [] =>
      fail_pending_execution order_id P_reconcile_required ORDER_UNKNOWN;;
      raise_ ORDER_RECONCILE_REQUIRED
  | o :: _ =>
      let status := outcome_status o in
      if status_in status _PENDING_DEFINITE_SUCCESS then
        match executed_id o with
        | None =>
            fail_pending_execution order_id P_reconcile_required ORDER_UNKNOWN;;
            raise_ ORDER_RECONCILE_REQUIRED
        | Some id =>
            complete_pending_execution order_id (Some id);;
            mret (id, executed)
        end
      else if status_in status _PENDING_DEFINITE_REJECTED then
        let code := default (rejected_code status) (outcome_error o) in
        fail_pending_execution order_id (failure_status code) code;;
        raise_ code
      else
        fail_pending_execution order_id P_reconcile_required (default ORDER_UNKNOWN (outcome_error o));;
        raise_ ORDER_RECONCILE_REQUIRED
  end.

Definition approve_handler (order_id : string) : M X (string * bulk_result) :=
  rec ← _pending_order order_id;
  if decide (q_status rec ≠ P_awaiting_approval) then raise_ INVALID_REQUEST
  else
    entry ← fill_entry rec;
    lift (_validate_execution_inputs (q_risk_pct rec) entry (q_stop_loss rec) (q_order_type rec));;
    if is_none (q_stop_loss rec) then raise_ INVALID_REQUEST
    else if negb has_order_service then raise_ NOT_IMPLEMENTED
    else
      approve_and_claim_pending_execution order_id;;
      r ← attempt (execute_on_accounts (PList [PStr (q_account_id rec)]) PNone (PStr (q_symbol rec))
            (PStr (q_side rec)) entry (q_stop_loss rec) (q_risk_pct rec) (PStr (pending_key order_id))
            (PStr (if Str.empty (q_order_type rec) then "MARKET" else q_order_type rec)) actor);
      match r with
      | Ok executed => settle order_id executed
      | Err (RasatError code) =>
          fail_pending_execution order_id (failure_status code) code;;
          raise_ code
      | Err e =>
          fail_pending_execution order_id P_reconcile_required INTERNAL_ERROR;;
          throw e
      end.
End Approve.

(** ** Orders leave the approval queue alone *)

Definition same_pending {X} : relation (world X) := λ w w',
  pending_orders (w_db w') = pending_orders (w_db w) ∧ w_closed w' = w_closed w.

#[export] Instance same_pending_wrel {X} : WRel (same_pending (X:=X)).
Proof.
  unfold same_pending. split; simpl; try done.
  - split; [by intros w|]. intros w1 w2 w3 [? ?] [? ?]. split; congruence.
  - by intros w w' [_ ?].
Qed.

#[export] Instance same_pending_frame {X} : OrderFrame (same_pending (X:=X)).
Proof. split; by intros. Qed.

Section Frames.
Context {X : Type} `{Ext X, PyEnv, SecretStore X, OrderBroker X, MarketFeed X, OrderConfig}.

Lemma same_pending_modify (f : db → db) :
  (∀ d, pending_orders (f d) = pending_orders d) → steps same_pending (db_modify f : M X unit).
Proof. intros Hf w. split; [apply Hf|done]. Qed.

Lemma same_pending_broker {A} c (m : ST X A) : steps same_pending (call_broker c m : M X A).
Proof. intros w. unfold call_broker. by destruct (m (w_ext w)). Qed.

Lemma execute_same_pending a b c d e f g h i j :
  steps same_pending (execute_on_accounts a b c d e f g h i j : M X bulk_result).
Proof.
  unfold execute_on_accounts, _resolve_targets, list_accounts, _execute_one_sized, _enforce_caps_or_override,
    consume_override, _consume, now_or, _place_and_record, _insert_order, submit_and_record. walk.
  all: try (by apply same_pending_modify); apply same_pending_broker.
Qed.
End Frames.

(** ** One record of the queue through a transition *)

Section Record.
Context {X : Type} `{Ext X, PyEnv}.

Definition keeps_id (f : pending_row → pending_row) : Prop := ∀ q, q_order_id (f q) = q_order_id q.

Lemma find_update i p f d :
  keeps_id f →
  find_pending i (set_pending_orders (update_where p f) d) =
  (λ q, if p q then f q else q) <$> find_pending i d.
Proof.
  intros Hf. unfold find_pending. simpl. unfold update_where, is_pending, fmap.
  induction (pending_orders d) as [|q l IH]; simpl; [done|].
  assert (q_order_id (if p q then f q else q) = q_order_id q) as -> by (case_match; [apply Hf|done]).
  by destruct (String.eqb (q_order_id q) i).
Qed.

Lemma find_pending_id i d q : find_pending i d = Some q → q_order_id q = i.
Proof. by intros [_ ?%String.eqb_eq]%find_Some_elem. Qed.

Lemma found_counts i q d :
  find_pending i d = Some q → count_where (pending_in i (q_status q)) (pending_orders d) ≠ 0%nat.
Proof.
  intros Hq. pose proof (find_pending_id _ _ _ Hq) as Hi. apply find_Some_elem in Hq as [Hin _].
  intros H0'%count_where_0. rewrite Forall_forall in H0'. specialize (H0' q Hin).
  unfold pending_in, is_pending in H0'. by rewrite Hi, String.eqb_refl, bool_decide_eq_true_2 in H0'.
Qed.

(** The first record of the id is in the state the transition starts from. *)
Lemma wp_transition i from f q (Q : result unit → world X → Prop) (w : world X) :
  find_pending i (w_db w) = Some q → q_status q = from → keeps_id f →
  (∀ w', w_closed w' = w_closed w → find_pending i (w_db w') = Some (f q) → Q (Ok tt) w') →
  wp (transition i from f) Q w.
Proof.
  intros Hq <- Hf HQ. unfold transition, cas.
  apply wp_bind, wp_bind, wp_db_read, wp_bind, wp_db_modify, wp_ret.
  pose proof (found_counts _ _ _ Hq) as Hn. destruct (count_where _ _); [done|]. apply wp_ret.
  apply HQ; [done|]. simpl. rewrite find_update, Hq by done. simpl. unfold pending_in, is_pending.
  by rewrite (find_pending_id _ _ _ Hq), String.eqb_refl, bool_decide_eq_true_2.
Qed.

Lemma wp_cas i from f q (Q : result nat → world X → Prop) (w : world X) :
  find_pending i (w_db w) = Some q → q_status q = from → keeps_id f →
  (∀ n w', w_closed w' = w_closed w → find_pending i (w_db w') = Some (f q) → Q (Ok (S n)) w') →
  wp (cas i from f) Q w.
Proof.
  intros Hq <- Hf HQ. unfold cas. apply wp_bind, wp_db_read, wp_bind, wp_db_modify, wp_ret.
  pose proof (found_counts _ _ _ Hq) as Hn. destruct (count_where _ _); [done|].
  apply HQ; [done|]. simpl. rewrite find_update, Hq by done. simpl. unfold pending_in, is_pending.
  by rewrite (find_pending_id _ _ _ Hq), String.eqb_refl, bool_decide_eq_true_2.
Qed.

(** The state a record is in. *)
Definition status_of (i : string) (d : db) : option pending_status := q_status <$> find_pending i d.

(** A claimed record on an open store. *)
Definition claimed (i : string) (w : world X) : Prop :=
  w_closed w = false ∧ status_of i (w_db w) = Some P_executing.

Lemma wp_complete i e (w : world X) : claimed i w →
  wp (complete_pending_execution i e)
    (λ r w', r = Ok P_executed ∧ status_of i (w_db w') = Some P_executed) w.
Proof.
  intros [Hc Hs]. unfold complete_pending_execution. apply wp_bind, wp_time. intros t x.
  apply wp_db_write; [by rewrite Hc|intros _]. unfold status_of in Hs. apply fmap_Some in Hs as (q & Hq & Hs).
  apply wp_bind. eapply wp_transition; [exact Hq|done|by intros ?|]. intros w' _ Hw'. apply wp_ret.
  unfold status_of. by rewrite Hw'.
Qed.

Lemma wp_fail i s c (w : world X) : claimed i w → s = P_rejected ∨ s = P_reconcile_required →
  wp (fail_pending_execution i s c)
    (λ r w', r = Ok s ∧ status_of i (w_db w') = Some s) w.
Proof.
  intros [Hc Hs] Hst. unfold fail_pending_execution. rewrite decide_True by done.
  apply wp_bind, wp_time. intros t x. apply wp_db_write; [by rewrite Hc|intros _].
  unfold status_of in Hs. apply fmap_Some in Hs as (q & Hq & Hs).
  apply wp_bind. eapply wp_transition; [exact Hq|done|by intros ?|]. intros w' _ Hw'. apply wp_ret.
  unfold status_of. by rewrite Hw'.
Qed.

(** The claim happens as a whole or not at all. *)
Lemma wp_claim i (w : world X) : status_of i (w_db w) = Some P_awaiting_approval →
  wp (approve_and_claim_pending_execution i) (λ r w', match r with
    | Ok _ => claimed i w'
    | Err _ => status_of i (w_db w') = Some P_awaiting_approval
    end) w.
Proof.
  intros Hs. unfold approve_and_claim_pending_execution. apply wp_bind, wp_time. intros t x.
  pose proof Hs as Hs0. unfold status_of in Hs. apply fmap_Some in Hs as (q & Hq & Hs).
  apply wp_db_write; [done|]. intros Hc. simpl in Hc.
  apply wp_bind. eapply wp_transition; [exact Hq|done|by intros ?|]. intros w1 Hc1 Hw1.
  apply wp_bind. eapply wp_cas; [exact Hw1|done|by intros ?|]. intros n w2 Hc2 Hw2. apply wp_ret.
  split; [simpl in Hc1; congruence|]. unfold status_of. by rewrite Hw2.
Qed.
End Record.

Section Settles.
Context {X : Type} `{Ext X, PyEnv, SecretStore X, OrderBroker X, MarketFeed X, OrderConfig}.

(** A record failed out of [executing]. *)
Definition failed (i : string) (d : db) : Prop :=
  status_of i d = Some P_rejected ∨ status_of i d = Some P_reconcile_required.

Lemma failure_status_cases c : failure_status c = P_rejected ∨ failure_status c = P_reconcile_required.
Proof. unfold failure_status. case_decide; auto. Qed.

Lemma wp_fail_then {A} i s c (m : M X A) (w : world X) :
  claimed i w → s = P_rejected ∨ s = P_reconcile_required → (∀ w', (m w').2 = w' ∧ is_ok (m w').1 = false) →
  wp (fail_pending_execution i s c;; m) (λ r w', is_ok r = false ∧ failed i (w_db w')) w.
Proof.
  intros Hc Hs Hm. apply wp_bind. eapply wp_mono; [by apply wp_fail|]. intros r w' [-> Hw'].
  unfold wp. destruct (Hm w') as [-> ->]. split; [done|]. unfold failed. rewrite Hw'. naive_solver.
Qed.

Lemma wp_settle i executed (w : world X) : claimed i w →
  wp (settle i executed) (λ r w', match r with
    | Ok (_, done) => status_of i (w_db w') = Some P_executed ∧
        ∃ o os, br_results done = o :: os ∧ outcome_status o ∈ [FILLED; PAPER]
    | Err _ => failed i (w_db w') end) w.
Proof.
  intros Hc.
  assert (∀ s c e, s = P_rejected ∨ s = P_reconcile_required →
    wp (fail_pending_execution i s c;; raise_ e : M X (string * bulk_result)) (λ r w', match r with
      | Ok (_, done) => status_of i (w_db w') = Some P_executed ∧
          ∃ o os, br_results done = o :: os ∧ outcome_status o ∈ [FILLED; PAPER]
      | Err _ => failed i (w_db w') end) w) as Hfail.
  { intros s c e Hs. eapply wp_mono; [by apply wp_fail_then|]. by intros [] w' [? ?]. }
  unfold settle. destruct (br_results executed) as [|o os] eqn:Eo; [by apply Hfail; auto|].
  destruct (status_in (outcome_status o) _PENDING_DEFINITE_SUCCESS) eqn:Es.
  - destruct (executed_id o); [|by apply Hfail; auto]. apply wp_bind.
    eapply wp_mono; [by apply wp_complete|]. intros r w' [-> Hw']. apply wp_ret. simpl. split; [done|].
    exists o, os. split; [done|]. by apply status_in_spec.
  - destruct (status_in (outcome_status o) _PENDING_DEFINITE_REJECTED); apply Hfail; [|auto].
    apply failure_status_cases.
Qed.

(** C15: an approval settles what it claims.  It succeeds only for a record that was
    awaiting approval, whose order was filled (or simulated), and then the record
    is executed; however else it ends — a refused preflight, a lost race, an
    exception of the order service, an order rejected, unknown or still open — the
    record keeps its state, or, once claimed, is rejected or left to reconcile.  It
    is never left [approved] or [executing]. *)
Theorem approval_settles svc actor i (w : world X) :
  let '(r, w') := approve_handler svc actor i w in
  match r with
  | Ok (_, executed) =>
      status_of i (w_db w) = Some P_awaiting_approval ∧ status_of i (w_db w') = Some P_executed ∧
      ∃ o os, br_results executed = o :: os ∧ outcome_status o ∈ [FILLED; PAPER]
  | Err _ =>
      status_of i (w_db w') = status_of i (w_db w) ∨
      status_of i (w_db w) = Some P_awaiting_approval ∧ failed i (w_db w')
  end.
Proof.
  assert (wp (approve_handler svc actor i) (λ r w', match r with
    | Ok (_, executed) =>
        status_of i (w_db w) = Some P_awaiting_approval ∧ status_of i (w_db w') = Some P_executed ∧
        ∃ o os, br_results executed = o :: os ∧ outcome_status o ∈ [FILLED; PAPER]
    | Err _ =>
        status_of i (w_db w') = status_of i (w_db w) ∨
        status_of i (w_db w) = Some P_awaiting_approval ∧ failed i (w_db w')
    end) w) as Hwp; [|unfold wp in Hwp; by destruct (approve_handler svc actor i w)].
  unfold approve_handler, _pending_order. apply wp_bind, wp_bind, wp_db_read.
  destruct (find_pending i (w_db w)) as [rec|] eqn:Hrec; [|apply wp_raise; by left]. apply wp_ret.
  destruct (decide _) as [|Hs]; [apply wp_raise; by left|]. apply dec_stable in Hs.
  assert (status_of i (w_db w) = Some P_awaiting_approval) as Hst by (unfold status_of; by rewrite Hrec, <- Hs).
  apply wp_bind. eapply (wp_mono _ (λ r w', status_of i (w_db w') = Some P_awaiting_approval)).
  { unfold fill_entry, _current_market_price, _fill_pending_entry. rewrite (find_pending_id _ _ _ Hrec).
    repeat wp1; try done; try (intros; simplify_eq/=; repeat wp1; done).
    all: intros; simplify_eq/=; repeat wp1; try done.
    all: unfold status_of; simpl; rewrite find_update by (by intros ?); rewrite Hrec; simpl;
      unfold is_pending; rewrite (find_pending_id _ _ _ Hrec), String.eqb_refl; simpl; by rewrite <- Hs. }
  intros [entry|e] w1 Hw1; [|left; congruence].
  apply wp_lift_bind; [intros; left; congruence|intros _ _].
  destruct (is_none (q_stop_loss rec)); [apply wp_raise; left; congruence|].
  destruct (negb svc); [apply wp_raise; left; congruence|].
  apply wp_bind. eapply wp_mono; [by apply wp_claim|]. intros [[]|e] w2 Hw2; try (left; congruence).
  all: apply wp_bind, wp_attempt; eapply wp_steps; [apply execute_same_pending|];
    intros r w3 [Hp3 Hc3]; assert (claimed i w3) as Hw3
      by (destruct Hw2; split; [congruence|]; unfold status_of, find_pending in *; by rewrite Hp3).
  all: assert (∀ A s c (m : M X A), s = P_rejected ∨ s = P_reconcile_required →
      (∀ w', (m w').2 = w' ∧ is_ok (m w').1 = false) → wp (fail_pending_execution i s c;; m)
      (λ r w', is_ok r = false ∧ failed i (w_db w')) w3) as Hfail by (intros; by apply wp_fail_then).
  all: destruct r as [executed|e];
    [eapply wp_mono; [by apply wp_settle|]; intros [[]|e] w' Hw'; [tauto|by right]|].
  all: destruct e; (eapply wp_mono; [apply Hfail; [|done]|intros [[]|] w' [? ?]; [done|by right]]);
    auto using failure_status_cases.
Qed.
End Settles.
