(* ===== verification/PlaceSpec.v ===== *)
(** What placing an order promises: the whole step of a single order call, from the
    gates to the record's settled state; the gates themselves; and that no operation,
    approvals and closings included, does anything at the exchange for a paper account. *)

From Stdlib Require Import ZArith String.
From S2P Require Import Prelude PyFloat PyVal Errors Risk Sizing Validation Monad Broker Db Sample AuditLog Credentials Accounts RiskPolicy Orders Close Pending OrdersSpec Approve.
Import RiskCaps.
Local Open Scope string_scope.
Local Open Scope list_scope.

(** The outside, in some state, answers [m] with [r]. *)
Definition answered {X A} (m : ST X A) (r : result A) : Prop := ∃ x, (m x).1 = r.

Lemma answered_run {X A} (m : ST X A) x r x' : m x = (r, x') → answered m r.
Proof. intros E. exists x. by rewrite E. Qed.

(** The order table, the submissions and the writer stay as they are. *)
Definition idle {X} : relation (world X) := λ w w',
  orders (w_db w') = orders (w_db w) ∧ submissions (w_trace w') = submissions (w_trace w) ∧
  w_closed w' = w_closed w.

#[export] Instance idle_wrel {X} : WRel (idle (X:=X)).
Proof.
  unfold idle. split; simpl.
  - split; [by intros ?|]. intros ??? (?&?&?) (?&?&?). split_and!; congruence.
  - done.
  - intros w x c Hc. split; [done|]. split; [exact (wrel_query (R := same_submissions) w x c Hc)|done].
  - by intros w w' (_&?&?).
Qed.

(** Nothing but queries: the store is the same too. *)
Definition reading {X} : relation (world X) := λ w w', w_db w' = w_db w ∧ idle w w'.

#[export] Instance reading_wrel {X} : WRel (reading (X:=X)).
Proof.
  unfold reading. split; simpl.
  - split; [by intros ?|]. intros ??? [? ?] [? ?]. split; [congruence|by etrans].
  - done.
  - intros w x c Hc. split; [done|exact (wrel_query (R := idle) w x c Hc)].
  - intros w w' [_ Hi]. split; [done|exact (wrel_rollback w w' Hi)].
Qed.

(** The call a recorded submission made, and the query that asks for its order. *)
Definition sends {X} `{OrderBroker X} (c : broker_call) : ST X OrderResult :=
  match c with CPlaceOrder a => place_order a | CPlaceOco a => place_oco a | _ => throw RuntimeError end.

Definition asks {X} `{OrderBroker X} (o : order_row) : ST X (option OrderResult) :=
  if String.eqb (o_order_type o) "OCO"
  then query_oco (o_account_id o) (o_client_order_id o)
  else query_order (o_account_id o) (o_symbol o) (o_client_order_id o).

Definition timed_out {A} (r : result A) : bool :=
  match r with Err TimeoutError | Err (RasatError TIMEOUT) => true | _ => false end.

(** What the record of [o] becomes by the exchange's [reply] to its submission and,
    after a timeout, by what the exchange [asked] for it answers; [None]: an exception outside
    the canonical ones escapes. *)
Definition settled (o : order_row) (reply : result OrderResult) (asked : result (option OrderResult))
    : option order_row :=
  match reply with
  | Ok answer => Some (with_fill answer o)
  | Err e =>
      if timed_out reply then
        match asked with
        | Ok (Some found) => Some (with_fill found o)
        | Ok None | Err (RasatError _) => Some (with_status UNKNOWN (Some ORDER_UNKNOWN) o)
        | Err _ => None
        end
      else match e with
           | RasatError code =>
               Some (with_status (if decide (code = ORDER_REJECTED) then REJECTED else UNKNOWN) (Some code) o)
           | _ => None
           end
  end.

(** The row [o'] a submission of [o] leaves, and how the call ends. *)
Definition resolved (o : order_row) (reply : result OrderResult) (asked : result (option OrderResult))
    (r : result exec_result) (o' : order_row) : Prop :=
  match settled o reply asked with
  | Some o1 => (∃ t, o' = with_updated_at t o1) ∧ ∃ res, r = Ok res ∧ x_order_id res = o_order_id o
  | None => o' = o ∧ ∃ e, r = Err e
  end.

(** A new order, with [P] of its record: refused before anything was recorded;
    simulated; or recorded, sent once, and its record brought to what the exchange
    answered. *)
Inductive placed {X} `{OrderBroker X} (P : order_row → Prop) (w : world X) (r : result exec_result) (w' : world X)
    : Prop :=
| placed_refused e : r = Err e → idle w w' → placed P w r w'
| placed_paper o :
    P o → fresh_order o w → o_status o = PAPER → orders (w_db w') = orders (w_db w) ++ [o] →
    same_submissions w w' → (∃ res, r = Ok res ∧ x_order_id res = o_order_id o) → placed P w r w'
| placed_sent o c d reply asked o' :
    P o → fresh_order o w → o_status o = NEW → describes c o →
    orders d = orders (w_db w) ++ [o] →
    submissions (w_trace w') = submissions (w_trace w) ++ [(c, d)] →
    answered (sends c) reply → (timed_out reply = true → answered (asks o) asked) →
    orders (w_db w') = orders (w_db w) ++ [o'] → resolved o reply asked r o' → placed P w r w'.

(** A retry: the order of the key as recorded, or, when it may still be open, as the
    exchange now reports it. *)
Inductive retried {X} `{OrderBroker X} (o : order_row) (w : world X) (r : result exec_result) (w' : world X) : Prop :=
| retried_as_recorded : idle w w' → r = Ok (_order_to_result o None None) → retried o w r w'
| retried_found found t :
    status_in (o_status o) OPEN_OR_UNKNOWN = true → answered (asks o) (Ok (Some found)) →
    orders (w_db w') = update_where (is_order (o_order_id o)) (λ o', with_updated_at t (with_fill found o'))
                         (orders (w_db w)) →
    same_submissions w w' → r = Ok (_order_to_result (with_fill found o) None None) → retried o w r w'.

(** A call for the account [a] and the key [k]. *)
Inductive place_step {X} `{OrderBroker X} (a k : string) (w : world X) (r : result exec_result) (w' : world X) : Prop :=
| step_retried o : _load_order a k (w_db w) = Some o → retried o w r w' → place_step a k w r w'
| step_placed : placed (λ o, o_account_id o = a ∧ o_idempotency_key o = k) w r w' → place_step a k w r w'.

(** ** What stands behind a new record *)

(** The free balances, valued at the market: [valued held balances total]. *)
Inductive valued {X} `{MarketFeed X} : float → list (string * float) → float → Prop :=
| valued_nil held : valued held [] held
| valued_quote held asset free l total :
    String.eqb asset "USDT" || fle free fzero = true → valued held l total → valued held ((asset, free) :: l) total
| valued_held held asset free l p total :
    String.eqb asset "USDT" || fle free fzero = false → answered (price (asset +:+ "USDT")) (Ok (Some p)) →
    valued (fadd held (fmul free p)) l total → valued held ((asset, free) :: l) total.

(** What an account has at stake: its open orders, and its holdings at the market. *)
Definition exposure_is {X} `{PyEnv, OrderBroker X, MarketFeed X} (d : db) (account_id : string) (e : float) : Prop :=
  ∃ balances held, answered (get_balance account_id) (Ok balances) ∧ valued fzero balances held ∧
    e = fadd (_open_order_notional account_id d) held.

(** The policy allows the notional on top of the exposure, or a reserved override of
    the account and policy version was spent on this very key. *)
Definition caps_or_override {X} `{PyEnv, OrderBroker X, MarketFeed X} (d : db) (overrides : list override_row)
    (account_id idem symbol : string) (notional : float) : Prop :=
  let pol := _policy_row (find_policy (Str.strip account_id) d) in
  (∃ e, exposure_is d account_id e ∧
     enforce_policy_caps (PStr symbol) notional (pol_caps pol) (Some (fadd e notional)) = Ok tt) ∨
  (∃ c v, c ∈ risk_override d ∧ v_state c = Reserved ∧ v ∈ overrides ∧ v_override_id v = v_override_id c ∧
     v_state v = Applied ∧ v_consumed_by_idem v = Some idem ∧ v_account_id v = Str.strip account_id ∧
     v_policy_version v = pol_version pol).

(** The record [o] passed every gate, from the world [w], with [overrides] as they are
    after it.  The account exists.  The exchange lists the symbol, and the reference
    price is the fresh market price.  The validator accepts the recorded side, type, quantity and
    prices against the exchange's filters and that price, at the recorded notional.
    The free balance covers it.  And the caps hold or an override was spent. *)
Record order_gated {X} `{PyEnv, OrderBroker X, MarketFeed X, OrderConfig} (w : world X)
    (overrides : list override_row) (o : order_row) : Prop := {
  gated_account : ∃ row, find_account (o_account_id o) (w_db w) = Some row;
  gated_symbol : answered (symbol_valid (o_symbol o)) (Ok true);
  gated_price : answered (price (o_symbol o)) (Ok (Some (o_reference_price o)));
  gated_valid : ∃ f v, answered (filters (o_symbol o)) (Ok (Some f)) ∧
    validate_execution_order (PStr (o_side o)) (PStr (o_order_type o)) (PFloat (o_quantity o))
      (opt_float_val (o_price o)) (opt_float_val (o_stop_price o)) (opt_float_val (o_stop_limit_price o))
      (Some f) (PFloat (o_reference_price o)) = Ok v ∧
    v_notional v = Some (o_notional o) ∧
    ∃ balances, answered (get_balance (o_account_id o)) (Ok balances) ∧
      _check_available_balance balances (o_side o) (base_asset f) "USDT" (o_quantity o) (o_notional o)
        (fmul (o_notional o) default_fee_rate) = Ok tt;
  gated_caps : caps_or_override (w_db w) overrides (o_account_id o) (o_idempotency_key o) (o_symbol o)
    (o_notional o) }.

Section Place.
Context {X : Type} `{Ext X, PyEnv, SecretStore X, OrderBroker X, MarketFeed X, OrderConfig}.

(** ** The gates only read *)

Lemma idle_modify (f : db → db) : (∀ d, orders (f d) = orders d) → steps idle (db_modify f : M X unit).
Proof. intros Hf w. split; [apply Hf|done]. Qed.

Lemma reading_is_real account : steps reading (_is_real account : M X bool).
Proof. unfold _is_real, get_credentials. walk. Qed.
Lemma reading_market_gate symbol : steps reading (market_gate symbol : M X _).
Proof. unfold market_gate. walk. Qed.
Lemma reading_balance a : steps reading (broker_balance a : M X _).
Proof. unfold broker_balance. walk. Qed.
Lemma reading_get_policy a : steps reading (get_policy a : M X _).
Proof. unfold get_policy. walk. Qed.
Hint Resolve reading_balance : wsteps.
Lemma reading_exposure a q : steps reading (_current_exposure a q : M X _).
Proof. unfold _current_exposure. walk. Qed.
Lemma reading_equity b q : steps reading (_equity_from_balances b q : M X _).
Proof. unfold _equity_from_balances. walk. Qed.
Lemma idle_audit a b c : steps idle (audit a b c : M X unit).
Proof. apply steps_wp. intros w. apply wp_audit. by intros r w' (log & x & ->). Qed.
Hint Resolve idle_audit : wsteps.
Lemma idle_caps a p s n e k : steps idle (_enforce_caps_or_override a p s n e k : M X _).
Proof. unfold _enforce_caps_or_override, consume_override, now_or, _consume. walk; by apply idle_modify. Qed.
(** ** The record, from its insertion to its last write *)

Lemma update_last l o f :
  o_order_id o ∉ map o_order_id l →
  update_where (is_order (o_order_id o)) f (l ++ [o]) = l ++ [f o].
Proof.
  intros Hf. rewrite update_where_app. f_equal.
  - apply update_where_none, Forall_forall. intros y Hy. unfold is_order. apply String.eqb_neq.
    intros Heq. apply Hf. rewrite <- Heq. by apply list_elem_of_fmap_2.
  - unfold update_where. simpl. unfold is_order. by rewrite String.eqb_refl.
Qed.

(** The [UPDATE] of an order, then the audit entry: neither fails. *)
Lemma wp_update_audit i f actor action details (Q : result unit → world X → Prop) (w : world X) :
  (∀ t w', orders (w_db w') = update_where (is_order i) (λ o, with_updated_at t (f o)) (orders (w_db w)) →
     w_trace w' = w_trace w → w_closed w' = w_closed w → Q (Ok tt) w') →
  wp (_update_order i f;; audit actor action details) Q w.
Proof.
  intros HQ. apply wp_bind. unfold _update_order. apply wp_bind, wp_time. intros t x.
  apply wp_db_modify, wp_audit_ok. intros w' (log & x' & ->). by apply (HQ t).
Qed.

Lemma wp_update_audit_ret {A} i f actor action details (a : A) (Q : result A → world X → Prop) (w : world X) :
  (∀ t w', orders (w_db w') = update_where (is_order i) (λ o, with_updated_at t (f o)) (orders (w_db w)) →
     w_trace w' = w_trace w → w_closed w' = w_closed w → Q (Ok a) w') →
  wp (_update_order i f;; audit actor action details;; mret a) Q w.
Proof.
  intros HQ. apply wp_bind. unfold _update_order. apply wp_bind, wp_time. intros t x.
  apply wp_db_modify, wp_bind, wp_audit_ok. intros w' (log & x' & ->). by apply wp_ret, (HQ t).
Qed.

Lemma query_or_none_run (o : order_row) (Q : result (option OrderResult) → world X → Prop) (w : world X) :
  (∀ asked w', answered (asks o) asked → idle w w' →
     Q (match asked with Err (RasatError _) => Ok None | _ => asked end) w') →
  wp (query_or_none (o_account_id o) (o_order_type o) (o_symbol o) (o_client_order_id o)) Q w.
Proof.
  intros HQ. unfold query_or_none, query_state. apply wp_bind, wp_attempt.
  assert (∀ c (m : ST X (option OrderResult)), asks o = m → is_effect c = false →
    wp (call_broker c m) (λ r w', wp (match r with Ok found => mret found | Err (RasatError _) => mret None
      | Err e => throw e end) Q w') w) as Hcall.
  { intros c m Hm Hc. apply wp_call_broker. intros r x Hr. rewrite <- Hm in Hr.
    specialize (HQ r (mk_world (w_db w) (w_closed w) x (w_trace w ++ [(c, w_db w)])) (answered_run _ _ _ _ Hr)
      (wrel_query (R := idle) w x c Hc)).
    destruct r as [found|e]; [by apply wp_ret|]. destruct e; first [by apply wp_ret|by apply wp_throw]. }
  unfold asks in Hcall. destruct (String.eqb (o_order_type o) "OCO"); by apply Hcall.
Qed.

(** What is left of a submission of [o] by the call [c], from the store [d] it was sent
    from: the row, the trace, and how the call ended. *)
Definition outcome_of (l : list order_row) (o : order_row) (c : broker_call) (w w' : world X)
    (r : result exec_result) : Prop :=
  ∃ reply asked o', answered (sends c) reply ∧ (timed_out reply = true → answered (asks o) asked) ∧
    submissions (w_trace w') = submissions (w_trace w) ++ [(c, w_db w)] ∧
    orders (w_db w') = l ++ [o'] ∧ resolved o reply asked r o'.

Section Resolve.
Context (l : list order_row) (o : order_row) (c : broker_call) (w w1 : world X) (reply : result OrderResult).
Context (fresh_id : o_order_id o ∉ map o_order_id l) (inserted : orders (w_db w) = l ++ [o]).
Context (open : w_closed w = false) (replied : answered (sends c) reply).
(** [w1] is the world right after the call. *)
Context (same_db : w_db w1 = w_db w) (same_closed : w_closed w1 = w_closed w).
Context (sent : submissions (w_trace w1) = submissions (w_trace w) ++ [(c, w_db w)]).

(** An exception that escapes leaves the record [NEW]. *)
Lemma escape asked e (w2 : world X) :
  (timed_out reply = true → answered (asks o) asked) → idle w1 w2 → settled o reply asked = None →
  outcome_of l o c w w2 (Err e).
Proof.
  intros Hq (Ho & Ht & _) Hs. exists reply, asked, o. split_and!; [done|done|congruence|congruence|].
  unfold resolved. rewrite Hs. eauto.
Qed.

(** The transaction that settles it. *)
Lemma settle_run {A} asked f (m : M X A) (g : A → exec_result) (w2 : world X) :
  (timed_out reply = true → answered (asks o) asked) → idle w1 w2 → settled o reply asked = Some (f o) →
  (∀ (Q : result A → world X → Prop) w,
     (∀ t a w', orders (w_db w') = update_where (is_order (o_order_id o)) (λ o, with_updated_at t (f o))
           (orders (w_db w)) → w_trace w' = w_trace w → x_order_id (g a) = o_order_id o → Q (Ok a) w') →
     wp m Q w) →
  wp (u ← db_write m; mret (g u)) (λ r w', outcome_of l o c w w' r) w2.
Proof.
  intros Hq (Ho2 & Ht2 & Hc2) Hset Hm. apply wp_bind, wp_db_write; [intros; congruence|intros _].
  apply Hm. intros t a w3 Ho3 Ht3 Hid. apply wp_ret.
  rewrite Ho2, same_db, inserted, update_last in Ho3 by done.
  exists reply, asked, (with_updated_at t (f o)). split_and!; [done|done|congruence|done|].
  unfold resolved. rewrite Hset. eauto.
Qed.

Lemma settle_status asked f action details actor (g : unit → exec_result) (w2 : world X) :
  (timed_out reply = true → answered (asks o) asked) → idle w1 w2 → settled o reply asked = Some (f o) →
  (∀ u, x_order_id (g u) = o_order_id o) →
  wp (u ← db_write (_update_order (o_order_id o) f;; audit actor action details); mret (g u))
    (λ r w', outcome_of l o c w w' r) w2.
Proof.
  intros Hq Hi Hs Hg. apply (settle_run asked f); [done..|]. intros Q w' HQ.
  apply wp_update_audit. intros t w3 ? ? _. by apply (HQ t).
Qed.

Lemma timeout_run account actor : timed_out reply = true → pub_account_id account = o_account_id o →
  wp (_reconcile_after_timeout account o (o_symbol o) (o_client_order_id o) actor)
    (λ r w', outcome_of l o c w w' r) w1.
Proof.
  intros Ht Ha. unfold _reconcile_after_timeout. rewrite Ha. apply wp_bind, query_or_none_run.
  intros asked w2 Hq Hi.
  assert (∀ a, settled o reply asked = a → match asked with
    | Ok (Some found) => a = Some (with_fill found o)
    | Ok None | Err (RasatError _) => a = Some (with_status UNKNOWN (Some ORDER_UNKNOWN) o)
    | Err _ => a = None end) as Hset.
  { intros a <-. unfold settled. destruct reply as [|e]; [done|]. rewrite Ht.
    destruct asked as [[]|e']; [done..|]. by destruct e'. }
  specialize (Hset _ eq_refl). destruct asked as [[found|]|e'];
    [by apply (settle_status (Ok (Some found)))|by apply (settle_status (Ok None))|].
  destruct e'; first [ eapply settle_status; [intros _; exact Hq|done..]
                     | eapply escape; [intros _; exact Hq|done..] ].
Qed.
End Resolve.

(** Everything from the submission on. *)
Lemma resolve_run account (o : order_row) actor quantity c action (fill : OrderResult → M X order_row)
    l (w : world X) :
  pub_account_id account = o_account_id o → is_submission c = true →
  o_order_id o ∉ map o_order_id l → orders (w_db w) = l ++ [o] → w_closed w = false →
  (∀ answer (Q : result order_row → world X → Prop) w,
     (∀ t row w', orders (w_db w') = update_where (is_order (o_order_id o))
           (λ o', with_updated_at t (with_fill answer o')) (orders (w_db w)) →
        w_trace w' = w_trace w → o_order_id row = o_order_id o → Q (Ok row) w') →
     wp (fill answer) Q w) →
  wp (submit_and_record account o (o_symbol o) (o_client_order_id o) actor quantity c (sends c) action fill)
    (λ r w', outcome_of l o c w w' r) w.
Proof.
  intros Ha Hc Hf Ho Hopen Hfill. unfold submit_and_record. apply wp_bind, wp_attempt, wp_call_broker.
  intros reply x Hr%answered_run. set (w1 := mk_world _ _ _ _).
  assert (submissions (w_trace w1) = submissions (w_trace w) ++ [(c, w_db w)]) as Hs
    by (unfold submissions; simpl; rewrite List.filter_app; simpl; by rewrite Hc).
  pose proof (timeout_run l o c w w1 reply Hf Ho Hopen Hr eq_refl eq_refl Hs account actor) as Htime.
  pose proof (settle_status l o c w w1 reply Hf Ho Hopen Hr eq_refl eq_refl Hs (Ok None)) as Hstatus.
  pose proof (escape l o c w w1 reply Ho Hr eq_refl Hs (Ok None)) as Hescape.
  assert (idle w1 w1) as Hid by reflexivity.
  destruct reply as [answer|e].
  - apply (settle_run l o c w w1 (Ok answer) Hf Ho Hopen Hr eq_refl eq_refl Hs (Ok None) (with_fill answer));
      [done|done|done|]. intros Q w' HQ. apply Hfill. intros t row w2 ? ? Hrow. by apply (HQ t row).
  - destruct e as [code| | | | | | | | | | | | |]; try (by apply Hescape); [|by apply Htime].
    destruct code; try (by apply Hstatus); by apply Htime.
Qed.

Lemma fresh_idle o (w w1 : world X) : idle w w1 → fresh_order o w1 → fresh_order o w.
Proof. unfold fresh_order. by intros (-> & _). Qed.

Lemma placed_pre P (w w1 w' : world X) r : idle w w1 → placed P w1 r w' → placed P w r w'.
Proof.
  intros Hi [e -> Hi'|o HP Hf Hst Ho Hs Hr|o c d reply asked o' HP Hf Hst Hd Hod Hs Hr Hq Ho Hres].
  - apply (placed_refused _ _ _ _ e); [done|by etrans].
  - pose proof Hi as (Hw & Hw2 & _).
    apply (placed_paper _ _ _ _ o); [done|by eapply fresh_idle|done|congruence|unfold same_submissions in *; congruence|done].
  - pose proof Hi as (Hw & Hw2 & _).
    apply (placed_sent _ _ _ _ o c d reply asked o'); [done|by eapply fresh_idle|done|done|congruence|congruence|done..| |done].
    congruence.
Qed.

Lemma placed_impl (P P' : order_row → Prop) (w w' : world X) r :
  (∀ o, P o → P' o) → placed P w r w' → placed P' w r w'.
Proof.
  intros HP [e Hr Hi|o Ho|o c d reply asked o' Ho].
  - by apply (placed_refused _ _ _ _ e).
  - apply (placed_paper _ _ _ _ o); auto.
  - apply (placed_sent _ _ _ _ o c d reply asked o'); auto.
Qed.

(** A simulated order, or a [NEW] record and then its submission. *)
Lemma placed_tail P n (is_real : bool) action (details : order_row → list (string * pyval))
    (ret : order_row → exec_result) account actor quantity c failed
    (fill : order_row → OrderResult → M X order_row) (w : world X) :
  (∀ i st t, P (order_of n i st t)) → (∀ o, x_order_id (ret o) = o_order_id o) →
  pub_account_id account = n_account_id n → is_submission c = true →
  (∀ i t, describes c (order_of n i NEW t)) →
  (∀ o answer (Q : result order_row → world X → Prop) w,
     (∀ t row w', orders (w_db w') = update_where (is_order (o_order_id o))
           (λ o', with_updated_at t (with_fill answer o')) (orders (w_db w)) →
        w_trace w' = w_trace w → o_order_id row = o_order_id o → Q (Ok row) w') →
     wp (fill o answer) Q w) →
  wp (if negb is_real then
        order ← db_write (order ← _insert_order n PAPER; audit actor action (details order);; mret order);
        mret (ret order)
      else
        order ← db_write (_insert_order n NEW);
        submit_and_record account order (n_symbol n) (n_client_order_id n) actor quantity c (sends c) failed (fill order))
    (placed P w) w.
Proof.
  intros HP Hret Ha Hc Hd Hfill.
  assert (∀ e x, placed P w (Err e) (mk_world (w_db w) (w_closed w) x (w_trace w))) as Href
    by (intros e x; apply (placed_refused _ _ _ _ e); done).
  destruct is_real; cbn [negb]; apply wp_bind, wp_db_write;
    [intros _; destruct w; apply Href|intros Hopen|intros _; destruct w; apply Href|intros Hopen].
  - apply wp_insert; [intros x; apply Href|]. intros i t x o Hf. set (w1 := mk_world _ _ _ _).
    eapply wp_mono; [apply (resolve_run account o actor quantity c failed (fill o) (orders (w_db w)) w1);
      [done|done|apply Hf|done|done|apply Hfill]|].
    intros r w' (reply & asked & o' & Hr & Hq & Hs & Ho & Hres).
    apply (placed_sent _ _ _ _ o c (w_db w1) reply asked o'); [apply HP|exact Hf|reflexivity|apply Hd|reflexivity|done..].
  - apply wp_bind, wp_insert; [intros x; apply Href|]. intros i t x o Hf.
    apply wp_bind, wp_audit_ok. intros w' (log & x' & ->). apply wp_ret, wp_ret.
    apply (placed_paper _ _ _ _ o); [apply HP|exact Hf|reflexivity..|]. eauto.
Qed.

Lemma place_and_record_run P account is_real symbol side ot q p nt rp idem eq actor sp (w : world X) :
  let n := mk_new (pub_account_id account) idem symbol side ot q p sp None nt rp eq
             (to_client_order_id sha1_hexdigest idem) in
  (∀ i st t, P (order_of n i st t)) →
  wp (_place_and_record account is_real symbol side ot q p nt rp idem eq actor sp) (placed P w) w.
Proof.
  intros n HP. unfold _place_and_record. apply wp_lift_bind; [intros e _; by apply (placed_refused _ _ _ _ e)|intros _ _].
  cbv zeta. fold n.
  apply (placed_tail P n is_real "place_order_paper" (λ o, _) (λ o, _) account actor q
    (CPlaceOrder (mk_place (pub_account_id account) symbol side ot q p (to_client_order_id sha1_hexdigest idem) sp)));
    [done..|]. intros o answer Q w' HQ. apply wp_update_audit_ret. intros t w2 ? ? _. by apply (HQ t).
Qed.

(** ** The gates, run *)

Lemma wp_reading_bind {A B} (m : M X A) (f : A → M X B) (Q : result B → world X → Prop) (P : result A → Prop)
    (w0 w : world X) :
  reading w0 w → wp m (λ r w', reading w w' ∧ P r) w →
  (∀ e w1, reading w0 w1 → Q (Err e) w1) →
  (∀ a w1, reading w0 w1 → P (Ok a) → wp (f a) Q w1) → wp (m ≫= f) Q w.
Proof.
  intros Hw Hm He Hf. apply wp_bind. eapply wp_mono; [exact Hm|]. intros [a|e] w1 [Hr HP].
  - apply Hf; [by etrans|done].
  - apply He. by etrans.
Qed.

Lemma reading_run {A} (m : M X A) (w : world X) : steps reading m → wp m (λ _ w', reading w w' ∧ True) w.
Proof. intros Hm. split; [apply Hm|done]. Qed.

Lemma balance_run a (w : world X) :
  wp (broker_balance a) (λ r w', reading w w' ∧ answered (get_balance a) r) w.
Proof.
  split; [apply reading_balance|]. unfold broker_balance, call_broker.
  destruct (get_balance a (w_ext w)) eqn:E. simpl. by eapply answered_run.
Qed.

Lemma market_gate_run symbol (w : world X) :
  wp (market_gate symbol) (λ r w', reading w w' ∧ ∀ m f, r = Ok (m, f) →
    answered (symbol_valid symbol) (Ok true) ∧ answered (price symbol) (Ok (Some m)) ∧
    answered (filters symbol) (Ok (Some f))) w.
Proof.
  split; [apply reading_market_gate|].
  change (wp (market_gate symbol) (λ r _, ∀ m f, r = Ok (m, f) →
    answered (symbol_valid symbol) (Ok true) ∧ answered (price symbol) (Ok (Some m)) ∧
    answered (filters symbol) (Ok (Some f))) w).
  unfold market_gate. repeat wp1; intros; simplify_eq/=; try done.
  match goal with b : bool |- _ => destruct b; [|done] end.
  split_and!; by eapply answered_run.
Qed.

Lemma get_policy_run a (w : world X) :
  wp (get_policy (PStr a)) (λ r w', reading w w' ∧
    ∀ p, r = Ok p → p = _policy_row (find_policy (Str.strip a) (w_db w))) w.
Proof.
  split; [apply reading_get_policy|].
  change (wp (get_policy (PStr a)) (λ r _, ∀ p, r = Ok p → p = _policy_row (find_policy (Str.strip a) (w_db w))) w).
  unfold get_policy. apply wp_lift_bind; [done|]. intros aid ->%require_string_inv.
  repeat wp1; intros; simplify_eq/=; done.
Qed.

Lemma valued_run balances held (w : world X) :
  wp (foldM (λ held '(asset, free),
    if String.eqb asset "USDT" || fle free fzero then mret held
    else p ← on_ext (price (asset +:+ "USDT"));
      match p with None => raise_ STALE_DATA | Some p => mret (fadd held (fmul free p)) end) held balances)
    (λ r _, ∀ total, r = Ok total → valued held balances total) w.
Proof.
  revert held w. induction balances as [|[asset free] l IH]; intros held w; cbn [foldM].
  - apply wp_ret. intros total [= <-]. constructor.
  - apply wp_bind. destruct (_ || _) eqn:Eq.
    + apply wp_ret. eapply wp_mono; [apply IH|]. intros r ? Hr total Ht. by apply valued_quote, Hr.
    + apply wp_bind, wp_on_ext. intros [[p|]|e] x Hp; [|by apply wp_raise|done].
      apply wp_ret. eapply wp_mono; [apply IH|]. intros r ? Hr total Ht.
      eapply valued_held; [done|by eapply answered_run|by apply Hr].
Qed.

Lemma exposure_run a (w : world X) :
  wp (_current_exposure a "USDT") (λ r w', reading w w' ∧ ∀ e, r = Ok e → exposure_is (w_db w) a e) w.
Proof.
  split; [apply reading_exposure|].
  change (wp (_current_exposure a "USDT") (λ r _, ∀ e, r = Ok e → exposure_is (w_db w) a e) w).
  unfold _current_exposure. apply wp_bind, wp_db_read, wp_bind. eapply wp_mono; [apply balance_run|].
  intros [balances|e] w1 [_ Hb]; [|done]. apply wp_bind.
  eapply wp_mono; [apply valued_run|]. intros [held|e] w2 Hv; [|done]. apply wp_ret. intros e [= <-].
  exists balances, held. auto.
Qed.

Lemma consume_run account version idem (w : world X) :
  ids_unique (w_db w) →
  wp (consume_override (PStr account) version (PStr idem) None) (λ r w', ∀ v, r = Ok (Some v) →
    ∃ c, c ∈ risk_override (w_db w) ∧ v_state c = Reserved ∧ v ∈ risk_override (w_db w') ∧
      v_override_id v = v_override_id c ∧ v_state v = Applied ∧ v_consumed_by_idem v = Some idem ∧
      v_account_id v = Str.strip account ∧ v_policy_version v = version) w.
Proof.
  intros Hu. unfold consume_override. apply wp_lift_bind; [done|]. intros aid ->%require_string_inv.
  apply wp_lift_bind; [done|intros _ _]. apply wp_bind. unfold now_or. apply wp_time. intros t x.
  apply wp_db_write; [done|]. intros _. eapply wp_mono; [by apply wp_consume|].
  intros [[v|]|e] w'; [|done..]. intros (c & Hf & -> & _ & Hin) ? [= <-].
  destruct (find_consumable_Some _ _ _ _ _ Hf) as [Hc Hb]. exists c.
  apply andb_true_iff in Hb as [[[Ha%String.eqb_eq Hr]%andb_true_iff Hv%Z.eqb_eq]%andb_true_iff _].
  split_and!; try done. by apply bool_decide_eq_true_1 in Hr.
Qed.

Lemma caps_run account symbol notional e idem (w : world X) :
  exposure_is (w_db w) (pub_account_id account) e →
  let pol := _policy_row (find_policy (Str.strip (pub_account_id account)) (w_db w)) in
  wp (_enforce_caps_or_override account pol symbol notional (fadd e notional) idem) (λ r w',
    idle w w' ∧ (r = Ok tt → ids_unique (w_db w) →
      caps_or_override (w_db w) (risk_override (w_db w')) (pub_account_id account) idem symbol notional)) w.
Proof.
  intros He pol. split; [apply idle_caps|].
  change (wp (_enforce_caps_or_override account pol symbol notional (fadd e notional) idem) (λ r w',
    r = Ok tt → ids_unique (w_db w) →
      caps_or_override (w_db w) (risk_override (w_db w')) (pub_account_id account) idem symbol notional) w).
  assert (∀ P : world X → Prop, (ids_unique (w_db w) → wp (_enforce_caps_or_override account pol symbol notional
    (fadd e notional) idem) (λ r w', r = Ok tt → P w') w) → wp (_enforce_caps_or_override account pol symbol notional
    (fadd e notional) idem) (λ r w', r = Ok tt → ids_unique (w_db w) → P w') w) as Hswap.
  { intros P HP. unfold wp in *. intros Hr Hu. by apply HP. }
  apply Hswap. intros Hu. unfold _enforce_caps_or_override.
  destruct (enforce_policy_caps _ _ _ _) as [[]|exc] eqn:E; [apply wp_ret; left; by exists e|].
  assert (∀ exc : pyexn, wp (override ← consume_override (PStr (pub_account_id account)) (pol_version pol)
      (PStr idem) None; match override with None => throw exc | Some _ => mret tt end)
    (λ r w', r = Ok tt → caps_or_override (w_db w) (risk_override (w_db w')) (pub_account_id account) idem symbol
       notional) w) as Ho.
  { intros exc'. apply wp_bind. eapply wp_mono; [by apply consume_run|]. intros [[v|]|e'] w' Hv;
      [apply wp_ret|by apply wp_throw|done]. intros _. right. destruct (Hv v eq_refl) as (c & Hc). by exists c, v. }
  destruct_exn exc; try apply Ho; by apply wp_throw.
Qed.

(** The part [place_order] and [place_oco_order] share, from the account's row on:
    [V] validates, [K] records and submits. *)
Lemma gates account symbol (V : float → SymbolFilters → result validated) (quantity : validated → float) idem
    (K : bool → float → validated → float → float → M X exec_result)
    (Q : result exec_result → world X → Prop) (w : world X) :
  (∀ e w1, idle w w1 → Q (Err e) w1) →
  (∀ is_real m f v nt balances equity w7, idle w w7 →
     answered (symbol_valid symbol) (Ok true) → answered (price symbol) (Ok (Some m)) →
     answered (filters symbol) (Ok (Some f)) → V m f = Ok v → v_notional v = Some nt →
     answered (get_balance (pub_account_id account)) (Ok balances) →
     _check_available_balance balances (v_side v) (base_asset f) "USDT" (quantity v) nt
       (fmul nt default_fee_rate) = Ok tt →
     (ids_unique (w_db w) →
      caps_or_override (w_db w) (risk_override (w_db w7)) (pub_account_id account) idem symbol nt) →
     wp (K is_real m v nt equity) Q w7) →
  wp (is_real ← _is_real account;
      '(market_price, filters) ← market_gate symbol;
      v ← lift (V market_price filters);
      notional ← lift (notional_of v);
      balances ← broker_balance (pub_account_id account);
      lift (_check_available_balance balances (v_side v) (base_asset filters) "USDT" (quantity v)
              notional (fmul notional default_fee_rate));;
      policy ← get_policy (PStr (pub_account_id account));
      exposure ← _current_exposure (pub_account_id account) "USDT";
      _enforce_caps_or_override account policy symbol notional (fadd exposure notional) idem;;
      equity ← _equity_from_balances balances "USDT";
      K is_real market_price v notional equity) Q w.
Proof.
  intros Herr HK.
  assert (∀ e w1, reading w w1 → Q (Err e) w1) as Hr by (intros e w1 [_ Hi]; by apply Herr).
  eapply (wp_reading_bind _ _ _ _ w); [reflexivity|by apply reading_run, reading_is_real|done|]. intros is_real w1 R1 _.
  eapply (wp_reading_bind _ _ _ _ w); [done|apply market_gate_run|done|]. intros [m f] w2 R2 Hm.
  destruct (Hm m f eq_refl) as (Hsym & Hprice & Hf).
  apply wp_lift_bind; [by intros; apply Hr|intros v Hv]. apply wp_lift_bind; [by intros; apply Hr|intros nt Hnt].
  eapply (wp_reading_bind _ _ _ _ w); [done|apply balance_run|done|]. intros balances w3 R3 Hb.
  apply wp_lift_bind; [by intros; apply Hr|intros [] Hcheck].
  eapply (wp_reading_bind _ _ _ _ w); [done|apply get_policy_run|done|]. intros pol w4 R4 Hpol.
  rewrite (Hpol pol eq_refl).
  eapply (wp_reading_bind _ _ _ _ w); [done|apply exposure_run|done|]. intros exposure w5 R5 He.
  specialize (He exposure eq_refl). destruct R3 as [D3 _], R4 as [D4 _]. rewrite D3. rewrite D4 in He.
  pose proof R5 as [D5 I5]. rewrite <- D5. apply wp_bind.
  eapply wp_mono; [apply caps_run; by rewrite D5|]. intros [[]|e] w6 [I6 Hcaps]; [|apply Herr; by etrans].
  rewrite D5 in Hcaps. assert (idle w w6) as I6' by by etrans.
  eapply (wp_reading_bind _ _ _ _ w6); [reflexivity|apply reading_run, reading_equity| |].
  { intros e w7 [_ I7]. apply Herr. by etrans. }
  intros equity w7 [D7 I7] _. eapply HK; [by etrans|exact Hsym|exact Hprice|exact Hf|exact Hv| |exact Hb|exact Hcheck|].
  - unfold notional_of in Hnt. destruct (v_notional v); [by injection Hnt as ->|done].
  - intros Hu. rewrite D7. by apply Hcaps.
Qed.

(** ** A validated order validates as it is recorded *)

Lemma normalize_side_stable v s : normalize_side v = Ok s → normalize_side (PStr s) = Ok s.
Proof. intros [-> | ->]%normalize_side_Ok; reflexivity. Qed.
Lemma normalize_type_stable v s : normalize_order_type v = Ok s → normalize_order_type (PStr s) = Ok s.
Proof. intros Hs%normalize_order_type_Ok. unfold ORDER_TYPES in Hs. set_unfold in Hs. naive_solver. Qed.
Lemma require_positive_stable v q : require_positive v = Ok q → require_positive (PFloat q) = Ok q.
Proof.
  intros [Hf Hp]%require_positive_Ok. unfold require_positive, require_finite. simpl. rewrite Hf. simpl.
  by rewrite flt_not_fle.
Qed.
Lemma optional_stable v o : _require_positive_optional v = Ok o → _require_positive_optional (opt_float_val o) = Ok o.
Proof.
  intros Hv. destruct o as [x|]; [|done].
  assert (require_positive v = Ok x) as Hx%require_positive_stable
    by (destruct v; simpl in Hv; try done; peel Hv; by injection Hv as ->).
  unfold _require_positive_optional, opt_float_val. by rewrite Hx.
Qed.

Lemma validate_stable si ot q p sp lp f m v :
  validate_execution_order si ot q p sp lp (Some f) (PFloat m) = Ok v →
  validate_execution_order (PStr (v_side v)) (PStr (v_order_type v)) (PFloat (v_quantity v))
    (opt_float_val (v_price v)) (opt_float_val (v_stop_price v)) (opt_float_val (v_stop_limit_price v))
    (Some f) (PFloat m) = Ok v.
Proof.
  unfold validate_execution_order. intros Hv. peel Hv. injection Hv as <-. cbn [v_side v_order_type v_quantity
    v_price v_stop_price v_stop_limit_price].
  rewrite (normalize_side_stable _ _ Hx), (normalize_type_stable _ _ Hx0), (require_positive_stable _ _ Hx1),
    (optional_stable _ _ Hx2), (optional_stable _ _ Hx3), (optional_stable _ _ Hx4), Hx5. simpl.
  by rewrite Hx6, Hx7.
Qed.

Lemma positive_float_required q x : require_positive (PFloat q) = Ok x → x = q.
Proof.
  unfold require_positive, require_finite. simpl. destruct (isfinite q); simpl; [|done].
  destruct (fle q fzero); [done|]. by intros [= ->].
Qed.
Lemma optional_float q o : _require_positive_optional (PFloat q) = Ok o → o = Some q.
Proof. unfold _require_positive_optional. intros Ho. peel Ho. apply positive_float_required in Hx as ->. by injection Ho. Qed.

Lemma validated_fields si ot q p sp lp f m v :
  validate_execution_order si ot (PFloat q) p sp lp (Some f) m = Ok v →
  v_quantity v = q ∧ _require_positive_optional lp = Ok (v_stop_limit_price v) ∧
  _require_positive_optional p = Ok (v_price v) ∧ _require_positive_optional sp = Ok (v_stop_price v) ∧
  (ot = PStr "OCO" → v_order_type v = "OCO").
Proof.
  unfold validate_execution_order. intros Hv. peel Hv. injection Hv as <-. simpl. split_and!; try done.
  - by apply positive_float_required.
  - intros ->. by injection Hx0 as <-.
Qed.

(** The row of a validated order has passed the gates. *)
Lemma gated_row (w : world X) overrides n v f balances si ot p sp lp i st t :
  (∃ row, find_account (n_account_id n) (w_db w) = Some row) →
  answered (symbol_valid (n_symbol n)) (Ok true) → answered (price (n_symbol n)) (Ok (Some (n_reference_price n))) →
  answered (filters (n_symbol n)) (Ok (Some f)) →
  validate_execution_order si ot (PFloat (n_quantity n)) p sp lp (Some f) (PFloat (n_reference_price n)) = Ok v →
  n_side n = v_side v → n_order_type n = v_order_type v → n_price n = v_price v → n_stop_price n = v_stop_price v →
  n_stop_limit_price n = v_stop_limit_price v → v_notional v = Some (n_notional n) →
  answered (get_balance (n_account_id n)) (Ok balances) →
  _check_available_balance balances (v_side v) (base_asset f) "USDT" (n_quantity n) (n_notional n)
    (fmul (n_notional n) default_fee_rate) = Ok tt →
  caps_or_override (w_db w) overrides (n_account_id n) (n_idempotency_key n) (n_symbol n) (n_notional n) →
  order_gated w overrides (order_of n i st t).
Proof.
  intros Ha Hs Hp Hf Hv E1 E2 E3 E4 E5 Hn Hb Hc Hcaps. split; simpl; [done|done|done| |done].
  exists f, v. split; [done|]. rewrite E1, E2, E3, E4, E5.
  destruct (validated_fields _ _ _ _ _ _ _ _ _ Hv) as [Hq _]. split_and!; [|done|by exists balances].
  rewrite <- Hq at 1. by eapply validate_stable.
Qed.

(** ** The single order calls *)

(** The overrides do not change after the caps. *)
Definition same_overrides : relation db := λ d d', risk_override d' = risk_override d.
#[local] Instance same_overrides_preorder : PreOrder same_overrides.
Proof. split; [by intros d|]. intros ??? ??. unfold same_overrides in *. congruence. Qed.
#[local] Instance same_overrides_frame : OrderFrame (on_db (X:=X) same_overrides).
Proof. by split. Qed.

Lemma insert_overrides n st : steps (on_db same_overrides) (_insert_order n st : M X _).
Proof. unfold _insert_order. walk. by apply db_steps_modify. Qed.
Hint Resolve insert_overrides : wsteps.
Lemma submit_overrides account o s cid actor q c m failed (fill : OrderResult → M X order_row) :
  (∀ r, steps (on_db same_overrides) (fill r)) →
  steps (on_db same_overrides) (submit_and_record account o s cid actor q c m failed fill).
Proof. intros Hfill. unfold submit_and_record. walk. Qed.

Lemma wp_and_steps {A} R (m : M X A) (Q : result A → world X → Prop) (w : world X) :
  steps R m → wp m Q w → wp m (λ r w', R w w' ∧ Q r w') w.
Proof. intros Hm HQ. split; [apply Hm|exact HQ]. Qed.

Lemma retried_run account existing (w : world X) :
  o_account_id existing = pub_account_id account →
  wp (_handle_existing account existing) (λ r w', retried existing w r w' ∨ ∃ e, r = Err e ∧ idle w w') w.
Proof.
  intros Ha. unfold _handle_existing.
  destruct (negb _) eqn:Es; [apply wp_ret; left; by apply retried_as_recorded|].
  destruct (decide _); [apply wp_ret; left; by apply retried_as_recorded|].
  rewrite <- Ha. apply wp_bind, query_or_none_run. intros asked w1 Hq Hi.
  destruct asked as [[found|]|e].
  - apply wp_bind, wp_db_write; [intros _; right; eauto|intros _]. apply wp_update_audit.
    intros t w2 Ho Ht Hc. apply wp_ret. left. destruct Hi as (Ho1 & Hs1 & _). rewrite Ho1 in Ho.
    apply (retried_found _ _ _ _ found t); [by apply negb_false_iff in Es|done|done| |done].
    unfold same_submissions. congruence.
  - apply wp_ret. left. by apply retried_as_recorded.
  - destruct e; first [apply wp_ret; left; by apply retried_as_recorded|right; eauto].
Qed.

(** What a call for one account and key comes to. *)
Definition made (a k : string) (P : order_row → Prop) (w : world X) (r : result exec_result) (w' : world X) : Prop :=
  (∃ o, _load_order a k (w_db w) = Some o ∧ retried o w r w') ∨
  placed (λ o, (o_account_id o = a ∧ o_idempotency_key o = k) ∧ P o ∧
    (ids_unique (w_db w) → order_gated w (risk_override (w_db w')) o)) w r w'.

Lemma made_refused a k P (w w' : world X) e : idle w w' → made a k P w (Err e) w'.
Proof. intros Hi. right. by apply (placed_refused _ _ _ _ e). Qed.

(** The account's row, and the retry of a known key, before a new order. *)
Lemma made_start a k P (m : public_account → M X exec_result) (w : world X) :
  (∀ row, find_account a (w_db w) = Some row → a_account_id row = a →
     wp (m (_public_account row)) (made a k P w) w) →
  wp (account ← get_account a;
      existing ← db_read (_load_order a k);
      match existing with
      | Some existing => _handle_existing account existing
      | None => m account
      end) (made a k P w) w.
Proof.
  intros Hm. apply wp_bind, wp_get_account; [intros _; by apply made_refused|intros row Hrow].
  destruct (find_account_Some _ _ _ Hrow) as [_ Hid].
  apply wp_bind, wp_db_read. destruct (_load_order a k (w_db w)) as [existing|] eqn:Ex; [|by apply Hm].
  eapply wp_mono; [apply retried_run|].
  - apply find_Some_elem in Ex as [_ [Hex%String.eqb_eq _]%andb_true_iff]. simpl. congruence.
  - intros r w' [Hr|(e & -> & Hi)]; [left; eauto|by apply made_refused].
Qed.

(** From the gates and the record made of [n] to the whole. *)
Lemma made_placed a k P n (m : M X exec_result) (w w7 : world X) :
  idle w w7 → n_account_id n = a → n_idempotency_key n = k → (∀ i st t, P (order_of n i st t)) →
  (∀ i st t, ids_unique (w_db w) → order_gated w (risk_override (w_db w7)) (order_of n i st t)) →
  steps (on_db same_overrides) m →
  (∀ P : order_row → Prop, (∀ i st t, P (order_of n i st t)) → wp m (placed P w7) w7) →
  wp m (made a k P w) w7.
Proof.
  intros Hi Ha Hk HP Hg Hm Hp.
  assert (wp m (placed (λ o, (o_account_id o = a ∧ o_idempotency_key o = k) ∧ P o ∧
    (ids_unique (w_db w) → order_gated w (risk_override (w_db w7)) o)) w7) w7) as Hrun.
  { apply Hp. intros i st t. split; [done|]. split; [apply HP|apply Hg]. }
  eapply wp_mono; [exact (wp_and_steps _ m _ w7 Hm Hrun)|].
  intros r w' [Hov Hpl]. right. unfold on_db, same_overrides in Hov. rewrite Hov. by eapply placed_pre.
Qed.

Lemma direct_made account_id symbol side ot quantity p idem actor sp (w : world X) :
  wp (_execute_one_direct account_id symbol side ot quantity p idem actor sp)
    (made account_id idem (λ o, o_symbol o = symbol ∧ o_quantity o = quantity) w) w.
Proof.
  unfold _execute_one_direct. apply made_start. intros row Hrow Hid. rewrite <- Hid in *.
  change (a_account_id row) with (pub_account_id (_public_account row)).
  apply (gates (_public_account row) symbol (λ m f, validate_execution_order _ _ _ _ _ _ (Some f) (PFloat m))
    v_quantity idem (λ is_real m v nt equity, _place_and_record _ _ _ _ _ _ _ _ _ _ _ _ _));
    [intros e w1 Hi; by apply made_refused|].
  intros is_real m f v nt balances equity w7 Hi Hsym Hpr Hf Hv Hnt Hb Hc Hcaps.
  destruct (validated_fields _ _ _ _ _ _ _ _ _ Hv) as (Hq & Hl & _). injection Hl as Hl. rewrite Hq in *.
  set (n := mk_new (pub_account_id (_public_account row)) idem symbol (v_side v) (v_order_type v) quantity (v_price v)
    (v_stop_price v) None nt m equity (to_client_order_id sha1_hexdigest idem)).
  apply (made_placed _ _ _ n); [done|done|done|done| | |].
  - intros i st t Hu. by eapply (gated_row w _ n v f balances); eauto.
  - unfold _place_and_record. walk; apply submit_overrides; intros r; walk.
  - intros P HP. by apply place_and_record_run.
Qed.

Lemma oco_made account_id symbol side quantity p sp lp idem actor (w : world X) :
  wp (_execute_oco_direct account_id symbol side quantity p sp lp idem actor)
    (made account_id idem (λ o, o_symbol o = symbol ∧ o_quantity o = quantity ∧ o_order_type o = "OCO" ∧
       o_price o = Some p ∧ o_stop_price o = Some sp ∧ o_stop_limit_price o = Some lp) w) w.
Proof.
  unfold _execute_oco_direct. apply made_start. intros row Hrow Hid. rewrite <- Hid in *.
  change (a_account_id row) with (pub_account_id (_public_account row)).
  refine (gates (_public_account row) symbol (λ m f, validate_execution_order _ _ _ _ _ _ (Some f) (PFloat m))
    (λ _, quantity) idem (λ is_real m v nt equity, _) _ w _ _); [intros e w1 Hi; by apply made_refused|].
  intros is_real m f v nt balances equity w7 Hi Hsym Hpr Hf Hv Hnt Hb Hc Hcaps. cbv beta zeta.
  destruct (validated_fields _ _ _ _ _ _ _ _ _ Hv) as (_ & Hl%optional_float & Hp%optional_float & Hs%optional_float & Ho). specialize (Ho eq_refl).
  set (n := mk_new (pub_account_id (_public_account row)) idem symbol (v_side v) "OCO" quantity (Some p)
    (Some sp) (Some lp) nt m equity (to_client_order_id sha1_hexdigest idem)).
  apply (made_placed _ _ _ n); [done|done|done|done| | |].
  - intros i st t Hu. by eapply (gated_row w _ n v f balances); eauto.
  - walk; apply submit_overrides; intros r; walk.
  - intros P HP. apply (placed_tail P n is_real "place_oco_paper" (λ o, _) (λ o, _) (_public_account row) actor quantity
      (CPlaceOco (mk_oco (pub_account_id (_public_account row)) symbol (v_side v) quantity p sp lp
        (to_client_order_id sha1_hexdigest idem)))); [done..|].
    intros o answer Q w' HQ. apply wp_update_audit_ret. intros t w2 ? ? _. by apply (HQ t).
Qed.
End Place.

(** ** Paper accounts *)

Definition call_account (c : broker_call) : string :=
  match c with
  | CPlaceOrder a => pa_account_id a
  | CPlaceOco a => oa_account_id a
  | CQueryOrder i _ _ | CQueryOco i _ | CCancelOrder i _ _ | CCancelOco i _ _ | CGetOpenOrders i
  | CCancelAll i _ | CGetBalance i | CGetBalanceDetail i => i
  end.

(** An account of the table [T] whose trading lock is [real]. *)
Definition real_in (T : list account_row) (i : string) : Prop :=
  ∃ row, row ∈ T ∧ a_account_id row = i ∧ a_trading_lock row = Real.

(** The account table stays [T], and whatever was submitted or cancelled at the exchange
    was for a real account of it. *)
Definition only_real {X} (T : list account_row) : relation (world X) := λ w w',
  accounts (w_db w) = T → accounts (w_db w') = T ∧
  ∃ sent, effects (w_trace w') = effects (w_trace w) ++ sent ∧ Forall (λ cd, real_in T (call_account cd.1)) sent.

#[export] Instance only_real_preorder {X} T : PreOrder (only_real (X:=X) T).
Proof.
  split.
  - intros w HT. split; [done|]. exists []. by rewrite app_nil_r.
  - intros w1 w2 w3 H12 H23 HT. destruct (H12 HT) as (HT2 & l1 & E1 & F1). destruct (H23 HT2) as (HT3 & l2 & E2 & F2).
    split; [done|]. exists (l1 ++ l2). split; [by rewrite E2, E1, app_assoc|by apply Forall_app].
Qed.

Lemma only_real_effects {X} T (w w' : world X) :
  (accounts (w_db w) = T → accounts (w_db w') = T) → same_effects w w' → only_real T w w'.
Proof. intros Ha He HT. split; [auto|]. exists []. by rewrite He, app_nil_r. Qed.

#[export] Instance only_real_wrel {X} T : WRel (only_real (X:=X) T).
Proof.
  split; [apply _|..].
  - intros w x. by apply only_real_effects.
  - intros w x c Hc. apply only_real_effects; [done|]. exact (wrel_query (R := same_effects) w x c Hc).
  - intros w w' Hr HT. destruct (Hr HT) as [_ ?]. by split.
Qed.

#[export] Instance only_real_frame {X} T : OrderFrame (only_real (X:=X) T).
Proof. split; intros; by apply only_real_effects. Qed.

Section Paper.
Context {X : Type} `{Ext X, PyEnv, SecretStore X, OrderBroker X, MarketFeed X, OrderConfig}.
Context (T : list account_row).

(** The account a call works on comes from the table. *)
Definition known (account : public_account) : Prop := ∃ row, row ∈ T ∧ account = _public_account row.

Lemma real_known account : known account → pub_trading_lock account = Real → real_in T (pub_account_id account).
Proof. intros (row & Hin & ->) Hr. by exists row. Qed.

Lemma only_real_modify (f : db → db) : (∀ d, accounts (f d) = accounts d) →
  steps (only_real T) (db_modify f : M X unit).
Proof. intros Hf w. apply only_real_effects; [|done]. simpl. by rewrite Hf. Qed.

Lemma only_real_call {A} c (m : ST X A) : real_in T (call_account c) → steps (only_real T) (call_broker c m : M X A).
Proof.
  intros Hc w HT. unfold call_broker. destruct (m (w_ext w)) as [r x]. split; [done|].
  unfold effects. simpl. rewrite List.filter_app. simpl. destruct (is_effect c); [eauto|].
  exists []. split; [done|constructor].
Qed.

(** Reading an account of the table; whether it trades for real. *)
Lemma steps_reader {A B} (P : A → Prop) (m : M X A) (f : A → M X B) :
  steps (only_real T) m → (∀ w a, accounts (w_db w) = T → (m w).1 = Ok a → P a) →
  (∀ a, P a → steps (only_real T) (f a)) → steps (only_real T) (m ≫= f).
Proof.
  intros Hm HP Hf w HT. pose proof (Hm w) as Hm1. pose proof (HP w) as HP1. unfold mbind, ST_bind.
  destruct (m w) as [[a|e] w1] eqn:E; simpl in *; [|by apply Hm1].
  assert (only_real T w (f a w1).2) as Ht by (etrans; [exact Hm1|by apply Hf, HP1]). by apply Ht.
Qed.

Lemma only_real_get_account a : steps (only_real (X:=X) T) (get_account a).
Proof. unfold get_account. walk. Qed.
Lemma get_account_known a w account : accounts (w_db w) = T → (get_account (X:=X) a w).1 = Ok account →
  known account ∧ a = pub_account_id account.
Proof.
  intros HT. unfold get_account, db_read, gets, mbind, ST_bind. simpl.
  destruct (find_account a (w_db w)) as [row|] eqn:E; [|done]. intros [= <-].
  apply find_account_Some in E as [Hin Hid]. split; [|done]. exists row. by rewrite <- HT.
Qed.
Lemma only_real_is_real account : steps (only_real (X:=X) T) (_is_real account).
Proof. apply (frame_is_real (only_real T)). Qed.
Lemma is_real_lock account w : (_is_real (X:=X) account w).1 = Ok true → pub_trading_lock account = Real.
Proof. unfold _is_real. by destruct (decide _). Qed.

Lemma elem_of_insert_account x y l : x ∈ insert_account_by y l → x = y ∨ x ∈ l.
Proof. induction l as [|z l IH]; simpl; [set_solver|]. case_match; set_solver. Qed.
Lemma elem_of_sorted_accounts x l : x ∈ foldr insert_account_by [] l → x ∈ l.
Proof. induction l as [|y l IH]; simpl; [done|]. intros [->|Hin]%elem_of_insert_account; [by left|right; auto]. Qed.
Lemma list_accounts_known w l : accounts (w_db w) = T → (list_accounts (X:=X) w).1 = Ok l → Forall known l.
Proof.
  intros HT. unfold list_accounts, db_read, gets. simpl. intros [= <-]. rewrite HT.
  apply Forall_forall. intros account (row & -> & Hin)%list_elem_of_fmap. exists row.
  split; [by apply elem_of_sorted_accounts|done].
Qed.

(** One order. *)
Hint Resolve only_real_get_account only_real_is_real : wsteps.
Lemma only_real_insert n st : steps (only_real T) (_insert_order n st : M X _).
Proof. unfold _insert_order. walk. by apply only_real_modify. Qed.
Hint Resolve only_real_insert : wsteps.
Lemma only_real_caps a p s n e k : steps (only_real T) (_enforce_caps_or_override a p s n e k : M X _).
Proof.
  unfold _enforce_caps_or_override, consume_override, now_or, _consume. walk; by apply only_real_modify.
Qed.
Hint Resolve only_real_caps : wsteps.

Lemma only_real_submit account o s cid actor q c m failed (fill : OrderResult → M X order_row) :
  real_in T (call_account c) → (∀ r, steps (only_real T) (fill r)) →
  steps (only_real T) (submit_and_record account o s cid actor q c m failed fill).
Proof.
  intros Hc Hfill. unfold submit_and_record. apply steps_bind; [tc_solve|by apply steps_attempt, only_real_call|].
  intros r. walk.
Qed.

Lemma only_real_place account is_real symbol side ot q p n rp idem eq actor sp :
  (is_real = true → real_in T (pub_account_id account)) →
  steps (only_real T) (_place_and_record account is_real symbol side ot q p n rp idem eq actor sp : M X _).
Proof.
  intros Hr. unfold _place_and_record. destruct is_real; cbn [negb]; walk. apply only_real_submit; [by apply Hr|]. intros r. walk.
Qed.

(** Whatever follows the question whether a known account trades for real. *)
Lemma only_real_asked {B} account (f : bool → M X B) :
  known account → (∀ b, (b = true → real_in T (pub_account_id account)) → steps (only_real T) (f b)) →
  steps (only_real T) (_is_real account ≫= f).
Proof.
  intros Hk Hf. apply (steps_reader (λ b, b = true → real_in T (pub_account_id account))); [apply only_real_is_real| |done].
  intros w b _ Hb ->. apply real_known; [done|by eapply is_real_lock].
Qed.

Lemma only_real_found {B} a (f : public_account → M X B) :
  (∀ account, known account → a = pub_account_id account → steps (only_real T) (f account)) →
  steps (only_real T) (get_account a ≫= f).
Proof.
  intros Hf. apply (steps_reader (λ account, known account ∧ a = pub_account_id account));
    [apply only_real_get_account| |by intros account [? ?]; apply Hf].
  intros w account HT. by apply get_account_known.
Qed.

Ltac rwalk1 :=
  match goal with
  | |- steps _ (mbind _ (get_account _)) => apply only_real_found; intros ? ? ?
  | |- steps _ (mbind _ (_is_real _)) => apply only_real_asked; [assumption|intros ? ?]
  | |- steps _ (_place_and_record _ _ _ _ _ _ _ _ _ _ _ _ _) => apply only_real_place; assumption
  end.
Ltac rwalk := repeat first
  [ rwalk1 | walk1 | solve [eauto 3 with wsteps typeclass_instances] ].

Lemma only_real_direct a s sd ot q p idem actor sp :
  steps (only_real T) (_execute_one_direct a s sd ot q p idem actor sp : M X _).
Proof. unfold _execute_one_direct. rwalk. Qed.
Lemma only_real_oco a s sd q p sp sl idem actor :
  steps (only_real T) (_execute_oco_direct a s sd q p sp sl idem actor : M X _).
Proof.
  unfold _execute_oco_direct. rwalk. apply only_real_submit; [|intros r; walk].
  simpl. subst a. match goal with Hr : _ → real_in T _ |- _ => apply Hr end. by apply negb_false_iff.
Qed.
Lemma only_real_sized account s sd e sl rp idem ot actor : known account →
  steps (only_real T) (_execute_one_sized account s sd e sl rp idem ot actor : M X _).
Proof. intros Hk. unfold _execute_one_sized. rwalk. Qed.

(** Lists of accounts of the table. *)
Lemma only_real_list {B} (m : M X (list public_account)) (f : list public_account → M X B) :
  steps (only_real T) m → (∀ w l, accounts (w_db w) = T → (m w).1 = Ok l → Forall known l) →
  (∀ l, Forall known l → steps (only_real T) (f l)) → steps (only_real T) (m ≫= f).
Proof. apply (steps_reader (Forall known)). Qed.

Lemma only_real_each {B} (f : public_account → M X B) l :
  Forall known l → (∀ a, known a → steps (only_real T) (f a)) → steps (only_real T) (mapM f l).
Proof.
  intros Hl Hf. apply steps_mapM; [tc_solve|]. intros a Ha. apply Hf. by eapply Forall_forall.
Qed.

Lemma only_real_targets a t : steps (only_real T) (_resolve_targets a t : M X _).
Proof. unfold _resolve_targets, list_accounts. walk. Qed.
Lemma targets_known a t w l : accounts (w_db w) = T → (_resolve_targets (X:=X) a t w).1 = Ok l → Forall known l.
Proof.
  intros HT. change (wp (_resolve_targets a t) (λ r _, r = Ok l → Forall known l) w).
  unfold _resolve_targets. destruct (_ && _); [by apply wp_raise|].
  apply wp_lift_bind; [done|intros ids _]. apply wp_lift_bind; [done|intros tags _]. apply wp_bind.
  eapply (wp_mono _ (λ r _, ∀ l, r = Ok l → Forall known l)); [intros l' Hl'; by eapply list_accounts_known|].
  intros [known_accounts|e] w' Hk; [|done]. destruct (existsb _ _); [by apply wp_raise|].
  apply wp_ret. intros [= <-]. specialize (Hk _ eq_refl). rewrite Forall_forall in Hk |- *.
  intros x [Hx _]%elem_of_filter_b. by apply Hk.
Qed.

Lemma only_real_execute a t s sd e sl rp idem ot actor :
  steps (only_real T) (execute_on_accounts a t s sd e sl rp idem ot actor : M X _).
Proof.
  unfold execute_on_accounts. do 7 (apply steps_bind; [tc_solve|walk|intros ?]).
  apply only_real_list; [apply only_real_targets|intros w l; apply targets_known|intros targets Hk].
  apply steps_bind; [tc_solve| |intros ?; walk]. apply only_real_each; [done|]. intros account Ha.
  apply steps_bind; [tc_solve|by apply steps_attempt, only_real_sized|intros ?; walk].
Qed.

(** Closing positions. *)
Lemma only_real_update i f : (∀ o, okey (f o) = okey o) → steps (only_real T) (_update_order i f : M X _).
Proof. apply (frame_update (only_real T)). Qed.
Lemma only_real_audit a b c : steps (only_real T) (audit a b c : M X _).
Proof. apply (frame_audit (only_real T)). Qed.
Hint Resolve only_real_update only_real_audit : wsteps.

Lemma only_real_write_unknown a b c o : steps (only_real T) (_write_unknown a b c o : M X _).
Proof. unfold _write_unknown. walk. Qed.
Lemma only_real_write_cancel a b o : steps (only_real T) (_write_cancel a b o : M X _).
Proof. unfold _write_cancel. walk. Qed.
Lemma only_real_write_sync a b r o : steps (only_real T) (_write_sync a b r o : M X _).
Proof. unfold _write_sync. walk. Qed.
Hint Resolve only_real_write_unknown only_real_write_cancel only_real_write_sync : wsteps.

Section Cancel.
Context (account_id : string) (real : real_in T account_id).

Lemma only_real_cancel_one actor cid symbol o acc : steps (only_real T) (_cancel_one actor account_id cid symbol o acc : M X _).
Proof.
  unfold _cancel_one. cbv zeta. apply steps_bind; [tc_solve| |].
  - apply steps_attempt. destruct (match o with Some _ => _ | None => _ end); by apply only_real_call.
  - intros r. unfold cancel_failed, _query_safe, write_local. walk.
Qed.
Lemma only_real_cancel_orphan actor acc ex : steps (only_real T) (_cancel_orphan actor account_id acc ex : M X _).
Proof.
  unfold _cancel_orphan. destruct (client_id_of ex); [walk|]. cbv zeta. destruct (Str.empty _); [walk|].
  apply steps_bind; [tc_solve| |intros r; unfold write_audit; walk].
  apply steps_attempt, steps_bind; [tc_solve|by apply only_real_call|intros ?]. unfold write_audit. walk.
Qed.
Lemma only_real_cancel_target actor acc t : steps (only_real T) (_cancel_target true actor account_id acc t : M X _).
Proof. unfold _cancel_target. destruct t as [cid [symbol o]]. destruct (Str.empty symbol); [walk|apply only_real_cancel_one]. Qed.
End Cancel.

Lemma only_real_cancel_simulated actor account_id acc t :
  steps (only_real T) (_cancel_target false actor account_id acc t : M X _).
Proof. unfold _cancel_target. walk. Qed.

Lemma only_real_reconcile_close a s : steps (only_real T) (_reconcile_close a s : M X _).
Proof. unfold _reconcile_close. walk. Qed.
Hint Resolve only_real_reconcile_close : wsteps.
Lemma only_real_sell_one account actor nonce sold bal : real_in T (pub_account_id account) →
  steps (only_real T) (_sell_one account actor nonce sold bal : M X _).
Proof.
  intros Hr. assert (true = true → real_in T (pub_account_id account)) as Hr' by done. unfold _sell_one. rwalk.
Qed.

Lemma only_real_close_one account actor : known account → steps (only_real T) (_close_one account actor : M X _).
Proof.
  intros Hk. unfold _close_one. cbv zeta. apply only_real_asked; [done|]. intros [] Hr; cbn [negb].
  - specialize (Hr eq_refl). do 2 (apply steps_bind; [tc_solve|walk|intros ?]).
    apply steps_bind; [tc_solve|apply steps_foldM; [tc_solve|intros; by apply only_real_cancel_orphan]|intros ?].
    apply steps_bind; [tc_solve|apply steps_foldM; [tc_solve|intros; by apply only_real_cancel_target]|intros ?].
    do 2 (apply steps_bind; [tc_solve|walk|intros ?]).
    apply steps_bind; [tc_solve|apply steps_foldM; [tc_solve|intros; by apply only_real_sell_one]|intros ?; walk].
  - intros w. unfold mbind at 1 2, ST_bind at 1 2. cbn [mret ST_ret db_read gets].
    match goal with |- only_real T w ((?m ≫= ?f) w).2 => apply (steps_bind (only_real T) m f) end;
      [|intros acc; apply steps_bind; [tc_solve| |intros ?; walk]].
    + apply steps_ret. tc_solve.
    + apply steps_foldM; [tc_solve|intros; apply only_real_cancel_simulated].
Qed.

Lemma only_real_close_all a actor : steps (only_real T) (close_all_positions a actor : M X _).
Proof.
  unfold close_all_positions. apply steps_bind; [tc_solve|walk|intros i].
  apply only_real_list.
  - destruct (String.eqb i "all"); [unfold list_accounts|]; walk.
  - intros w l HT. destruct (String.eqb i "all"); [by apply list_accounts_known|].
    change (wp (account ← get_account i; mret [account]) (λ r _, r = Ok l → Forall known l) w).
    apply wp_bind. eapply (wp_mono _ (λ r _, ∀ account, r = Ok account → known account)).
    { intros account Ha. by apply (get_account_known i w). }
    intros [account|e] w' Ha; [|done]. apply wp_ret. intros [= <-]. constructor; [by apply Ha|constructor].
  - intros l Hl. apply steps_bind; [tc_solve| |intros ?; walk]. apply only_real_each; [done|]. intros account Hk.
    apply steps_bind; [tc_solve|by apply steps_attempt, only_real_close_one|intros ?; walk].
Qed.

Lemma only_real_reconcile : steps (only_real T) (reconcile_open_orders : M X _).
Proof. unfold reconcile_open_orders, list_accounts, reconcile_one, mark_unknown. walk. Qed.

(** Approvals. *)
Lemma only_real_approve has actor i : steps (only_real T) (approve_handler has actor i : M X _).
Proof.
  unfold approve_handler, _pending_order, fill_entry, _current_market_price, _fill_pending_entry,
    approve_and_claim_pending_execution, settle, fail_pending_execution, complete_pending_execution, transition, cas,
    not_matched. walk; try (by apply only_real_modify); apply only_real_execute.
Qed.
End Paper.

(** ** Properties *)

(** The stripped text of a parameter. *)
Definition text_of (v : pyval) : string := match v with PStr s => Str.strip s | _ => EmptyString end.

Lemma require_string_text v s : _require_string v = Ok s → s = text_of v.
Proof. destruct v; try done. apply require_string_inv. Qed.

Section Properties.
Context {X : Type} `{Ext X, PyEnv, SecretStore X, OrderBroker X, MarketFeed X, OrderConfig}.

(** The terms of the order that is asked for. *)
Definition asked_for (symbol quantity : pyval) (o : order_row) : Prop :=
  o_symbol o = text_of symbol ∧ _require_number quantity = Ok (o_quantity o).

Lemma place_made account_id symbol side ot quantity p sp key actor (w : world X) :
  wp (service_place_order account_id symbol side ot quantity p sp key actor)
    (made (text_of account_id) (text_of key) (asked_for symbol quantity) w) w.
Proof.
  unfold service_place_order.
  apply wp_lift_bind; [intros; by apply made_refused|intros a ->%require_string_text].
  apply wp_lift_bind; [intros; by apply made_refused|intros k ->%require_string_text].
  apply wp_lift_bind; [intros; by apply made_refused|intros s ->%require_string_text].
  apply wp_lift_bind; [intros; by apply made_refused|intros sd _].
  apply wp_lift_bind; [intros; by apply made_refused|intros q Hq].
  do 3 (apply wp_lift_bind; [intros; by apply made_refused|intros ? _]).
  eapply wp_mono; [apply direct_made|]. intros r w' [Hr|Hp]; [by left|right].
  eapply placed_impl; [|exact Hp]. intros o (Hk & [Hs <-] & Hg). by split.
Qed.

(** The number of a parameter, recorded. *)
Definition records (v : pyval) (x : option float) : Prop := ∃ n, _require_number v = Ok n ∧ x = Some n.

Definition asked_oco (symbol quantity p sp sl : pyval) (o : order_row) : Prop :=
  asked_for symbol quantity o ∧ o_order_type o = "OCO" ∧ records p (o_price o) ∧ records sp (o_stop_price o) ∧
  records sl (o_stop_limit_price o).

Lemma place_oco_made account_id symbol side quantity p sp sl key actor (w : world X) :
  wp (place_oco_order account_id symbol side quantity p sp sl key actor)
    (made (text_of account_id) (text_of key) (asked_oco symbol quantity p sp sl) w) w.
Proof.
  unfold place_oco_order.
  apply wp_lift_bind; [intros; by apply made_refused|intros a ->%require_string_text].
  apply wp_lift_bind; [intros; by apply made_refused|intros k ->%require_string_text].
  apply wp_lift_bind; [intros; by apply made_refused|intros s ->%require_string_text].
  apply wp_lift_bind; [intros; by apply made_refused|intros sd _].
  apply wp_lift_bind; [intros; by apply made_refused|intros q Hq].
  apply wp_lift_bind; [intros; by apply made_refused|intros p1 Hp1].
  apply wp_lift_bind; [intros; by apply made_refused|intros p2 Hp2].
  apply wp_lift_bind; [intros; by apply made_refused|intros p3 Hp3].
  apply wp_lift_bind; [intros; by apply made_refused|intros ? _].
  eapply wp_mono; [apply oco_made|]. intros r w' [Hr|Hp]; [by left|right].
  eapply placed_impl; [|exact Hp]. intros o (Hk & (Hs & <- & Ht & E1 & E2 & E3) & Hg).
  split; [exact Hk|split; [|exact Hg]]. unfold asked_oco, asked_for, records. split_and!; eauto.
Qed.

(** The updates of a record keep its terms. *)
Definition keeps_terms (P : order_row → Prop) : Prop :=
  ∀ o t, P o → (∀ r, P (with_updated_at t (with_fill r o))) ∧ ∀ s c, P (with_updated_at t (with_status s c o)).

Lemma settled_cases o reply asked o1 :
  settled o reply asked = Some o1 → (∃ r, o1 = with_fill r o) ∨ ∃ s c, o1 = with_status s c o.
Proof. unfold settled. intros Hs. repeat case_match; simplify_eq; eauto. Qed.

Lemma made_row a k P (w w' : world X) r :
  keeps_terms P → made a k P w r w' → ids_unique (w_db w) → okeys (w_db w') ≠ okeys (w_db w) →
  ∃ o, orders (w_db w') = orders (w_db w) ++ [o] ∧ o_account_id o = a ∧ o_idempotency_key o = k ∧ P o ∧
    order_gated w (risk_override (w_db w')) o.
Proof.
  intros HP [(o & _ & [[Ho _] _|found t _ _ Ho _ _])|[e _ [Ho _]|o HPo _ _ Ho|o c d reply asked o' HPo _ _ _ _ _ _ _ Ho Hres]]
    Hu Hne; unfold okeys in Hne.
  - by rewrite Ho in Hne.
  - rewrite Ho, map_update_where in Hne by done. done.
  - by rewrite Ho in Hne.
  - exists o. destruct HPo as ([? ?] & ? & Hg). auto 6.
  - exists o'. split; [done|]. destruct HPo as ([Ha Hk] & HPo & Hg). specialize (Hg Hu). unfold resolved in Hres.
    destruct (settled o reply asked) as [o1|] eqn:Es; [|destruct Hres as [-> _]; auto].
    destruct Hres as [[t ->] _]. destruct (HP o t HPo) as [Pf Ps]. destruct Hg as [G1 G2 G3 G4 G5].
    apply settled_cases in Es as [[r0 ->]|(s & c0 & ->)]; (split_and!; [exact Ha|exact Hk|apply Pf || apply Ps|]);
      (split; [exact G1|exact G2|exact G3|exact G4|exact G5]).
Qed.

Lemma asked_for_terms symbol quantity : keeps_terms (asked_for symbol quantity).
Proof. intros o t Ho. split; intros; exact Ho. Qed.
Lemma asked_oco_terms symbol quantity p sp sl : keeps_terms (asked_oco symbol quantity p sp sl).
Proof. intros o t Ho. split; intros; exact Ho. Qed.

(** C1: every order and every OCO list placed through the service is one step of the
    specification, whatever the exchange answers, a timeout included.  The key is known: its order is
    answered as recorded, or, when it may still be open, its row is brought to what the
    exchange reports, and nothing is sent.  Or the call is refused: no row changes and
    nothing is sent.  Or a simulated order is recorded.  Or a fresh [NEW] record is
    committed, exactly that order is submitted, once, and the record is then
    brought to the exchange's answer: filled with its reply; [REJECTED] or [UNKNOWN] with the
    code of its refusal; after a timeout, what it reports when asked for the
    order, and [UNKNOWN] when it knows of none.  The other rows stay as they are. *)
Theorem place_order_refines account_id symbol side order_type quantity price stop_price stop_limit_price
    key actor (w : world X) :
  (let '(r, w') := service_place_order account_id symbol side order_type quantity price stop_price key actor w in
   place_step (text_of account_id) (text_of key) w r w') ∧
  (let '(r, w') := place_oco_order account_id symbol side quantity price stop_price stop_limit_price key actor w in
   place_step (text_of account_id) (text_of key) w r w').
Proof.
  assert (∀ P r w', made (text_of account_id) (text_of key) P w r w' →
    place_step (text_of account_id) (text_of key) w r w') as Hstep.
  { intros P r w' [(o & Ho & Hr)|Hp]; [by eapply step_retried|]. apply step_placed.
    eapply placed_impl; [|exact Hp]. by intros o [Hk _]. }
  split.
  - pose proof (place_made account_id symbol side order_type quantity price stop_price key actor w) as Hm.
    unfold wp in Hm. destruct (service_place_order _ _ _ _ _ _ _ _ _ w). by eapply Hstep.
  - pose proof (place_oco_made account_id symbol side quantity price stop_price stop_limit_price key actor w) as Hm.
    unfold wp in Hm. destruct (place_oco_order _ _ _ _ _ _ _ _ _ w). by eapply Hstep.
Qed.

(** C10: the gates of an order.  When [place_order] adds a record, it adds one row, of the
    account, key, symbol and quantity asked for, and that row passed every gate: the account
    exists, the exchange lists the symbol, the row's reference price is the fresh market
    price; the validator accepts the row's own side, type, quantity and prices against the exchange's
    filters and that price, with the row's notional; the free balance covers it; and the account's
    policy allows its notional on top of the open orders and holdings — or else a
    reserved override of that account and policy version was spent on this very key. *)
Theorem new_order_gated account_id symbol side order_type quantity price stop_price key actor (w : world X) :
  ids_unique (w_db w) →
  let w' := (service_place_order account_id symbol side order_type quantity price stop_price key actor w).2 in
  okeys (w_db w') ≠ okeys (w_db w) →
  ∃ o, orders (w_db w') = orders (w_db w) ++ [o] ∧ o_account_id o = text_of account_id ∧
    o_idempotency_key o = text_of key ∧ asked_for symbol quantity o ∧ order_gated w (risk_override (w_db w')) o.
Proof.
  intros Hu w' Hne. refine (made_row _ _ _ w w' _ _ (place_made _ _ _ _ _ _ _ _ _ w) Hu Hne). apply asked_for_terms.
Qed.

(** C11: the same gates for an OCO list: the row added has the prices asked for, and
    the validator accepts exactly them. *)
Theorem new_oco_gated account_id symbol side quantity price stop_price stop_limit_price key actor (w : world X) :
  ids_unique (w_db w) →
  let w' := (place_oco_order account_id symbol side quantity price stop_price stop_limit_price key actor w).2 in
  okeys (w_db w') ≠ okeys (w_db w) →
  ∃ o, orders (w_db w') = orders (w_db w) ++ [o] ∧ o_account_id o = text_of account_id ∧
    o_idempotency_key o = text_of key ∧ asked_oco symbol quantity price stop_price stop_limit_price o ∧
    order_gated w (risk_override (w_db w')) o.
Proof.
  intros Hu w' Hne. refine (made_row _ _ _ w w' _ _ (place_oco_made _ _ _ _ _ _ _ _ _ w) Hu Hne). apply asked_oco_terms.
Qed.

(** The operations that trade: those of the order service, and approvals. *)
Inductive trading_op := OrderOp (op : order_op) | ApproveOp (has_order_service : bool) (actor order_id : string).

Definition run_trading_ops (ops : list trading_op) : M X unit :=
  foldM (λ _ op, attempt (match op with
    | OrderOp op => run_order_op op
    | ApproveOp has actor i => approve_handler has actor i;; mret tt
    end);; mret tt) tt ops.

(** C9: nothing is done at the exchange for a paper account.  Over any sequence of orders, OCO
    lists, bulk orders, approvals, closings and reconciliations, the account table stays as it
    is, and every order submitted and every order cancelled is of an account of
    that table whose trading lock is [real]. *)
Theorem paper_never_submits ops (w : world X) :
  let w' := (run_trading_ops ops w).2 in
  accounts (w_db w') = accounts (w_db w) ∧
  ∃ sent, effects (w_trace w') = effects (w_trace w) ++ sent ∧
    Forall (λ cd, ∃ row, row ∈ accounts (w_db w) ∧ a_account_id row = call_account cd.1 ∧
      a_trading_lock row = Real) sent.
Proof.
  assert (steps (only_real (accounts (w_db w))) (run_trading_ops ops)) as Hs; [|by apply Hs].
  apply steps_foldM; [tc_solve|]. intros _ op _. apply steps_bind; [tc_solve|apply steps_attempt|intros ?; walk].
  destruct op as [op|has actor i]; [destruct op; cbn [run_order_op]|];
    (apply steps_bind; [tc_solve| |intros ?; walk]).
  - unfold service_place_order. walk. apply only_real_direct.
  - unfold place_oco_order. walk. apply only_real_oco.
  - apply only_real_execute.
  - apply only_real_reconcile.
  - apply only_real_close_all.
  - apply only_real_approve.
Qed.
End Properties.

(** ** Witnesses *)

#[local] Existing Instances outside_ext sample_env plain_store filling_broker btc_market fee_config.

(** The paper order is recorded, and nothing is sent. *)
Example paper_buy :
  let w := (buy "k" paper_world).2 in
  (map o_status (orders (w_db w)), length (effects (w_trace w))) = ([PAPER], 0%nat).
Proof. vm_compute. reflexivity. Qed.

(** The real one is sent, and its record is filled. *)
Example real_buy_settled :
  let w := (buy "k" real_world).2 in
  (map o_status (orders (w_db w)), map o_exchange_order_id (orders (w_db w)), length (effects (w_trace w)))
  = ([FILLED], [Some "42"], 1%nat).
Proof. vm_compute. reflexivity. Qed.

Lemma new_order_gated_witness :
  ∃ o, orders (w_db bought_world) = orders (w_db real_world) ++ [o] ∧
    order_gated real_world (risk_override (w_db bought_world)) o.
Proof.
  destruct (new_order_gated (PStr "acc") (PStr "BTCUSDT") (PStr "BUY") (PStr "MARKET") (PInt 2) PNone PNone
    (PStr "k") "agent" real_world) as (o & Ho & _ & _ & _ & Hg).
  - apply NoDup_nil_2.
  - vm_compute. discriminate.
  - exists o. split; [exact Ho|exact Hg].
Defined.

(** Take profit at 110, stop at 95 for the 2 coins held. *)
Definition oco_world : world outside :=
  (place_oco_order (PStr "acc") (PStr "BTCUSDT") (PStr "SELL") (PInt 2) (PInt 110) (PInt 95) (PInt 94)
    (PStr "k") "agent" real_world).2.

Lemma new_oco_gated_witness :
  ∃ o, orders (w_db oco_world) = orders (w_db real_world) ++ [o] ∧ o_order_type o = "OCO" ∧
    order_gated real_world (risk_override (w_db oco_world)) o.
Proof.
  destruct (new_oco_gated (PStr "acc") (PStr "BTCUSDT") (PStr "SELL") (PInt 2) (PInt 110) (PInt 95) (PInt 94)
    (PStr "k") "agent" real_world) as (o & Ho & _ & _ & (_ & Ht & _) & Hg).
  - apply NoDup_nil_2.
  - vm_compute. discriminate.
  - exists o. split; [exact Ho|split; [exact Ht|exact Hg]].
Defined.
