(* ===== verification/Alarms.v ===== *)
(** [pa/alarms.py]: alert definitions, their state machine, evaluation and
    triggering.  The approval queue is in [Pending], the approval handler in
    [Approve]. *)

From Stdlib Require Import ZArith String Ascii.
From stdpp Require Import pretty.
From S2P Require Import Prelude PyFloat PyVal Errors Monad Swings OrderBlocks Liquidity Vwap Filters.
From S2P Require Import Broker Tables Db Sample Feed Klines History Engine Approve.
Local Open Scope string_scope.
Local Open Scope list_scope.

Definition ORDER_SPEC_KEYS : list string :=
  ["account_id"; "symbol"; "side"; "entry"; "stop_loss"; "risk_pct"; "order_type"].

(** ** Definitions *)

(** [not isinstance(v, str) or not v] *)
Definition required_text (v : pyval) : result string :=
  match v with PStr s => if Str.empty s then raise INVALID_REQUEST else Ok s | _ => raise INVALID_REQUEST end.

(** [not isinstance(v, int) or v < 0]; a boolean is an int. *)
Definition cooldown_of (v : pyval) : result Z :=
  match int_like v with
  | Some z => if (z <? 0)%Z then raise INVALID_REQUEST else Ok z
  | None => raise INVALID_REQUEST
  end.

Definition text_or_empty (v : option pyval) : string := match v with Some (PStr s) => s | _ => "" end.

(** [in ("a", "b")]: only a string is equal to one. *)
Definition is_one_of (l : list string) (v : pyval) : bool :=
  match v with PStr s => str_in s l | _ => false end.

Definition spec_get (key : string) (d : list (string * pyval)) : pyval := default PNone (assoc key d).

Definition _validate_order_spec (spec : pyval) : result (list (string * pyval)) :=
  match spec with
  | PDict d =>
      _ ← res_iter (λ kv, reject_if (negb (str_in kv.1 ORDER_SPEC_KEYS)) INVALID_REQUEST) d;
      _ ← res_iter (λ k, reject_if (negb (truthy (spec_get k d))) INVALID_REQUEST) ["account_id"; "symbol"; "side"];
      _ ← reject_if (negb (is_one_of ["BUY"; "SELL"] (spec_get "side" d))) INVALID_REQUEST;
      _ ← reject_if (negb (is_one_of ["market"; "limit"] (default (PStr "market") (assoc "order_type" d)))) INVALID_REQUEST;
      _ ← _validate_execution_inputs (spec_get "risk_pct" d) (spec_get "entry" d) (spec_get "stop_loss" d)
            (text_or_empty (assoc "order_type" d));
      Ok d
  | _ => raise INVALID_REQUEST
  end.

Definition clause_of (v : pyval) : result alert_clause :=
  match v with
  | PDict d =>
      _ ← reject_if (negb (truthy (spec_get "symbol" d)) || negb (truthy (spec_get "timeframe" d))) INVALID_REQUEST;
      root ← validate_filters (spec_get "filters" d) "AND";
      Ok (mk_clause (spec_get "symbol" d) (spec_get "timeframe" d) root)
  | _ => raise INVALID_REQUEST
  end.

Definition cooldown_seconds (def : alert_definition) : Z :=
  match def with SimpleAlert _ _ _ c _ _ | CompositeAlert _ _ c _ => c end.
Definition note_of (def : alert_definition) : pyval :=
  match def with SimpleAlert _ _ _ _ n _ | CompositeAlert _ _ _ n => n end.
Definition order_spec_of (def : alert_definition) : option (list (string * pyval)) :=
  match def with SimpleAlert _ _ _ _ _ o => o | CompositeAlert _ _ _ _ => None end.

(** [c["symbol"] == symbol and c["timeframe"] == timeframe] *)
Definition clause_for (symbol timeframe : string) (c : alert_clause) : bool :=
  is_one_of [symbol] (ac_symbol c) && is_one_of [timeframe] (ac_timeframe c).

Definition definition_for (symbol timeframe : string) (def : alert_definition) : bool :=
  match def with
  | SimpleAlert s t _ _ _ _ => String.eqb s symbol && String.eqb t timeframe
  | CompositeAlert _ clauses _ _ => existsb (clause_for symbol timeframe) clauses
  end.

(** ** The state machine *)

Definition _lazy_state (state : alert_state) (cooldown_until : option Z) (now : Z) : alert_state :=
  match cooldown_until with
  | Some t => if (now <? t)%Z then Cooldown else Armed
  | None => match state with Triggered => Armed | s => s end
  end.

Definition state_at (now : Z) (a : alert_row) : alert_state := _lazy_state (l_state a) (l_cooldown_until a) now.

Definition set_alert_state (state : alert_state) (cooldown_until : option Z) (now : Z) (a : alert_row) : alert_row :=
  mk_alert (l_alert_id a) (l_definition a) state (l_created_at a) now cooldown_until.

Definition is_alert (alert_id : string) (a : alert_row) : bool := String.eqb (l_alert_id a) alert_id.
Definition find_alert (alert_id : string) (d : db) : option alert_row := List.find (is_alert alert_id) (alerts d).

Definition triggered_at_window (alert_id trigger_key : string) (t : triggered_row) : bool :=
  String.eqb (t_alert_id t) alert_id && String.eqb (t_trigger_key t) trigger_key.

(** A value bound to a TEXT column: sqlite stores a number as its text. *)
Definition text_column `{PyEnv} (v : pyval) : result string :=
  match v with
  | PStr s => Ok s
  | PInt z => Ok (pretty z)
  | PBool b => Ok (if b then "1" else "0")
  | PFloat x => Ok (float_repr x)
  | PNone => Err IntegrityError
  | PList _ | PDict _ => Err InterfaceError
  end.

(** The notification command: its template, [shlex.split] ([None] is a
    [ValueError]), and starting a process. *)
Class Notifier (X : Type) := {
  notify_command : option string;
  shlex_split : string → option (list string);
  popen : list string → X → X }.

(** ** Notification *)

Definition is_word (c : ascii) : bool := Str.is_alnum c || Ascii.eqb c "_".

(** The word characters at the start, and the rest. *)
Fixpoint take_word (s : string) : string * string :=
  match s with
  | EmptyString => ("", "")
  | String c s' => if is_word c then let '(w, r) := take_word s' in (String c w, r) else ("", s)
  end.

(** [re.sub(r"\{(\w+)\}", ...)] in one pass; [fuel] is the length of [s]. *)
Fixpoint substitute (fuel : nat) (fmt : list (string * string)) (s : string) : string :=
  match fuel, s with
  | S fuel, String c s' =>
      if Ascii.eqb c "{" then
        match take_word s' with
        | (String _ _ as w, String c' rest) =>
            if Ascii.eqb c' "}" then
              match assoc w fmt with
              | Some v => v
              | None => "{" +:+ w +:+ "}"
              end +:+ substitute fuel fmt rest
            else String c (substitute fuel fmt s')
        | _ => String c (substitute fuel fmt s')
        end
      else String c (substitute fuel fmt s')
  | _, _ => s
  end.

Lemma take_word_length s : let '(w, r) := take_word s in (String.length w + String.length r = String.length s)%nat.
Proof.
  induction s as [|c s IH]; [done|]. simpl. destruct (is_word c); [|done].
  destruct (take_word s) as [w r]. simpl in *. by rewrite IH.
Qed.

(** The length of the text is fuel enough. *)
Lemma substitute_enough fmt n m s :
  (String.length s ≤ n)%nat → (String.length s ≤ m)%nat → substitute n fmt s = substitute m fmt s.
Proof.
  revert m s. induction n as [|n IH]; intros [|m] [|c s] Hn Hm; simpl in *; try done; try lia.
  assert (∀ r, (String.length r ≤ String.length s)%nat → substitute n fmt r = substitute m fmt r) as Hr
    by (intros r Hle; apply IH; lia).
  pose proof (take_word_length s) as Hw. destruct (take_word s) as [[|a w] [|b rest]]; simpl in Hw;
    rewrite ?(Hr s) by lia; try done. by rewrite (Hr rest) by lia.
Qed.

Definition argv_of (template : list string) (fmt : list (string * string)) : list string :=
  map (λ arg, substitute (String.length arg) fmt arg) template.

(** ** Contexts of evaluation *)

Definition event_type_name (t : event_type) : string :=
  match t with
  | bos_bullish => "bos_bullish" | bos_bearish => "bos_bearish"
  | choch_bullish => "choch_bullish" | choch_bearish => "choch_bearish"
  end.
Definition event_view (e : event) : structure_event :=
  mk_sevent (event_type_name (ev_type e)) (Some (ev_time e)) (Z.of_nat (ev_index e)).
Definition zone_view (z : liquidity_zone) : liquidity_view :=
  mk_lview (lz_mitigated z) (lz_swept_at_time z) (Z.of_nat <$> lz_swept_at z).
Definition ob_view (z : zone) : block_view := mk_bview (z_mitigated z) (z_low z) (z_high z).
Definition futures_view (r : futures_context_row) : futures_row := mk_futures (fc_freshness r) (fc_value r).

Definition context_of (candles : list candle) (st : structure) (zones : list liquidity_zone) (obs : list zone)
    (vwap : option float) (funding : option futures_context_row) (oi : list futures_context_row) : context :=
  mk_context candles (c_close <$> last candles) (Some (map event_view (st_events st))) (map zone_view zones)
    (map ob_view obs) (futures_view <$> funding) (map futures_view oi) vwap.

Section Alarms.
Context {X : Type} `{Ext X, PyEnv, Rest X, FeedConfig, Notifier X}.
Context (has_pipeline : bool) (compute_budget : nat).

(** ** Creating, listing and deleting *)

(** What [_summary] renders. *)
Record alert_summary := mk_summary {
  sm_alert_id : string;
  sm_definition : alert_definition;
  sm_state : alert_state;
  sm_created_at : Z;
  sm_cooldown_until : option Z }.

Definition insert_alert_row (a : alert_row) : M X unit :=
  taken ← db_read (find_alert (l_alert_id a));
  match taken with
  | Some _ => throw IntegrityError
  | None => db_modify (set_alerts (λ l, l ++ [a]))
  end.

Definition _insert_alert (definition : alert_definition) : PM X alert_summary :=
  in_store (
    alert_id ← uuid4_hex;
    now ← time_now;
    _ ← db_write (insert_alert_row (mk_alert alert_id definition Armed now now None));
    mret (mk_summary alert_id definition Armed now None)).

Definition create_alert (symbol timeframe condition cooldown note order_spec : pyval) : PM X alert_summary :=
  symbol ← lift (required_text symbol);
  timeframe ← lift (required_text timeframe);
  cooldown ← lift (cooldown_of cooldown);
  root ← lift (validate_filters condition "AND");
  spec ← (if is_none order_spec then mret None
          else d ← lift (_validate_order_spec order_spec); mret (Some d));
  _insert_alert (SimpleAlert symbol timeframe root cooldown note spec).

Definition create_composite_alert (clauses : pyval) (combine : string) (cooldown note : pyval) : PM X alert_summary :=
  match clauses with
  | PList ((_ :: _) as cls) =>
      cooldown ← lift (cooldown_of cooldown);
      let combine := Str.upper (if Str.empty combine then "AND" else combine) in
      _ ← lift (reject_if (negb (str_in combine ["AND"; "OR"])) INVALID_REQUEST);
      norm ← lift (res_map clause_of cls);
      _insert_alert (CompositeAlert (String.eqb combine "AND") norm cooldown note)
  | _ => raise_ INVALID_REQUEST
  end.

Definition delete_alert (alert_id : pyval) : PM X nat :=
  alert_id ← lift (required_text alert_id);
  removed ← in_store (db_write (
    n ← db_read (λ d, count_where (is_alert alert_id) (alerts d));
    _ ← db_modify (set_alerts (delete_where (is_alert alert_id)));
    mret n));
  match removed with O => raise_ NOT_FOUND | S _ => mret removed end.

(** [ORDER BY created_at DESC] *)
Definition list_alerts : PM X (list alert_summary) :=
  rows ← in_store (db_read (λ d, order_by (λ a, - l_created_at a)%Z (alerts d)));
  now ← clock_now;
  mret (map (λ a, mk_summary (l_alert_id a) (l_definition a) (state_at now a) (l_created_at a) (l_cooldown_until a)) rows).

(** ** Triggering *)

Definition trigger_payload (symbol timeframe : string) (as_of : Z) : list (string * pyval) :=
  [("symbol", PStr symbol); ("timeframe", PStr timeframe); ("as_of", PInt as_of)].
Definition composite_payload (as_of : Z) : list (string * pyval) :=
  [("type", PStr "composite"); ("as_of", PInt as_of)].

(** [str(payload.get(key, ""))], and the placeholders of the command. *)
Definition payload_text (key : string) (payload : list (string * pyval)) : string :=
  match assoc key payload with Some (PStr s) => s | Some (PInt z) => pretty z | _ => "" end.
Definition note_text (note : pyval) : string :=
  if truthy note then match note with PStr s => s | v => str_of_other v end else "".

Definition _notify (definition : alert_definition) (payload : list (string * pyval)) (alert_id : string) : M X unit :=
  match notify_command with
  | None => mret tt
  | Some command =>
      if Str.empty command then mret tt
      else
        match shlex_split command with
        | None => mret tt
        | Some template =>
            let fmt := [("alert_id", alert_id); ("symbol", payload_text "symbol" payload);
                        ("timeframe", payload_text "timeframe" payload); ("note", note_text (note_of definition));
                        ("price", payload_text "close" payload)] in
            on_ext (λ x, (Ok tt, popen (argv_of template fmt) x))
        end
  end.

Definition insert_triggered (t : triggered_row) : M X unit :=
  taken ← db_read (λ d, existsb (triggered_at_window (t_alert_id t) (t_trigger_key t)) (triggered_alerts d));
  if taken : bool then throw IntegrityError else db_modify (set_triggered_alerts (λ l, l ++ [t])).

Definition insert_pending (q : pending_row) : M X unit :=
  taken ← db_read (λ d, existsb (λ q', String.eqb (q_order_id q') (q_order_id q)) (pending_orders d));
  if taken : bool then throw IntegrityError else db_modify (set_pending_orders (λ l, l ++ [q])).

(** The order that waits for approval. *)
Definition propose_order (alert_id : string) (note : pyval) (now : Z) (spec : list (string * pyval)) : M X unit :=
  order_id ← uuid4_hex;
  account_id ← lift (text_column (spec_get "account_id" spec));
  symbol ← lift (text_column (spec_get "symbol" spec));
  side ← lift (text_column (spec_get "side" spec));
  order_type ← lift (text_column (default (PStr "market") (assoc "order_type" spec)));
  insert_pending (mk_pending order_id alert_id account_id symbol side order_type (spec_get "entry" spec)
    (spec_get "stop_loss" spec) (spec_get "risk_pct" spec) P_awaiting_approval note now
    None None None None None None None None).

Record trigger := mk_trigger { tr_alert_id : string; tr_key : string; tr_at : Z }.

(** The transaction of [_maybe_trigger]; also the definition it read. *)
Definition trigger_tx (alert_id trigger_key : string) (payload : list (string * pyval)) (cooldown now : Z)
    : M X (option (trigger * alert_definition)) :=
  row ← db_read (find_alert alert_id);
  match row with
  | None => raise_ NOT_FOUND
  | Some a =>
      if decide (state_at now a ≠ Armed) then mret None
      else
        exists_ ← db_read (λ d, existsb (triggered_at_window alert_id trigger_key) (triggered_alerts d));
        if exists_ : bool then mret None
        else
          _ ← insert_triggered (mk_triggered alert_id trigger_key (PDict payload) now);
          _ ← (match order_spec_of (l_definition a) with
               | Some spec => propose_order alert_id (note_of (l_definition a)) now spec
               | None => mret tt
               end);
          _ ← db_modify (set_alerts (update_where (is_alert alert_id)
                (if (0 <? cooldown)%Z then set_alert_state Cooldown (Some (now + cooldown)%Z) now
                 else set_alert_state Triggered None now)));
          mret (Some (mk_trigger alert_id trigger_key now, l_definition a))
  end.

Definition _maybe_trigger (alert_id trigger_key : string) (payload : list (string * pyval)) (cooldown : Z)
    : PM X (option trigger) :=
  in_store (
    now ← time_now;
    res ← db_write (trigger_tx alert_id trigger_key payload cooldown now);
    match res with
    | None => mret None
    | Some (t, definition) => _ ← _notify definition payload alert_id; mret (Some t)
    end).

(** ** Evaluation *)

Definition begin_evaluation_pass : PM X unit :=
  modify (λ s, let p := sv_pa s in
    set_pa (mk_pa 0 (pa_scan_used p) (pa_scan_deferred p) (pa_last_processed p)) s).

Definition latest_row (symbol ftype : string) : PM X (option futures_context_row) :=
  series ← load_futures_series symbol ftype 1; mret (last series).

Definition stored_analysis (symbol timeframe : string)
    : PM X (option (pa_row structure) * option (pa_row liquidity_result) * option (pa_row order_blocks_result)) :=
  ms ← in_store (_read_current symbol timeframe);
  lz ← in_store (_read_current symbol timeframe);
  ob ← in_store (_read_current symbol timeframe);
  mret (ms, lz, ob).

(** The context of a symbol with the futures data. *)
Definition with_futures (symbol : string) (candles : list candle) (st : structure) (zones : list liquidity_zone)
    (obs : list zone) (vwap : option float) : PM X context :=
  fr ← latest_row symbol "funding_rate";
  oi ← load_futures_series symbol "open_interest" 20;
  mret (context_of candles st zones obs vwap fr oi).

Section Evaluation.
(** [engine.analyze] *)
Context (analyze : string → string → Z → PM X analysis).

(** The part of [_clause_context] for an analysis that is not stored. *)
Definition compute_within_budget (symbol timeframe : string)
    : PM X (option (option (pa_row structure) * option (pa_row liquidity_result) * option (pa_row order_blocks_result))) :=
  p ← gets sv_pa;
  if (compute_budget <=? pa_alarm_used p)%nat then mret None
  else
    _ ← modify (set_pa (mk_pa (S (pa_alarm_used p)) (pa_scan_used p) (pa_scan_deferred p) (pa_last_processed p)));
    _ ← analyze symbol timeframe PA_LOOKBACK;
    l ← stored_analysis symbol timeframe; mret (Some l).

(** The stored analysis, computed first where it is missing and the budget of the
    pass allows; nothing when it is stale. *)
Definition _clause_context (symbol timeframe : string) : PM X (option (Z * context)) :=
  candles ← read_candles symbol timeframe 300;
  match candles with
  | [] => mret None
  | _ =>
      now ← clock_now;
      candles ← lift (filter_closed_candles candles timeframe now);
      match candles with
      | [] => mret None
      | _ =>
          '(ms, lz, ob) ← stored_analysis symbol timeframe;
          have ← (match ms, lz, ob with
                  | Some _, Some _, Some _ => mret (Some (ms, lz, ob))
                  | _, _, _ => compute_within_budget symbol timeframe
                  end);
          match have with
          | Some (Some ms, lz, ob) =>
              fresh ← freshness has_pipeline timeframe (Some (r_effective_from ms));
              if negb fresh then mret None
              else
                vwap ← lift (compute_vwap candles);
                ctx ← with_futures symbol candles (r_payload ms)
                        (match lz with Some r => li_zones (r_payload r) | None => [] end)
                        (match ob with Some r => ob_order_blocks (r_payload r) | None => [] end) (vw_current vwap);
                mret (Some (r_effective_from ms, ctx))
          | _ => mret None
          end
      end
  end.

(** [WHERE state IN ('armed','triggered') OR cooldown_until IS NULL OR cooldown_until <= ?] *)
Definition may_evaluate (now : Z) (a : alert_row) : bool :=
  bool_decide (l_state a = Armed ∨ l_state a = Triggered)
  || match l_cooldown_until a with None => true | Some t => (t <=? now)%Z end.

Definition _alerts_by_symbol (symbol timeframe : string) : PM X (list alert_row) :=
  in_store (
    now ← time_now;
    db_read (λ d, List.filter (λ a, may_evaluate now a && definition_for symbol timeframe (l_definition a)) (alerts d))).

Definition _composite_alerts : PM X (list alert_row) :=
  in_store (db_read (λ d, List.filter (λ a, match l_definition a with CompositeAlert _ _ _ _ => true | _ => false end)
    (alerts d))).

Definition clause_symbols (c : alert_clause) : result (string * string) :=
  s ← text_column (ac_symbol c); t ← text_column (ac_timeframe c); Ok (s, t).

(** The contexts of all clauses, or nothing when one of them is missing. *)
Fixpoint clause_contexts (clauses : list alert_clause) : PM X (option (list (alert_clause * (Z * context)))) :=
  match clauses with
  | [] => mret (Some [])
  | c :: rest =>
      '(s, t) ← lift (clause_symbols c);
      ctx ← _clause_context s t;
      match ctx with
      | None => mret None
      | Some ctx => l ← clause_contexts rest; mret ((λ l, (c, ctx) :: l) <$> l)
      end
  end.

(** [all(...)] and [any(...)], stopping at the first clause that decides. *)
Fixpoint combine_clauses (all_of : bool) (l : list (alert_clause * (Z * context))) : result bool :=
  match l with
  | [] => Ok all_of
  | (c, (_, ctx)) :: rest =>
      b ← _eval_node (ac_condition c) ctx;
      if Bool.eqb b all_of then combine_clauses all_of rest else Ok b
  end.

Definition max_as_of (l : list (alert_clause * (Z * context))) : result Z :=
  match l with
  | [] => Err ValueError
  | (_, (t, _)) :: rest => Ok (foldl Z.max t (map (λ c, c.2.1) rest))
  end.

Definition _evaluate_composite (a : alert_row) : PM X (option trigger) :=
  match l_definition a with
  | SimpleAlert _ _ _ _ _ _ => throw KeyError
  | CompositeAlert all_of clauses cooldown _ =>
      now ← clock_now;
      if decide (state_at now a ≠ Armed) then mret None
      else
        contexts ← clause_contexts clauses;
        match contexts with
        | None => mret None
        | Some l =>
            matched ← lift (combine_clauses all_of l);
            if negb matched then mret None
            else
              as_of ← lift (max_as_of l);
              _maybe_trigger (l_alert_id a) ("composite:" +:+ l_alert_id a +:+ ":" +:+ pretty as_of)
                (composite_payload as_of) cooldown
        end
  end.

Definition opt_list {A} (o : option A) : list A := match o with Some x => [x] | None => [] end.

Definition _evaluate_composites_for (symbol timeframe : string) : PM X (list trigger) :=
  composites ← _composite_alerts;
  foldM (λ triggers a,
    if definition_for symbol timeframe (l_definition a) then
      res ← _evaluate_composite a; mret (triggers ++ opt_list res)
    else mret triggers) [] composites.

Definition window_key (symbol timeframe : string) (as_of : Z) : string :=
  symbol +:+ ":" +:+ timeframe +:+ ":" +:+ pretty as_of.

(** One simple alert in a context that is there. *)
Definition trigger_simple (symbol timeframe : string) (a : alert_row) (condition : node) (cooldown : Z)
    (as_of : Z) (ctx : context) : PM X (list trigger) :=
  matched ← lift (_eval_node condition ctx);
  if matched : bool then
    res ← _maybe_trigger (l_alert_id a) (window_key symbol timeframe as_of) (trigger_payload symbol timeframe as_of)
            cooldown;
    mret (opt_list res)
  else mret [].

Definition on_analysis_updated (symbol timeframe : string) (r : analysis) : PM X (list trigger) :=
  fresh ← freshness has_pipeline timeframe (Some (al_as_of r));
  if negb fresh then mret []
  else
    candles ← read_candles symbol timeframe 300;
    now ← clock_now;
    candles ← lift (filter_closed_candles candles timeframe now);
    ctx ← with_futures symbol candles (al_structure r) (li_zones (al_liquidity r))
            (ob_order_blocks (al_order_blocks r)) (vw_current (al_vwap r));
    rows ← _alerts_by_symbol symbol timeframe;
    triggers ← foldM (λ triggers a,
      match l_definition a with
      | SimpleAlert _ _ condition cooldown _ _ =>
          now ← clock_now;
          if decide (state_at now a ≠ Armed) then mret triggers
          else
            t ← trigger_simple symbol timeframe a condition cooldown (al_as_of r) ctx; mret (triggers ++ t)
      | CompositeAlert _ _ _ _ => mret triggers
      end) [] rows;
    more ← _evaluate_composites_for symbol timeframe;
    mret (triggers ++ more).

Definition evaluate_symbol (symbol timeframe : string) : PM X (list trigger) :=
  rows ← _alerts_by_symbol symbol timeframe;
  triggers ← foldM (λ triggers a,
    match l_definition a with
    | SimpleAlert _ _ condition cooldown _ _ =>
        now ← clock_now;
        if decide (state_at now a ≠ Armed) then mret triggers
        else
          ctx ← _clause_context symbol timeframe;
          match ctx with
          | None => mret triggers
          | Some (as_of, ctx) =>
              t ← trigger_simple symbol timeframe a condition cooldown as_of ctx; mret (triggers ++ t)
          end
    | CompositeAlert _ _ _ _ => mret triggers
    end) [] rows;
  more ← _evaluate_composites_for symbol timeframe;
  mret (triggers ++ more).
End Evaluation.

(** ** The engine and the alarms, tied together

    An analysis evaluates alerts, and an alert with no stored analysis asks for
    one.  [depth] bounds the nesting, with [out] beyond it; the budget of the alarms
    bounds it in the code, see [analysis_terminates]. *)
Fixpoint engine_within (out : string → string → analysis → PM X unit) (depth : nat)
    (symbol timeframe : string) (lookback : Z) : PM X analysis :=
  analyze has_pipeline
    (match depth with
     | O => out
     | S depth => λ symbol timeframe r, _ ← on_analysis_updated (engine_within out depth) symbol timeframe r; mret tt
     end) symbol timeframe lookback.

Definition engine_analyze : nat → string → string → Z → PM X analysis :=
  engine_within (λ _ _ _, throw RuntimeError).

(** ** Queries *)

(** The pairs all alerts need, sorted. *)
Definition insert_pair (x : string * string) (l : list (string * string)) : list (string * string) :=
  (fix go l := match l with
    | [] => [x]
    | y :: l' => if bool_decide (x = y) then l
                 else if String.ltb x.1 y.1 || String.eqb x.1 y.1 && String.ltb x.2 y.2 then x :: l
                 else y :: go l'
    end) l.

Definition pairs_of (def : alert_definition) : result (list (string * string)) :=
  match def with
  | SimpleAlert s t _ _ _ _ => Ok [(s, t)]
  | CompositeAlert _ clauses _ _ => res_map clause_symbols clauses
  end.

Definition alert_symbols : PM X (list (string * string)) :=
  rows ← in_store (db_read alerts);
  pairs ← lift (res_map (pairs_of ∘ l_definition) rows);
  mret (foldr insert_pair [] (concat pairs)).

(** [ORDER BY triggered_at DESC, id DESC LIMIT limit+1 OFFSET cursor] *)
Definition get_triggered_alerts (alert_id : option string) (limit : Z) (cursor : option Z)
    : PM X (list triggered_row * option Z) :=
  _ ← lift (reject_if (negb ((1 <=? limit) && (limit <=? 500))%Z) INVALID_REQUEST);
  let offset := default 0%Z cursor in
  rows ← in_store (db_read (λ d,
    let l := match alert_id with
             | Some i => if Str.empty i then triggered_alerts d
                         else List.filter (λ t, String.eqb (t_alert_id t) i) (triggered_alerts d)
             | None => triggered_alerts d
             end in
    firstn (Z.to_nat limit + 1)
      (skipn (Z.to_nat offset) (order_by (λ t, - t_triggered_at t)%Z (reverse l)))));
  let page := firstn (Z.to_nat limit) rows in
  mret (page, if (Z.of_nat (length rows) >? limit)%Z then Some (offset + Z.of_nat (length page))%Z else None).

(** One turn of [_alarm_eval_loop] of [daemon/main.py]: a pair that fails is
    skipped. *)
Definition alarm_eval_pass (depth : nat) : PM X unit :=
  _ ← begin_evaluation_pass;
  pairs ← alert_symbols;
  foldM (λ _ p, _ ← attempt (evaluate_symbol (engine_analyze depth) p.1 p.2); mret tt) tt pairs.
End Alarms.
