(* ===== verification/AlarmsSpec.v ===== *)
(** What holds of the alarms of [pa/alarms.py] whatever is evaluated: they only
    propose orders, fire once per window, and the analysis they ask for ends. *)

From Stdlib Require Import ZArith String.
From stdpp Require Import pretty.
From S2P Require Import Prelude PyFloat PyVal Errors Monad Swings OrderBlocks Liquidity Vwap Filters.
From S2P Require Import Broker Tables Db Sample Feed Klines History Engine Alarms.
Local Open Scope string_scope.
Local Open Scope list_scope.

(** ** What data and analysis leave alone

    Everything but the market tables, the clock, the universe and the queue. *)

Definition quiet_view {X} (s : services X) :=
  (set_market (λ _, empty_market) (w_db (sv_world s)), w_closed (sv_world s), w_trace (sv_world s), sv_pa s).
Definition quiet {X} : relation (services X) := λ s s', quiet_view s' = quiet_view s.

#[export] Instance quiet_preorder {X} : PreOrder (quiet (X:=X)).
Proof. unfold quiet. split; [by intros s|]. intros ??? ??; congruence. Qed.

Lemma set_market_erased (f : market_db → market_db) d :
  set_market (λ _, empty_market) (set_market f d) = set_market (λ _, empty_market) d.
Proof. done. Qed.

Create HintDb quiet.
Create HintDb ewalk.
Create HintDb alike.

(** Walk a program of the services, down to the steps [db] knows. *)
Ltac pwalk1 :=
  match goal with
  | |- steps _ (let x := _ in _) => cbv zeta
  | |- steps _ (mbind _ _) => apply steps_bind; [tc_solve| |intros ?]
  | |- steps _ (mret _) => apply steps_ret; tc_solve
  | |- steps _ (throw _) => apply steps_throw; tc_solve
  | |- steps _ (raise_ _) => apply steps_raise; tc_solve
  | |- steps _ (lift _) => apply steps_lift; tc_solve
  | |- steps _ (gets _) => apply steps_gets; tc_solve
  | |- steps _ (attempt _) => apply steps_attempt
  | |- steps _ (foldM _ _ _) => apply steps_foldM; [tc_solve|intros ? ? ?]
  | |- steps _ (match ?x with _ => _ end) => destruct x eqn:?
  end.
Ltac pwalk := repeat first [solve [auto with quiet nocore] | pwalk1].

Section Quiet.
Context {X : Type} `{Ext X, PyEnv, Rest X, FeedConfig}.

Lemma quiet_ext {A} (m : ST X A) : steps quiet (in_store (on_ext m)).
Proof. intros s. unfold in_store, on_ext. by destruct (m _). Qed.
Lemma quiet_clock_now : steps (quiet (X:=X)) clock_now.
Proof. apply quiet_ext. Qed.
Lemma quiet_fetch futures path params weight : steps (quiet (X:=X)) (fetch futures path params weight).
Proof. apply quiet_ext. Qed.
Lemma quiet_read {A} (f : db → A) : steps quiet (in_store (X:=X) (db_read f)).
Proof. by intros s. Qed.
Lemma quiet_services_modify f : (∀ s : services X, quiet s (f s)) → steps quiet (modify f).
Proof. intros Hf s. apply Hf. Qed.
Hint Resolve quiet_clock_now quiet_fetch quiet_read : quiet.
Hint Extern 3 (steps quiet (modify _)) => apply quiet_services_modify; reflexivity : quiet.

(** A transaction on the market tables. *)
Lemma quiet_market {A} (m : M X A) :
  steps (λ w w', set_market (λ _, empty_market) (w_db w') = set_market (λ _, empty_market) (w_db w) ∧
                 w_closed w' = w_closed w ∧ w_trace w' = w_trace w) m →
  steps quiet (in_store (db_write m)).
Proof.
  intros Hm s. specialize (Hm (sv_world s)). unfold in_store, db_write, quiet, quiet_view.
  destruct (w_closed (sv_world s)) eqn:Ec; simpl; [by rewrite Ec|].
  destruct (m (sv_world s)) as [[a|e] w']; destruct Hm as (Hd & Hc & Ht); simpl in *; congruence.
Qed.

Lemma quiet_server_now : steps (quiet (X:=X)) server_now.
Proof. unfold server_now. pwalk. Qed.
Lemma quiet_universe_sync : steps (quiet (X:=X)) universe_sync.
Proof. unfold universe_sync, universe_fetch. pwalk. Qed.
Hint Resolve quiet_server_now quiet_universe_sync : quiet.
Lemma quiet_ensure_contains symbol : steps (quiet (X:=X)) (ensure_contains symbol).
Proof. unfold ensure_contains. pwalk. Qed.
Lemma quiet_futures_set : steps (quiet (X:=X)) _futures_symbol_set.
Proof. unfold _futures_symbol_set, futures_refresh. pwalk. Qed.
Hint Resolve quiet_ensure_contains quiet_futures_set : quiet.
Lemma quiet_ensure_futures symbol : steps (quiet (X:=X)) (_ensure_futures_symbol symbol).
Proof. unfold _ensure_futures_symbol. pwalk. Qed.
Lemma quiet_is_warm rows symbol tf source : steps (quiet (X:=X)) (_is_warm rows symbol tf source).
Proof. unfold _is_warm, _expected_latest_closed. pwalk. Qed.
Lemma quiet_kfetch symbol tf limit source : steps (quiet (X:=X)) (_fetch symbol tf limit source).
Proof. unfold _fetch. pwalk. Qed.
Lemma quiet_kread symbol tf limit source : steps (quiet (X:=X)) (_read_candles symbol tf limit source).
Proof. unfold _read_candles. pwalk. Qed.
Lemma quiet_kstore symbol tf source rows : steps (quiet (X:=X)) (_store symbol tf source rows).
Proof. unfold _store. pwalk. apply quiet_market. by intros w. Qed.
Lemma quiet_enqueue symbol tf limit priority source :
  steps (quiet (X:=X)) (_enqueue symbol tf limit priority source).
Proof. intros s. unfold _enqueue. by destruct (find_in_flight _ _). Qed.
Hint Resolve quiet_ensure_futures quiet_is_warm quiet_kfetch quiet_kread quiet_kstore quiet_enqueue : quiet.
Lemma quiet_worker_step : steps (quiet (X:=X)) worker_step.
Proof. unfold worker_step, run_job. pwalk. Qed.
Hint Resolve quiet_worker_step : quiet.
Lemma quiet_await_turns fuel seq : steps (quiet (X:=X)) (await_turns fuel seq).
Proof. induction fuel as [|fuel IH]; simpl; pwalk. Qed.
Hint Resolve quiet_await_turns : quiet.
Lemma quiet_get_candles symbol tf limit source : steps (quiet (X:=X)) (get_candles symbol tf limit source).
Proof. unfold get_candles, all_candles, await. pwalk. Qed.
Lemma quiet_store_payload {P} `{PATable P} symbol tf version from (p : P) :
  steps (quiet (X:=X)) (in_store (_store_payload symbol tf version from p)).
Proof.
  unfold _store_payload. apply quiet_market. intros w. unfold time_now, on_ext, mbind, ST_bind. simpl.
  by destruct (ext_time _).
Qed.
Hint Resolve quiet_get_candles quiet_store_payload : quiet.
Lemma quiet_current {P} `{PATable P} symbol tf : steps (quiet (X:=X)) (in_store (_read_current (P:=P) symbol tf)).
Proof. apply quiet_read. Qed.
Hint Resolve quiet_current : quiet.

Lemma quiet_now has_pipeline : steps (quiet (X:=X)) (_now has_pipeline).
Proof. unfold _now. pwalk. Qed.
Lemma quiet_engine_candles symbol tf n : steps (quiet (X:=X)) (Engine.read_candles symbol tf n).
Proof. unfold read_candles. pwalk. Qed.
Hint Resolve quiet_now quiet_engine_candles : quiet.
Lemma quiet_load_candles has_pipeline symbol tf n : steps (quiet (X:=X)) (_load_candles has_pipeline symbol tf n).
Proof. unfold _load_candles. pwalk. Qed.
Lemma quiet_freshness has_pipeline tf t : steps (quiet (X:=X)) (Engine.freshness has_pipeline tf t).
Proof. unfold freshness. pwalk. Qed.
Lemma quiet_load_futures symbol : steps (quiet (X:=X)) (load_futures_context symbol).
Proof. unfold load_futures_context. pwalk. Qed.
Lemma quiet_load_series symbol t n : steps (quiet (X:=X)) (load_futures_series symbol t n).
Proof. unfold load_futures_series. pwalk. Qed.
Lemma quiet_store_analysis r : steps (quiet (X:=X)) (store_analysis r).
Proof.
  unfold store_analysis. intros s.
  assert (∀ (m : M X unit) (k : M X unit), steps quiet (in_store m) → steps quiet (in_store k) →
    steps quiet (in_store (_ ← m; k))) as Hseq.
  { intros m k Hm Hk s'. specialize (Hm s'). unfold in_store, mbind, ST_bind in *.
    destruct (m (sv_world s')) as [[[]|e] w]; [|exact Hm]. specialize (Hk (set_world w s')). simpl in Hk.
    destruct (k w) as [r' w']. etrans; [exact Hm|exact Hk]. }
  apply Hseq; [|apply Hseq]; apply quiet_store_payload.
Qed.
Hint Resolve quiet_load_candles quiet_freshness quiet_load_futures quiet_load_series quiet_store_analysis : quiet.
Lemma quiet_latest_row symbol t : steps (quiet (X:=X)) (latest_row symbol t).
Proof. unfold latest_row. pwalk. Qed.
Hint Resolve quiet_latest_row : quiet.
Lemma quiet_with_futures symbol candles st zones obs vwap :
  steps (quiet (X:=X)) (with_futures symbol candles st zones obs vwap).
Proof. unfold with_futures. pwalk. Qed.
Lemma quiet_stored_analysis symbol tf : steps (quiet (X:=X)) (stored_analysis symbol tf).
Proof. unfold stored_analysis. pwalk. Qed.
Lemma quiet_alerts_by_symbol symbol tf : steps (quiet (X:=X)) (_alerts_by_symbol symbol tf).
Proof. unfold _alerts_by_symbol. intros s. unfold in_store, time_now, on_ext, mbind, ST_bind. by destruct (ext_time _). Qed.
Lemma quiet_composites : steps (quiet (X:=X)) _composite_alerts.
Proof. unfold _composite_alerts. pwalk. Qed.
Lemma quiet_alert_symbols : steps (quiet (X:=X)) alert_symbols.
Proof. unfold alert_symbols. pwalk. Qed.
Lemma quiet_list_alerts : steps (quiet (X:=X)) list_alerts.
Proof. unfold list_alerts. pwalk. Qed.
Lemma quiet_triggered a n c : steps (quiet (X:=X)) (get_triggered_alerts a n c).
Proof. unfold get_triggered_alerts. pwalk. Qed.
End Quiet.
#[export] Hint Resolve quiet_clock_now quiet_server_now quiet_now quiet_engine_candles quiet_load_candles
  quiet_freshness quiet_load_futures quiet_load_series quiet_store_analysis quiet_latest_row quiet_with_futures
  quiet_stored_analysis quiet_alerts_by_symbol quiet_composites quiet_alert_symbols quiet_list_alerts
  quiet_triggered quiet_read quiet_get_candles : quiet.

(** ** What a trigger does *)

(** What [_maybe_trigger] leaves when the alert [a] fires: the row of the window, the
    proposals [new], and the alert's new state. *)
Definition fired (a : alert_row) (trigger_key : string) (payload : list (string * pyval)) (cooldown now : Z)
    (new : list pending_row) (d : db) : db :=
  set_alerts (update_where (is_alert (l_alert_id a))
      (if (0 <? cooldown)%Z then set_alert_state Cooldown (Some (now + cooldown)%Z) now
       else set_alert_state Triggered None now))
    (set_pending_orders (λ l, l ++ new)
      (set_triggered_alerts (λ l, l ++ [mk_triggered (l_alert_id a) trigger_key (PDict payload) now]) d)).

(** The order an alert proposes, as its definition asks for it. *)
Inductive proposal `{PyEnv} (a : alert_row) (now : Z) : list pending_row → Prop :=
| proposes_nothing : order_spec_of (l_definition a) = None → proposal a now []
| proposes_order spec order_id account_id symbol side order_type :
    order_spec_of (l_definition a) = Some spec →
    text_column (spec_get "account_id" spec) = Ok account_id →
    text_column (spec_get "symbol" spec) = Ok symbol →
    text_column (spec_get "side" spec) = Ok side →
    text_column (default (PStr "market") (assoc "order_type" spec)) = Ok order_type →
    proposal a now
      [mk_pending order_id (l_alert_id a) account_id symbol side order_type (spec_get "entry" spec)
         (spec_get "stop_loss" spec) (spec_get "risk_pct" spec) P_awaiting_approval (note_of (l_definition a)) now
         None None None None None None None None].

(** Whether the alert may fire for the window. *)
Definition fires (a : alert_row) (trigger_key : string) (now : Z) (d : db) : bool :=
  bool_decide (state_at now a = Armed)
  && negb (existsb (triggered_at_window (l_alert_id a) trigger_key) (triggered_alerts d)).

Lemma find_alert_update {A} (p : A → bool) f (l : list A) :
  (∀ x, p (f x) = p x) → List.find p (update_where p f l) = f <$> List.find p l.
Proof.
  intros Hp. unfold update_where. induction l as [|x l IH]; [done|].
  change (List.find p ((if p x then f x else x) :: ((λ x, if p x then f x else x) <$> l)) = f <$> List.find p (x :: l)).
  cbn [List.find]. destruct (p x) eqn:E; [by rewrite Hp, E|]. by rewrite E, IH.
Qed.

(** The alert after it fired: off until the cooldown is over. *)
Lemma fired_state a key payload cooldown now new d :
  find_alert (l_alert_id a) d = Some a → (0 ≤ cooldown)%Z →
  ∃ a', find_alert (l_alert_id a) (fired a key payload cooldown now new d) = Some a' ∧
    ∀ t, (now ≤ t)%Z → state_at t a' = if (t <? now + cooldown)%Z then Cooldown else Armed.
Proof.
  intros Hf Hc. unfold find_alert, fired. cbn [alerts set_alerts set_pending_orders set_triggered_alerts].
  rewrite find_alert_update by (intros x; by destruct (0 <? cooldown)%Z).
  unfold find_alert in Hf. rewrite Hf. eexists. split; [done|]. intros t Ht.
  destruct (Z.ltb_spec 0 cooldown); unfold state_at, _lazy_state; simpl; [done|].
  destruct (Z.ltb_spec t (now + cooldown)); [lia|done].
Qed.

Section Trigger.
Context {X : Type} `{Ext X, PyEnv, Notifier X}.

Lemma find_alert_id alert_id d a : find_alert alert_id d = Some a → l_alert_id a = alert_id.
Proof. intros Hf%find_some. destruct Hf as [_ Hf%String.eqb_eq]. done. Qed.

Lemma trigger_tx_spec alert_id key payload cooldown now (w : world X) :
  wp (trigger_tx alert_id key payload cooldown now) (λ r w',
    w_closed w' = w_closed w ∧ w_trace w' = w_trace w ∧
    match r with
    | Err e => match find_alert alert_id (w_db w) with
               | None => e = RasatError NOT_FOUND ∧ w_db w' = w_db w
               | Some a => fires a key now (w_db w) = true ∧ order_spec_of (l_definition a) ≠ None
               end
    | Ok None => ∃ a, find_alert alert_id (w_db w) = Some a ∧ fires a key now (w_db w) = false ∧ w_db w' = w_db w
    | Ok (Some (t, def)) => ∃ a new, find_alert alert_id (w_db w) = Some a ∧ fires a key now (w_db w) = true ∧
        t = mk_trigger alert_id key now ∧ def = l_definition a ∧ proposal a now new ∧
        w_db w' = fired a key payload cooldown now new (w_db w)
    end) w.
Proof.
  unfold trigger_tx. apply wp_bind, wp_db_read.
  destruct (find_alert alert_id (w_db w)) as [a|] eqn:Ea; [|by apply wp_raise].
  pose proof (find_alert_id _ _ _ Ea) as Hid.
  assert (fires a key now (w_db w) = bool_decide (state_at now a = Armed)
    && negb (existsb (triggered_at_window alert_id key) (triggered_alerts (w_db w)))) as Hfires
    by (unfold fires; by rewrite Hid).
  destruct (decide (state_at now a ≠ Armed)) as [Hs|Hs].
  { apply wp_ret. rewrite bool_decide_false in Hfires by done. eauto 10. }
  apply dec_stable in Hs. rewrite bool_decide_true in Hfires by done. apply wp_bind, wp_db_read.
  destruct (existsb _ (triggered_alerts (w_db w))) eqn:Ex.
  { apply wp_ret. eauto 10. }
  unfold insert_triggered. apply wp_bind, wp_bind, wp_db_read. cbn [t_alert_id t_trigger_key]. rewrite Ex.
  apply wp_db_modify. apply wp_bind.
  destruct (order_spec_of (l_definition a)) as [spec|] eqn:Espec.
  - unfold propose_order, insert_pending. apply wp_bind, wp_uuid. intros order_id x.
    repeat (apply wp_lift_bind; [intros e _; by rewrite ?Espec|intros ? ?]).
    apply wp_bind, wp_db_read.
    destruct (existsb _ (pending_orders _)); [apply wp_throw; by rewrite ?Espec|].
    apply wp_db_modify, wp_bind, wp_db_modify, wp_ret. split; [done|]. split; [done|].
    exists a. eexists. do 4 (split; [done|]).
    split; [rewrite <-Hid; by econstructor|]. unfold fired. rewrite Hid. reflexivity.
  - apply wp_ret, wp_bind, wp_db_modify, wp_ret. split; [done|]. split; [done|].
    exists a, []. do 4 (split; [done|]). split; [by constructor|]. unfold fired. rewrite Hid.
    unfold set_pending_orders, set_alerts, set_triggered_alerts; simpl. by rewrite app_nil_r.
Qed.

Lemma notify_spec definition payload alert_id (w : world X) :
  wp (_notify definition payload alert_id)
    (λ r w', r = Ok tt ∧ w_db w' = w_db w ∧ w_closed w' = w_closed w ∧ w_trace w' = w_trace w) w.
Proof.
  unfold _notify. destruct notify_command as [c|]; [|by apply wp_ret].
  destruct (Str.empty c); [by apply wp_ret|]. destruct (shlex_split c); [|by apply wp_ret].
  apply wp_on_ext. by intros r x [= <- <-].
Qed.

(** The call, with the store before and after. *)
Definition trigger_outcome (alert_id key : string) (payload : list (string * pyval)) (cooldown now : Z)
    (r : result (option trigger)) (d d' : db) : Prop :=
  match find_alert alert_id d with
  | None => r = Err (RasatError NOT_FOUND) ∧ d' = d
  | Some a =>
      if fires a key now d then
        (∃ new, r = Ok (Some (mk_trigger alert_id key now)) ∧ proposal a now new ∧
                d' = fired a key payload cooldown now new d) ∨
        (∃ e, r = Err e ∧ order_spec_of (l_definition a) ≠ None ∧ d' = d)
      else r = Ok None ∧ d' = d
  end.

Lemma maybe_trigger_run alert_id key payload cooldown (s : services X) :
  let '(r, s') := _maybe_trigger alert_id key payload cooldown s in
  let now := (ext_time (w_ext (sv_world s))).1 in
  sv_pa s' = sv_pa s ∧ w_trace (sv_world s') = w_trace (sv_world s) ∧ w_closed (sv_world s') = w_closed (sv_world s) ∧
  (w_closed (sv_world s) = true → r = Err RuntimeError ∧ w_db (sv_world s') = w_db (sv_world s)) ∧
  (w_closed (sv_world s) = false →
   trigger_outcome alert_id key payload cooldown now r (w_db (sv_world s)) (w_db (sv_world s'))).
Proof.
  unfold _maybe_trigger, in_store, time_now, on_ext. unfold mbind at 1, ST_bind at 1. cbv beta.
  destruct (ext_time (w_ext (sv_world s))) as [now x]. cbv iota beta. set (w := mk_world _ _ x _).
  cbn [fst]. unfold mbind, ST_bind, db_write. cbn [w_closed w]. destruct (w_closed (sv_world s)) eqn:Ec; [done|].
  pose proof (trigger_tx_spec alert_id key payload cooldown now w) as Htx. unfold wp in Htx.
  destruct (trigger_tx alert_id key payload cooldown now w) as [[[[t def]|]|e] w1]; simpl in Htx.
  - destruct Htx as (Hc & Ht & a & new & Ha & Hf & -> & -> & Hp & Hd).
    pose proof (notify_spec (l_definition a) payload alert_id w1) as Hn. unfold wp in Hn.
    destruct (_notify _ _ _ w1) as [r2 w2]. simpl in Hn. destruct Hn as (-> & Hd2 & Hc2 & Ht2). simpl in *.
    split_and!; [done|congruence|congruence|done|]. intros _. unfold trigger_outcome. rewrite Ha, Hf. left.
    exists new. split_and!; [done|done|congruence].
  - destruct Htx as (Hc & Ht & a & Ha & Hf & Hd). simpl in *. split_and!; [done|congruence|congruence|done|].
    intros _. unfold trigger_outcome. rewrite Ha, Hf. by rewrite Hd.
  - destruct Htx as (Hc & Ht & Hd). simpl in *. split_and!; [done|congruence|congruence|done|].
    intros _. unfold trigger_outcome. destruct (find_alert alert_id (w_db (sv_world s))) as [a|].
    + destruct Hd as [-> Hspec]. right. eauto.
    + by destruct Hd as [-> _].
Qed.
End Trigger.

(** ** Only proposals *)

(** The tables that trading rests on. *)
Definition trading_view (d : db) :=
  (accounts d, risk_policy d, risk_override d, orders d, audit_log d, emergency_reconciled d).
Definition window_of (t : triggered_row) : string * string := (t_alert_id t, t_trigger_key t).

Record proposing_db (d d' : db) : Prop := {
  pr_trading : trading_view d' = trading_view d;
  pr_added : ∃ new fired,
    pending_orders d' = pending_orders d ++ new ∧ triggered_alerts d' = triggered_alerts d ++ fired ∧
    Forall (λ q, q_status q = P_awaiting_approval) new ∧
    map q_alert_id new `sublist_of` map t_alert_id fired;
  pr_windows : NoDup (map window_of (triggered_alerts d)) → NoDup (map window_of (triggered_alerts d')) }.

Definition proposing {X} : relation (services X) := λ s s',
  proposing_db (w_db (sv_world s)) (w_db (sv_world s')) ∧ w_trace (sv_world s') = w_trace (sv_world s) ∧
  w_closed (sv_world s') = w_closed (sv_world s).

Lemma proposing_db_same d d' :
  trading_view d' = trading_view d → pending_orders d' = pending_orders d →
  triggered_alerts d' = triggered_alerts d → proposing_db d d'.
Proof.
  intros Ht Hp Hg. split; [done| |by rewrite Hg]. exists [], []. rewrite !app_nil_r. done.
Qed.

#[export] Instance proposing_db_preorder : PreOrder proposing_db.
Proof.
  split; [intros d; by apply proposing_db_same|].
  intros d1 d2 d3 [Ht1 (n1 & f1 & Hp1 & Hg1 & Ha1 & Hs1) Hw1] [Ht2 (n2 & f2 & Hp2 & Hg2 & Ha2 & Hs2) Hw2].
  split; [congruence| |auto]. exists (n1 ++ n2), (f1 ++ f2).
  rewrite Hp2, Hp1, Hg2, Hg1, <-!app_assoc. split_and!; [done|done|by apply Forall_app|].
  rewrite !map_app. by apply sublist_app.
Qed.
#[export] Instance proposing_preorder {X} : PreOrder (proposing (X:=X)).
Proof.
  split; [intros s; split; [reflexivity|by split]|].
  intros x y z (H1 & ? & ?) (H2 & ? & ?). split; [by etrans|split; congruence].
Qed.

Lemma quiet_proposing {X} (s s' : services X) : quiet s s' → proposing s s'.
Proof.
  unfold quiet, quiet_view. intros [= Ha Hb Hc Hd He Hf Hg Hh Hi Hcl Htr _].
  split; [|done]. apply proposing_db_same; unfold trading_view; congruence.
Qed.

(** A window that has fired does not fire again. *)
Lemma fired_proposing `{PyEnv} a key payload cooldown now new d :
  proposal a now new → fires a key now d = true → proposing_db d (fired a key payload cooldown now new d).
Proof.
  intros Hp [_ Hx%negb_true_iff]%andb_true_iff. split; [done| |].
  - exists new, [mk_triggered (l_alert_id a) key (PDict payload) now]. split; [done|]. split; [done|].
    destruct Hp; [split; [done|apply sublist_nil_l]|]. split; [by repeat constructor|]. reflexivity.
  - intros Hn. cbn [fired triggered_alerts set_alerts set_pending_orders set_triggered_alerts].
    rewrite map_app. apply NoDup_app. split_and!; [done| |by apply NoDup_singleton].
    intros k (t & -> & Ht)%list_elem_of_fmap Hk%list_elem_of_singleton.
    assert (existsb (triggered_at_window (l_alert_id a) key) (triggered_alerts d) = true) as Hy; [|congruence].
    apply existsb_exists. exists t. split; [by apply list_elem_of_In|].
    unfold window_of in Hk. injection Hk as Hk1 Hk2. unfold triggered_at_window. by rewrite Hk1, Hk2, !String.eqb_refl.
Qed.

Section Proposing.
Context {X : Type} `{Ext X, PyEnv, Rest X, FeedConfig, Notifier X}.
Context (has_pipeline : bool) (compute_budget : nat).

Lemma proposing_maybe_trigger alert_id key payload cooldown :
  steps (proposing (X:=X)) (_maybe_trigger alert_id key payload cooldown).
Proof.
  intros s. pose proof (maybe_trigger_run alert_id key payload cooldown s) as Hrun.
  destruct (_maybe_trigger alert_id key payload cooldown s) as [r s']. simpl.
  destruct Hrun as (_ & Ht & Hc & Hclosed & Hopen). unfold proposing. rewrite Ht, Hc. split; [|done].
  destruct (w_closed (sv_world s)); [by destruct (Hclosed eq_refl) as [_ ->]|].
  specialize (Hopen eq_refl). unfold trigger_outcome in Hopen.
  destruct (find_alert alert_id _) as [a|]; [|by destruct Hopen as [_ ->]].
  destruct (fires a key _ _) eqn:Ef; [|by destruct Hopen as [_ ->]].
  destruct Hopen as [(new & _ & Hp & ->)|(e & _ & _ & ->)]; [|reflexivity]. by apply fired_proposing.
Qed.

(** A transaction on the alerts. *)
Lemma proposing_alerts {A} (m : M X A) :
  steps (λ w w', (∃ f, w_db w' = set_alerts f (w_db w)) ∧ w_trace w' = w_trace w ∧ w_closed w' = w_closed w) m →
  steps proposing (in_store (db_write m)).
Proof.
  intros Hm s. specialize (Hm (sv_world s)). unfold in_store, db_write.
  destruct (w_closed (sv_world s)) eqn:Ec; simpl; [by split; [apply proposing_db_same|]|].
  destruct (m (sv_world s)) as [[a|e] w']; destruct Hm as ([f Hd] & Ht & Hc); simpl in *;
    (split; [simpl; rewrite ?Hd; by apply proposing_db_same|simpl; split; congruence]).
Qed.

(** ** Evaluation, step by step

    For a relation that data and analysis respect, and a trigger, and the counting
    of a computation. *)

Context (R : relation (services X)) `{!PreOrder R}.
Context (Rquiet : ∀ s s', quiet s s' → R s s').
Context (Rtrigger : ∀ alert_id key payload cooldown, steps R (_maybe_trigger alert_id key payload cooldown)).
Context (Rused : ∀ s, R s (set_pa (mk_pa (S (pa_alarm_used (sv_pa s))) (pa_scan_used (sv_pa s))
                             (pa_scan_deferred (sv_pa s)) (pa_last_processed (sv_pa s))) s)).

Lemma steps_quiet {A} (m : PM X A) : steps quiet m → steps R m.
Proof. apply steps_mono, Rquiet. Qed.
Hint Extern 1 (steps R _) => apply steps_quiet; solve [auto with quiet nocore] : ewalk.
Hint Resolve Rtrigger : ewalk.
Ltac ewalk := repeat first [solve [auto with ewalk nocore] | pwalk1].

Section Body.
Context (analyze : string → string → Z → PM X analysis).
Context (Ranalyze : ∀ symbol tf n, steps R (analyze symbol tf n)).
Hint Resolve Ranalyze : ewalk.

Lemma steps_count (p : pa_state) {A} (k : PM X A) s :
  sv_pa s = p → steps R k →
  R s ((_ ← modify (set_pa (mk_pa (S (pa_alarm_used p)) (pa_scan_used p) (pa_scan_deferred p) (pa_last_processed p))); k) s).2.
Proof. intros <- Hk. etrans; [apply Rused|apply Hk]. Qed.

Lemma steps_within_budget symbol tf : steps R (compute_within_budget compute_budget analyze symbol tf).
Proof.
  intros s. unfold compute_within_budget. unfold mbind at 1, ST_bind at 1, gets. cbv beta iota.
  destruct (compute_budget <=? _)%nat; [reflexivity|]. apply steps_count; [done|]. ewalk.
Qed.
Hint Resolve steps_within_budget : ewalk.
Lemma steps_clause_context symbol tf : steps R (_clause_context has_pipeline compute_budget analyze symbol tf).
Proof. unfold _clause_context. ewalk. Qed.
Hint Resolve steps_clause_context : ewalk.

Lemma steps_clause_contexts clauses : steps R (clause_contexts has_pipeline compute_budget analyze clauses).
Proof. induction clauses as [|c clauses IH]; simpl; ewalk. Qed.
Hint Resolve steps_clause_contexts : ewalk.

Lemma steps_composite a : steps R (_evaluate_composite has_pipeline compute_budget analyze a).
Proof. unfold _evaluate_composite. ewalk. Qed.
Hint Resolve steps_composite : ewalk.
Lemma steps_composites symbol tf : steps R (_evaluate_composites_for has_pipeline compute_budget analyze symbol tf).
Proof. unfold _evaluate_composites_for. ewalk. Qed.
Hint Resolve steps_composites : ewalk.
Lemma steps_trigger_simple symbol tf a c cooldown t ctx : steps R (trigger_simple symbol tf a c cooldown t ctx).
Proof. unfold trigger_simple. ewalk. Qed.
Hint Resolve steps_trigger_simple : ewalk.
Lemma steps_updated symbol tf r : steps R (on_analysis_updated has_pipeline compute_budget analyze symbol tf r).
Proof. unfold on_analysis_updated. ewalk. Qed.
Lemma steps_evaluate symbol tf : steps R (evaluate_symbol has_pipeline compute_budget analyze symbol tf).
Proof. unfold evaluate_symbol. ewalk. Qed.
End Body.

Lemma steps_analyze updated symbol tf n :
  (∀ symbol tf r, steps R (updated symbol tf r)) → steps R (Engine.analyze has_pipeline updated symbol tf n).
Proof. intros Hu. unfold Engine.analyze. ewalk; apply Hu. Qed.

Lemma steps_engine depth symbol tf n : steps R (engine_analyze has_pipeline compute_budget depth symbol tf n).
Proof.
  unfold engine_analyze. revert symbol tf n.
  induction depth as [|depth IH]; intros symbol tf n; simpl; apply steps_analyze; intros; ewalk.
  apply steps_updated. exact IH.
Qed.
End Proposing.

(** ** The nesting ends *)

Section Depth.
Context {X : Type} `{Ext X, PyEnv, Rest X, FeedConfig, Notifier X}.
Context (has_pipeline : bool) (compute_budget : nat).

Definition used (s : services X) : nat := pa_alarm_used (sv_pa s).
(** Computations are counted, never uncounted. *)
Definition grows : relation (services X) := λ s s', (used s ≤ used s')%nat.

#[local] Instance grows_preorder : PreOrder grows.
Proof. unfold grows. split; [by intros s|intros ???; lia]. Qed.

Lemma quiet_grows (s s' : services X) : quiet s s' → grows s s'.
Proof. unfold quiet, quiet_view, grows, used. intros Hq. assert (sv_pa s' = sv_pa s) as -> by congruence. lia. Qed.
Lemma trigger_grows alert_id key payload cooldown : steps grows (_maybe_trigger alert_id key payload cooldown).
Proof.
  intros s. pose proof (maybe_trigger_run alert_id key payload cooldown s) as Hrun.
  destruct (_maybe_trigger alert_id key payload cooldown s) as [r s']. destruct Hrun as [Hp _].
  unfold grows, used. simpl. by rewrite Hp.
Qed.
Lemma count_grows (s : services X) : grows s (set_pa (mk_pa (S (pa_alarm_used (sv_pa s))) (pa_scan_used (sv_pa s))
  (pa_scan_deferred (sv_pa s)) (pa_last_processed (sv_pa s))) s).
Proof. unfold grows, used. simpl. lia. Qed.

(** Two programs that run alike once [u] computations are counted. *)
Definition alike {A} (u : nat) (m m' : PM X A) : Prop := ∀ s, (u ≤ used s)%nat → m s = m' s.

Lemma alike_bind {A B} u (m m' : PM X A) (k k' : A → PM X B) :
  steps grows m → alike u m m' → (∀ a, alike u (k a) (k' a)) → alike u (m ≫= k) (m' ≫= k').
Proof.
  intros Hg Hm Hk s Hs. specialize (Hg s). unfold mbind, ST_bind. rewrite <-(Hm s Hs).
  destruct (m s) as [[a|e] s']; [|done]. apply Hk. unfold grows in Hg. simpl in Hg. lia.
Qed.
Lemma alike_same_bind {A B} u (m : PM X A) (k k' : A → PM X B) :
  steps grows m → (∀ a, alike u (k a) (k' a)) → alike u (m ≫= k) (m ≫= k').
Proof. intros Hg. apply alike_bind; [done|by intros s]. Qed.
Lemma alike_foldM {A B} u (f f' : B → A → PM X B) b l :
  (∀ b a, steps grows (f b a)) → (∀ b a, alike u (f b a) (f' b a)) → alike u (foldM f b l) (foldM f' b l).
Proof.
  intros Hg Hf. revert b. induction l as [|a l IH]; intros b; simpl; [by intros s|].
  apply alike_bind; [apply Hg|apply Hf|exact IH].
Qed.

Section Alike.
Context (u : nat) (f g : string → string → Z → PM X analysis).
Context (fgrows : ∀ symbol tf n, steps grows (f symbol tf n)).
Context (fg : (u < compute_budget)%nat → ∀ symbol tf n, alike (S u) (f symbol tf n) (g symbol tf n)).

Ltac grow1 := first
  [ apply (steps_quiet grows quiet_grows); solve [auto with quiet nocore]
  | apply trigger_grows
  | apply (steps_within_budget compute_budget grows quiet_grows count_grows f fgrows)
  | apply (steps_clause_context _ compute_budget grows quiet_grows count_grows f fgrows)
  | apply (steps_clause_contexts _ compute_budget grows quiet_grows count_grows f fgrows)
  | apply (steps_composite _ compute_budget grows quiet_grows trigger_grows count_grows f fgrows)
  | apply (steps_composites _ compute_budget grows quiet_grows trigger_grows count_grows f fgrows)
  | apply (steps_trigger_simple grows trigger_grows) ].
Ltac grow := repeat first [grow1 | pwalk1].
Ltac alike1 := match goal with
  | |- alike _ (mret _) (mret _) => intros ? ?; reflexivity
  | |- alike _ (throw _) (throw _) => intros ? ?; reflexivity
  | |- alike _ ?m ?m => intros ? ?; reflexivity
  | |- alike _ (mbind _ ?m) (mbind _ ?m) => apply alike_same_bind; [solve [grow]|intros ?]
  | |- alike _ (match ?x with _ => _ end) _ => destruct x eqn:?
  | |- alike _ (mbind _ _) (mbind _ _) => apply alike_bind; [solve [grow]| |intros ?]
  | |- alike _ (foldM _ _ _) (foldM _ _ _) => apply alike_foldM; [solve [intros; grow]|intros ? ?]
  end.
Ltac alike := repeat first [solve [auto with alike nocore] | alike1].

Lemma alike_within_budget symbol tf :
  alike u (compute_within_budget compute_budget f symbol tf) (compute_within_budget compute_budget g symbol tf).
Proof.
  intros s Hs. unfold compute_within_budget. unfold mbind at 1 5, ST_bind at 1 5, gets. cbv beta iota.
  destruct (Nat.leb_spec compute_budget (pa_alarm_used (sv_pa s))) as [|Hlt]; [done|].
  unfold used in Hs. unfold modify. unfold mbind at 1 4, ST_bind at 1 4. cbv beta iota.
  unfold mbind at 1 3, ST_bind at 1 3. rewrite <-(fg ltac:(lia)); [done|]. unfold used. simpl. lia.
Qed.

Hint Resolve alike_within_budget : alike.
Lemma alike_clause_context symbol tf :
  alike u (_clause_context has_pipeline compute_budget f symbol tf)
          (_clause_context has_pipeline compute_budget g symbol tf).
Proof. unfold _clause_context. alike. Qed.
Hint Resolve alike_clause_context : alike.
Lemma alike_clause_contexts clauses :
  alike u (clause_contexts has_pipeline compute_budget f clauses)
          (clause_contexts has_pipeline compute_budget g clauses).
Proof. induction clauses as [|c clauses IH]; simpl; alike. Qed.
Hint Resolve alike_clause_contexts : alike.
Lemma alike_composite a :
  alike u (_evaluate_composite has_pipeline compute_budget f a) (_evaluate_composite has_pipeline compute_budget g a).
Proof. unfold _evaluate_composite. alike. Qed.
Hint Resolve alike_composite : alike.
Lemma alike_composites symbol tf :
  alike u (_evaluate_composites_for has_pipeline compute_budget f symbol tf)
          (_evaluate_composites_for has_pipeline compute_budget g symbol tf).
Proof. unfold _evaluate_composites_for. alike. Qed.
Hint Resolve alike_composites : alike.
Lemma alike_updated symbol tf r :
  alike u (on_analysis_updated has_pipeline compute_budget f symbol tf r)
          (on_analysis_updated has_pipeline compute_budget g symbol tf r).
Proof. unfold on_analysis_updated. alike. Qed.
End Alike.

Lemma engine_grows depth symbol tf n : steps grows (engine_analyze has_pipeline compute_budget depth symbol tf n).
Proof. apply (steps_engine _ _ grows quiet_grows trigger_grows count_grows). Qed.

Lemma alike_engine out u depth depth' symbol tf n :
  (compute_budget - u < depth)%nat → (compute_budget - u < depth')%nat →
  alike u (engine_analyze has_pipeline compute_budget depth symbol tf n)
          (engine_within has_pipeline compute_budget out depth' symbol tf n).
Proof.
  remember (compute_budget - u)%nat as k eqn:Hk. revert u depth depth' symbol tf n Hk.
  induction k as [k IH] using lt_wf_ind. intros u depth depth' symbol tf n -> Hd Hd'.
  destruct depth as [|depth]; [lia|]. destruct depth' as [|depth']; [lia|].
  unfold engine_analyze. simpl. fold (engine_analyze (X:=X) has_pipeline compute_budget).
  unfold Engine.analyze.
  do 9 (apply alike_same_bind; [apply (steps_quiet grows quiet_grows); pwalk|intros ?]).
  apply alike_bind; [|apply alike_bind|intros []; by intros s].
  - apply steps_bind; [tc_solve| |intros; apply steps_ret; tc_solve].
    apply (steps_updated _ _ grows quiet_grows trigger_grows count_grows); intros; apply engine_grows.
  - apply (steps_updated _ _ grows quiet_grows trigger_grows count_grows); intros; apply engine_grows.
  - apply alike_updated; intros; [apply engine_grows|]. eapply IH; [|reflexivity| |]; lia.
  - intros ?. by intros s.
Qed.
End Depth.

(** ** The operations of the service *)

Inductive alarm_op :=
| CreateAlert (symbol timeframe condition cooldown note order_spec : pyval)
| CreateComposite (clauses : pyval) (combine : string) (cooldown note : pyval)
| DeleteAlert (alert_id : pyval)
| ListAlerts
| TriggeredAlerts (alert_id : option string) (limit : Z) (cursor : option Z)
| Analyze (symbol timeframe : string) (lookback : Z)
| EvaluateSymbol (symbol timeframe : string)
| AlarmPass.

Section Operations.
Context {X : Type} `{Ext X, PyEnv, Rest X, FeedConfig, Notifier X}.
Context (has_pipeline : bool) (compute_budget : nat).

(** The nesting is given one level more than the budget, which is never reached. *)
Definition run_alarm_op (op : alarm_op) : PM X unit :=
  let engine := engine_analyze has_pipeline compute_budget (S compute_budget) in
  match op with
  | CreateAlert s t c cd n o => _ ← attempt (create_alert s t c cd n o); mret tt
  | CreateComposite l c cd n => _ ← attempt (create_composite_alert l c cd n); mret tt
  | DeleteAlert i => _ ← attempt (delete_alert i); mret tt
  | ListAlerts => _ ← attempt list_alerts; mret tt
  | TriggeredAlerts i l c => _ ← attempt (get_triggered_alerts i l c); mret tt
  | Analyze s t n => _ ← attempt (engine s t n); mret tt
  | EvaluateSymbol s t => _ ← attempt (evaluate_symbol has_pipeline compute_budget engine s t); mret tt
  | AlarmPass => _ ← attempt (alarm_eval_pass has_pipeline compute_budget (S compute_budget)); mret tt
  end.
Definition run_alarm_ops (ops : list alarm_op) : PM X unit := foldM (λ _ op, run_alarm_op op) tt ops.

Lemma proposing_engine depth symbol tf n :
  steps proposing (engine_analyze has_pipeline compute_budget depth symbol tf n).
Proof.
  apply (steps_engine _ _ proposing quiet_proposing proposing_maybe_trigger).
  intros s. split; [reflexivity|by split].
Qed.
Lemma proposing_evaluate depth symbol tf :
  steps proposing (evaluate_symbol has_pipeline compute_budget
    (engine_analyze has_pipeline compute_budget depth) symbol tf).
Proof.
  apply (steps_evaluate _ _ proposing quiet_proposing proposing_maybe_trigger);
    [intros s; split; [reflexivity|by split]|apply proposing_engine].
Qed.

Lemma in_store_wp {A} (m : M X A) (Q : services X → Prop) s :
  wp m (λ _ w, Q (set_world w s)) (sv_world s) → Q (in_store m s).2.
Proof. unfold wp, in_store. by destruct (m (sv_world s)). Qed.

Lemma proposing_insert_alert definition : steps (proposing (X:=X)) (_insert_alert definition).
Proof.
  intros s. unfold _insert_alert. apply in_store_wp. unfold insert_alert_row, proposing.
  repeat wp1; simpl; (split; [by apply proposing_db_same|done]).
Qed.

Lemma run_alarm_op_proposes op : steps proposing (run_alarm_op op).
Proof.
  destruct op; unfold run_alarm_op; cbv zeta;
    (apply steps_bind; [tc_solve|apply steps_attempt|intros; apply steps_ret; tc_solve]).
  - unfold create_alert. repeat first [pwalk1 | apply proposing_insert_alert].
  - unfold create_composite_alert. cbv zeta. repeat first [pwalk1 | apply proposing_insert_alert].
  - unfold delete_alert. repeat pwalk1. apply proposing_alerts. intros w. simpl. by split; [eexists|].
  - apply (steps_mono quiet); [apply quiet_proposing|auto with quiet].
  - apply (steps_mono quiet); [apply quiet_proposing|auto with quiet].
  - apply proposing_engine.
  - apply proposing_evaluate.
  - unfold alarm_eval_pass. apply steps_bind; [tc_solve| |intros _].
    { intros s. split; [reflexivity|by split]. }
    apply steps_bind; [tc_solve|apply (steps_mono quiet); [apply quiet_proposing|auto with quiet]|intros pairs].
    pwalk. apply proposing_evaluate.
Qed.
End Operations.

(** C17: alarms only propose.  Over any sequence of operations on alarms — creating
    and deleting them, analyses, evaluations and passes of the alarm loop, with any
    failures — the accounts, policies, overrides, orders and the audit log are not
    touched and nothing is sent to the exchange.  The approval queue only gains
    orders that wait for approval, at most one for each alert that fired, and no
    alert fires twice for a window. *)
Theorem alarms_only_propose {X} `{Ext X, PyEnv, Rest X, FeedConfig, Notifier X} has_pipeline compute_budget
    (ops : list alarm_op) (s : services X) :
  let s' := (run_alarm_ops has_pipeline compute_budget ops s).2 in
  let d := w_db (sv_world s) in
  let d' := w_db (sv_world s') in
  trading_view d' = trading_view d ∧ w_trace (sv_world s') = w_trace (sv_world s) ∧
  (∃ new fired, pending_orders d' = pending_orders d ++ new ∧ triggered_alerts d' = triggered_alerts d ++ fired ∧
     Forall (λ q, q_status q = P_awaiting_approval) new ∧ map q_alert_id new `sublist_of` map t_alert_id fired) ∧
  (NoDup (map window_of (triggered_alerts d)) → NoDup (map window_of (triggered_alerts d'))).
Proof.
  assert (steps proposing (run_alarm_ops has_pipeline compute_budget ops)) as Hsteps
    by (apply steps_foldM; [tc_solve|intros ? op _; apply run_alarm_op_proposes]).
  specialize (Hsteps s). intros s' d d'. destruct Hsteps as ([Ht Ha Hw] & Htr & _).
  split; [exact Ht|]. split; [exact Htr|]. split; [exact Ha|exact Hw].
Qed.

(** C27: an alert fires once per window, and rests.  [_maybe_trigger] on an unknown
    alert is [NOT_FOUND]; on one that is not armed, or has fired for the window, it
    does nothing; otherwise, in one transaction, it records the window, proposes the
    order the definition asks for and changes the alert's state — or, when the order
    cannot be recorded, does nothing at all.  An alert that fired is in cooldown
    exactly until the cooldown is over, and never fires for that window again. *)
Theorem maybe_trigger_spec {X} `{Ext X, PyEnv, Notifier X} alert_id key payload cooldown (s : services X) :
  w_closed (sv_world s) = false → (0 ≤ cooldown)%Z →
  let '(r, s') := _maybe_trigger alert_id key payload cooldown s in
  let now := (ext_time (w_ext (sv_world s))).1 in
  let d' := w_db (sv_world s') in
  trigger_outcome alert_id key payload cooldown now r (w_db (sv_world s)) d' ∧
  ∀ t, r = Ok (Some t) →
    (∃ a', find_alert alert_id d' = Some a' ∧
       ∀ later, (now ≤ later)%Z → state_at later a' = if (later <? now + cooldown)%Z then Cooldown else Armed) ∧
    (∀ payload' cooldown' s2, w_closed (sv_world s2) = false → w_db (sv_world s2) = d' →
       (_maybe_trigger alert_id key payload' cooldown' s2).1 = Ok None).
Proof.
  intros Hc Hcd. pose proof (maybe_trigger_run alert_id key payload cooldown s) as Hrun.
  destruct (_maybe_trigger alert_id key payload cooldown s) as [r s']. destruct Hrun as (_ & _ & _ & _ & Ho).
  specialize (Ho Hc). set (now := (ext_time _).1) in *. split; [done|]. intros t ->. unfold trigger_outcome in Ho.
  destruct (find_alert alert_id (w_db (sv_world s))) as [a|] eqn:Ea; [|by destruct Ho].
  pose proof (find_alert_id _ _ _ Ea) as Hid. destruct (fires _ _ _ _); [|by destruct Ho].
  destruct Ho as [(new & _ & Hp & Hd)|(e & He & _)]; [|done].
  destruct (fired_state a key payload cooldown now new _ ltac:(by rewrite Hid) Hcd) as (a' & Ha' & Hs).
  rewrite Hd, <-Hid. split; [by exists a'|]. intros payload' cooldown' s2 Hc2 Hd2.
  pose proof (maybe_trigger_run (l_alert_id a) key payload' cooldown' s2) as Hrun2.
  destruct (_maybe_trigger _ _ _ _ s2) as [r2 s2']. destruct Hrun2 as (_ & _ & _ & _ & Ho2).
  specialize (Ho2 Hc2). unfold trigger_outcome in Ho2. rewrite Hd2, Ha' in Ho2.
  assert (fires a' key (ext_time (w_ext (sv_world s2))).1 (fired a key payload cooldown now new (w_db (sv_world s))) = false)
    as Hf; [|rewrite Hf in Ho2; by destruct Ho2 as [-> _]].
  unfold fires. rewrite (find_alert_id _ _ _ Ha'). cbn [fired triggered_alerts set_alerts set_pending_orders set_triggered_alerts].
  rewrite existsb_app. simpl. unfold triggered_at_window at 2. simpl.
  by rewrite !String.eqb_refl, orb_true_r, andb_false_r.
Qed.

(** C28: analyses and alarms do not chase each other.  An analysis evaluates alerts,
    and an alert whose analysis is not stored starts an analysis; the budget of the
    pass bounds the nesting.  Once a run may nest one level deeper than the budget has
    left, the bound on it is never met: whatever would happen there, and however
    much deeper the run may nest, it is the same run. *)
Theorem analysis_terminates {X} `{Ext X, PyEnv, Rest X, FeedConfig, Notifier X} has_pipeline compute_budget
    out depth depth' symbol timeframe lookback (s : services X) :
  (compute_budget - pa_alarm_used (sv_pa s) < depth)%nat →
  (compute_budget - pa_alarm_used (sv_pa s) < depth')%nat →
  engine_within has_pipeline compute_budget out depth' symbol timeframe lookback s =
  engine_analyze has_pipeline compute_budget depth symbol timeframe lookback s.
Proof.
  intros Hd Hd'. symmetry. eapply alike_engine; [exact Hd|exact Hd'|]. unfold used. lia.
Qed.

(** ** A run

    Six closed bars, an alert with an order, and a pass of the alarm loop. *)

#[local] Existing Instance outside_ext.
#[local] Existing Instance sample_env.
#[local] Instance no_rest : Rest outside := {| rest_get _ _ _ _ x := (Err TimeoutError, x) |}.
#[local] Instance sample_feed_config : FeedConfig := {|
  kline_intervals := ["1m"]; universe_refresh_seconds := 1800; futures_universe_ttl_seconds := 3600;
  kline_backfill_bars := 300; kline_catchup_bars := 5 |}.
#[local] Instance no_notifier : Notifier outside := {|
  notify_command := None; shlex_split s := Some [s]; popen _ x := x |}.

Definition sample_bar (t : Z) : candle_row :=
  mk_candle_row "BTCUSDT" "1m" "spot" (mk_candle t (fZ 2) (fZ 3) (fZ 1) (fZ 2) (Some (fZ 10))) (fZ 20) 5 (t + 60).
Definition sample_market : market_db := set_tb_candles (λ _, map sample_bar [600; 660; 720; 780; 840; 900]%Z) empty_market.
Definition alarm_services : services outside :=
  mk_services (start (set_market (λ _, sample_market) empty_db)) new_clock new_universe new_klines new_pa.

Definition sample_condition : pyval :=
  PDict [("type", PStr "price_change"); ("window_bars", PInt 1); ("min", PInt (-50))].
Definition sample_order : pyval :=
  PDict [("account_id", PStr "acc"); ("symbol", PStr "BTCUSDT"); ("side", PStr "BUY"); ("risk_pct", PInt 1);
         ("entry", PInt 2); ("stop_loss", PInt 1)].
Definition sample_create : alarm_op :=
  CreateAlert (PStr "BTCUSDT") (PStr "1m") sample_condition (PInt 60) (PStr "note") sample_order.

Example sample_alarm :
  let s := (run_alarm_ops false 3 [sample_create; AlarmPass; AlarmPass] alarm_services).2 in
  map (λ q, (q_alert_id q, q_status q)) (pending_orders (w_db (sv_world s))) = [("id0", P_awaiting_approval)] ∧
  map window_of (triggered_alerts (w_db (sv_world s))) = [("id0", "BTCUSDT:1m:900")] ∧
  map l_state (alerts (w_db (sv_world s))) = [Cooldown].
Proof. vm_compute. done. Qed.

Definition alarm_set : services outside := (run_alarm_ops false 3 [sample_create] alarm_services).2.

Lemma maybe_trigger_spec_witness :
  ∃ t s', _maybe_trigger "id0" "w" [] 60 alarm_set = (Ok (Some t), s') ∧
    (_maybe_trigger "id0" "w" [] 60 s').1 = Ok None.
Proof.
  pose proof (maybe_trigger_spec "id0" "w" [] 60 alarm_set ltac:(vm_compute; reflexivity) ltac:(lia)) as Hspec.
  destruct (_maybe_trigger "id0" "w" [] 60 alarm_set) as [r s'] eqn:E.
  assert (r = Ok (Some (mk_trigger "id0" "w" 1000))) as -> by (apply (f_equal fst) in E; vm_compute in E; by rewrite <-E).
  assert (w_closed (sv_world s') = false) as Hc by (apply (f_equal snd) in E; simpl in E; rewrite <-E; by vm_compute).
  destruct Hspec as [_ Hs]. destruct (Hs _ eq_refl) as [_ Hagain].
  eexists _, s'. split; [reflexivity|]. exact (Hagain [] 60%Z s' Hc eq_refl).
Defined.

Lemma analysis_terminates_witness :
  engine_within false 3 (λ _ _ _, throw KeyError) 9 "BTCUSDT" "1m" 200 alarm_set =
  engine_analyze false 3 4 "BTCUSDT" "1m" 200 alarm_set ∧
  match (engine_analyze false 3 4 "BTCUSDT" "1m" 200 alarm_set).1 with Ok r => al_as_of r = 900%Z | Err _ => False end.
Proof.
  split; [|vm_compute; reflexivity].
  apply (analysis_terminates false 3 (λ _ _ _, throw KeyError) 4 9 "BTCUSDT" "1m" 200 alarm_set); vm_compute; lia.
Defined.
