(* ===== verification/Screener.v ===== *)
(** [pa/screener.py], [Screener]: the scan over the universe, its computation budget
    and its pages.  The filter language is in [Filters].

    A scan is specified as the sequence of the verdicts on its candidates.  The summary
    text of a match is left out.  Sort values are not NaN (Python's sort
    has no order for them). *)

From Stdlib Require Import ZArith String Sorted SpecFloat.
From S2P Require Import Prelude PyFloat PyVal Errors Monad Swings OrderBlocks Liquidity Vwap Filters.
From S2P Require Import Broker Tables Db Sample Feed Klines History Engine Alarms AlarmsSpec.
Local Open Scope string_scope.
Local Open Scope list_scope.

Definition ANALYSIS_FILTERS : list string :=
  ["structure_event"; "liquidity_sweep_occurred"; "near_order_block"; "funding_rate"; "oi_change"; "above_below_vwap"].

Definition leaf_type (f : leaf) : string :=
  match f with
  | VolumeChange _ _ _ _ => "volume_change"
  | PriceChange _ _ _ => "price_change"
  | StructureEvent _ _ => "structure_event"
  | LiquiditySweep _ => "liquidity_sweep_occurred"
  | NearOrderBlock _ => "near_order_block"
  | FundingRate _ _ => "funding_rate"
  | OiChange _ _ _ => "oi_change"
  | AboveBelowVwap _ => "above_below_vwap"
  end.

(** [_collect] *)
Fixpoint filter_types (n : node) : list string :=
  match n with
  | NAnd l | NOr l => (fix go l := match l with [] => [] | s :: l' => filter_types s ++ go l' end) l
  | NLeaf f => [leaf_type f]
  end.
Definition needs_analysis (n : node) : bool := existsb (λ t, str_in t ANALYSIS_FILTERS) (filter_types n).

Inductive sort_key := BySymbol | ByPriceChange | ByVolumeChange.
Definition sort_key_of (sort_by : string) : result sort_key :=
  if String.eqb sort_by "symbol" then Ok BySymbol
  else if String.eqb sort_by "price_change" then Ok ByPriceChange
  else if String.eqb sort_by "volume_change" then Ok ByVolumeChange
  else raise INVALID_REQUEST.

Definition _sort_value (sort_by : sort_key) (candles : list candle) : result float :=
  match sort_by with
  | BySymbol => Ok fzero
  | ByPriceChange =>
      let closes := map c_close candles in
      if (25 <=? length closes)%nat then
        a ← from_end closes 1; b ← from_end closes 25; change_pct a b
      else Ok fzero
  | ByVolumeChange =>
      let vols := map volume_of candles in
      let n := length vols in
      if (48 <=? n)%nat then change_pct (fsum (skipn (n - 24) vols)) (fsum (slice vols (n - 48) (n - 24)))
      else Ok fzero
  end.

Record entry := mk_entry {
  en_symbol : string;
  en_stale : bool;
  en_valid : option bool;
  en_price : option float;
  en_as_of : Z;
  en_filters : list string;
  en_sort_value : float }.

(** [(a, s) < (b, t)] *)
Definition entry_lt (x y : entry) : bool :=
  if feq (en_sort_value x) (en_sort_value y) then String.ltb (en_symbol x) (en_symbol y)
  else flt (en_sort_value x) (en_sort_value y).

(** A stable sort. *)
Fixpoint insert_entry (x : entry) (l : list entry) : list entry :=
  match l with
  | [] => [x]
  | y :: l' => if entry_lt y x then y :: insert_entry x l' else x :: l
  end.
Definition sort_entries (l : list entry) : list entry := foldr insert_entry [] l.

(** ** Pages *)

(** An index of a slice, as Python reads it. *)
Definition slice_index (n i : Z) : nat := Z.to_nat (Z.min n (if (i <? 0)%Z then Z.max 0 (n + i) else i)).
Definition py_slice {A} (l : list A) (i j : Z) : list A :=
  let n := Z.of_nat (length l) in slice l (slice_index n i) (slice_index n j).

Definition page_of {A} (matched : list A) (limit : Z) (cursor : option Z) : list A * option Z :=
  let total := Z.of_nat (length matched) in
  let start := default 0%Z cursor in
  let start := if (total <? start)%Z then total else start in
  (py_slice matched start (start + limit), if (start + limit <? total)%Z then Some (start + limit)%Z else None).

Record scan_result := mk_scan {
  sn_page : list entry;
  sn_total : nat;
  sn_next_cursor : option Z;
  sn_fresh : bool;
  sn_stale_symbols : list (string * Z);
  sn_deferred : nat }.

(** [sorted(l)] *)
Definition sorted_symbols (l : list string) : list string := map fst (sort_symbols (map (λ s, (s, tt)) l)).

Section Screener.
Context {X : Type} `{Ext X, PyEnv, Rest X, FeedConfig}.
Context (has_pipeline : bool) (compute_budget : nat).
(** [engine.analyze] *)
Context (analyze : string → string → Z → PM X analysis).

Definition begin_scan : PM X unit :=
  modify (λ s, let p := sv_pa s in set_pa (mk_pa (pa_alarm_used p) 0 0 (pa_last_processed p)) s).

Definition _candidate_symbols : PM X (list string) :=
  u ← gets sv_universe;
  match (if has_pipeline then snapshot u else []) with
  | (_ :: _) as snap => mret (sorted_symbols snap)
  | [] => in_store (db_read (λ d, sorted_symbols
            (remove_dups (map k_symbol (List.filter (λ r, String.eqb (k_source r) "spot") (tb_candles (market d)))))))
  end.

(** The symbol is tradable, not, or unknown. *)
Definition _symbol_validity (symbol : string) (u : UniverseService) : option bool :=
  if has_pipeline then match snapshot u with [] => None | _ => Some (contains symbol u) end else None.

(** The stored analysis; computed within the budget, or deferred. *)
Definition analysis_for (symbol timeframe : string)
    : PM X (option (option (pa_row structure) * option (pa_row liquidity_result) * option (pa_row order_blocks_result))) :=
  '(ms, lz, ob) ← stored_analysis symbol timeframe;
  match ms, lz, ob with
  | Some _, Some _, Some _ => mret (Some (ms, lz, ob))
  | _, _, _ =>
      p ← gets sv_pa;
      if (compute_budget <=? pa_scan_used p)%nat then
        _ ← modify (set_pa (mk_pa (pa_alarm_used p) (pa_scan_used p) (S (pa_scan_deferred p)) (pa_last_processed p)));
        mret None
      else
        _ ← modify (set_pa (mk_pa (pa_alarm_used p) (S (pa_scan_used p)) (pa_scan_deferred p) (pa_last_processed p)));
        _ ← analyze symbol timeframe PA_LOOKBACK;
        l ← stored_analysis symbol timeframe; mret (Some l)
  end.

(** The context, with the time it is as of. *)
Definition _build_context (symbol timeframe : string) (types : list string) (with_analysis : bool)
    : PM X (option (Z * context)) :=
  candles ← read_candles symbol timeframe PA_LOOKBACK;
  match candles with
  | [] => mret None
  | _ =>
      now ← _now has_pipeline;
      candles ← lift (filter_closed_candles candles timeframe now);
      match last candles with
      | None => mret None
      | Some c =>
          if with_analysis then
            stored ← analysis_for symbol timeframe;
            match stored with
            | Some (Some ms, lz, ob) =>
                fr ← latest_row symbol "funding_rate";
                oi ← (if str_in "oi_change" types then load_futures_series symbol "open_interest" 20 else mret []);
                vwap ← lift (compute_vwap candles);
                mret (Some (r_effective_from ms,
                  context_of candles (r_payload ms)
                    (match lz with Some r => li_zones (r_payload r) | None => [] end)
                    (match ob with Some r => ob_order_blocks (r_payload r) | None => [] end)
                    (vw_current vwap) fr oi))
            | _ => mret None
            end
          else
            vwap ← lift (compute_vwap candles);
            mret (Some (c_open_time c,
              mk_context candles (Some (c_close c)) None [] [] None [] (vw_current vwap)))
      end
  end.

Record scan_acc := mk_acc { ac_matched : list entry; ac_stale : list (string * Z); ac_any_stale : bool }.

(** One symbol of the loop. *)
Definition scan_symbol (root : node) (sort_by : sort_key) (timeframe : string) (require_fresh : bool)
    (acc : scan_acc) (symbol : string) : PM X scan_acc :=
  u ← gets sv_universe;
  let valid := _symbol_validity symbol u in
  if bool_decide (valid = Some false) then mret acc
  else
    ctx ← _build_context symbol timeframe (filter_types root) (needs_analysis root);
    match ctx with
    | None => mret acc
    | Some (as_of, ctx) =>
        '(ok, matched_nodes) ← lift (_eval_with_matches root ctx);
        if negb ok then mret acc
        else
          fresh ← freshness has_pipeline timeframe (Some as_of);
          sort_value ← lift (_sort_value sort_by (x_candles ctx));
          let any_stale := ac_any_stale acc || negb fresh in
          if negb fresh && require_fresh then
            mret (mk_acc (ac_matched acc) (ac_stale acc ++ [(symbol, as_of)]) any_stale)
          else
            mret (mk_acc (ac_matched acc ++ [mk_entry symbol (negb fresh) valid (x_close ctx) as_of
                           (map leaf_type matched_nodes) sort_value]) (ac_stale acc) any_stale)
    end.

Definition scan (filters : pyval) (combine sort_by : string) (limit : Z) (cursor : option Z) (timeframe : string)
    (require_fresh : bool) : PM X scan_result :=
  root ← lift (validate_filters filters combine);
  _ ← lift (reject_if (negb ((1 <=? limit) && (limit <=? 250))%Z) INVALID_REQUEST);
  sort_by ← lift (sort_key_of sort_by);
  _ ← begin_scan;
  symbols ← _candidate_symbols;
  acc ← foldM (scan_symbol root sort_by timeframe require_fresh) (mk_acc [] [] false) symbols;
  let matched := sort_entries (ac_matched acc) in
  let '(page, next_cursor) := page_of matched limit cursor in
  p ← gets sv_pa;
  mret (mk_scan page (length matched) next_cursor (negb (ac_any_stale acc && negb require_fresh)) (ac_stale acc)
          (pa_scan_deferred p)).
End Screener.

(** ** Sorting *)

Lemma feq_sym x y : feq x y = feq y x.
Proof.
  unfold feq, SFeqb. destruct (isnan x) eqn:Hx; [by destruct x, y|]. destruct (isnan y) eqn:Hy; [by destruct x, y|].
  destruct (fcompare_spec x y Hx Hy) as (c & -> & Hc), (fcompare_spec y x Hy Hx) as (c' & -> & Hc').
  destruct c, c'; try done; try (rewrite Hc in Hc'); try (rewrite Hc' in Hc); exfalso;
    first [by eapply klt_irrefl | eapply klt_irrefl, klt_trans; eassumption].
Qed.

Lemma ltb_asym s t : String.ltb s t = true → String.ltb t s = false.
Proof. unfold String.ltb. rewrite String.compare_antisym. by destruct (String.compare t s). Qed.

Lemma entry_lt_asym x y : entry_lt x y = true → entry_lt y x = false.
Proof.
  unfold entry_lt. rewrite feq_sym. destruct (feq _ _); [apply ltb_asym|apply flt_asym].
Qed.

(** No entry comes after one it must come before. *)
Definition in_order (x y : entry) : Prop := entry_lt y x = false.

Lemma insert_entry_sorted x l : Sorted in_order l → Sorted in_order (insert_entry x l).
Proof.
  induction 1 as [|y l Hl IH Hy]; simpl; [by repeat constructor|].
  destruct (entry_lt y x) eqn:E; [|by repeat constructor].
  constructor; [done|]. destruct l as [|z l]; simpl.
  - constructor. by apply entry_lt_asym.
  - inversion Hy; subst. destruct (entry_lt z x); constructor; [done|]. by apply entry_lt_asym.
Qed.
Lemma sort_entries_sorted l : Sorted in_order (sort_entries l).
Proof. induction l; simpl; [constructor|by apply insert_entry_sorted]. Qed.

Lemma insert_entry_perm x l : insert_entry x l ≡ₚ x :: l.
Proof. induction l as [|y l IH]; simpl; [done|]. destruct (entry_lt y x); [|done]. rewrite IH. apply Permutation_swap. Qed.
Lemma sort_entries_perm l : sort_entries l ≡ₚ l.
Proof. induction l as [|x l IH]; simpl; [done|]. by rewrite insert_entry_perm, IH. Qed.

Lemma existsb_perm {A} (p : A → bool) l l' : l ≡ₚ l' → existsb p l = existsb p l'.
Proof. induction 1; simpl; try congruence. by destruct (p x), (p y). Qed.

Lemma insert_symbol_perm {A} (x : string * A) l : insert_symbol x l ≡ₚ x :: l.
Proof. induction l as [|y l IH]; simpl; [done|]. destruct (String.leb _ _); [done|]. rewrite IH. apply Permutation_swap. Qed.
Lemma sorted_symbols_perm l : sorted_symbols l ≡ₚ l.
Proof.
  unfold sorted_symbols. induction l as [|x l IH]; simpl; [done|]. rewrite (Permutation_map fst (insert_symbol_perm _ _)).
  simpl. by rewrite IH.
Qed.

(** ** Pages *)

(** All pages from a cursor on, as a client walks them. *)
Fixpoint all_pages {A} (fuel : nat) (matched : list A) (limit : Z) (cursor : option Z) : list (list A) :=
  match fuel with
  | O => []
  | S fuel =>
      let '(page, next) := page_of matched limit cursor in
      page :: match next with Some c => all_pages fuel matched limit (Some c) | None => [] end
  end.

Lemma py_slice_nonneg {A} (l : list A) i j :
  (0 ≤ i ≤ Z.of_nat (length l))%Z → (i ≤ j)%Z →
  py_slice l i j = take (Z.to_nat j - Z.to_nat i) (drop (Z.to_nat i) l).
Proof.
  intros Hi Hj. unfold py_slice, slice, slice_index.
  rewrite (proj2 (Z.ltb_ge i 0)), (proj2 (Z.ltb_ge j 0)) by lia.
  replace (Z.to_nat (Z.min (Z.of_nat (length l)) i)) with (Z.to_nat i) by lia.
  destruct (decide (j ≤ Z.of_nat (length l))%Z).
  - by replace (Z.to_nat (Z.min (Z.of_nat (length l)) j)) with (Z.to_nat j) by lia.
  - rewrite !take_ge; [done|rewrite length_drop; lia..].
Qed.

Lemma all_pages_from {A} fuel (matched : list A) limit (start : Z) :
  (1 ≤ limit)%Z → (0 ≤ start ≤ Z.of_nat (length matched))%Z → (length matched - Z.to_nat start < fuel)%nat →
  concat (all_pages fuel matched limit (Some start)) = drop (Z.to_nat start) matched ∧
  Forall (λ page, length page ≤ Z.to_nat limit)%nat (all_pages fuel matched limit (Some start)).
Proof.
  intros Hl. revert start. induction fuel as [|fuel IH]; intros start Hs Hf; [lia|]. simpl.
  rewrite (proj2 (Z.ltb_ge (Z.of_nat (length matched)) start)) by lia.
  rewrite py_slice_nonneg by lia. set (page := take _ _).
  assert (length page ≤ Z.to_nat limit)%nat as Hp by (unfold page; rewrite length_take; lia).
  destruct (Z.ltb_spec (start + limit) (Z.of_nat (length matched))) as [Hlt|Hge].
  - destruct (IH (start + limit)%Z ltac:(lia) ltac:(lia)) as [Hc Hall]. simpl. rewrite Hc. split; [|by constructor].
    unfold page. replace (drop (Z.to_nat (start + limit)) matched)
      with (drop (Z.to_nat (start + limit) - Z.to_nat start) (drop (Z.to_nat start) matched))
      by (rewrite drop_drop; f_equal; lia).
    apply take_drop.
  - simpl. rewrite app_nil_r. split; [|by constructor]. unfold page. apply take_ge. rewrite length_drop. lia.
Qed.

(** The pages of a scan are the matches, each once.  Following [next_cursor] from
    the first page to the last, a client sees every match exactly once, in order, on
    pages no longer than the limit, and the walk ends. *)
Theorem pages_cover {A} (matched : list A) limit :
  (1 ≤ limit)%Z →
  let pages := all_pages (S (length matched)) matched limit None in
  concat pages = matched ∧ Forall (λ page, length page ≤ Z.to_nat limit)%nat pages.
Proof.
  intros Hl. destruct (all_pages_from (S (length matched)) matched limit 0 Hl ltac:(lia) ltac:(lia)) as [Hc Ha].
  split; [exact Hc|exact Ha].
Qed.

Lemma pages_cover_witness : all_pages 6 [1; 2; 3; 4; 5]%nat 2 None = [[1; 2]; [3; 4]; [5]]%nat ∧
  concat (all_pages 6 [1; 2; 3; 4; 5]%nat 2 None) = [1; 2; 3; 4; 5]%nat.
Proof. split; [reflexivity|]. destruct (pages_cover [1; 2; 3; 4; 5]%nat 2 ltac:(lia)) as [Hc _]. exact Hc. Defined.

(** ** What a scan lists *)

Section ScanSpec.
Context {X : Type} `{Ext X, PyEnv, Rest X, FeedConfig, Notifier X}.
Context (has_pipeline : bool) (scan_budget alarm_budget : nat).

(** The engine of the daemon, whose analyses evaluate alerts. *)
Definition engine : string → string → Z → PM X analysis := engine_analyze has_pipeline alarm_budget (S alarm_budget).

(** Nothing is traded, and the budget of the scan is kept. *)
Definition scanning : relation (services X) := λ s s',
  proposing s s' ∧
  (pa_scan_used (sv_pa s) ≤ scan_budget → pa_scan_used (sv_pa s') ≤ scan_budget)%nat.

#[export] Instance scanning_preorder : PreOrder scanning.
Proof.
  split; [intros s; split; [reflexivity|done]|]. intros ??? [H1' ?] [H2' ?]. split; [by etrans|auto].
Qed.

Lemma quiet_scanning (s s' : services X) : quiet s s' → scanning s s'.
Proof.
  intros Hq. split; [by apply quiet_proposing|]. unfold quiet, quiet_view in Hq.
  by assert (sv_pa s' = sv_pa s) as -> by congruence.
Qed.
Lemma trigger_scanning alert_id key payload cooldown : steps scanning (_maybe_trigger alert_id key payload cooldown).
Proof.
  intros s. split; [apply proposing_maybe_trigger|].
  pose proof (maybe_trigger_run alert_id key payload cooldown s) as Hrun.
  destruct (_maybe_trigger alert_id key payload cooldown s) as [r s']. destruct Hrun as [Hp _]. simpl. by rewrite Hp.
Qed.
Lemma engine_scanning symbol tf n : steps scanning (engine symbol tf n).
Proof.
  apply (steps_engine _ _ scanning quiet_scanning trigger_scanning).
  intros s. split; [split; [reflexivity|by split]|done].
Qed.

Lemma analysis_for_scanning symbol tf : steps scanning (analysis_for scan_budget engine symbol tf).
Proof.
  unfold analysis_for. apply steps_bind; [tc_solve|apply (steps_quiet _ quiet_scanning); auto with quiet|].
  intros [[ms lz] ob].
  assert (steps scanning (p ← gets sv_pa;
      if (scan_budget <=? pa_scan_used p)%nat then
        _ ← modify (set_pa (mk_pa (pa_alarm_used p) (pa_scan_used p) (S (pa_scan_deferred p)) (pa_last_processed p)));
        mret None
      else
        _ ← modify (set_pa (mk_pa (pa_alarm_used p) (S (pa_scan_used p)) (pa_scan_deferred p) (pa_last_processed p)));
        _ ← engine symbol tf PA_LOOKBACK;
        l ← stored_analysis symbol tf; mret (Some l))) as Hc.
  { intros s. unfold gets. unfold mbind at 1, ST_bind at 1. cbv beta iota.
    destruct (Nat.leb_spec scan_budget (pa_scan_used (sv_pa s))) as [|Hlt].
    - split; [|by simpl]. split; [reflexivity|by split].
    - etrans; [|apply (steps_bind scanning (engine symbol tf PA_LOOKBACK)); [apply engine_scanning|intros _]].
      + split; [split; [reflexivity|by split]|]. intros _. simpl. lia.
      + apply (steps_quiet _ quiet_scanning). pwalk. }
  destruct ms, lz, ob; first [exact Hc | apply steps_ret; tc_solve].
Qed.

Lemma build_context_scanning symbol tf types b :
  steps scanning (_build_context has_pipeline scan_budget engine symbol tf types b).
Proof.
  unfold _build_context.
  repeat first [ apply (steps_quiet _ quiet_scanning); solve [auto with quiet nocore]
               | apply analysis_for_scanning | pwalk1 ].
Qed.

Lemma scan_symbol_scanning root key tf fresh acc symbol :
  steps scanning (scan_symbol has_pipeline scan_budget engine root key tf fresh acc symbol).
Proof.
  unfold scan_symbol. cbv zeta.
  repeat first [ apply (steps_quiet _ quiet_scanning); solve [auto with quiet nocore]
               | apply build_context_scanning | pwalk1 ].
Qed.

Definition listed (require_fresh : bool) (e : entry) : Prop :=
  (require_fresh = true → en_stale e = false) ∧ en_valid e ≠ Some false.

(** The value an entry is sorted by: nothing, the change of the close over 24 bars, or
    the change of the volume of 24 bars over that of the 24 before. *)
Definition sorts_by (key : sort_key) (candles : list candle) (v : float) : Prop :=
  let n := length candles in
  match key with
  | BySymbol => v = fzero
  | ByPriceChange =>
      if (25 <=? n)%nat then ∃ a b, candles !! (n - 1)%nat = Some a ∧ candles !! (n - 25)%nat = Some b ∧
        change_pct (c_close a) (c_close b) = Ok v
      else v = fzero
  | ByVolumeChange =>
      if (48 <=? n)%nat then
        change_pct (fsum (map volume_of (drop (n - 24) candles))) (fsum (map volume_of (take 24 (drop (n - 48) candles)))) = Ok v
      else v = fzero
  end.

Lemma sort_value_sorts key candles v : _sort_value key candles = Ok v → sorts_by key candles v.
Proof.
  assert (∀ k (a : float), (0 ≤ k)%Z → from_end (map c_close candles) k = Ok a →
    ∃ c, candles !! (length candles - Z.to_nat k)%nat = Some c ∧ c_close c = a) as Hend.
  { intros k a Hk. unfold from_end, index. rewrite length_map.
    replace (Z.to_nat (Z.of_nat (length candles) - k)) with (length candles - Z.to_nat k)%nat by lia.
    rewrite list_lookup_fmap. destruct (candles !! _) as [c|]; simpl; [|done]. intros [= <-]. by exists c. }
  unfold sorts_by. destruct key; cbn [_sort_value].
  - by intros [= <-].
  - cbv zeta. rewrite length_map. destruct (25 <=? length candles)%nat; [|by intros [= <-]].
    intros (a & (ca & ? & <-)%(Hend 1%Z) & (b & (cb & ? & <-)%(Hend 25%Z) & Hc)%res_bind_Ok)%res_bind_Ok. by exists ca, cb. all: done.
  - cbv zeta. rewrite length_map. destruct (Nat.leb_spec 48 (length candles)); [|by intros [= <-]].
    unfold slice. rewrite !skipn_map, firstn_map.
    by replace (length candles - 24 - (length candles - 48))%nat with 24%nat by lia.
Qed.

(** What the turn of a symbol comes to. *)
Inductive verdict := Skipped | Listed (e : entry) | Reported (symbol : string) (as_of : Z).
Definition entries : list verdict → list entry := omap (M:=list) (λ v, match v with Listed e => Some e | _ => None end).
Definition reports : list verdict → list (string * Z) :=
  omap (M:=list) (λ v, match v with Reported symbol as_of => Some (symbol, as_of) | _ => None end).
Definition stale_verdict (v : verdict) : bool :=
  match v with Skipped => false | Listed e => en_stale e | Reported _ _ => true end.

Section Turn.
Context (root : node) (key : sort_key) (tf : string) (require_fresh : bool) (symbol : string).

Definition build : PM X (option (Z * context)) :=
  _build_context has_pipeline scan_budget engine symbol tf (filter_types root) (needs_analysis root).

(** The entry of a symbol that matches says what the context it matched in says: its
    time and price, the filters that hold there, whether the last closed bar is in it by
    the clock of the engine, and the value to sort by. *)
Record describes (as_of : Z) (ctx : context) (e : entry) (s s1 s' : services X) : Prop := {
  de_symbol : en_symbol e = symbol;
  de_as_of : en_as_of e = as_of;
  de_price : en_price e = x_close ctx;
  de_valid : en_valid e = _symbol_validity has_pipeline symbol (sv_universe s);
  de_filters : ∃ ms, en_filters e = map leaf_type ms ∧ explains root ctx true ms;
  de_stale : ∃ now period, _now has_pipeline s1 = (Ok now, s') ∧ period_of tf = Ok period ∧
    en_stale e = (as_of <? latest_closed now period)%Z;
  de_sort : sorts_by key (x_candles ctx) (en_sort_value e) }.

Inductive judged : services X → verdict → services X → Prop :=
| judged_gone s :                       (* it left the universe *)
    _symbol_validity has_pipeline symbol (sv_universe s) = Some false → judged s Skipped s
| judged_unknown s s' :                 (* no bars, or no analysis within the budget *)
    _symbol_validity has_pipeline symbol (sv_universe s) ≠ Some false → build s = (Ok None, s') → judged s Skipped s'
| judged_other s s' as_of ctx :
    _symbol_validity has_pipeline symbol (sv_universe s) ≠ Some false →
    build s = (Ok (Some (as_of, ctx)), s') → ¬ holds ctx root → judged s Skipped s'
| judged_match s s1 s' as_of ctx e :
    _symbol_validity has_pipeline symbol (sv_universe s) ≠ Some false →
    build s = (Ok (Some (as_of, ctx)), s1) → holds ctx root → describes as_of ctx e s s1 s' →
    judged s (if en_stale e && require_fresh then Reported symbol as_of else Listed e) s'.

Lemma judged_lists s v s' : judged s v s' →
  Forall (listed require_fresh) (entries [v]) ∧ map en_symbol (entries [v]) ++ map fst (reports [v]) `sublist_of` [symbol].
Proof.
  destruct 1 as [s Hv|s s' Hv Hb|s s' as_of ctx Hv Hb Hn|s s1 s' as_of ctx e Hv Hb Hh [Hs _ _ Hva _ _ _]]; simpl;
    try (split; [constructor|apply sublist_nil_l]).
  destruct (en_stale e && require_fresh) eqn:Ef; simpl; [by split|]. rewrite Hs. split; [|done].
  repeat constructor; [|congruence]. intros ->. by rewrite andb_true_r in Ef.
Qed.

(** A turn adds its verdict to what was found. *)
Lemma scan_symbol_judged acc s acc' s' : wf_node root →
  scan_symbol has_pipeline scan_budget engine root key tf require_fresh acc symbol s = (Ok acc', s') →
  ∃ v, judged s v s' ∧ ac_matched acc' = ac_matched acc ++ entries [v] ∧ ac_stale acc' = ac_stale acc ++ reports [v] ∧
    ac_any_stale acc' = ac_any_stale acc || stale_verdict v.
Proof.
  intros Hwf. unfold scan_symbol. cbv zeta. intros (u & s1 & [= <- <-] & Hr)%ST_bind_Ok.
  assert (∀ s0, (mret acc : PM X scan_acc) s0 = (Ok acc', s') → judged s Skipped s0 →
    ∃ v, judged s v s' ∧ ac_matched acc' = ac_matched acc ++ entries [v] ∧ ac_stale acc' = ac_stale acc ++ reports [v] ∧
    ac_any_stale acc' = ac_any_stale acc || stale_verdict v) as Hskip.
  { intros s0 [= <- <-] Hj. exists Skipped. rewrite !app_nil_r, orb_false_r. by split_and!. }
  destruct (bool_decide _) eqn:Ev.
  { apply bool_decide_eq_true_1 in Ev. by apply (Hskip _ Hr), judged_gone. }
  apply bool_decide_eq_false_1 in Ev. apply ST_bind_Ok in Hr as (c & s2 & Hb & Hr).
  destruct c as [[as_of ctx]|]; [|by apply (Hskip _ Hr), judged_unknown].
  apply ST_bind_Ok in Hr as ([ok nodes] & s3 & Hm & Hr). unfold lift in Hm. injection Hm as Hm <-.
  destruct (with_matches_sound _ _ _ _ Hwf Hm) as [He Hx]. pose proof (eval_node_holds _ _ _ He) as Hh.
  destruct ok; simpl in Hr.
  2:{ apply (Hskip _ Hr). eapply judged_other; [done..|]. intros Hn%Hh. done. }
  apply ST_bind_Ok in Hr as (f & s4 & Hf & Hr). apply ST_bind_Ok in Hr as (v & s5 & Hv & Hr).
  unfold lift in Hv. injection Hv as Hv <-. unfold freshness in Hf. apply ST_bind_Ok in Hf as (now & s6 & Hnow & Hf).
  unfold lift in Hf. injection Hf as Hf <-. cbn [freshness_for] in Hf. apply res_bind_Ok in Hf as (period & Hp & [= <-]).
  set (e := mk_entry symbol (negb (latest_closed now period <=? as_of)%Z) (_symbol_validity has_pipeline symbol (sv_universe s))
    (x_close ctx) as_of (map leaf_type nodes) v).
  assert (describes as_of ctx e s s2 s6) as Hd.
  { split; try done; [by exists nodes| |by apply sort_value_sorts]. exists now, period.
    split_and!; [done..|]. simpl. by rewrite Z.leb_antisym, negb_involutive. }
  exists (if en_stale e && require_fresh then Reported symbol as_of else Listed e). simpl in Hr.
  destruct (negb _ && require_fresh) eqn:Ef; injection Hr as <- <-.
  - split; [eapply judged_match; by try apply Hh|]. simpl. rewrite Ef. simpl. rewrite app_nil_r. split_and!; [done..|].
    apply andb_true_iff in Ef as [-> _]. done.
  - split; [eapply judged_match; by try apply Hh|]. simpl. rewrite Ef. simpl. by rewrite app_nil_r.
Qed.
End Turn.

(** The turns of a scan, one after the other. *)
Inductive scanned (root : node) (key : sort_key) (tf : string) (require_fresh : bool)
    : list string → services X → list verdict → services X → Prop :=
| scanned_nil s : scanned root key tf require_fresh [] s [] s
| scanned_cons symbol symbols s v s1 vs s' :
    judged root key tf require_fresh symbol s v s1 → scanned root key tf require_fresh symbols s1 vs s' →
    scanned root key tf require_fresh (symbol :: symbols) s (v :: vs) s'.

Lemma entries_cons v vs : entries (v :: vs) = entries [v] ++ entries vs.
Proof. by destruct v. Qed.
Lemma reports_cons v vs : reports (v :: vs) = reports [v] ++ reports vs.
Proof. by destruct v. Qed.

Lemma scan_loop_scanned root key tf fresh symbols acc s acc' s' : wf_node root →
  foldM (scan_symbol has_pipeline scan_budget engine root key tf fresh) acc symbols s = (Ok acc', s') →
  ∃ vs, scanned root key tf fresh symbols s vs s' ∧ ac_matched acc' = ac_matched acc ++ entries vs ∧
    ac_stale acc' = ac_stale acc ++ reports vs ∧ ac_any_stale acc' = ac_any_stale acc || existsb stale_verdict vs.
Proof.
  intros Hwf. revert acc s. induction symbols as [|symbol symbols IH]; intros acc s; simpl.
  { intros [= <- <-]. exists []. rewrite !app_nil_r, orb_false_r. split_and!; [constructor|done..]. }
  intros (acc1 & s1 & (v & Hj & Hm & Hs & Ha)%(scan_symbol_judged _ _ _ _ _ _ _ _ _ Hwf) & (vs & Hv & Hm' & Hs' & Ha')%IH)%ST_bind_Ok.
  exists (v :: vs). rewrite entries_cons, reports_cons, Hm', Hm, Hs', Hs, Ha', Ha, <- !app_assoc, <- orb_assoc.
  split_and!; [by econstructor|done..].
Qed.

(** Every symbol is in one of the lists at most. *)
Lemma scanned_lists root key tf fresh symbols s vs s' : scanned root key tf fresh symbols s vs s' →
  Forall (listed fresh) (entries vs) ∧ map en_symbol (entries vs) `sublist_of` symbols ∧
  map fst (reports vs) `sublist_of` symbols ∧
  (NoDup symbols → ∀ x, x ∈ map en_symbol (entries vs) → x ∈ map fst (reports vs) → False).
Proof.
  induction 1 as [|symbol symbols s v s1 vs s' Hj _ IH]; [split_and!; [constructor|done|done|by intros _ x ?%elem_of_nil]|].
  destruct (judged_lists _ _ _ _ _ _ _ _ Hj) as [Hl1 Hsub]. destruct IH as (Hl2 & He & Hss & Hdis).
  rewrite entries_cons, reports_cons, !map_app.
  set (es1 := map en_symbol (entries [v])) in *. set (ss1 := map fst (reports [v])) in *.
  assert (es1 `sublist_of` [symbol]) as He1 by (etrans; [|exact Hsub]; by apply sublist_inserts_r).
  assert (ss1 `sublist_of` [symbol]) as Hs1' by (etrans; [|exact Hsub]; by apply sublist_inserts_l).
  split_and!; [by apply Forall_app|by apply (sublist_app _ [symbol])|by apply (sublist_app _ [symbol])|].
  intros [Hn Hnd]%NoDup_cons x Hx Hy.
  assert (∀ l, l `sublist_of` [symbol] → x ∈ l → x = symbol) as Hone.
  { intros l Hsub' Hin. eapply elem_of_submseteq in Hin; [|by apply sublist_submseteq]. set_solver. }
  assert (∀ l, l `sublist_of` symbols → x ∈ l → x ∈ symbols) as Hrest.
  { intros l Hsub' Hin. eapply elem_of_submseteq in Hin; [done|by apply sublist_submseteq]. }
  apply elem_of_app in Hx as [Hx|Hx], Hy as [Hy|Hy].
  - (* one symbol, twice in its own turn *)
    destruct es1 as [|a la]; [by apply elem_of_nil in Hx|]. destruct ss1 as [|b lb]; [by apply elem_of_nil in Hy|].
    apply sublist_length in Hsub. rewrite length_app in Hsub. simpl in Hsub. lia.
  - apply Hn. rewrite <-(Hone _ He1 Hx). by apply (Hrest _ Hss).
  - apply Hn. rewrite <-(Hone _ Hs1' Hy). by apply (Hrest _ He).
  - by apply (Hdis Hnd x).
Qed.

(** With freshness required, no stale entry is listed; without it, none is set apart. *)
Lemma scanned_fresh root key tf fresh symbols s vs s' : scanned root key tf fresh symbols s vs s' →
  existsb stale_verdict vs && negb fresh = existsb en_stale (entries vs).
Proof.
  induction 1 as [|symbol symbols s v s1 vs s' Hj _ IH]; [done|]. rewrite entries_cons, existsb_app, <- IH. simpl.
  rewrite andb_orb_distrib_l. f_equal. destruct Hj as [| | |? ? ? ? ? e]; try done.
  destruct (en_stale e) eqn:Es, fresh; simpl; by rewrite ?Es.
Qed.

Lemma candidates_same (s : services X) :
  ∃ l, _candidate_symbols has_pipeline s = (Ok l, s) ∧ (NoDup (un_symbols (sv_universe s)) → NoDup l).
Proof.
  unfold _candidate_symbols, gets, mbind, ST_bind, in_store, db_read. simpl.
  assert (∀ l, NoDup l → NoDup (sorted_symbols l)) as Hs
    by (intros l Hl; by rewrite (sorted_symbols_perm l)).
  destruct (if has_pipeline then _ else _) as [|x0 l0] eqn:E; simpl.
  - eexists. split; [by destruct s|]. intros _. apply Hs, NoDup_remove_dups.
  - eexists. split; [done|]. intros Hn. apply Hs. destruct has_pipeline; [|done]. unfold snapshot in E. by rewrite <-E.
Qed.
Lemma scan_loop_scanning root key tf fresh acc symbols :
  steps scanning (foldM (scan_symbol has_pipeline scan_budget engine root key tf fresh) acc symbols).
Proof. apply steps_foldM; [tc_solve|]. intros. apply scan_symbol_scanning. Qed.
End ScanSpec.

(** C29: what a scan lists.  A scan goes through the candidate symbols, one turn after
    the other, and the turn of each comes to its verdict: skipped when it is known to
    have left the universe, when there is no context for it, or when the filter does not
    hold in its context; otherwise set apart when its data is stale and fresh data is
    required, and else listed.  A listed entry says what the context says: its price and
    time, filters that hold in it, stale exactly when it is older than the last closed
    bar on the clock of the engine, the value of the sort key.  The matches are in the
    order of their sort values, each symbol in one list at most and once; the page, the
    next cursor, the total and the label of the answer are cut from them.  A scan
    starts no more analyses than its budget; the alerts they evaluate only propose
    orders, and nothing is traded. *)
Theorem scan_lists {X} `{Ext X, PyEnv, Rest X, FeedConfig, Notifier X} has_pipeline scan_budget alarm_budget
    filters combine sort_by limit cursor timeframe require_fresh (s s' : services X) r :
  NoDup (un_symbols (sv_universe s)) →
  scan has_pipeline scan_budget (engine has_pipeline alarm_budget) filters combine sort_by limit cursor timeframe
    require_fresh s = (Ok r, s') →
  (∃ root key symbols verdicts matched,
     validate_filters filters combine = Ok root ∧ sort_key_of sort_by = Ok key ∧
     (_candidate_symbols has_pipeline s).1 = Ok symbols ∧
     scanned has_pipeline scan_budget alarm_budget root key timeframe require_fresh symbols (begin_scan s).2 verdicts s' ∧
     matched ≡ₚ entries verdicts ∧ sn_stale_symbols r = reports verdicts ∧
     (sn_page r, sn_next_cursor r) = page_of matched limit cursor ∧ sn_total r = length matched ∧
     sn_fresh r = negb (existsb en_stale matched) ∧
     Sorted in_order matched ∧ Forall (listed require_fresh) matched ∧
     NoDup (map en_symbol matched ++ map fst (sn_stale_symbols r)) ∧
     ∀ symbol, symbol ∈ map en_symbol matched ++ map fst (sn_stale_symbols r) → symbol ∈ symbols) ∧
  (pa_scan_used (sv_pa s') ≤ scan_budget)%nat ∧ proposing s s'.
Proof.
  intros Hu. unfold scan. intros (root & s1 & [= Hroot <-] & Hr)%ST_bind_Ok.
  apply ST_bind_Ok in Hr as (? & s2 & [= _ <-] & Hr). apply ST_bind_Ok in Hr as (key & s3 & [= Hkey <-] & Hr).
  apply ST_bind_Ok in Hr as (? & s4 & Hb & Hr). assert (s4 = (begin_scan s).2) as -> by (by rewrite Hb). clear Hb.
  set (s4 := (begin_scan s).2) in *.
  apply ST_bind_Ok in Hr as (symbols & s5 & Hc & Hr).
  destruct (candidates_same has_pipeline s4) as (l & Hc' & Hnd).
  rewrite Hc' in Hc. injection Hc as -> <-. specialize (Hnd Hu).
  apply ST_bind_Ok in Hr as (acc & s6 & Hloop & Hr).
  pose proof (scan_loop_scanning has_pipeline scan_budget alarm_budget root key timeframe require_fresh
    (mk_acc [] [] false) symbols s4) as [Hp Hbud].
  rewrite Hloop in Hp, Hbud. simpl in Hp, Hbud. apply scan_loop_scanned in Hloop
    as (vs & Hrun & Hm & Hs & Ha); [|by eapply validate_filters_wf]. simpl in Hm, Hs, Ha. rewrite Hm, Hs, Ha in Hr.
  cbv zeta in Hr. destruct (page_of (sort_entries (entries vs)) limit cursor) as [page next] eqn:Epage.
  apply ST_bind_Ok in Hr as (p & s7 & [= _ <-] & Hr). injection Hr as <- <-. simpl.
  split; [|split; [apply Hbud; simpl; lia|]].
  - exists root, key, symbols, vs, (sort_entries (entries vs)). rewrite Epage.
    pose proof (sort_entries_perm (entries vs)) as Hperm.
    destruct (scanned_lists _ _ _ _ _ _ _ _ _ _ _ Hrun) as (Hl & He & Hss & Hdis).
    assert (∀ k, k `sublist_of` symbols → NoDup k) as Hsub by (intros k Hk; by eapply sublist_NoDup).
    split_and!; try done; [| |apply sort_entries_sorted|by rewrite Hperm| |].
    + unfold _candidate_symbols, gets, mbind, ST_bind in *. change (sv_universe s4) with (sv_universe s) in Hc'.
      destruct (if has_pipeline then _ else _); apply (f_equal fst) in Hc'; exact Hc'.
    + rewrite (scanned_fresh _ _ _ _ _ _ _ _ _ _ _ Hrun). f_equal. symmetry. by apply existsb_perm.
    + rewrite (Permutation_map en_symbol Hperm). apply NoDup_app. split_and!; [by apply Hsub| |by apply Hsub].
      intros x1 Hx1 Hy1. by apply (Hdis Hnd x1).
    + intros symbol. rewrite (Permutation_map en_symbol Hperm). intros [Hin|Hin]%elem_of_app;
        (eapply elem_of_submseteq in Hin; [done|by apply sublist_submseteq]).
  - etrans; [|exact Hp]. split; [reflexivity|by split].
Qed.

#[local] Existing Instance outside_ext.
#[local] Existing Instance sample_env.
#[local] Instance screener_rest : Rest outside := {| rest_get _ _ _ _ x := (Err TimeoutError, x) |}.
#[local] Instance screener_config : FeedConfig := {|
  kline_intervals := ["1m"]; universe_refresh_seconds := 1800; futures_universe_ttl_seconds := 3600;
  kline_backfill_bars := 300; kline_catchup_bars := 5 |}.
#[local] Instance screener_notifier : Notifier outside := {|
  notify_command := None; shlex_split s := Some [s]; popen _ x := x |}.

Definition scan_sample (filters : pyval) (s : services outside) : result scan_result * services outside :=
  scan false 8 (engine false 8) filters "AND" "symbol" 50 None "1m" true s.

Lemma scan_lists_witness :
  ∃ r root key symbols verdicts s', (scan_sample sample_condition alarm_services).1 = Ok r ∧
    scanned false 8 8 root key "1m" true symbols (begin_scan alarm_services).2 verdicts s' ∧
    map en_symbol (sn_page r) = ["BTCUSDT"].
Proof.
  destruct (scan_sample sample_condition alarm_services) as [[r|e] s'] eqn:E;
    [|apply (f_equal fst) in E; vm_compute in E; discriminate].
  destruct (scan_lists false 8 8 sample_condition "AND" "symbol" 50 None "1m" true alarm_services s' r
    ltac:(constructor) E) as [(root & key & symbols & verdicts & matched & _ & _ & _ & Hrun & _) _].
  exists r, root, key, symbols, verdicts, s'. split; [reflexivity|]. split; [exact Hrun|].
  apply (f_equal (λ x, match x.1 with Ok r => map en_symbol (sn_page r) | Err _ => [] end)) in E.
  vm_compute in E. symmetry. exact E.
Defined.

(** A symbol with too few bars to analyse fails the scan of all the others. *)
Definition with_new_listing (s : services outside) : services outside :=
  set_world (with_db (sv_world s)
    (set_market (set_tb_candles (λ l, l ++
      [mk_candle_row "NEWUSDT" "1m" "spot" (mk_candle 900 (fZ 2) (fZ 3) (fZ 1) (fZ 2) (Some (fZ 10))) (fZ 20) 5 960]))
      (w_db (sv_world s)))) s.
Definition vwap_filter : pyval := PDict [("type", PStr "above_below_vwap"); ("position", PStr "below")].

Example new_listing_fails_the_scan :
  is_ok (scan_sample vwap_filter alarm_services).1 = true ∧
  (scan_sample vwap_filter (with_new_listing alarm_services)).1 = raise STALE_DATA.
Proof. vm_compute. done. Qed.
