(* ===== verification/Migrations.v ===== *)
(** [storage/migrations.py]: the schema as a list of numbered migrations, and the
    runner.

    A database file is its tables, its indexes and the rows of [schema_migrations].
    The [sqlite3] module commits a schema statement at once (a transaction is only
    opened for data), and [executescript] commits what is open; so each statement
    below is durable on its own, and only the insertion of the version row is a
    transaction.  Names are lower case, as all of the source's are.  The file lock
    around the run makes runs follow each other. *)

From Stdlib Require Import ZArith String.
From S2P Require Import Prelude PyFloat PyVal Errors Monad Broker Tables Db.
Local Open Scope string_scope.
Local Open Scope list_scope.

(** ** Schemas and statements *)

Record table := mk_table {
  st_name : string;
  st_columns : list (string * string);            (* with their declarations *)
  st_constraints : list (string * list string) }.

Record index := mk_index { ix_name : string; ix_table : string; ix_columns : list string }.

(** A row of [schema_migrations]. *)
Record version_row := mk_version { vr_version : Z; vr_name : string; vr_applied_at : Z }.

Record file := mk_file { f_tables : list table; f_indexes : list index; f_versions : list version_row }.

Inductive stmt :=
| CreateTable (name : string) (columns : list (string * string)) (constraints : list (string * list string))
| CreateIndex (if_not_exists : bool) (name on_table : string) (columns : list string)
| AddColumn (on_table name declaration : string).

Definition find_table (name : string) (f : file) : option table :=
  List.find (λ t, String.eqb (st_name t) name) (f_tables f).
Definition has_table (name : string) (f : file) : bool := existsb (λ t, String.eqb (st_name t) name) (f_tables f).
Definition has_index (name : string) (f : file) : bool := existsb (λ i, String.eqb (ix_name i) name) (f_indexes f).
Definition column_names (t : table) : list string := map fst (st_columns t).

(** An indexed column, without its direction. *)
Definition index_column (c : string) : string := default c (head (String.words c)).

(** A statement on the file, or [sqlite3.OperationalError].  [CREATE TABLE] is
    always [IF NOT EXISTS]. *)
Definition exec_stmt (s : stmt) (f : file) : result file :=
  match s with
  | CreateTable name columns constraints =>
      if has_table name f then Ok f
      else if has_index name f then Err OperationalError
      else Ok (mk_file (f_tables f ++ [mk_table name columns constraints]) (f_indexes f) (f_versions f))
  | CreateIndex if_not_exists name on_table columns =>
      match find_table on_table f with
      | None => Err OperationalError
      | Some t =>
          if has_table name f then Err OperationalError
          else if has_index name f then if if_not_exists then Ok f else Err OperationalError
          else if forallb (λ c, str_in (index_column c) (column_names t)) columns
          then Ok (mk_file (f_tables f) (f_indexes f ++ [mk_index name on_table columns]) (f_versions f))
          else Err OperationalError
      end
  | AddColumn on_table name declaration =>
      match find_table on_table f with
      | None => Err OperationalError
      | Some t =>
          if str_in name (column_names t) then Err OperationalError
          else Ok (mk_file (update_where (λ t, String.eqb (st_name t) on_table)
                     (λ t, mk_table (st_name t) (st_columns t ++ [(name, declaration)]) (st_constraints t))
                     (f_tables f))
                     (f_indexes f) (f_versions f))
      end
  end.

(** ** The migrations *)

Definition _m1_initial_schema : list stmt :=
  [CreateTable "candles"
    [("symbol", "TEXT NOT NULL"); ("timeframe", "TEXT NOT NULL"); ("open_time", "INTEGER NOT NULL");
     ("open", "REAL"); ("high", "REAL"); ("low", "REAL"); ("close", "REAL"); ("volume", "REAL");
     ("quote_volume", "REAL"); ("trades", "INTEGER"); ("source", "TEXT NOT NULL DEFAULT 'spot'");
     ("updated_at", "INTEGER NOT NULL")]
    [("PRIMARY KEY", ["symbol"; "timeframe"; "open_time"; "source"])];
   CreateTable "futures_context"
    [("id", "INTEGER PRIMARY KEY AUTOINCREMENT"); ("symbol", "TEXT NOT NULL"); ("type", "TEXT NOT NULL");
     ("event_time", "INTEGER NOT NULL"); ("value", "REAL"); ("extra", "TEXT");
     ("fetched_at", "INTEGER NOT NULL"); ("freshness", "TEXT NOT NULL DEFAULT 'fresh'")]
    [("UNIQUE", ["symbol"; "type"; "event_time"])];
   CreateTable "market_structure"
    [("id", "INTEGER PRIMARY KEY AUTOINCREMENT"); ("symbol", "TEXT NOT NULL"); ("timeframe", "TEXT NOT NULL");
     ("algo_version", "TEXT NOT NULL"); ("effective_from", "INTEGER NOT NULL"); ("effective_to", "INTEGER");
     ("payload", "TEXT NOT NULL"); ("created_at", "INTEGER NOT NULL")] [];
   CreateTable "liquidity_zones"
    [("id", "INTEGER PRIMARY KEY AUTOINCREMENT"); ("symbol", "TEXT NOT NULL"); ("timeframe", "TEXT NOT NULL");
     ("algo_version", "TEXT NOT NULL"); ("effective_from", "INTEGER NOT NULL"); ("effective_to", "INTEGER");
     ("payload", "TEXT NOT NULL"); ("created_at", "INTEGER NOT NULL")] [];
   CreateTable "order_blocks"
    [("id", "INTEGER PRIMARY KEY AUTOINCREMENT"); ("symbol", "TEXT NOT NULL"); ("timeframe", "TEXT NOT NULL");
     ("algo_version", "TEXT NOT NULL"); ("effective_from", "INTEGER NOT NULL"); ("effective_to", "INTEGER");
     ("payload", "TEXT NOT NULL"); ("created_at", "INTEGER NOT NULL")] [];
   CreateTable "annotations"
    [("id", "INTEGER PRIMARY KEY AUTOINCREMENT"); ("symbol", "TEXT NOT NULL"); ("timeframe", "TEXT NOT NULL");
     ("created_by", "TEXT"); ("data", "TEXT NOT NULL"); ("created_at", "INTEGER NOT NULL")] [];
   CreateTable "alerts"
    [("id", "INTEGER PRIMARY KEY AUTOINCREMENT"); ("alert_id", "TEXT NOT NULL UNIQUE");
     ("definition", "TEXT NOT NULL"); ("state", "TEXT NOT NULL"); ("created_at", "INTEGER NOT NULL");
     ("updated_at", "INTEGER NOT NULL")] [];
   CreateTable "triggered_alerts"
    [("id", "INTEGER PRIMARY KEY AUTOINCREMENT"); ("alert_id", "TEXT NOT NULL");
     ("trigger_key", "TEXT NOT NULL"); ("payload", "TEXT NOT NULL"); ("triggered_at", "INTEGER NOT NULL")]
    [("UNIQUE", ["alert_id"; "trigger_key"])];
   CreateTable "accounts"
    [("id", "INTEGER PRIMARY KEY AUTOINCREMENT"); ("account_id", "TEXT NOT NULL UNIQUE"); ("label", "TEXT");
     ("tags", "TEXT NOT NULL DEFAULT '[]'"); ("market", "TEXT NOT NULL DEFAULT 'spot'");
     ("trading_lock", "TEXT NOT NULL DEFAULT 'paper'"); ("encrypted_api_key", "BLOB");
     ("encrypted_secret", "BLOB"); ("created_at", "INTEGER NOT NULL"); ("updated_at", "INTEGER NOT NULL")] [];
   CreateTable "audit_log"
    [("id", "INTEGER PRIMARY KEY AUTOINCREMENT"); ("seq", "INTEGER NOT NULL UNIQUE");
     ("actor", "TEXT NOT NULL"); ("action", "TEXT NOT NULL"); ("details", "TEXT NOT NULL");
     ("prev_hash", "TEXT NOT NULL"); ("hash", "TEXT NOT NULL"); ("created_at", "INTEGER NOT NULL")] []].

Definition _m2_indexes : list stmt :=
  [CreateIndex true "idx_candles_lookup" "candles" ["symbol"; "timeframe"; "open_time DESC"];
   CreateIndex true "idx_candles_tf_time" "candles" ["timeframe"; "open_time"];
   CreateIndex true "idx_ms_lookup" "market_structure" ["symbol"; "timeframe"; "effective_from DESC"];
   CreateIndex true "idx_lz_lookup" "liquidity_zones" ["symbol"; "timeframe"; "effective_from DESC"];
   CreateIndex true "idx_ob_lookup" "order_blocks" ["symbol"; "timeframe"; "effective_from DESC"];
   CreateIndex true "idx_fc_lookup" "futures_context" ["symbol"; "type"; "event_time DESC"];
   CreateIndex true "idx_ann_lookup" "annotations" ["symbol"; "timeframe"; "created_at DESC"]].

Definition _m3_alert_cooldown : list stmt :=
  [AddColumn "alerts" "cooldown_until" "INTEGER";
   CreateIndex true "idx_alerts_state" "alerts" ["state"; "updated_at"]].

Definition _m4_risk_policy : list stmt :=
  [CreateTable "risk_policy"
    [("account_id", "TEXT PRIMARY KEY"); ("max_notional_per_order", "REAL");
     ("max_aggregate_exposure", "REAL"); ("allowed_symbols", "TEXT NOT NULL DEFAULT '[]'");
     ("policy_version", "INTEGER NOT NULL DEFAULT 0"); ("created_at", "INTEGER NOT NULL");
     ("updated_at", "INTEGER NOT NULL")] [];
   CreateTable "risk_override"
    [("id", "INTEGER PRIMARY KEY AUTOINCREMENT"); ("override_id", "TEXT NOT NULL UNIQUE");
     ("account_id", "TEXT NOT NULL"); ("policy_version", "INTEGER NOT NULL");
     ("idempotency_key", "TEXT NOT NULL"); ("actor", "TEXT NOT NULL"); ("reason", "TEXT NOT NULL");
     ("scope", "TEXT NOT NULL DEFAULT 'next_order'"); ("state", "TEXT NOT NULL DEFAULT 'reserved'");
     ("created_at", "INTEGER NOT NULL"); ("expires_at", "INTEGER NOT NULL"); ("applied_at", "INTEGER");
     ("consumed_by_idem", "TEXT"); ("reconciled_at", "INTEGER"); ("reconcile_reason", "TEXT")]
    [("UNIQUE", ["account_id"; "idempotency_key"])];
   CreateIndex true "idx_risk_override_account" "risk_override" ["account_id"; "state"; "expires_at"]].

Definition _m5_orders : list stmt :=
  [CreateTable "orders"
    [("id", "INTEGER PRIMARY KEY AUTOINCREMENT"); ("order_id", "TEXT NOT NULL UNIQUE");
     ("account_id", "TEXT NOT NULL"); ("idempotency_key", "TEXT NOT NULL"); ("symbol", "TEXT NOT NULL");
     ("side", "TEXT NOT NULL"); ("order_type", "TEXT NOT NULL"); ("quantity", "REAL NOT NULL");
     ("price", "REAL"); ("status", "TEXT NOT NULL"); ("exchange_order_id", "TEXT");
     ("client_order_id", "TEXT"); ("executed_qty", "REAL"); ("avg_price", "REAL"); ("fee", "REAL");
     ("notional", "REAL"); ("reference_price", "REAL"); ("error_code", "TEXT"); ("error_message", "TEXT");
     ("created_at", "INTEGER NOT NULL"); ("updated_at", "INTEGER NOT NULL")]
    [("UNIQUE", ["account_id"; "idempotency_key"])];
   CreateIndex true "idx_orders_account" "orders" ["account_id"; "status"];
   CreateIndex true "idx_orders_open" "orders" ["account_id"; "status"; "created_at"]].

Definition _m6_emergency_reconciled : list stmt :=
  [CreateTable "emergency_reconciled"
    [("entry_hash", "TEXT PRIMARY KEY"); ("seq", "INTEGER NOT NULL"); ("reconciled_at", "INTEGER NOT NULL")] []].

Definition _m7_orders_equity_snapshot : list stmt :=
  [AddColumn "orders" "equity_snapshot" "REAL"].

Definition _m8_pending_orders : list stmt :=
  [CreateTable "pending_orders"
    [("id", "INTEGER PRIMARY KEY AUTOINCREMENT"); ("order_id", "TEXT NOT NULL UNIQUE");
     ("alert_id", "TEXT NOT NULL"); ("account_id", "TEXT NOT NULL"); ("symbol", "TEXT NOT NULL");
     ("side", "TEXT NOT NULL"); ("order_type", "TEXT NOT NULL DEFAULT 'market'"); ("entry", "REAL");
     ("stop_loss", "REAL"); ("risk_pct", "REAL"); ("status", "TEXT NOT NULL DEFAULT 'awaiting_approval'");
     ("note", "TEXT"); ("created_at", "INTEGER NOT NULL"); ("approved_at", "INTEGER");
     ("rejected_at", "INTEGER"); ("executed_order_id", "TEXT"); ("reject_reason", "TEXT")] [];
   CreateIndex false "idx_pending_orders_status" "pending_orders" ["status"; "created_at"];
   CreateIndex false "idx_pending_orders_alert" "pending_orders" ["alert_id"]].

Definition _m9_stop_price : list stmt :=
  [AddColumn "orders" "stop_price" "REAL"].

Definition _m10_stop_limit_price : list stmt :=
  [AddColumn "orders" "stop_limit_price" "REAL"].

(** The columns are read once, before the first statement. *)
Definition additions : list (string * string) :=
  [("execution_started_at", "INTEGER"); ("execution_finished_at", "INTEGER"); ("execution_error_code", "TEXT");
   ("execution_error_message", "TEXT"); ("last_attempt_at", "INTEGER")].
Definition _m11_pending_execution_state (f : file) : list stmt :=
  let columns := match find_table "pending_orders" f with Some t => column_names t | None => [] end in
  map (λ nd, AddColumn "pending_orders" nd.1 nd.2) (List.filter (λ nd, negb (str_in nd.1 columns)) additions).

Record migration := mk_migration { mg_version : Z; mg_name : string; mg_fn : file → list stmt }.

Definition MIGRATIONS : list migration :=
  [mk_migration 1 "initial_schema" (λ _, _m1_initial_schema);
   mk_migration 2 "indexes" (λ _, _m2_indexes);
   mk_migration 3 "alert_cooldown" (λ _, _m3_alert_cooldown);
   mk_migration 4 "risk_policy_override" (λ _, _m4_risk_policy);
   mk_migration 5 "orders" (λ _, _m5_orders);
   mk_migration 6 "emergency_reconciled" (λ _, _m6_emergency_reconciled);
   mk_migration 7 "orders_equity_snapshot" (λ _, _m7_orders_equity_snapshot);
   mk_migration 8 "pending_orders" (λ _, _m8_pending_orders);
   mk_migration 9 "orders_stop_price" (λ _, _m9_stop_price);
   mk_migration 10 "orders_stop_limit_price" (λ _, _m10_stop_limit_price);
   mk_migration 11 "pending_execution_state" _m11_pending_execution_state].

(** ** The runner *)

(** The file, and what it durably was before. *)
Record disk := mk_disk { k_file : file; k_past : list file }.

Definition commit (g : file → result file) : ST disk unit := λ d,
  match g (k_file d) with
  | Ok f => (Ok tt, mk_disk f (k_past d ++ [k_file d]))
  | Err e => (Err e, d)
  end.

Definition applied_versions (f : file) : list Z := map vr_version (f_versions f).
Definition applied_names (f : file) : list string := map vr_name (f_versions f).

Section Runner.
(** [int(time.time())] when a version is recorded. *)
Context (time : Z → Z).

Definition row_for (m : migration) : version_row := mk_version (mg_version m) (mg_name m) (time (mg_version m)).

Definition record_version (m : migration) (f : file) : result file :=
  if existsb (Z.eqb (mg_version m)) (applied_versions f) then Err IntegrityError
  else Ok (mk_file (f_tables f) (f_indexes f) (f_versions f ++ [row_for m])).

Definition apply_migration (m : migration) : ST disk unit :=
  f ← gets k_file;
  _ ← foldM (λ _ s, commit (exec_stmt s)) tt (mg_fn m f);
  commit (record_version m).

Definition is_applied (versions : list Z) (names : list string) (m : migration) : bool :=
  existsb (Z.eqb (mg_version m)) versions || str_in (mg_name m) names.

Definition run_migrations (migrations : list migration) : ST disk (list Z) :=
  f ← gets k_file;
  foldM (λ applied m,
    if is_applied (applied_versions f) (applied_names f) m then mret applied
    else _ ← apply_migration m; mret (applied ++ [mg_version m])) [] migrations.

Definition current_version (f : file) : Z :=
  match f_versions f with [] => 0 | v :: l => foldr Z.max (vr_version v) (map vr_version l) end.
End Runner.

(** ** Reasoning *)

Lemma exec_stmt_versions s f f' : exec_stmt s f = Ok f' → f_versions f' = f_versions f.
Proof.
  unfold exec_stmt. intros He.
  repeat match goal with
    | H : match ?x with _ => _ end = Ok _ |- _ => destruct x; try done
    end; by simplify_eq.
Qed.

(** The statements executed, each on what those before it left. *)
Inductive statements : list stmt → file → file → Prop :=
| statements_nil f : statements [] f f
| statements_cons s l f f1 f2 : exec_stmt s f = Ok f1 → statements l f1 f2 → statements (s :: l) f f2.

Lemma statements_versions l f f' : statements l f f' → f_versions f' = f_versions f.
Proof. induction 1 as [|s l f f1 f2 He%exec_stmt_versions _ IH]; congruence. Qed.

(** A run of statements executes all of them, or those before the one that fails. *)
Lemma run_stmts l d r d' : foldM (λ _ s, commit (exec_stmt s)) tt l d = (r, d') →
  match r with
  | Ok _ => statements l (k_file d) (k_file d')
  | Err e => ∃ ran s rest, l = ran ++ s :: rest ∧ statements ran (k_file d) (k_file d') ∧ exec_stmt s (k_file d') = Err e
  end.
Proof.
  revert d. induction l as [|s l IH]; intros d; [intros [= <- <-]; constructor|].
  simpl. unfold mbind, ST_bind, commit at 1. destruct (exec_stmt s (k_file d)) as [f|e] eqn:E; simpl.
  - intros Hr%IH. simpl in Hr. destruct r as [u|e]; [by econstructor|].
    destruct Hr as (ran & s' & rest & -> & Hran & Hs'). exists (s :: ran), s', rest.
    split_and!; [done|by econstructor|done].
  - intros [= <- <-]. exists [], s, l. split_and!; [done|constructor|done].
Qed.

Section Runs.
Context (time : Z → Z).

Definition add_version (m : migration) (f : file) : file :=
  mk_file (f_tables f) (f_indexes f) (f_versions f ++ [row_for time m]).

(** The migrations executed in order: the statements of each, on the file it found,
    then its version row. *)
Inductive executed : list migration → file → file → Prop :=
| executed_nil f : executed [] f f
| executed_cons m ms f f1 f2 :
    statements (mg_fn m f) f f1 → executed ms (add_version m f1) f2 → executed (m :: ms) f f2.

(** A migration that stopped: some of its first statements are executed, and the next
    one fails, or its version cannot be recorded. *)
Definition stopped_in (m : migration) (e : exn ErrorCode) (f f' : file) : Prop :=
  ∃ ran rest, mg_fn m f = ran ++ rest ∧ statements ran f f' ∧
    match rest with s :: _ => exec_stmt s f' = Err e | [] => record_version time m f' = Err e end.

Lemma executed_versions ms f f' : executed ms f f' → f_versions f' = f_versions f ++ map (row_for time) ms.
Proof.
  induction 1 as [|m ms f f1 f2 Hs%statements_versions _ IH]; simpl; [by rewrite app_nil_r|].
  rewrite IH. simpl. by rewrite Hs, <- app_assoc.
Qed.

Lemma apply_migration_run m d r d' :
  apply_migration time m d = (r, d') →
  match r with
  | Ok _ => ∃ f, statements (mg_fn m (k_file d)) (k_file d) f ∧ k_file d' = add_version m f
  | Err e => stopped_in m e (k_file d) (k_file d')
  end.
Proof.
  unfold apply_migration, gets, mbind, ST_bind. destruct (foldM _ tt _ d) as [r1 d1] eqn:E.
  apply run_stmts in E. destruct r1 as [u|e].
  - unfold commit. destruct (record_version time m (k_file d1)) as [f|e] eqn:Er; intros [= <- <-].
    + exists (k_file d1). split; [done|]. unfold record_version in Er. destruct (existsb _ _); [done|]. by injection Er as <-.
    + exists (mg_fn m (k_file d)), []. by rewrite app_nil_r.
  - intros [= <- <-]. destruct E as (ran & s & rest & ? & ? & ?). by exists ran, (s :: rest).
Qed.

(** The loop over the migrations, from the rows [vs] that were there before. *)
Definition pending (f : file) (ms : list migration) : list migration :=
  List.filter (λ m, negb (is_applied (applied_versions f) (applied_names f) m)) ms.

Lemma migrations_loop f ms acc d r d' :
  foldM (λ applied m,
    if is_applied (applied_versions f) (applied_names f) m then mret applied
    else _ ← apply_migration time m; mret (applied ++ [mg_version m])) acc ms d = (r, d') →
  match r with
  | Ok applied => applied = acc ++ map mg_version (pending f ms) ∧ executed (pending f ms) (k_file d) (k_file d')
  | Err e => ∃ done m rest f1, pending f ms = done ++ m :: rest ∧ executed done (k_file d) f1 ∧ stopped_in m e f1 (k_file d')
  end.
Proof.
  revert acc d. induction ms as [|m ms IH]; intros acc d; simpl; unfold pending; simpl.
  { intros [= <- <-]. rewrite app_nil_r. split; [done|constructor]. }
  destruct (is_applied _ _ m) eqn:Em; simpl.
  { unfold mbind, ST_bind, mret, ST_ret. apply IH. }
  unfold mbind, ST_bind, mret, ST_ret. destruct (apply_migration time m d) as [[u|e] d1] eqn:E1; apply apply_migration_run in E1.
  - destruct E1 as (f1 & Hs & Hf1). intros Hr. apply IH in Hr. fold (pending f ms). rewrite Hf1 in Hr. destruct r as [applied|e].
    + destruct Hr as [-> Hx]. rewrite <-!app_assoc. split; [done|by econstructor].
    + destruct Hr as (dn & m' & rest & f2 & Hp & Hx & Hst). exists (m :: dn), m', rest, f2. rewrite Hp.
      split_and!; [done|by econstructor|done].
  - intros [= <- <-]. exists [], m, (pending f ms), (k_file d). split_and!; [done|constructor|done].
Qed.

Lemma applied_after f rows m :
  is_applied (applied_versions f ++ map vr_version rows) (applied_names f ++ map vr_name rows) m =
  is_applied (applied_versions f) (applied_names f) m
  || is_applied (map vr_version rows) (map vr_name rows) m.
Proof.
  unfold is_applied, str_in. rewrite !existsb_app. by destruct (existsb _ _), (existsb _ _), (existsb _ _), (existsb _ _).
Qed.

(** Nothing is pending after a complete run. *)
Lemma pending_after f f' ms :
  f_versions f' = f_versions f ++ map (row_for time) (pending f ms) → pending f' ms = [].
Proof.
  intros Hv. unfold pending at 1.
  assert (∀ m, m ∈ ms → is_applied (applied_versions f') (applied_names f') m = true) as Hall.
  { intros m Hm. unfold applied_versions, applied_names. rewrite Hv, !map_app.
    fold (applied_versions f) (applied_names f). rewrite applied_after.
    destruct (is_applied (applied_versions f) (applied_names f) m) eqn:E; [done|]. simpl.
    assert (m ∈ pending f ms) as Hp by (apply elem_of_filter_b; by rewrite E).
    unfold is_applied. apply orb_true_iff. left. apply existsb_exists. exists (mg_version m).
    split; [|apply Z.eqb_refl]. rewrite !map_map. apply in_map_iff. exists m. split; [done|by apply list_elem_of_In]. }
  clear Hv. induction ms as [|m ms IH]; simpl; [done|]. rewrite Hall by (by left). simpl.
  apply IH. intros; apply Hall; by right.
Qed.

Lemma run_again migrations d : pending (k_file d) migrations = [] → run_migrations time migrations d = (Ok [], d).
Proof.
  unfold run_migrations, gets, mbind, ST_bind, pending. generalize (k_file d) as f. intros f Hv.
  induction migrations as [|m ms IH]; [done|]. simpl in *.
  destruct (is_applied _ _ m); [|done]. unfold mret, ST_ret. by apply IH.
Qed.
End Runs.

(** C25: every migration is applied once, in order.  A run executes the migrations
    neither of whose version and name is recorded, in their order: all the statements
    of each, on the tables and indexes those before it left, and then the record of its
    version with its time.  Running again applies nothing and leaves the file as it is.
    A run that fails has executed and recorded the migrations before the one that
    failed, and of that one, without recording it, the statements before the one that
    failed. *)
Theorem migrations_applied_once time migrations d r d' :
  run_migrations time migrations d = (r, d') →
  let pend := pending (k_file d) migrations in
  match r with
  | Ok applied => applied = map mg_version pend ∧
      executed time pend (k_file d) (k_file d') ∧
      f_versions (k_file d') = f_versions (k_file d) ++ map (row_for time) pend ∧
      run_migrations time migrations d' = (Ok [], d')
  | Err e => ∃ done m rest f, pend = done ++ m :: rest ∧
      executed time done (k_file d) f ∧ stopped_in time m e f (k_file d') ∧
      f_versions (k_file d') = f_versions (k_file d) ++ map (row_for time) done
  end.
Proof.
  unfold run_migrations at 1, gets, mbind, ST_bind. intros Hr.
  pose proof (migrations_loop time _ _ _ _ _ _ Hr) as Hl. destruct r as [applied|e].
  - destruct Hl as [-> Hx]. pose proof (executed_versions _ _ _ _ Hx) as Hv. split_and!; [done..|].
    by apply run_again, (pending_after time (k_file d)).
  - destruct Hl as (dn & m & rest & f & Hp & Hx & Hst). exists dn, m, rest, f. split_and!; [done..|].
    rewrite <- (executed_versions _ _ _ _ Hx). destruct Hst as (ran & ? & _ & Hs & _). by apply (statements_versions ran).
Qed.

(** ** The schema *)

Definition empty_disk : disk := mk_disk (mk_file [] [] []) [].

(** The file of a daemon that has the first [k] migrations. *)
Definition at_version (time : Z → Z) (k : nat) : disk := (run_migrations time (take k MIGRATIONS) empty_disk).2.

(** The columns of a table, by name. *)
Definition columns_of (f : file) (name : string) : list string :=
  match find_table name f with Some t => column_names t | None => [] end.

(** The columns and the tables the services write, one entry for each row type of
    the model. *)
Definition written_columns : list (string * list string) :=
  [("candles", ["symbol"; "timeframe"; "open_time"; "open"; "high"; "low"; "close"; "volume"; "quote_volume";
                "trades"; "source"; "updated_at"]);
   ("futures_context", ["symbol"; "type"; "event_time"; "value"; "extra"; "fetched_at"; "freshness"]);
   ("market_structure", ["symbol"; "timeframe"; "algo_version"; "effective_from"; "effective_to"; "payload"; "created_at"]);
   ("liquidity_zones", ["symbol"; "timeframe"; "algo_version"; "effective_from"; "effective_to"; "payload"; "created_at"]);
   ("order_blocks", ["symbol"; "timeframe"; "algo_version"; "effective_from"; "effective_to"; "payload"; "created_at"]);
   ("annotations", ["symbol"; "timeframe"; "created_by"; "data"; "created_at"]);
   ("alerts", ["alert_id"; "definition"; "state"; "created_at"; "updated_at"; "cooldown_until"]);
   ("triggered_alerts", ["alert_id"; "trigger_key"; "payload"; "triggered_at"]);
   ("accounts", ["account_id"; "label"; "tags"; "market"; "trading_lock"; "encrypted_api_key"; "encrypted_secret";
                 "created_at"; "updated_at"]);
   ("audit_log", ["seq"; "actor"; "action"; "details"; "prev_hash"; "hash"; "created_at"]);
   ("risk_policy", ["account_id"; "max_notional_per_order"; "max_aggregate_exposure"; "allowed_symbols";
                    "policy_version"; "created_at"; "updated_at"]);
   ("risk_override", ["override_id"; "account_id"; "policy_version"; "idempotency_key"; "actor"; "reason"; "scope";
                      "state"; "created_at"; "expires_at"; "applied_at"; "consumed_by_idem"; "reconciled_at";
                      "reconcile_reason"]);
   ("orders", ["order_id"; "account_id"; "idempotency_key"; "symbol"; "side"; "order_type"; "quantity"; "price";
               "stop_price"; "stop_limit_price"; "status"; "exchange_order_id"; "client_order_id"; "executed_qty";
               "avg_price"; "fee"; "notional"; "reference_price"; "equity_snapshot"; "error_code"; "error_message";
               "created_at"; "updated_at"]);
   ("pending_orders", ["order_id"; "alert_id"; "account_id"; "symbol"; "side"; "order_type"; "entry"; "stop_loss";
                       "risk_pct"; "status"; "note"; "created_at"; "approved_at"; "rejected_at"; "executed_order_id";
                       "reject_reason"; "execution_started_at"; "execution_finished_at"; "execution_error_code";
                       "execution_error_message"; "last_attempt_at"]);
   ("emergency_reconciled", ["entry_hash"; "seq"; "reconciled_at"])].

Definition has_columns (f : file) (tc : string * list string) : bool :=
  forallb (λ c, str_in c (columns_of f tc.1)) tc.2.

(** C26: every daemon ends with the same schema.  From an empty file and from the file
    of every earlier version the run succeeds, applies exactly the migrations that
    are missing, and ends with one and the same file, at version 11, with every
    table and every column the services write. *)
Theorem upgrades_converge time :
  let full := k_file (at_version time 11) in
  Forall (λ k,
    let '(r, d) := run_migrations time MIGRATIONS (at_version time k) in
    r = Ok (drop k (map mg_version MIGRATIONS)) ∧ k_file d = full) (seq 0 12) ∧
  current_version full = 11%Z ∧ Forall (λ tc, has_columns full tc = true) written_columns.
Proof.
  intros full. split_and!.
  - unfold seq. repeat (apply Forall_cons_2; [vm_compute; by split|]). apply Forall_nil_2.
  - by vm_compute.
  - unfold written_columns. repeat (apply Forall_cons_2; [by vm_compute|]). apply Forall_nil_2.
Qed.

(** What of a file does not tell when it was written. *)
Definition schema_of (f : file) : list table * list index * list (Z * string) :=
  (f_tables f, f_indexes f, map (λ v, (vr_version v, vr_name v)) (f_versions f)).

#[export] Instance table_eq_dec : EqDecision table.
Proof. solve_decision. Defined.
#[export] Instance index_eq_dec : EqDecision index.
Proof. solve_decision. Defined.

(** A migration is not one transaction.  A daemon that stops between an
    [ALTER TABLE] (or an index made without [IF NOT EXISTS]) and the record of its
    version leaves a file on which every later run fails, at the same statement and
    without changing it; after a stop anywhere else the run completes to the same
    schema. *)
Theorem interrupted_migrations time :
  let full := at_version time 11 in
  let stops := k_past full ++ [k_file full] in
  let retry (f : file) := run_migrations time MIGRATIONS (mk_disk f []) in
  let wedged := List.filter (λ f, negb (is_ok (retry f).1)) stops in
  map (λ f, (current_version f, length (f_tables f), length (f_indexes f))) wedged =
    [(2%Z, 10, 7); (2%Z, 10, 8); (6%Z, 14, 11); (7%Z, 15, 12); (7%Z, 15, 13); (8%Z, 15, 13); (9%Z, 15, 13)]%nat ∧
  Forall (λ f, retry f = (Err OperationalError, mk_disk f (k_past (retry f).2)) ) wedged ∧
  Forall (λ f, is_ok (retry f).1 = true → schema_of (k_file (retry f).2) = schema_of (k_file full)) stops.
Proof.
  intros full stops retry wedged. split_and!.
  - by vm_compute.
  - vm_compute. repeat constructor.
  - assert (forallb (λ f, negb (is_ok (retry f).1) || bool_decide (schema_of (k_file (retry f).2) = schema_of (k_file full)))
      stops = true) as Hall by (vm_compute; reflexivity).
    rewrite forallb_forall in Hall. apply Forall_forall. intros f Hf%list_elem_of_In Hok.
    specialize (Hall f Hf). rewrite Hok in Hall. by apply bool_decide_eq_true_1 in Hall.
Qed.

Lemma migrations_applied_once_witness :
  ∃ d, run_migrations id (take 3 MIGRATIONS) empty_disk = (Ok [1%Z; 2%Z; 3%Z], d) ∧
    run_migrations id (take 3 MIGRATIONS) d = (Ok [], d).
Proof.
  pose proof (migrations_applied_once id (take 3 MIGRATIONS) empty_disk) as Hrun.
  destruct (run_migrations id (take 3 MIGRATIONS) empty_disk) as [r d] eqn:E.
  assert (r = Ok [1%Z; 2%Z; 3%Z]) as -> by (apply (f_equal fst) in E; vm_compute in E; by rewrite <-E).
  destruct (Hrun _ _ eq_refl) as (_ & _ & _ & Hagain). exists d. split; [reflexivity|exact Hagain].
Defined.
