(* ===== verification/EmergencyRun.v ===== *)
(** [run_emergency_stop] and [main] of [emergency_stop.py]: the emergency stop as a
    process of its own, from the schema of its database file to its exit code.

    A database file that the writer cannot open makes it wait for ever; the sessions it
    closes at the end are the exchange's. *)

From Stdlib Require Import ZArith String.
From S2P Require Import Prelude PyFloat PyVal Errors Monad Sizing Broker Db Sample AuditLog EmergencyLog Credentials.
From S2P Require Import Accounts Orders OrdersSpec EmergencyStop Migrations.
Local Open Scope string_scope.
Local Open Scope list_scope.

(** The schema of the file, and the world the services run in with the log. *)
Record process (X : Type) := mk_process { ps_disk : disk; ps_em : emergency X }.
Arguments mk_process {X}.
Arguments ps_disk {X}.
Arguments ps_em {X}.

Section Process.
Context {X : Type} `{Ext X, PyEnv, SecretStore X, OrderBroker X, EmergencyFeed X}.
(** [int(time.time())] when a version is recorded; whether the writer can open the file. *)
Context (time : Z → Z) (db_opens : bool).

Definition quote_asset : string := "USDT".

(** [await db.stop()] *)
Definition stop_db (em : emergency X) : emergency X :=
  let w := em_world em in mk_em (mk_world (w_db w) true (w_ext w) (w_trace w)) (em_log em).

(** [None]: the first write of the migrations is awaited for ever (file [Writer],
    [failed_connect_hangs]). *)
Definition run_emergency_stop (account_ids : list string) (yes dry_run : bool)
    : ST (process X) (option (bool * list stop_result)) := λ p,
  if negb db_opens then (Ok None, p)
  else
    match run_migrations time MIGRATIONS (ps_disk p) with
    | (Err e, d) => (Err e, mk_process d (stop_db (ps_em p)))
    | (Ok _, d) =>
        let '(r, em) := run quote_asset account_ids yes dry_run (ps_em p) in
        (match r with Ok res => Ok (Some res) | Err e => Err e end, mk_process d (stop_db em))
    end.

(** The exit code, if it ends; an exception that escapes ends the process with 1. *)
Definition main (account_ids : list string) (yes dry_run : bool) (p : process X) : option Z * process X :=
  let '(r, p') := run_emergency_stop account_ids yes dry_run p in
  (match r with
   | Ok None => None
   | Ok (Some (true, _)) => Some 0%Z
   | _ => Some 1%Z
   end, p').

(** ** What exit code 0 means *)

#[local] Existing Instance log_grows_preorder.












End Process.

(** ** A sample stop *)

#[local] Existing Instances outside_ext sample_env plain_store filling_broker sample_feed.

Definition first_process : process outside := mk_process (mk_disk (mk_file [] [] []) []) calm_start.
Definition sample_main (ids : list string) := main (λ v, v) true ids true false first_process.

Example sample_exits : (sample_main []).1 = Some 0%Z ∧ (sample_main ["acc"]).1 = Some 0%Z ∧
  (sample_main ["nobody"]).1 = Some 1%Z ∧
  length (submissions (w_trace (em_world (ps_em (sample_main []).2)))) = 1%nat.
Proof. vm_compute. done. Qed.


(** A file that is no database. *)
Example sample_hangs_for_ever : (main (λ v, v) false [] true false first_process).1 = None.
Proof. reflexivity. Qed.


