(* ===== verification/Annotations.v ===== *)
(** [pa/annotations.py]: the chart annotations agents store per symbol and
    timeframe. *)

From Stdlib Require Import ZArith String.
From S2P Require Import Prelude PyFloat PyVal Errors Monad Broker Tables Db Sample Feed Alarms.
Local Open Scope string_scope.
Local Open Scope list_scope.

(** [items = annotations if isinstance(annotations, list) else [annotations]]; each
    must be an object. *)
Definition items_of (annotations : pyval) : result (list (list (string * pyval))) :=
  res_map (λ v, match v with PDict d => Ok d | _ => raise INVALID_REQUEST end)
    (match annotations with PList l => l | v => [v] end).

Definition chart_of (symbol timeframe : string) (r : annotation_row) : bool :=
  String.eqb (an_symbol r) symbol && String.eqb (an_timeframe r) timeframe.

Section Annotations.
Context {X : Type} `{Ext X}.

(** One [INSERT], with the id it is given. *)
Definition insert_annotation (symbol timeframe created_by : string) (now : Z) (data : list (string * pyval)) : M X Z :=
  id ← db_read (λ d, tb_annotations_seq (market d) + 1)%Z;
  _ ← db_modify (set_market (set_tb_annotations (λ l,
        l ++ [mk_annotation id symbol timeframe (Some created_by) data now])));
  _ ← db_modify (set_market (set_tb_annotations_seq (λ _, id)));
  mret id.

Definition annotate (symbol timeframe annotations : pyval) (created_by : string) : M X (list Z) :=
  symbol ← lift (required_text symbol);
  timeframe ← lift (required_text timeframe);
  items ← lift (items_of annotations);
  match items with
  | [] => mret []
  | _ =>
      now ← time_now;
      db_write (mapM (insert_annotation symbol timeframe created_by now) items)
  end.

(** [ORDER BY created_at ASC, id ASC]; ids grow with the rows. *)
Definition get_annotations (symbol timeframe : string) : M X (list annotation_row) :=
  db_read (λ d, order_by an_created_at (List.filter (chart_of symbol timeframe) (tb_annotations (market d)))).

Definition clear (symbol timeframe : string) : M X nat :=
  db_write (
    n ← db_read (λ d, count_where (chart_of symbol timeframe) (tb_annotations (market d)));
    _ ← db_modify (set_market (set_tb_annotations (delete_where (chart_of symbol timeframe))));
    mret n).
End Annotations.

(** ** What is stored *)

(** The rows [annotate] adds after the id [seq]. *)
Fixpoint new_rows (symbol timeframe created_by : string) (now seq : Z) (items : list (list (string * pyval)))
    : list annotation_row :=
  match items with
  | [] => []
  | data :: items =>
      mk_annotation (seq + 1) symbol timeframe (Some created_by) data now
        :: new_rows symbol timeframe created_by now (seq + 1) items
  end.

Definition annotation_rows {X} (w : world X) : list annotation_row := tb_annotations (market (w_db w)).
Definition annotation_seq {X} (w : world X) : Z := tb_annotations_seq (market (w_db w)).

(** Ids are unique and were all given before. *)
Definition annotations_ok {X} (w : world X) : Prop :=
  NoDup (map an_id (annotation_rows w)) ∧ Forall (λ r, an_id r ≤ annotation_seq w)%Z (annotation_rows w).

Lemma new_rows_ids s t by_ now seq items :
  NoDup (map an_id (new_rows s t by_ now seq items)) ∧
  Forall (λ r, seq < an_id r ≤ seq + Z.of_nat (length items))%Z (new_rows s t by_ now seq items).
Proof.
  revert seq. induction items as [|d items IH]; intros seq; simpl; [repeat constructor|].
  destruct (IH (seq + 1)%Z) as [Hn Hf]. split.
  - constructor; [|done]. intros (r & Hr & Hin)%list_elem_of_fmap. rewrite Forall_forall in Hf. apply Hf in Hin. lia.
  - constructor; [simpl; lia|]. eapply Forall_impl; [exact Hf|]. simpl. lia.
Qed.

Lemma new_rows_zip s t by_ now seq items :
  let rows := new_rows s t by_ now seq items in
  rows = zip_with (λ i d, mk_annotation i s t (Some by_) d now) (map an_id rows) items ∧ length rows = length items.
Proof.
  simpl. revert seq. induction items as [|d items IH]; intros seq; simpl; [done|].
  destruct (IH (seq + 1)%Z) as [Hz Hl]. split; [by rewrite <-Hz|by rewrite Hl].
Qed.

Lemma items_of_dicts items : items_of (PList (map PDict items)) = Ok items.
Proof. unfold items_of. induction items as [|d items IH]; simpl in *; [done|]. by rewrite IH. Qed.

Lemma other_chart s t s' t' : (s', t') ≠ (s, t) → String.eqb s s' && String.eqb t t' = false.
Proof.
  intros Hne. apply andb_false_iff. destruct (String.eqb_spec s s') as [->|]; [|by left].
  destruct (String.eqb_spec t t') as [->|]; [|by right]. done.
Qed.

Lemma chart_new_rows s t by_ now seq items s' t' :
  List.filter (chart_of s' t') (new_rows s t by_ now seq items) =
  if String.eqb s s' && String.eqb t t' then new_rows s t by_ now seq items else [].
Proof.
  revert seq. induction items as [|d items IH]; intros seq; simpl; [by destruct (_ && _)|].
  unfold chart_of at 1. simpl. rewrite IH. by destruct (_ && _).
Qed.

Lemma order_by_app {A} (key : A → Z) (b : Z) l1 l2 :
  Forall (λ x, key x ≤ b)%Z l1 → Forall (λ x, key x = b) l2 → order_by key (l1 ++ l2) = order_by key l1 ++ l2.
Proof.
  intros H1 H2. revert l1 H1. induction l2 as [|x l2 IH] using rev_ind; intros l1 H1; [by rewrite !app_nil_r|].
  apply Forall_app in H2 as [H2 Hx]. rewrite Forall_singleton in Hx. rewrite !app_assoc, order_by_snoc; [by rewrite IH|].
  rewrite Hx. apply Forall_app. split; [done|]. eapply Forall_impl; [exact H2|]. simpl. lia.
Qed.

Section AnnotationsSpec.
Context {X : Type} `{Ext X}.

Lemma insert_all_run s t by_ now items (w : world X) :
  mapM (insert_annotation s t by_ now) items w =
  (Ok (map an_id (new_rows s t by_ now (annotation_seq w) items)),
   with_db w (set_market (set_tb_annotations (λ l, l ++ new_rows s t by_ now (annotation_seq w) items))
     (set_market (set_tb_annotations_seq (λ q, q + Z.of_nat (length items))%Z) (w_db w)))).
Proof.
  revert w. induction items as [|d items IH]; intros w.
  - simpl. unfold mret, ST_ret. f_equal. destruct w as [[] ? ? ?]. unfold with_db, set_market. simpl.
    destruct market; simpl. unfold set_tb_annotations, set_tb_annotations_seq; simpl. by rewrite app_nil_r, Z.add_0_r.
  - cbn [mapM]. erewrite ST_bind_run by reflexivity. erewrite ST_bind_run by apply IH.
    destruct w as [[] ? ? ?]. unfold annotation_seq, with_db, mret, ST_ret. simpl.
    unfold set_market. simpl. destruct market; simpl. unfold set_tb_annotations, set_tb_annotations_seq; simpl.
    rewrite <-app_assoc. simpl. match goal with |- context [Z.add ?a (Z.of_nat ?n)] =>
      replace (a + Z.of_nat n)%Z with (tb_annotations_seq + Z.of_nat (S n))%Z by lia end. done.
Qed.
End AnnotationsSpec.

(** C32: annotations come back as they were given.  Annotating a chart answers fresh
    ids; reading the chart gives what it gave before, then the new annotations in
    their order under these ids; the other charts read the same.  Clearing it removes
    as many rows as it had and no others. *)
Theorem annotations_roundtrip {X} `{Ext X} s t by_ items (w : world X) :
  w_closed w = false → annotations_ok w → s ≠ "" → t ≠ "" → items ≠ [] →
  let now := (ext_time (w_ext w)).1 in
  Forall (λ r, an_created_at r ≤ now)%Z (annotation_rows w) →
  let chart s' t' (w' : world X) := (get_annotations s' t' w').1 in
  ∃ ids w1 old, annotate (PStr s) (PStr t) (PList (map PDict items)) by_ w = (Ok ids, w1) ∧ annotations_ok w1 ∧
    chart s t w = Ok old ∧ chart s t w1 = Ok (old ++ zip_with (λ i d, mk_annotation i s t (Some by_) d now) ids items) ∧
    length ids = length items ∧ (∀ r, r ∈ annotation_rows w → an_id r ∉ ids) ∧
    (∀ s' t', (s', t') ≠ (s, t) → chart s' t' w1 = chart s' t' w) ∧
    ∃ w2, clear s t w1 = (Ok (length old + length items)%nat, w2) ∧ chart s t w2 = Ok [] ∧
      ∀ s' t', (s', t') ≠ (s, t) → chart s' t' w2 = chart s' t' w.
Proof.
  intros Hc [Hn Hf] Hs Ht Hi now Hnow chart.
  set (rows := new_rows s t by_ now (annotation_seq w) items).
  destruct (new_rows_zip s t by_ now (annotation_seq w) items) as [Hz Hl]. fold rows in Hz, Hl.
  destruct (new_rows_ids s t by_ now (annotation_seq w) items) as [Hn' Hf']. fold rows in Hn', Hf'.
  assert (∃ w1, annotate (PStr s) (PStr t) (PList (map PDict items)) by_ w = (Ok (map an_id rows), w1) ∧
    annotation_rows w1 = annotation_rows w ++ rows ∧ annotation_seq w1 = (annotation_seq w + Z.of_nat (length items))%Z ∧
    w_closed w1 = false) as (w1 & Hrun & Hr1 & Hs1 & Hc1).
  { unfold annotate. erewrite (ST_bind_run _ _ w s) by (by destruct s). erewrite (ST_bind_run _ _ w t) by (by destruct t).
    erewrite (ST_bind_run _ _ w items) by (unfold lift; by rewrite items_of_dicts).
    destruct items as [|d items]; [done|].
    erewrite (ST_bind_run time_now _ w now (mk_world (w_db w) (w_closed w) (ext_time (w_ext w)).2 (w_trace w)))
      by (unfold time_now, on_ext, now; by destruct (ext_time _)).
    unfold db_write. cbn [w_closed]. rewrite Hc, insert_all_run. eexists. split; [reflexivity|].
    split; [done|]. split; [done|done]. }
  assert (∀ s' t' (w' : world X), chart s' t' w' = Ok (order_by an_created_at (List.filter (chart_of s' t') (annotation_rows w'))))
    as Hchart by done.
  set (old := order_by an_created_at (List.filter (chart_of s t) (annotation_rows w))).
  assert (chart s t w1 = Ok (old ++ rows)) as Hread.
  { rewrite Hchart, Hr1, List.filter_app. unfold rows at 1. rewrite chart_new_rows, !String.eqb_refl. simpl. f_equal.
    apply (order_by_app _ now).
    - apply Forall_forall. intros r [Hr _]%elem_of_filter_b. rewrite Forall_forall in Hnow. by apply Hnow.
    - rewrite Hz. clear. generalize (map an_id rows). induction items; intros [|i l]; simpl; constructor; auto. }
  exists (map an_id rows), w1, old. rewrite <-Hz, length_map. split; [done|]. split.
  { split; rewrite Hr1.
    - rewrite map_app. apply NoDup_app. split_and!; [done| |done].
      intros i (r & -> & Hr)%list_elem_of_fmap (r' & Heq & Hr')%list_elem_of_fmap.
      rewrite Forall_forall in Hf, Hf'. specialize (Hf _ Hr). specialize (Hf' _ Hr'). simpl in *. lia.
    - rewrite Hs1. apply Forall_app.
      split; [eapply Forall_impl; [exact Hf|]|eapply Forall_impl; [exact Hf'|]]; intros r; simpl; lia. }
  split; [done|]. split; [done|]. split; [done|]. split.
  { intros r Hr (r' & Heq & Hr')%list_elem_of_fmap. rewrite Forall_forall in Hf, Hf'.
    specialize (Hf _ Hr). specialize (Hf' _ Hr'). simpl in *. lia. }
  assert (∀ s' t', (s', t') ≠ (s, t) → chart s' t' w1 = chart s' t' w) as Hother.
  { intros s' t' Hne. rewrite !Hchart, Hr1, List.filter_app. unfold rows.
    by rewrite chart_new_rows, other_chart, app_nil_r. }
  split; [exact Hother|].
  assert (∃ w2, clear s t w1 = (Ok (count_where (chart_of s t) (annotation_rows w1)), w2) ∧
    annotation_rows w2 = delete_where (chart_of s t) (annotation_rows w1)) as (w2 & Hclear & Hr2).
  { unfold clear, db_write. rewrite Hc1. eexists. split; reflexivity. }
  assert (∀ (q : annotation_row → bool) l, (∀ r, q r = true → chart_of s t r = false) →
    List.filter q (delete_where (chart_of s t) l) = List.filter q l) as Hdel.
  { intros q l Hq. unfold delete_where. induction l as [|r l IH]; [done|]. simpl.
    destruct (chart_of s t r) eqn:E; simpl; [|by rewrite IH].
    destruct (q r) eqn:Eq; [|done]. apply Hq in Eq. congruence. }
  exists w2. rewrite Hclear. split; [|split].
  - do 2 f_equal. unfold count_where. rewrite Hchart in Hread. injection Hread as Hread.
    rewrite <-(length_order_by an_created_at), Hread, length_app. lia.
  - rewrite Hchart, Hr2. unfold delete_where. f_equal.
    assert (List.filter (chart_of s t) (List.filter (λ x, negb (chart_of s t x)) (annotation_rows w1)) = []) as ->; [|done].
    clear. induction (annotation_rows w1) as [|r l IH]; [done|]. simpl. destruct (chart_of s t r) eqn:E; simpl; [done|by rewrite E].
  - intros s' t' Hne. rewrite <-Hother by done. rewrite !Hchart, Hr2, Hdel; [done|].
    unfold chart_of. intros r [<-%String.eqb_eq <-%String.eqb_eq]%andb_true_iff. by apply other_chart.
Qed.

#[local] Existing Instance outside_ext.

Definition line (n : Z) : list (string * pyval) := [("y", PInt n)].

Lemma annotations_roundtrip_witness :
  ∃ ids w1, annotate (PStr "BTCUSDT") (PStr "1h") (PList [PDict (line 1); PDict (line 2)]) "agent" (start empty_db)
      = (Ok ids, w1) ∧ length ids = 2%nat ∧
    (get_annotations "BTCUSDT" "1h" w1).1 = Ok (zip_with (λ i d, mk_annotation i "BTCUSDT" "1h" (Some "agent") d 1000) ids [line 1; line 2]).
Proof.
  destruct (annotations_roundtrip "BTCUSDT" "1h" "agent" [line 1; line 2] (start empty_db) eq_refl
    (conj NoDup_nil_2 (Forall_nil_2 _)) ltac:(done) ltac:(done) ltac:(done) (Forall_nil_2 _))
    as (ids & w1 & old & Hrun & _ & Hold & Hread & Hlen & _).
  exists ids, w1. split; [exact Hrun|]. split; [exact Hlen|].
  injection Hold as <-. exact Hread.
Defined.
