(* ===== verification/Lock.v ===== *)
(** [daemon/lock.py] and the ownership watch of [daemon/main.py]: the lock file that
    is to keep daemons apart.

    Several daemons run over one file system, so the operations are cut into steps at
    every access to it, and a run is any interleaving of them.  A file is named by its
    inode: what a daemon writes after its file was removed is lost.  [LockInfo.create]
    of a daemon (a fresh nonce and token) is made before its steps. *)

From Stdlib Require Import ZArith String.
From S2P Require Import Prelude PyFloat PyVal Errors.
Local Open Scope string_scope.
Local Open Scope list_scope.

Definition LOCK_VERSION : Z := 1.

Record LockInfo := mk_lock {
  lk_version : Z;
  lk_pid : Z;
  lk_start_time : float;
  lk_nonce : string;
  lk_token : string;
  lk_state : string;
  lk_port : Z;
  lk_created_at : float }.

Section Dict.
(** [str(v)] of a value that is no string. *)
Context (str_other : pyval → string).

Definition to_str (v : pyval) : string := match v with PStr s => s | v => str_other v end.

Definition item (key : string) (v : pyval) : result pyval :=
  match v with
  | PDict d => match assoc key d with Some v => Ok v | None => Err KeyError end
  | _ => Err TypeError
  end.
Definition item_or (key : string) (default_ v : pyval) : result pyval :=
  match v with
  | PDict d => Ok (default default_ (assoc key d))
  | _ => Err AttributeError
  end.

Definition from_dict (d : pyval) : result LockInfo :=
  version ← item "version" d; version ← py_int version;
  pid ← item "pid" d; pid ← py_int pid;
  start_time ← item "start_time" d; start_time ← py_float start_time;
  nonce ← item "nonce" d;
  token ← item "token" d;
  state ← item_or "state" (PStr "starting") d;
  port ← item_or "port" (PInt 0) d; port ← py_int port;
  created_at ← item_or "created_at" (PFloat fzero) d; created_at ← py_float created_at;
  Ok (mk_lock version pid start_time (to_str nonce) (to_str token) (to_str state) port created_at).

Definition to_dict (i : LockInfo) : pyval :=
  PDict [("version", PInt (lk_version i)); ("pid", PInt (lk_pid i)); ("start_time", PFloat (lk_start_time i));
         ("nonce", PStr (lk_nonce i)); ("token", PStr (lk_token i)); ("state", PStr (lk_state i));
         ("port", PInt (lk_port i)); ("created_at", PFloat (lk_created_at i))].

Lemma from_to_dict i : from_dict (to_dict i) = Ok i.
Proof. by destruct i. Qed.

(** ** The file system and the processes *)

(** The lock file, its inode and what it holds ([None]: not JSON); the next inode;
    the live processes with their start times. *)
Record shared := mk_shared {
  fs_lock : option (nat * option pyval);
  fs_next : nat;
  fs_procs : list (Z * float) }.

Definition set_lock (f : option (nat * option pyval)) (sh : shared) : shared := mk_shared f (fs_next sh) (fs_procs sh).

Definition pid_alive (pid : Z) (sh : shared) : bool :=
  (0 <? pid)%Z && existsb (λ p, (p.1 =? pid)%Z) (fs_procs sh).

Definition owner_alive (info : LockInfo) (sh : shared) : bool :=
  if negb (pid_alive (lk_pid info) sh) then false
  else match List.find (λ p, (p.1 =? lk_pid info)%Z) (fs_procs sh) with
       | Some (_, actual) => flt (fabs (fsub actual (lk_start_time info))) (fZ 2)
       | None => false
       end.

(** An exception the code does not catch ends the process; it needs a number too
    large for a float, and is read as nothing here. *)
Definition read_lock (sh : shared) : option LockInfo :=
  match fs_lock sh with
  | Some (_, Some v) => match from_dict v with Ok i => Some i | Err _ => None end
  | _ => None
  end.

Definition unlink (sh : shared) : shared := set_lock None sh.
Definition exists_ (sh : shared) : bool := match fs_lock sh with Some _ => true | None => false end.

(** ** [LockManager.acquire], step by step *)

Inductive pc :=
| Reading (retries : nat)                          (* [existing = read_lock(...)] *)
| Probing (retries : nat)                          (* [self._path.exists()] *)
| Rereading (retries tries : nat)                  (* sleep and read again *)
| GivingUp (retries : nat)                         (* remove an unreadable file *)
| Judging (retries : nat) (existing : LockInfo)    (* [owner_alive(existing)] *)
| Removing (retries : nat)                         (* remove a stale lock *)
| Creating (retries : nat)                         (* [O_CREAT | O_EXCL] *)
| Writing (inode : nat)                            (* write and sync *)
| Held
| Refused                                          (* [LockHeldError] *)
| Stopped.

Definition max_retries : nat := 5.

Record daemon := mk_daemon { d_info : LockInfo; d_pc : pc }.
Definition at_pc (p : pc) (d : daemon) : daemon := mk_daemon (d_info d) p.

Definition acquire_step (d : daemon) (sh : shared) : daemon * shared :=
  match d_pc d with
  | Reading O => (at_pc Refused d, sh)
  | Reading (S k) =>
      (at_pc (match read_lock sh with Some i => Judging k i | None => Probing k end) d, sh)
  | Probing k => (at_pc (if exists_ sh then Rereading k 3 else Creating k) d, sh)
  | Rereading k O => (at_pc (GivingUp k) d, sh)
  | Rereading k (S n) =>
      (at_pc (match read_lock sh with Some i => Judging k i | None => Rereading k n end) d, sh)
  | GivingUp k => (at_pc (Creating k) d, unlink sh)
  | Judging k i => (at_pc (if owner_alive i sh then Refused else Removing k) d, sh)
  | Removing k => (at_pc (Reading k) d, unlink sh)
  | Creating k =>
      if exists_ sh then (at_pc (Reading k) d, sh)
      else (at_pc (Writing (fs_next sh)) d, mk_shared (Some (fs_next sh, None)) (S (fs_next sh)) (fs_procs sh))
  | Writing inode =>
      (at_pc Held d,
       match fs_lock sh with
       | Some (n, _) => if Nat.eqb n inode then set_lock (Some (n, Some (to_dict (d_info d)))) sh else sh
       | None => sh
       end)
  | Held | Refused | Stopped => (d, sh)
  end.

(** ** What a holder does *)

Definition with_state (state : string) (i : LockInfo) : LockInfo :=
  mk_lock (lk_version i) (lk_pid i) (lk_start_time i) (lk_nonce i) (lk_token i) state (lk_port i) (lk_created_at i).

(** [os.replace] of a temporary file: whatever is there is replaced. *)
Definition update_state (state : string) (d : daemon) (sh : shared) : daemon * shared :=
  let i := with_state state (d_info d) in
  (mk_daemon i (d_pc d), mk_shared (Some (fs_next sh, Some (to_dict i))) (S (fs_next sh)) (fs_procs sh)).

Definition owns (i : LockInfo) (sh : shared) : bool :=
  match read_lock sh with
  | Some c => (lk_pid c =? lk_pid i)%Z && String.eqb (lk_nonce c) (lk_nonce i)
  | None => false
  end.

Definition release (d : daemon) (sh : shared) : daemon * shared :=
  (at_pc Stopped d, if owns (d_info d) sh then unlink sh else sh).

(** One turn of [_ownership_watch]: a daemon whose nonce is not in the file stops. *)
Definition watch (d : daemon) (sh : shared) : daemon * shared :=
  match read_lock sh with
  | Some c => if String.eqb (lk_nonce c) (lk_nonce (d_info d)) then (d, sh) else (at_pc Stopped d, sh)
  | None => (at_pc Stopped d, sh)
  end.

(** ** Runs of several daemons *)

Inductive action := Acquire | Update (state : string) | Watch | Release | Die.

Record system := mk_system { y_daemons : list daemon; y_shared : shared }.

Definition is_held (d : daemon) : bool := match d_pc d with Held => true | _ => false end.

Definition die (d : daemon) (sh : shared) : daemon * shared :=
  (at_pc Stopped d, mk_shared (fs_lock sh) (fs_next sh)
     (List.filter (λ p, negb (p.1 =? lk_pid (d_info d))%Z) (fs_procs sh))).

(** What an action does to its daemon; only a holder updates, watches and releases. *)
Definition perform (a : action) (d : daemon) (sh : shared) : daemon * shared :=
  match a with
  | Acquire => acquire_step d sh
  | Die => die d sh
  | Update state => if is_held d then update_state state d sh else (d, sh)
  | Watch => if is_held d then watch d sh else (d, sh)
  | Release => if is_held d then release d sh else (d, sh)
  end.

Definition act (i : nat) (a : action) (y : system) : system :=
  match y_daemons y !! i with
  | Some d => let '(d', sh) := perform a d (y_shared y) in mk_system (<[i := d']> (y_daemons y)) sh
  | None => y
  end.

Definition run_actions (l : list (nat * action)) (y : system) : system := foldl (λ y ia, act ia.1 ia.2 y) y l.

Definition holders (y : system) : list daemon := List.filter is_held (y_daemons y).
End Dict.

(** ** One daemon alone *)

Section Alone.
Context (str_other : pyval → string).

Fixpoint turns (n : nat) (d : daemon) (sh : shared) : daemon * shared :=
  match n with
  | O => (d, sh)
  | S n => let '(d, sh) := acquire_step str_other d sh in turns n d sh
  end.

Lemma turns_step n d sh d' sh' : acquire_step str_other d sh = (d', sh') → turns (S n) d sh = turns n d' sh'.
Proof. intros E. simpl. by rewrite E. Qed.

Lemma turns_done n d sh : d_pc d = Held ∨ d_pc d = Refused → turns n d sh = (d, sh).
Proof.
  intros Hd. induction n as [|n IH]; [done|]. rewrite (turns_step n d sh d sh); [done|].
  unfold acquire_step. by destruct Hd as [-> | ->].
Qed.

Lemma own_dict info : from_dict str_other (to_dict info) = Ok info.
Proof. apply from_to_dict. Qed.

(** From an empty place a file is made and written. *)
Lemma turns_create n k info next procs :
  turns (2 + n) (mk_daemon info (Creating k)) (mk_shared None next procs)
  = (mk_daemon info Held, mk_shared (Some (next, Some (to_dict info))) (S next) procs).
Proof.
  change (2 + n)%nat with (S (S n)). erewrite turns_step by reflexivity. erewrite turns_step by reflexivity.
  simpl. rewrite Nat.eqb_refl. by rewrite turns_done by (by left).
Qed.

Lemma turns_absent n k info next procs :
  turns (4 + n) (mk_daemon info (Reading (S k))) (mk_shared None next procs)
  = (mk_daemon info Held, mk_shared (Some (next, Some (to_dict info))) (S next) procs).
Proof.
  change (4 + n)%nat with (S (S (2 + n))). do 2 erewrite turns_step by reflexivity. apply turns_create.
Qed.

Lemma turns_unreadable n k info f next procs : read_lock str_other (mk_shared (Some f) next procs) = None →
  turns (9 + n) (mk_daemon info (Reading (S k))) (mk_shared (Some f) next procs)
  = (mk_daemon info Held, mk_shared (Some (next, Some (to_dict info))) (S next) procs).
Proof.
  intros Hr. change (9 + n)%nat with (S (S (S (S (S (S (S (2 + n)))))))).
  erewrite turns_step by (cbn [acquire_step d_pc]; rewrite Hr; reflexivity).
  erewrite turns_step by reflexivity.
  change (if exists_ _ then Rereading k 3 else Creating k) with (Rereading k 3).
  do 3 erewrite turns_step by (cbn [acquire_step d_pc at_pc d_info]; rewrite Hr; reflexivity).
  do 2 erewrite turns_step by reflexivity. apply turns_create.
Qed.

Lemma turns_stale n k info i f next procs :
  read_lock str_other (mk_shared (Some f) next procs) = Some i → owner_alive i (mk_shared (Some f) next procs) = false →
  turns (7 + n) (mk_daemon info (Reading (S (S k)))) (mk_shared (Some f) next procs)
  = (mk_daemon info Held, mk_shared (Some (next, Some (to_dict info))) (S next) procs).
Proof.
  intros Hr Ha. change (7 + n)%nat with (S (S (S (4 + n)))).
  erewrite turns_step by (cbn [acquire_step d_pc]; rewrite Hr; reflexivity).
  erewrite turns_step by (cbn [acquire_step d_pc at_pc d_info]; rewrite Ha; reflexivity).
  erewrite turns_step by reflexivity. apply turns_absent.
Qed.

Lemma turns_refused n k info i sh : read_lock str_other sh = Some i → owner_alive i sh = true →
  turns (2 + n) (mk_daemon info (Reading (S k))) sh = (mk_daemon info Refused, sh).
Proof.
  intros Hr Ha. change (2 + n)%nat with (S (S n)).
  erewrite turns_step by (cbn [acquire_step d_pc]; rewrite Hr; reflexivity).
  erewrite turns_step by (cbn [acquire_step d_pc at_pc d_info]; rewrite Ha; reflexivity).
  apply turns_done. by right.
Qed.

Ltac settled E := let P := fresh in pose proof E as P; cbn [Nat.add] in P; unfold max_retries; rewrite P; clear P.

(** Alone, a daemon takes the lock exactly when nobody alive has it.  With a
    readable lock of a live process [acquire] is refused and touches nothing; with no
    lock, an unreadable one or one of a dead process it ends, within its retries,
    holding a lock file that reads as its own. *)
Theorem acquire_alone info sh :
  let '(d', sh') := turns 10 (mk_daemon info (Reading max_retries)) sh in
  match read_lock str_other sh with
  | Some i =>
      if owner_alive i sh then d_pc d' = Refused ∧ sh' = sh
      else d_pc d' = Held ∧ read_lock str_other sh' = Some info
  | None => d_pc d' = Held ∧ read_lock str_other sh' = Some info
  end ∧ fs_procs sh' = fs_procs sh.
Proof.
  assert (∀ next procs, read_lock str_other (mk_shared (Some (next, Some (to_dict info))) (S next) procs) = Some info)
    as Hown by (intros; unfold read_lock; simpl fs_lock; cbv iota beta; by rewrite own_dict).
  destruct (read_lock str_other sh) as [i|] eqn:Hr.
  - destruct (owner_alive i sh) eqn:Ha.
    + settled (turns_refused 8 4 info i sh Hr Ha). done.
    + destruct sh as [[f|] next procs]; [|discriminate].
      settled (turns_stale 3 3 info i f next procs Hr Ha). simpl d_pc. by rewrite Hown.
  - destruct sh as [[f|] next procs].
    + settled (turns_unreadable 1 4 info f next procs Hr). simpl d_pc. by rewrite Hown.
    + settled (turns_absent 6 4 info next procs). simpl d_pc. by rewrite Hown.
Qed.
End Alone.

(** ** Several daemons *)

Section Several.
Context (str_other : pyval → string).
Abbreviation act := (act str_other).
Abbreviation read := (read_lock str_other).

(** No process dies, and no daemon comes to remove a file it took for unreadable: a
    rival writes its new file within the three re-reads (60 ms). *)
Definition calm_step (i : nat) (a : action) (y : system) : bool :=
  match a with
  | Die => false
  | Acquire => match y_daemons y !! i with
               | Some d => match d_pc d with GivingUp _ => false | _ => true end
               | None => true
               end
  | _ => true
  end.
Fixpoint calm (l : list (nat * action)) (y : system) : bool :=
  match l with
  | [] => true
  | (i, a) :: l => calm_step i a y && calm l (act i a y)
  end.

Definition fresh (d : daemon) : bool := match d_pc d with Reading _ => true | _ => false end.

(** Live daemons about to start, and no lock file or that of a live process. *)
Definition starting (y : system) : Prop :=
  Forall (λ d, fresh d ∧ owner_alive (d_info d) (y_shared y)) (y_daemons y)
  ∧ (fs_lock (y_shared y) = None ∨ ∃ i, read (y_shared y) = Some i ∧ owner_alive i (y_shared y)).

Definition claims (d : daemon) : bool := match d_pc d with Writing _ | Held => true | _ => false end.
Definition sound_pc (d : daemon) (sh : shared) : Prop :=
  match d_pc d with Judging _ i => owner_alive i sh | Removing _ => False | _ => True end.

Inductive seat (ds : list daemon) (sh : shared) : Prop :=
| Vacant : fs_lock sh = None → Forall (λ d, claims d = false) ds → seat ds sh
| Foreign i : read sh = Some i → owner_alive i sh → Forall (λ d, claims d = false) ds → seat ds sh
| Taken o d n c : ds !! o = Some d → fs_lock sh = Some (n, c) →
    (d_pc d = Writing n ∧ c = None ∨ d_pc d = Held ∧ c = Some (to_dict (d_info d))) →
    (∀ j e, ds !! j = Some e → j ≠ o → claims e = false) → seat ds sh.

Record apart (y : system) : Prop := {
  apart_alive : Forall (λ d, owner_alive (d_info d) (y_shared y)) (y_daemons y);
  apart_pcs : Forall (λ d, sound_pc d (y_shared y)) (y_daemons y);
  apart_seat : seat (y_daemons y) (y_shared y) }.

Lemma owner_alive_procs i sh sh' : fs_procs sh = fs_procs sh' → owner_alive i sh = owner_alive i sh'.
Proof. intros E. unfold owner_alive, pid_alive. by rewrite E. Qed.

Lemma read_own sh n info : fs_lock sh = Some (n, Some (to_dict info)) → read sh = Some info.
Proof. intros E. unfold read_lock. rewrite E. cbv iota beta. by rewrite own_dict. Qed.

Lemma starting_apart y : starting y → apart y.
Proof.
  intros [Hd Hl]. split.
  - by eapply Forall_impl; [exact Hd|]; intros d [_ ?].
  - eapply Forall_impl; [exact Hd|]. intros d [Hf _]. unfold fresh, sound_pc in *. by destruct (d_pc d).
  - assert (Forall (λ d, claims d = false) (y_daemons y)) as Hc.
    { eapply Forall_impl; [exact Hd|]. intros d [Hf _]. unfold fresh, claims in *. by destruct (d_pc d). }
    destruct Hl as [? | (i & ? & ?)]; [by apply Vacant | by eapply Foreign].
Qed.

(** Whoever is read in the file is alive. *)
Lemma apart_reader y i : apart y → read (y_shared y) = Some i → owner_alive i (y_shared y).
Proof.
  intros [Ha _ [Hn _ | j Hr Hj _ | o d n c Ho Hl Hc _]] Hi.
  - unfold read_lock in Hi. by rewrite Hn in Hi.
  - by simplify_eq.
  - destruct Hc as [[_ ->] | [_ ->]].
    + unfold read_lock in Hi. by rewrite Hl in Hi.
    + rewrite (read_own _ _ _ Hl) in Hi. injection Hi as <-. exact (Forall_lookup_1 _ _ _ _ Ha Ho).
Qed.

(** A step of daemon [i] keeps the daemons apart when it keeps the processes and its
    own identity's life, and the seat stays sound. *)
Lemma apart_act y i d d' sh' :
  apart y → y_daemons y !! i = Some d → fs_procs sh' = fs_procs (y_shared y) →
  owner_alive (d_info d') (y_shared y) → sound_pc d' (y_shared y) →
  seat (<[i := d']> (y_daemons y)) sh' → apart (mk_system (<[i := d']> (y_daemons y)) sh').
Proof.
  intros [Ha Hp _] Hi Hprocs Hal Hs Hseat. split; simpl; [| |done].
  - apply Forall_insert; [|by rewrite (owner_alive_procs _ _ _ Hprocs)].
    eapply Forall_impl; [exact Ha|]. intros e. by rewrite (owner_alive_procs _ sh' _ Hprocs).
  - assert (∀ e, sound_pc e (y_shared y) → sound_pc e sh') as Hsame.
    { intros e. unfold sound_pc. destruct (d_pc e); try done. by rewrite (owner_alive_procs _ sh' _ Hprocs). }
    apply Forall_insert; [|by apply Hsame]. eapply Forall_impl; [exact Hp|]. done.
Qed.

Lemma seat_same ds sh i d d' : seat ds sh → ds !! i = Some d → claims d = false → claims d' = false →
  seat (<[i := d']> ds) sh.
Proof.
  intros Hs Hi Hd Hd'. destruct Hs as [? Hc | j ? ? Hc | o e n c Ho Hl He Hothers].
  - apply Vacant; [done|]. by apply Forall_insert.
  - eapply Foreign; [done..|]. by apply Forall_insert.
  - assert (o ≠ i) as Hne.
    { intros ->. rewrite Ho in Hi. injection Hi as ->. unfold claims in Hd. by destruct He as [[E _] | [E _]]; rewrite E in Hd. }
    eapply (Taken _ _ o e n c); [by rewrite list_lookup_insert_ne|done|done|].
    intros j f Hj Hjo. destruct (decide (j = i)) as [->|Hji].
    + rewrite list_lookup_insert_eq in Hj; [by injection Hj as <-|]. by apply lookup_lt_Some in Hi.
    + rewrite list_lookup_insert_ne in Hj by done. by eapply Hothers.
Qed.

(** The only claimant is the daemon the seat is taken by. *)
Lemma seat_claimant ds sh i d : seat ds sh → ds !! i = Some d → claims d = true →
  ∃ n c, fs_lock sh = Some (n, c)
  ∧ (d_pc d = Writing n ∧ c = None ∨ d_pc d = Held ∧ c = Some (to_dict (d_info d)))
  ∧ (∀ j e, ds !! j = Some e → j ≠ i → claims e = false).
Proof.
  intros [? Hc | j ? ? Hc | o e n c Ho Hl He Hothers] Hi Hd.
  - rewrite (Forall_lookup_1 _ _ _ _ Hc Hi) in Hd. discriminate.
  - rewrite (Forall_lookup_1 _ _ _ _ Hc Hi) in Hd. discriminate.
  - destruct (decide (i = o)) as [->|Hne].
    + simplify_eq. eauto 10.
    + rewrite (Hothers _ _ Hi Hne) in Hd. discriminate.
Qed.

Lemma seat_retaken ds i d d' sh' n c : ds !! i = Some d →
  (∀ j e, ds !! j = Some e → j ≠ i → claims e = false) →
  fs_lock sh' = Some (n, c) → (d_pc d' = Writing n ∧ c = None ∨ d_pc d' = Held ∧ c = Some (to_dict (d_info d'))) →
  seat (<[i := d']> ds) sh'.
Proof.
  intros Hi Hothers Hl Hd'. eapply (Taken _ _ i d' n c); [|done|done|].
  - apply list_lookup_insert_eq. by apply lookup_lt_Some in Hi.
  - intros j e Hj Hji. rewrite list_lookup_insert_ne in Hj by done. by eapply Hothers.
Qed.

Lemma seat_left ds i d d' sh' : ds !! i = Some d →
  (∀ j e, ds !! j = Some e → j ≠ i → claims e = false) → claims d' = false →
  fs_lock sh' = None → seat (<[i := d']> ds) sh'.
Proof.
  intros Hi Hothers Hd' Hl. apply Vacant; [done|]. apply Forall_lookup. intros j e Hj.
  destruct (decide (j = i)) as [->|Hji].
  - rewrite list_lookup_insert_eq in Hj by (by apply lookup_lt_Some in Hi). by injection Hj as <-.
  - rewrite list_lookup_insert_ne in Hj by done. by eapply Hothers.
Qed.

Lemma owner_alive_state state i sh : owner_alive (with_state state i) sh = owner_alive i sh.
Proof. done. Qed.

Lemma apart_acquire y i d d' sh' : apart y → y_daemons y !! i = Some d →
  (∀ k, d_pc d ≠ GivingUp k) → acquire_step str_other d (y_shared y) = (d', sh') →
  apart (mk_system (<[i := d']> (y_daemons y)) sh').
Proof.
  intros Hy Hi Hcalm E. pose proof Hy as [Ha Hp Hseat].
  pose proof (Forall_lookup_1 _ _ _ _ Ha Hi) as Had. pose proof (Forall_lookup_1 _ _ _ _ Hp Hi) as Hpd.
  destruct d as [info p]. simpl in Had. unfold sound_pc in Hpd. simpl in Hpd.
  (* a move between steps that claim nothing *)
  assert (∀ q, claims (mk_daemon info p) = false → claims (mk_daemon info q) = false →
    sound_pc (mk_daemon info q) (y_shared y) →
    apart (mk_system (<[i := mk_daemon info q]> (y_daemons y)) (y_shared y))) as Hmove.
  { intros q Hc Hq Hs. apply (apart_act y i _ _ _ Hy Hi); [done..|]. by eapply seat_same. }
  destruct p as [[|k]|k|k [|n]|k|k ex|k|k|n| | |]; simpl in E; unfold at_pc in E; simpl in E;
    try (injection E as <- <-); try done.
  - by apply Hmove.
  - destruct (read (y_shared y)) as [j|] eqn:Hr; apply Hmove; [done..| |done|done|done].
    exact (apart_reader _ _ Hy Hr).
  - destruct (exists_ _); by apply Hmove.
  - by apply Hmove.
  - destruct (read (y_shared y)) as [j|] eqn:Hr; apply Hmove; [done..| |done|done|done].
    exact (apart_reader _ _ Hy Hr).
  - exfalso. by apply (Hcalm k).
  - assert (owner_alive ex (y_shared y) = true) as Ha' by (by apply Is_true_true). rewrite Ha'. by apply Hmove.
  - cbn [acquire_step d_pc] in E. unfold exists_ in E. destruct (fs_lock (y_shared y)) eqn:Hl; simpl in E; injection E as <- <-; [by apply Hmove|].
    apply (apart_act y i _ _ _ Hy Hi); [done..|].
    eapply seat_retaken; [done| |done|by left]. intros j e Hj _.
    destruct Hseat as [? Hc | f Hr _ _ | o f m c _ Hl' _ _]; [|unfold read_lock in Hr; by rewrite Hl in Hr|congruence].
    exact (Forall_lookup_1 _ _ _ _ Hc Hj).
  - destruct (seat_claimant _ _ _ _ Hseat Hi eq_refl) as (m & c & Hl & Hst & Hothers).
    simpl in Hst. destruct Hst as [[[= ->] ->] | [? _]]; [|done]. rewrite Hl, Nat.eqb_refl.
    apply (apart_act y i _ _ _ Hy Hi); [done..|]. eapply seat_retaken; [done|done|done|]. by right.
  - apply (apart_act y i _ _ _ Hy Hi); [done..|]. by rewrite list_insert_id.
  - apply (apart_act y i _ _ _ Hy Hi); [done..|]. by rewrite list_insert_id.
  - apply (apart_act y i _ _ _ Hy Hi); [done..|]. by rewrite list_insert_id.
Qed.

Lemma held_is d : is_held d = true → d_pc d = Held.
Proof. unfold is_held. by destruct (d_pc d). Qed.

Lemma apart_step y i a : apart y → calm_step i a y = true → apart (act i a y).
Proof.
  intros Hy Hc. unfold Lock.act. destruct (y_daemons y !! i) as [d|] eqn:Hi; [|done].
  destruct (perform str_other a d (y_shared y)) as [d' sh'] eqn:E.
  destruct a as [|state| | |]; simpl in E; [|destruct (is_held d) eqn:Hh..|done].
  1:{ unfold calm_step in Hc. rewrite Hi in Hc. eapply apart_acquire; try done. intros k Hk. by rewrite Hk in Hc. }
  2,4,6: injection E as <- <-; rewrite list_insert_id by done; by destruct y.
  all: apply held_is in Hh; destruct Hy as [Ha Hp Hseat] eqn:Hyy; clear Hyy;
    pose proof (Forall_lookup_1 _ _ _ _ Ha Hi) as Had;
    assert (claims d = true) as Hcl by (unfold claims; by rewrite Hh);
    destruct (seat_claimant _ _ _ _ Hseat Hi Hcl) as (m & c & Hl & [[Hst _]|[_ ->]] & Hothers); [congruence|];
    pose proof (read_own _ _ _ Hl) as Hown.
  - injection E as <- <-. apply (apart_act y i _ _ _ Hy Hi); [done..| |].
    + unfold sound_pc. simpl. by rewrite Hh.
    + eapply seat_retaken; [done|done|done|]. by right.
  - unfold watch in E. rewrite Hown, String.eqb_refl in E. injection E as <- <-.
    rewrite list_insert_id by done. by destruct y.
  - unfold release, owns in E. rewrite Hown, Z.eqb_refl, String.eqb_refl in E. simpl in E. injection E as <- <-.
    apply (apart_act y i _ _ _ Hy Hi); [done..|]. by eapply seat_left.
Qed.

Lemma apart_run l y : apart y → calm l y = true → apart (run_actions str_other l y).
Proof.
  revert y. induction l as [|[i a] l IH]; intros y Hy Hc; [done|]. simpl in *.
  apply andb_true_iff in Hc as [Hc1 Hc2]. apply IH; [|done]. by apply apart_step.
Qed.

Lemma filter_at_most {A} (f : A → bool) (l : list A) :
  (∀ i j x y, l !! i = Some x → l !! j = Some y → f x = true → f y = true → i = j) →
  (length (List.filter f l) ≤ 1)%nat.
Proof.
  induction l as [|a l IH]; intros Hu; [simpl; lia|]. simpl. destruct (f a) eqn:Ha.
  - enough (List.filter f l = []) as -> by (simpl; lia).
    destruct (List.filter f l) as [|b r] eqn:Hf; [done|]. exfalso.
    assert (In b (List.filter f l)) as Hb by (rewrite Hf; by left).
    apply filter_In in Hb as [Hb Hfb]. apply list_elem_of_In, list_elem_of_lookup in Hb as [j Hj].
    specialize (Hu 0%nat (S j) a b eq_refl Hj Ha Hfb). done.
  - apply IH. intros i j x y Hi Hj Hx Hy. specialize (Hu (S i) (S j) x y Hi Hj Hx Hy). congruence.
Qed.

Lemma apart_one_holder y : apart y →
  (length (holders y) ≤ 1)%nat ∧ (∀ d, In d (holders y) → read (y_shared y) = Some (d_info d)).
Proof.
  intros [_ _ Hseat].
  assert (∀ i d, y_daemons y !! i = Some d → is_held d = true → claims d = true) as Hc.
  { intros i d _ Hh. unfold claims. by rewrite (held_is _ Hh). }
  split.
  - apply filter_at_most. intros i j d e Hi Hj Hd He.
    destruct (seat_claimant _ _ _ _ Hseat Hi (Hc _ _ Hi Hd)) as (_ & _ & _ & _ & Ho).
    destruct (decide (i = j)) as [|Hne]; [done|]. specialize (Ho j e Hj (not_eq_sym Hne)).
    rewrite (Hc _ _ Hj He) in Ho. discriminate.
  - intros d [Hd Hh]%filter_In. apply list_elem_of_In, list_elem_of_lookup in Hd as [i Hi].
    destruct (seat_claimant _ _ _ _ Hseat Hi (Hc _ _ Hi Hh)) as (n & c & Hl & [[Hst _]|[_ ->]] & _).
    + rewrite (held_is _ Hh) in Hst. discriminate.
    + by eapply read_own.
Qed.

(** C20: one daemon at a time, without a takeover.  Daemons that are about to start and find
    no lock file, or that of a live process: whatever the interleaving of their
    steps, at most one of them holds the lock, and the file is then its own, while no process
    dies and a new file is written before a rival gives up reading it.  (A stale lock is
    outside of this: two daemons that take it over at once both hold it until their
    watches, [takeover_doubles].) *)
Theorem lock_exclusive y l : starting y → calm l y = true →
  let y' := run_actions str_other l y in
  (length (holders y') ≤ 1)%nat ∧ (∀ d, In d (holders y') → read (y_shared y') = Some (d_info d)).
Proof. intros Hs Hc. apply apart_one_holder, apart_run; [by apply starting_apart|done]. Qed.

(** One turn of every daemon's ownership watch. *)
Definition watches (n : nat) : list (nat * action) := map (λ i, (i, Watch)) (seq 0 n).

Definition watched (sh : shared) (d : daemon) : daemon := if is_held d then (watch str_other d sh).1 else d.

Lemma watch_act i d y : y_daemons y !! i = Some d →
  act i Watch y = mk_system (<[i := watched (y_shared y) d]> (y_daemons y)) (y_shared y).
Proof.
  intros Hi. unfold Lock.act. rewrite Hi. unfold watched. simpl. destruct (is_held d); [|done].
  unfold watch. destruct (read (y_shared y)); [by destruct (String.eqb _ _)|done].
Qed.

Lemma watches_run pre ds sh :
  run_actions str_other (map (λ i, (i, Watch)) (seq (length pre) (length ds))) (mk_system (pre ++ ds) sh)
  = mk_system (pre ++ map (watched sh) ds) sh.
Proof.
  revert pre. induction ds as [|d ds IH]; intros pre; [done|].
  cbn [length seq map run_actions foldl fst snd]. rewrite (watch_act _ d); [|simpl; by rewrite lookup_app_r, Nat.sub_diag by lia].
  cbn [y_daemons y_shared]. rewrite insert_app_r_alt, Nat.sub_diag by lia. simpl.
  specialize (IH (pre ++ [watched sh d])). rewrite length_app in IH. simpl in IH.
  rewrite Nat.add_1_r, <- !app_assoc in IH. exact IH.
Qed.

Lemma watched_holds sh d : is_held (watched sh d) = true →
  watched sh d = d ∧ ∃ c, read sh = Some c ∧ lk_nonce (d_info d) = lk_nonce c.
Proof.
  unfold watched. destruct (is_held d) eqn:Hh; [|congruence]. unfold watch.
  destruct (read sh) as [c|]; [|done]. destruct (String.eqb _ _) eqn:E; [|done].
  apply String.eqb_eq in E. eauto.
Qed.

(** The watches end a double hold.  However several daemons came to hold the lock
    at once, after one turn of every daemon's [_ownership_watch] at most one still
    holds it, the one the file names, for their nonces differ. *)
Theorem watches_heal y : NoDup (map (λ d, lk_nonce (d_info d)) (y_daemons y)) →
  let y' := run_actions str_other (watches (length (y_daemons y))) y in
  (length (holders y') ≤ 1)%nat
  ∧ (∀ d, In d (holders y') ↔ In d (holders y) ∧ ∃ c, read (y_shared y) = Some c ∧ lk_nonce c = lk_nonce (d_info d)).
Proof.
  intros Hn. destruct y as [ds sh]. simpl in *. unfold watches.
  pose proof (watches_run [] ds sh) as E. simpl in E. rewrite E. unfold holders. simpl. split.
  - apply filter_at_most. intros i j d e Hi Hj Hd He.
    rewrite list_lookup_fmap in Hi, Hj.
    destruct (ds !! i) as [d0|] eqn:Hdi; [|discriminate]. destruct (ds !! j) as [e0|] eqn:Hdj; [|discriminate].
    injection Hi as <-. injection Hj as <-.
    destruct (watched_holds _ _ Hd) as (_ & c & Hc & Hnc). destruct (watched_holds _ _ He) as (_ & c' & Hc' & Hnc').
    assert (c' = c) as -> by congruence.
    eapply (NoDup_lookup _ _ _ (lk_nonce c) Hn); rewrite list_lookup_fmap; [rewrite Hdi | rewrite Hdj]; simpl; congruence.
  - intros d. rewrite !filter_In. split.
    + intros [(e & <- & He)%in_map_iff Hh]. destruct (watched_holds _ _ Hh) as (Hw & c & Hc & Hnc).
      rewrite Hw in *. eauto.
    + intros [[Hd Hh] (c & Hc & Hnc)]. split; [|done]. apply in_map_iff. exists d. split; [|done].
      unfold watched, watch. by rewrite Hh, Hc, Hnc, String.eqb_refl.
Qed.
End Several.

(** ** Concrete runs *)

Definition no_str (v : pyval) : string := "".
Definition info_of (pid : Z) (nonce : string) : LockInfo := mk_lock 1 pid (fZ 100) nonce "token" "starting" 7878 (fZ 200).
Definition daemon_a : daemon := mk_daemon (info_of 10 "a") (Reading max_retries).
Definition daemon_b : daemon := mk_daemon (info_of 20 "b") (Reading max_retries).
Definition two_daemons (lock : option (nat * option pyval)) : system :=
  mk_system [daemon_a; daemon_b] (mk_shared lock 1 [(10, fZ 100); (20, fZ 100)]%Z).
Definition stale_lock : option (nat * option pyval) := Some (0%nat, Some (to_dict (info_of 99 "dead"))).

(** Both find the lock of the dead owner, both judge it stale; the first removes it and
    takes the lock, and the second then removes the new lock and takes it too. *)
Definition takeover_race : list (nat * action) :=
  map (λ i, (i, Acquire)) ([0; 0; 1; 1] ++ [0; 0; 0; 0; 0] ++ [1; 1; 1; 1; 1])%nat.

(** The takeover of a stale lock by two daemons leaves two holders, until their watches. *)
Example takeover_doubles :
  let y := run_actions no_str takeover_race (two_daemons stale_lock) in
  map (λ d, lk_nonce (d_info d)) (holders y) = ["a"; "b"]
  ∧ map (λ d, lk_nonce (d_info d)) (holders (run_actions no_str (watches 2) y)) = ["b"].
Proof. vm_compute. split; reflexivity. Qed.

(** Interleaved starts with no stale lock: one wins, updates its state and releases. *)
Definition quiet_start : list (nat * action) :=
  [(0, Acquire); (1, Acquire); (0, Acquire); (1, Acquire); (1, Acquire); (0, Acquire); (1, Acquire);
   (0, Acquire); (0, Acquire); (0, Acquire); (1, Update "ready"); (0, Watch); (1, Watch)]%nat.

Theorem lock_exclusive_witness :
  calm no_str quiet_start (two_daemons None) = true
  ∧ let y := run_actions no_str quiet_start (two_daemons None) in
    map (λ d, (lk_nonce (d_info d), lk_state (d_info d))) (holders y) = [("b", "ready")]
    ∧ (length (holders y) ≤ 1)%nat
    ∧ (∀ d, In d (holders y) → read_lock no_str (y_shared y) = Some (d_info d)).
Proof.
  split; [vm_compute; reflexivity|]. split; [vm_compute; reflexivity|].
  apply (lock_exclusive no_str (two_daemons None) quiet_start); [|vm_compute; reflexivity].
  split; [|by left]. repeat constructor; vm_compute; reflexivity.
Defined.

Definition doubled : system := run_actions no_str takeover_race (two_daemons stale_lock).

Lemma doubled_nonces : NoDup (map (λ d, lk_nonce (d_info d)) (y_daemons doubled)).
Proof.
  assert (map (λ d, lk_nonce (d_info d)) (y_daemons doubled) = ["a"; "b"]) as -> by (vm_compute; reflexivity).
  apply (bool_decide_unpack _). vm_compute. exact I.
Qed.

Theorem watches_heal_witness :
  length (holders doubled) = 2%nat
  ∧ (length (holders (run_actions no_str (watches (length (y_daemons doubled))) doubled)) ≤ 1)%nat.
Proof.
  split; [vm_compute; reflexivity|]. exact (proj1 (watches_heal no_str doubled doubled_nonces)).
Defined.
