(* ===== verification/Ticker.v ===== *)
(** [data/miniticker.py]: the messages of the miniTicker stream, the cache of the
    latest tickers and its freshness.

    Connecting and waiting are left out: what the connection loop and the watchdog
    do to the cache are the events of a run.  Texts of reasons are not kept. *)

From Stdlib Require Import ZArith String.
From S2P Require Import Prelude PyFloat PyVal Errors.
Local Open Scope string_scope.
Local Open Scope list_scope.

(** ** The state of a connection, of both streams *)

Record health := mk_health {
  h_connected : bool;
  h_last_message_at : Z }.

Definition new_health : health := mk_health false 0.
Definition mark_connected (h : health) : health := mk_health true (h_last_message_at h).
Definition mark_stale (h : health) : health := mk_health false (h_last_message_at h).
Definition message_at (now : Z) (h : health) : health := mk_health true now.
Definition is_fresh (stale_after now : Z) (h : health) : bool :=
  h_connected h && (now - h_last_message_at h <=? stale_after)%Z.

(** One look of the watchdog of [run]: a connection without messages is dropped. *)
Definition watchdog (stale_after now : Z) (h : health) : health :=
  if h_connected h && negb (is_fresh stale_after now h) then mark_stale h else h.

(** ** Parsing *)

Record TickerUpdate := mk_ticker {
  t_symbol : string;
  t_last : float;
  t_open24h : float;
  t_high24h : float;
  t_low24h : float;
  t_volume : float;
  t_quote_volume : float;
  t_price_change_pct : float;
  t_event_time : float }.

Section Parse.
(** [str(v)] of a value that is no string. *)
Context (str_of_other : pyval → string).

(** [item[key]] of a decoded value. *)
Definition key_of (item : pyval) (key : string) : result pyval :=
  match item with
  | PDict d => match assoc key d with Some v => Ok v | None => Err KeyError end
  | _ => Err TypeError
  end.
Definition float_of (item : pyval) (key : string) : result float := v ← key_of item key; py_float v.

(** [item.get(key, default)], where [item] is a dict. *)
Definition get_or (key : string) (default_ item : pyval) : pyval :=
  match item with PDict d => default default_ (assoc key d) | _ => default_ end.

Definition price_change_pct (close open24h : float) (pct : pyval) : result float :=
  match pct with
  | PNone => if ftruthy open24h
             then q ← fdiv (fsub close open24h) open24h; Ok (fmul q (fZ 100))
             else Ok fzero
  | _ => py_float pct
  end.

Definition parse_ticker (item : pyval) : result TickerUpdate :=
  close ← float_of item "c";
  open24h ← float_of item "o";
  pct ← price_change_pct close open24h (get_or "P" PNone item);
  s ← key_of item "s";
  high ← float_of item "h";
  low ← float_of item "l";
  volume ← float_of item "v";
  quote_volume ← float_of item "q";
  event_ms ← py_float (get_or "E" (PInt 0) item);
  event_time ← fdiv event_ms (fZ 1000);
  Ok (mk_ticker (match s with PStr s => s | s => str_of_other s end)
        close open24h high low volume quote_volume pct event_time).

(** An item with missing or malformed fields is skipped; any other exception is
    the caller's. *)
Fixpoint parse_each {A} (parse : pyval → result A) (l : list pyval) : result (list A) :=
  match l with
  | [] => Ok []
  | item :: l =>
      match parse item with
      | Ok u => us ← parse_each parse l; Ok (u :: us)
      | Err KeyError | Err TypeError | Err ValueError => parse_each parse l
      | Err e => Err e
      end
  end.

(** The decoded message; [None] is not JSON. *)
Definition parse_miniticker_arr (data : option pyval) : result (list TickerUpdate) :=
  match data with
  | Some (PList l) => parse_each parse_ticker l
  | Some (PDict d) => match assoc "data" d with Some (PList l) => parse_each parse_ticker l | _ => Ok [] end
  | _ => Ok []
  end.

(** ** The cache *)

Record TickerCache := mk_cache {
  tc_data : list (string * TickerUpdate);
  tc_health : health }.

Definition new_cache : TickerCache := mk_cache [] new_health.
Definition ticker_stale_after : Z := 30.

Definition on_health (f : health → health) (c : TickerCache) : TickerCache := mk_cache (tc_data c) (f (tc_health c)).

Definition apply_updates (now : Z) (updates : list TickerUpdate) (c : TickerCache) : TickerCache :=
  let data := foldl (λ d u, assoc_set (t_symbol u) u d) (tc_data c) updates in
  match updates with
  | [] => mk_cache data (tc_health c)
  | _ => mk_cache data (message_at now (tc_health c))
  end.

Inductive freshness_label := Fresh | Stale.

Definition freshness_for (now : Z) (symbol : string) (c : TickerCache) : freshness_label :=
  if has_key symbol (tc_data c) && is_fresh ticker_stale_after now (tc_health c) then Fresh else Stale.

(** The dict is the update with its freshness. *)
Definition get_ticker (now : Z) (symbol : string) (c : TickerCache) : option (TickerUpdate * freshness_label) :=
  match assoc symbol (tc_data c) with
  | Some u => Some (u, freshness_for now symbol c)
  | None => None
  end.

(** ** The client *)

Inductive ws_event :=
| Connected
| Message (data : option pyval)
| Failed          (* the connection broke, or a message raised *)
| Look.           (* the watchdog *)

Definition ticker_event (c : TickerCache) (te : Z * ws_event) : TickerCache :=
  let '(now, e) := te in
  match e with
  | Connected => on_health mark_connected c
  | Message data =>
      match parse_miniticker_arr data with
      | Ok updates => apply_updates now updates c
      | Err _ => on_health mark_stale c
      end
  | Failed => on_health mark_stale c
  | Look => on_health (watchdog ticker_stale_after now) c
  end.

Definition run_ticker (log : list (Z * ws_event)) : TickerCache := foldl ticker_event new_cache log.

(** ** What the cache answers *)

(** The updates a message brings; a message that raises brings none. *)
Definition updates_of (e : ws_event) : list TickerUpdate :=
  match e with
  | Message data => match parse_miniticker_arr data with Ok us => us | Err _ => [] end
  | _ => []
  end.

Definition updates_in (log : list (Z * ws_event)) : list TickerUpdate := concat (map (λ te, updates_of te.2) log).
Definition last_update (symbol : string) (log : list (Z * ws_event)) : option TickerUpdate :=
  last (List.filter (λ u, String.eqb (t_symbol u) symbol) (updates_in log)).

(** The times of the messages that brought something. *)
Definition message_times (log : list (Z * ws_event)) : list Z :=
  map fst (List.filter (λ te, match updates_of te.2 with [] => false | _ => true end) log).

(** Only a connection or a message revives a cache. *)
Definition revives (e : ws_event) : bool :=
  match e with Connected => true | _ => match updates_of e with [] => false | _ => true end end.

Lemma run_ticker_snoc log te : run_ticker (log ++ [te]) = ticker_event (run_ticker log) te.
Proof. unfold run_ticker. by rewrite foldl_app. Qed.

Lemma data_event c te :
  tc_data (ticker_event c te) = foldl (λ d u, assoc_set (t_symbol u) u d) (tc_data c) (updates_of te.2).
Proof.
  destruct te as [now [|data| |]]; try done. simpl. destruct (parse_miniticker_arr data) as [us|e]; [|done].
  unfold apply_updates. by destruct us.
Qed.

Lemma data_log log :
  tc_data (run_ticker log) = foldl (λ d u, assoc_set (t_symbol u) u d) [] (updates_in log).
Proof.
  induction log as [|te log IH] using rev_ind; [done|].
  rewrite run_ticker_snoc, data_event, IH. unfold updates_in. rewrite map_app, concat_app. simpl.
  by rewrite foldl_app, app_nil_r.
Qed.

Lemma assoc_updates s us d :
  assoc s (foldl (λ d u, assoc_set (t_symbol u) u d) d us)
  = match last (List.filter (λ u, String.eqb (t_symbol u) s) us) with Some u => Some u | None => assoc s d end.
Proof.
  induction us as [|u us IH] using rev_ind; [done|].
  rewrite foldl_app, List.filter_app. simpl. destruct (String.eqb (t_symbol u) s) eqn:E.
  - apply String.eqb_eq in E as <-. by rewrite last_snoc, assoc_set_same.
  - rewrite app_nil_r, assoc_set_other; [done|]. apply String.eqb_neq in E. congruence.
Qed.

Lemma health_event c te :
  h_last_message_at (tc_health (ticker_event c te)) =
    (if match updates_of te.2 with [] => false | _ => true end then te.1 else h_last_message_at (tc_health c)).
Proof.
  destruct te as [now [|data| |]]; try done; simpl.
  - destruct (parse_miniticker_arr data) as [[|]|]; done.
  - unfold watchdog. by destruct (_ && _).
Qed.

Lemma message_time_log log :
  h_last_message_at (tc_health (run_ticker log)) = default 0%Z (last (message_times log)).
Proof.
  induction log as [|te log IH] using rev_ind; [done|].
  rewrite run_ticker_snoc, health_event, IH. unfold message_times. rewrite List.filter_app, map_app. simpl.
  destruct (updates_of te.2); simpl; [by rewrite app_nil_r|]. by rewrite last_snoc.
Qed.

Lemma disconnected_stays log c : h_connected (tc_health c) = false → forallb (λ te, negb (revives te.2)) log = true →
  h_connected (tc_health (foldl ticker_event c log)) = false.
Proof.
  revert c. induction log as [|[now e] log IH]; intros c Hc Hl; [done|]. simpl in Hl.
  apply andb_true_iff in Hl as [He Hl]. simpl foldl. apply IH; [|done].
  destruct e as [|data| |]; simpl in *; try done.
  - destruct (parse_miniticker_arr data) as [[|]|]; done.
  - unfold watchdog. rewrite Hc. done.
Qed.

(** C23: what the ticker cache answers.  For every run of messages, connections,
    failures and looks of the watchdog, the ticker of a symbol is the last update the
    stream sent for it; it is called fresh only when some update for it came, the
    connection is held to be alive, and the last message that brought anything is at
    most [stale_after] seconds old; and after a failure nothing is fresh until the
    stream is connected again or sends. *)
Theorem ticker_cache_spec log now symbol :
  let c := run_ticker log in
  match get_ticker now symbol c with
  | None => last_update symbol log = None
  | Some (u, f) =>
      last_update symbol log = Some u ∧
      (f = Fresh ↔ h_connected (tc_health c) = true ∧
        (now - default 0%Z (last (message_times log)) ≤ ticker_stale_after)%Z)
  end
  ∧ (∀ before t after_, log = before ++ (t, Failed) :: after_ → forallb (λ te, negb (revives te.2)) after_ = true →
      freshness_for now symbol c = Stale).
Proof.
  assert (assoc symbol (tc_data (run_ticker log)) = last_update symbol log) as Ha.
  { rewrite data_log, assoc_updates. unfold last_update. by destruct (last _). }
  split.
  - unfold get_ticker. rewrite Ha. destruct (last_update symbol log) as [u|]; [|done]. split; [done|].
    unfold freshness_for, has_key. rewrite Ha. unfold is_fresh. rewrite message_time_log.
    destruct (h_connected _); simpl; [|split; [done|by intros []]].
    destruct (Z.leb_spec (now - default 0%Z (last (message_times log))) ticker_stale_after) as [Hle|Hgt].
    + by split.
    + split; [done|]. intros [_ Hle]. lia.
  - intros before t after_ -> Hr. unfold freshness_for, is_fresh.
    assert (h_connected (tc_health (run_ticker (before ++ (t, Failed) :: after_))) = false) as Hd.
    { unfold run_ticker. rewrite foldl_app. cbn [foldl]. by apply disconnected_stays. }
    rewrite Hd. simpl. by rewrite andb_false_r.
Qed.
End Parse.

(** ** Freshness of one symbol *)

Definition quote_item (symbol : string) (price : Z) : pyval :=
  PDict [("s", PStr symbol); ("c", PInt price); ("o", PInt 1); ("h", PInt 1); ("l", PInt 1); ("v", PInt 1); ("q", PInt 1)].

(** A symbol the stream has not sent for a day is as fresh as the stream. *)
Example silent_symbol_stays_fresh :
  let c := run_ticker (λ _, "") [(0, Connected); (0, Message (Some (PList [quote_item "AUSDT" 5])));
    (86400, Message (Some (PList [quote_item "BUSDT" 7])))]%Z in
  (λ tf, (t_last tf.1, tf.2)) <$> get_ticker 86400 "AUSDT" c = Some (fZ 5, Fresh).
Proof. vm_compute. reflexivity. Qed.
