(* ===== verification/Pipeline.v ===== *)
(** [data/futures.py], [data/liquidation_ws.py], [data/pipeline.py]: funding rates,
    open interest and liquidations into [futures_context], their aging, and the
    pipeline that owns all data services.

    A background loop is its turn, repeated; a stream is the sequence of its events.
    What a row may say is stated on the answers and messages of the exchange themselves,
    not on the functions that parse them. *)

From Stdlib Require Import ZArith String.
From S2P Require Import Prelude PyFloat PyVal Errors Monad Broker Tables Db Sample Feed Klines.
From S2P Require Import Alarms AlarmsSpec Ticker.
Local Open Scope string_scope.
Local Open Scope list_scope.

(** ** State *)

Record FuturesContextPoller := mk_poller {
  fp_futures_symbols : option (list string);
  fp_futures_sync_at : Z;
  fp_last_status : list (string * string) }.

Record LiquidationWSClient := mk_liquidation_ws {
  lw_health : health;
  lw_events_written : Z }.

(** [DataPipeline] *)
Record pipeline (X : Type) := mk_pipeline {
  pl_services : services X;
  pl_futures : FuturesContextPoller;
  pl_ticker_cache : TickerCache;
  pl_liquidation_ws : LiquidationWSClient }.
Arguments mk_pipeline {X}.
Arguments pl_services {X}.
Arguments pl_futures {X}.
Arguments pl_ticker_cache {X}.
Arguments pl_liquidation_ws {X}.

Definition new_poller : FuturesContextPoller := mk_poller None 0 [].
Definition new_liquidation_ws : LiquidationWSClient := mk_liquidation_ws new_health 0.
Definition liquidation_stale_after : Z := 300.

(** The settings of [config.py] the pipeline reads. *)
Class PipelineConfig := {
  futures_stale_after_seconds : Z;
  candles_retention_days : list (string * Z) }.

Abbreviation FM X := (ST (pipeline X)).

Definition set_services {X} (s : services X) (p : pipeline X) :=
  mk_pipeline s (pl_futures p) (pl_ticker_cache p) (pl_liquidation_ws p).
Definition set_futures {X} (f : FuturesContextPoller) (p : pipeline X) :=
  mk_pipeline (pl_services p) f (pl_ticker_cache p) (pl_liquidation_ws p).
Definition set_ticker_cache {X} (c : TickerCache) (p : pipeline X) :=
  mk_pipeline (pl_services p) (pl_futures p) c (pl_liquidation_ws p).
Definition set_liquidation_ws {X} (l : LiquidationWSClient) (p : pipeline X) :=
  mk_pipeline (pl_services p) (pl_futures p) (pl_ticker_cache p) l.

Definition in_services {X A} (m : PM X A) : FM X A := λ p,
  let '(r, s) := m (pl_services p) in (r, set_services s p).

(** ** Rows *)

(** A row of [_store]: symbol, type, value, event time, extra. *)
Record context_row := mk_context {
  cx_symbol : pyval;
  cx_type : string;
  cx_value : float;
  cx_event_time : Z;
  cx_extra : list (string * pyval) }.

(** An INTEGER column holds 64 bits. *)
Definition int_column (z : Z) : result Z :=
  if ((- 2 ^ 63 <=? z) && (z <? 2 ^ 63))%Z then Ok z else Err OverflowError.
(** NaN is stored as NULL. *)
Definition real_column (x : float) : option float := if isnan x then None else Some x.

Definition context_key (symbol type : string) (event_time : Z) (r : futures_context_row) : bool :=
  String.eqb (fc_symbol r) symbol && String.eqb (fc_type r) type && (fc_event_time r =? event_time)%Z.

(** [INSERT ... ON CONFLICT(symbol, type, event_time) DO UPDATE] *)
Definition upsert_context (r : futures_context_row) (rows : list futures_context_row) : list futures_context_row :=
  let p := context_key (fc_symbol r) (fc_type r) (fc_event_time r) in
  if existsb p rows then update_where p (λ _, r) rows else rows ++ [r].

Definition bind_row `{PyEnv} (fetched_at : Z) (r : context_row) : result futures_context_row :=
  symbol ← text_column (cx_symbol r);
  event_time ← int_column (cx_event_time r);
  Ok (mk_fc symbol (cx_type r) event_time (real_column (cx_value r)) (PDict (cx_extra r)) fetched_at "fresh").

(** Iterating over a decoded value. *)
Definition iter_of (v : pyval) : result (list pyval) :=
  match v with
  | PList l => Ok l
  | PDict d => Ok (map (λ kv, PStr kv.1) d)
  | PStr s => Ok (map (λ c, PStr (String c EmptyString)) (list_ascii_of_string s))
  | _ => Err TypeError
  end.

Definition seconds_of (v : pyval) : result Z := t ← py_int v; Ok (to_epoch_seconds t).

(** An item of [premiumIndex]; one without a rate gives no row. *)
Definition funding_row (item : pyval) : result (option context_row) :=
  rate ← get_field "lastFundingRate" item;
  match rate with
  | PNone => Ok None
  | _ =>
      symbol ← key_of item "symbol";
      value ← py_float rate;
      event_time ← seconds_of (get_or "time" (PInt 0) item);
      Ok (Some (mk_context symbol "funding_rate" value event_time
                  [("next_funding_time", get_or "nextFundingTime" PNone item)]))
  end.

Definition funding_rows (data : pyval) : result (list context_row) :=
  items ← iter_of data;
  rows ← parse_each funding_row items;
  Ok (omap (M:=list) id rows).

Definition field_or (key : string) (default_ v : pyval) : result pyval :=
  match v with PDict d => Ok (default default_ (assoc key d)) | _ => Err AttributeError end.

Definition open_interest_row (symbol : string) (data : pyval) : result context_row :=
  value ← field_or "openInterest" (PInt 0) data;
  value ← py_float value;
  time ← field_or "time" (PInt 0) data;
  event_time ← seconds_of time;
  Ok (mk_context (PStr symbol) "open_interest" value event_time []).

(** ** Liquidations *)

Record LiquidationEvent := mk_liquidation {
  lq_symbol : string;
  lq_side : string;
  lq_price : float;
  lq_qty : float;
  lq_event_time : Z }.

Definition or_else (a b : pyval) : pyval := if truthy a then a else b.

Section Parse.
Context `{PyEnv}.

Definition text_of (v : pyval) : string := match v with PStr s => s | v => str_of_other v end.

Definition parse_liquidation (item : pyval) : result (option LiquidationEvent) :=
  match item with
  | PDict d =>
      match assoc "o" d with
      | Some (PDict order) =>
          let order := PDict order in
          event_time ← seconds_of (or_else (or_else (get_or "E" PNone item) (get_or "T" PNone order)) (PInt 0));
          symbol ← key_of order "s";
          price ← float_of order "p";
          qty ← float_of order "q";
          Ok (Some (mk_liquidation (text_of symbol) (text_of (get_or "S" (PStr "?") order)) price qty event_time))
      | _ => Ok None
      end
  | _ => Ok None
  end.

(** The decoded message; [None] is not JSON. *)
Definition parse_force_order_arr (data : option pyval) : result (list LiquidationEvent) :=
  let data := match data with
              | Some (PDict d) => Some (default (PDict d) (assoc "data" d))
              | _ => data
              end in
  let items := match data with
               | Some (PDict d) => [PDict d]
               | Some (PList l) => l
               | _ => []
               end in
  events ← parse_each parse_liquidation items;
  Ok (omap (M:=list) id events).

Definition liquidation_row (e : LiquidationEvent) : context_row :=
  mk_context (PStr (lq_symbol e)) "liquidation" (fmul (lq_price e) (lq_qty e)) (lq_event_time e)
    [("side", PStr (lq_side e)); ("price", PFloat (lq_price e)); ("qty", PFloat (lq_qty e))].
End Parse.

(** ** The poller *)

Section Pipeline.
Context {X : Type} `{Ext X, PyEnv, Rest X, FeedConfig, PipelineConfig}.

(** [_store], of the poller and of the liquidation stream. *)
Definition store_context (rows : list context_row) : PM X unit :=
  match rows with
  | [] => mret tt
  | _ =>
      fetched_at ← clock_now;
      in_store (db_write (foldM (λ _ r,
        r ← lift (bind_row fetched_at r);
        db_modify (set_market (set_tb_futures_context (upsert_context r)))) tt rows))
  end.

Definition set_last_status (key value : string) : FM X unit :=
  modify (λ p, let f := pl_futures p in
    set_futures (mk_poller (fp_futures_symbols f) (fp_futures_sync_at f) (assoc_set key value (fp_last_status f))) p).

Definition poller_symbol_set : FM X (list string) :=
  now ← in_services clock_now;
  f ← gets pl_futures;
  let refresh :=
    data ← in_services (fetch true "/fapi/v1/exchangeInfo" [] 1);
    symbols ← lift (futures_symbols_of data);
    modify (λ p, set_futures (mk_poller (Some symbols) now (fp_last_status (pl_futures p))) p);;
    mret symbols in
  match fp_futures_symbols f with
  | Some symbols => if (futures_universe_ttl_seconds <=? now - fp_futures_sync_at f)%Z then refresh else mret symbols
  | None => refresh
  end.

Definition poll_funding : FM X nat :=
  data ← in_services (fetch true "/fapi/v1/premiumIndex" [] 1);
  rows ← lift (funding_rows data);
  in_services (store_context rows);;
  set_last_status "funding" "ok";;
  mret (length rows).

(** The set of the poller is the one the loop reads, so a symbol discarded from it
    is not asked for again. *)
Definition discard_symbol (symbol : string) : FM X unit :=
  modify (λ p, let f := pl_futures p in
    set_futures (mk_poller (delete_where (String.eqb symbol) <$> fp_futures_symbols f)
      (fp_futures_sync_at f) (fp_last_status f)) p).

Definition poll_symbol (symbol : string) : FM X unit :=
  in_services (
    data ← fetch true "/fapi/v1/openInterest" [("symbol", PStr symbol)] 1;
    row ← lift (open_interest_row symbol data);
    store_context [row]).

(** The loop over the universe: how many symbols were stored, and whether nothing
    went wrong. *)
Fixpoint poll_symbols (total : nat) (clean : bool) (symbols : list string) : FM X (nat * bool) :=
  match symbols with
  | [] => mret (total, clean)
  | symbol :: symbols =>
      f ← gets pl_futures;
      if negb (str_in symbol (default [] (fp_futures_symbols f))) then poll_symbols total clean symbols
      else
        r ← attempt (poll_symbol symbol);
        match r with
        | Ok _ => poll_symbols (S total) clean symbols
        | Err (RasatError RATE_LIMITED) =>
            set_last_status "open_interest" "rate_limited";; mret (total, false)
        | Err (RasatError INVALID_REQUEST) =>
            discard_symbol symbol;; poll_symbols total clean symbols
        | Err (RasatError _) =>
            set_last_status "open_interest" "error";; poll_symbols total false symbols
        | Err e => throw e
        end
  end.

Definition poll_open_interest : FM X nat :=
  poller_symbol_set;;
  symbols ← in_services (u ← gets sv_universe; mret (snapshot u));
  '(total, clean) ← poll_symbols 0 true symbols;
  (if clean : bool then set_last_status "open_interest" "ok" else mret tt);;
  mret total.

Definition stale_row (cutoff : Z) (r : futures_context_row) : bool :=
  String.eqb (fc_freshness r) "fresh" && (fc_fetched_at r <? cutoff)%Z.
Definition make_stale (r : futures_context_row) : futures_context_row :=
  mk_fc (fc_symbol r) (fc_type r) (fc_event_time r) (fc_value r) (fc_extra r) (fc_fetched_at r) "stale".

Definition age_stale_rows : PM X nat :=
  now ← clock_now;
  let cutoff := (now - futures_stale_after_seconds)%Z in
  in_store (db_write (
    n ← db_read (λ d, count_where (stale_row cutoff) (tb_futures_context (market d)));
    db_modify (set_market (set_tb_futures_context (update_where (stale_row cutoff) make_stale)));;
    mret n)).

(** A failed poll leaves its status; any other exception ends the turn. *)
Definition poll_or_error (key : string) (poll : FM X nat) : FM X unit :=
  r ← attempt poll;
  match r with
  | Ok _ => mret tt
  | Err (RasatError _) => set_last_status key "error"
  | Err e => throw e
  end.

(** One turn of [run_loop]. *)
Definition poll_turn : FM X unit :=
  attempt (in_services age_stale_rows);;
  attempt (poll_or_error "funding" poll_funding;; poll_or_error "open_interest" poll_open_interest);;
  mret tt.

(** ** The liquidation stream *)

Definition on_liquidation (f : LiquidationWSClient → LiquidationWSClient) : FM X unit :=
  modify (λ p, set_liquidation_ws (f (pl_liquidation_ws p)) p).
Definition liquidation_health (f : health → health) : FM X unit :=
  on_liquidation (λ l, mk_liquidation_ws (f (lw_health l)) (lw_events_written l)).

Definition _handle_raw (data : option pyval) : FM X unit :=
  events ← lift (parse_force_order_arr data);
  (match events with
   | [] => mret tt
   | _ =>
       r ← attempt (in_services (store_context (map liquidation_row events)));
       match r with
       | Ok _ => on_liquidation (λ l, mk_liquidation_ws (lw_health l) (lw_events_written l + Z.of_nat (length events)))
       | Err _ => mret tt
       end
   end);;
  now ← in_services clock_now;
  liquidation_health (message_at now).

(** What an event of the connection does; an exception breaks the connection. *)
Definition liquidation_event (e : ws_event) : FM X unit :=
  match e with
  | Connected => liquidation_health mark_connected
  | Message data =>
      r ← attempt (_handle_raw data);
      match r with Ok _ => mret tt | Err _ => liquidation_health mark_stale end
  | Failed => liquidation_health mark_stale
  | Look => now ← in_services clock_now; liquidation_health (watchdog liquidation_stale_after now)
  end.

(** ** The pipeline *)

Definition on_ticker (e : ws_event) : FM X unit :=
  now ← in_services clock_now;
  modify (λ p, set_ticker_cache (ticker_event str_of_other (pl_ticker_cache p) (now, e)) p).

(** [start], up to the tasks it creates. *)
Definition pipeline_start : FM X unit :=
  attempt (in_services universe_sync);;
  in_services clock_sync;;
  mret tt.

(** One turn of [_retention_loop]. *)
Definition retention_turn : FM X unit :=
  attempt (in_services (prune_candles candles_retention_days;; prune_futures_context 30));;
  mret tt.

(** [status()["futures"]]: the state of the stream is written into it when read. *)
Definition futures_status : FM X (list (string * string)) :=
  l ← gets pl_liquidation_ws;
  set_last_status "liquidation" (if h_connected (lw_health l) then "connected" else "disconnected");;
  f ← gets pl_futures;
  mret (fp_last_status f).

Inductive pipeline_op :=
| Start | PollTurn | RetentionTurn | ReadStatus
| Liquidation (e : ws_event)
| Ticker (e : ws_event)
| Data (op : feed_op).

Definition run_pipeline_op (op : pipeline_op) : FM X unit :=
  match op with
  | Start => pipeline_start
  | PollTurn => poll_turn
  | RetentionTurn => retention_turn
  | ReadStatus => futures_status;; mret tt
  | Liquidation e => liquidation_event e
  | Ticker e => on_ticker e
  | Data op => in_services (run_feed_op op)
  end.
Definition run_pipeline_ops (ops : list pipeline_op) : FM X unit := foldM (λ _ op, run_pipeline_op op) tt ops.
End Pipeline.

(** ** The table of futures context *)

Definition context {X} (s : services X) : list futures_context_row := tb_futures_context (market (w_db (sv_world s))).
Definition context_id (r : futures_context_row) : string * string * Z := (fc_symbol r, fc_type r, fc_event_time r).

(** The messages of the liquidation stream. *)
Definition messages (ops : list pipeline_op) : list (option pyval) :=
  omap (M:=list) (λ op, match op with Liquidation (Message data) => Some data | _ => None end) ops.

Lemma in_messages data ops : In (Liquidation (Message data)) ops → In data (messages ops).
Proof. intros Hin%list_elem_of_In. apply list_elem_of_In, list_elem_of_omap. by exists (Liquidation (Message data)). Qed.

(** ** What is observed *)

Section Observed.
Context {X : Type} `{Ext X, PyEnv, Rest X}.

(** An answer the exchange gives, at some time. *)
Definition answered (futures : bool) (path : string) (params : list (string * pyval)) (data : pyval) : Prop :=
  ∃ x, (rest_get futures path params 1 x).1 = Ok data.

(** The amount and the second a field of the exchange tells; a field that is not there
    tells zero. *)
Definition tells_amount (v : pyval) (value : option float) : Prop :=
  ∃ f, py_float (C:=ErrorCode) v = Ok f ∧ value = real_column f.
Definition tells_time (v : pyval) (t : Z) : Prop := seconds_of v = Ok t.
Definition field (key : string) (d : list (string * pyval)) : pyval := default PNone (assoc key d).
Definition field_or_zero (key : string) (d : list (string * pyval)) : pyval := default (PInt 0) (assoc key d).

(** The items of a message of the stream: one, or a list of them, bare or under [data]. *)
Inductive in_payload : pyval → pyval → Prop :=
| payload_one d : in_payload (PDict d) (PDict d)
| payload_list l v : In v l → in_payload (PList l) v.
Inductive carries : pyval → pyval → Prop :=
| carries_bare payload v : (∀ d, payload = PDict d → assoc "data" d = None) → in_payload payload v → carries payload v
| carries_data d payload v : assoc "data" d = Some payload → in_payload payload v → carries (PDict d) v.

(** The rate of a symbol, as an item of an answer about the premium index tells it; an
    item that tells none, or no number, gives no row. *)
Record funding_observed (r : futures_context_row) (d : list (string * pyval)) (rate symbol : pyval) : Prop := {
  fo_item : ∃ data items, answered true "/fapi/v1/premiumIndex" [] data ∧ iter_of data = Ok items ∧ In (PDict d) items;
  fo_rate : assoc "lastFundingRate" d = Some rate ∧ rate ≠ PNone ∧ tells_amount rate (fc_value r);
  fo_symbol : assoc "symbol" d = Some symbol ∧ text_column symbol = Ok (fc_symbol r);
  fo_time : tells_time (field_or_zero "time" d) (fc_event_time r);
  fo_extra : fc_extra r = PDict [("next_funding_time", field "nextFundingTime" d)] }.

(** The open interest of a symbol, as the answer about that symbol tells it. *)
Record open_interest_observed (r : futures_context_row) (d : list (string * pyval)) : Prop := {
  oo_answer : answered true "/fapi/v1/openInterest" [("symbol", PStr (fc_symbol r))] (PDict d);
  oo_value : tells_amount (field_or_zero "openInterest" d) (fc_value r);
  oo_time : tells_time (field_or_zero "time" d) (fc_event_time r);
  oo_extra : fc_extra r = PDict [] }.

(** The order of an event of the stream: its price times its quantity, and both. *)
Record liquidation_observed (seen : list (option pyval)) (r : futures_context_row)
    (event order : list (string * pyval)) (price qty : float) : Prop := {
  lo_message : ∃ message, In (Some message) seen ∧ carries message (PDict event) ∧ assoc "o" event = Some (PDict order);
  lo_numbers : (∃ p q, assoc "p" order = Some p ∧ py_float (C:=ErrorCode) p = Ok price ∧ assoc "q" order = Some q ∧ py_float (C:=ErrorCode) q = Ok qty) ∧
    fc_value r = real_column (fmul price qty);
  lo_symbol : ∃ s, assoc "s" order = Some s ∧ fc_symbol r = text_of s;
  lo_time : tells_time (or_else (or_else (field "E" event) (field "T" order)) (PInt 0)) (fc_event_time r);
  lo_extra : fc_extra r = PDict [("side", PStr (text_of (default (PStr "?") (assoc "S" order))));
                                 ("price", PFloat price); ("qty", PFloat qty)] }.

(** What a row says was observed: in an answer of the exchange, or in a message of the
    stream among those seen. *)
Inductive observed_row (seen : list (option pyval)) (r : futures_context_row) : Prop :=
| observed_funding d rate symbol : fc_type r = "funding_rate" → funding_observed r d rate symbol → observed_row seen r
| observed_open_interest d : fc_type r = "open_interest" → open_interest_observed r d → observed_row seen r
| observed_liquidation event order price qty :
    fc_type r = "liquidation" → liquidation_observed seen r event order price qty → observed_row seen r.

Record context_row_ok (seen : list (option pyval)) (r : futures_context_row) : Prop := {
  cr_label : fc_freshness r = "fresh" ∨ fc_freshness r = "stale";
  cr_fetched : clock_read (X:=X) (fc_fetched_at r);
  cr_observed : observed_row seen r }.

Record context_ok (seen : list (option pyval)) (rows : list futures_context_row) : Prop := {
  co_unique : NoDup (map context_id rows);
  co_rows : Forall (context_row_ok seen) rows }.

(** What [_store] is given: a row that says what was observed, whenever it is bound. *)
Definition storable (seen : list (option pyval)) (r : context_row) : Prop :=
  ∀ now r', bind_row now r = Ok r' → observed_row seen r'.

Lemma observed_row_more seen more r : observed_row seen r → observed_row (seen ++ more) r.
Proof.
  intros [d rate symbol Ht Ho|d Ht Ho|event order price qty Ht [(m & Hm & Hc) ? ? ? ?]].
  - by eapply observed_funding.
  - by eapply observed_open_interest.
  - eapply observed_liquidation; [done|]. split; try done. exists m. split; [|done]. apply in_or_app. by left.
Qed.

Lemma context_ok_more seen more rows : context_ok seen rows → context_ok (seen ++ more) rows.
Proof.
  intros [Hu Hr]. split; [done|]. eapply Forall_impl; [exact Hr|]. intros r [? ? ?].
  split; [done..|]. by apply observed_row_more.
Qed.
End Observed.

Lemma context_key_spec r r' : context_key (fc_symbol r) (fc_type r) (fc_event_time r) r' = true ↔ context_id r' = context_id r.
Proof.
  unfold context_key, context_id. rewrite !andb_true_iff, !String.eqb_eq, Z.eqb_eq.
  split; [intros [[-> ->] ->]; done|by intros [= -> -> ->]].
Qed.

Lemma steps_lift_bind {S A B} (R : relation S) `{!PreOrder R} (r : result A) (f : A → ST S B) :
  (∀ a, r = Ok a → steps R (f a)) → steps R (lift r ≫= f).
Proof. intros Hf s. unfold mbind, ST_bind, lift. destruct r as [a|e]; [by apply Hf|simpl; reflexivity]. Qed.

Create HintDb kept.
Ltac kwalk := repeat first [solve [auto with kept nocore] | pwalk1].

Section Kept.
Context {X : Type} `{Ext X, PyEnv, Rest X, FeedConfig, PipelineConfig}.
Context (seen : list (option pyval)).

Lemma upsert_context_ok r rows : context_row_ok seen r → context_ok seen rows → context_ok seen (upsert_context r rows).
Proof.
  intros Hr [Hu Hf]. unfold upsert_context. set (p := context_key _ _ _). destruct (existsb p rows) eqn:E.
  - assert (map context_id (update_where p (λ _, r) rows) = map context_id rows) as Hm.
    { unfold update_where. rewrite map_map. apply map_ext. intros x. destruct (p x) eqn:Ep; [|done].
      apply context_key_spec in Ep. done. }
    split; [by rewrite Hm|]. apply Forall_fmap. eapply Forall_impl; [exact Hf|]. intros x Hx. simpl. by destruct (p x).
  - split.
    + rewrite map_app. simpl. apply NoDup_app. split_and!; [done| |apply NoDup_singleton].
      intros i Hi ->%list_elem_of_singleton. apply list_elem_of_fmap in Hi as (x & Hx & Hin).
      assert (existsb p rows = true) as Hc; [|congruence].
      apply existsb_exists. exists x. split; [by apply list_elem_of_In|]. apply context_key_spec. by symmetry.
    + by apply Forall_app_2; [|constructor].
Qed.

Lemma context_ok_sub p rows : context_ok seen rows → context_ok seen (delete_where p rows).
Proof.
  intros [Hu Hf]. split; unfold delete_where.
  - eapply sublist_NoDup; [exact Hu|]. apply fmap_sublist. clear.
    induction rows as [|x rows IH]; [constructor|]. simpl. destruct (negb (p x)); by constructor.
  - apply Forall_forall. intros x Hx. rewrite Forall_forall in Hf. apply Hf.
    apply list_elem_of_In, filter_In in Hx as [Hx _]. by apply list_elem_of_In.
Qed.

Lemma context_ok_aged cutoff rows : context_ok seen rows → context_ok seen (update_where (stale_row cutoff) make_stale rows).
Proof.
  intros [Hu Hf]. unfold update_where. split.
  - rewrite map_map. erewrite map_ext; [exact Hu|]. intros x. simpl. by destruct (stale_row cutoff x).
  - apply Forall_fmap. eapply Forall_impl; [exact Hf|]. intros x [? ? Ho]. simpl.
    destruct (stale_row cutoff x); [|done]. split; simpl; [auto..|].
    destruct Ho as [? ? ? ? []|? ? []|? ? ? ? ? []]; [eapply observed_funding|eapply observed_open_interest|eapply observed_liquidation]; done.
Qed.

Lemma bind_row_ok now r r' : storable seen r → clock_read (X:=X) now → bind_row now r = Ok r' → context_row_ok seen r'.
Proof.
  intros Hs Hn E. specialize (Hs _ _ E). unfold bind_row in E. destruct (text_column (cx_symbol r)) as [s|]; simpl in E; [|done].
  destruct (int_column (cx_event_time r)) as [t|]; simpl in E; [|done]. injection E as <-. split; simpl; auto.
Qed.

Lemma bind_row_spec now r r' : bind_row now r = Ok r' →
  text_column (cx_symbol r) = Ok (fc_symbol r') ∧ fc_event_time r' = cx_event_time r ∧ fc_type r' = cx_type r ∧
  fc_value r' = real_column (cx_value r) ∧ fc_extra r' = PDict (cx_extra r).
Proof.
  unfold bind_row. destruct (text_column (cx_symbol r)) as [s|]; simpl; [|done].
  unfold int_column. destruct (_ && _); simpl; [|done]. by intros [= <-].
Qed.

Lemma funding_row_storable data items item r :
  answered true "/fapi/v1/premiumIndex" [] data → iter_of data = Ok items → In item items →
  funding_row item = Ok (Some r) → storable seen r.
Proof.
  intros Ha Hi Hin E now r' (Hs & Ht & Hty & Hv & Hx)%bind_row_spec. unfold funding_row in E.
  destruct item as [| | | | | |d]; try done. simpl in E.
  destruct (assoc "lastFundingRate" d) as [rate|] eqn:Er; simpl in E; [|done].
  assert (rate ≠ PNone) as Hn by (intros ->; done).
  assert (Ok (Some r) = (symbol ← key_of (PDict d) "symbol"; value ← py_float rate;
    event_time ← seconds_of (get_or "time" (PInt 0) (PDict d));
    Ok (Some (mk_context symbol "funding_rate" value event_time
                  [("next_funding_time", get_or "nextFundingTime" PNone (PDict d))])))) as E' by (by destruct rate).
  clear E. simpl in E'. destruct (assoc "symbol" d) as [symbol|] eqn:Es; simpl in E'; [|done].
  destruct (py_float rate) as [f|] eqn:Ef; simpl in E'; [|done].
  destruct (seconds_of _) as [t|] eqn:Et; simpl in E'; [|done]. injection E' as ->. simpl in *.
  eapply (observed_funding _ _ d rate symbol); [done|]. split.
  - by exists data, items.
  - split_and!; [done..|]. by exists f.
  - done.
  - unfold tells_time. by rewrite Ht.
  - done.
Qed.

Lemma funding_rows_storable data rows :
  answered true "/fapi/v1/premiumIndex" [] data → funding_rows data = Ok rows → Forall (storable seen) rows.
Proof.
  intros Ha. unfold funding_rows. destruct (iter_of data) as [items|] eqn:Ei; simpl; [|done].
  destruct (parse_each funding_row items) as [l|] eqn:E; simpl; [|done]. intros [= <-].
  assert (∀ item, In item items → In item items) as Hsub by done. revert l E Hsub.
  generalize items at 1 2 as part. induction part as [|item part IH]; intros l E Hsub; simpl in E; [by injection E as <-|].
  assert (∀ i, In i part → In i items) as Hsub' by (intros i Hi; apply Hsub; by right).
  destruct (funding_row item) as [o|[]] eqn:Eo; try done; try by eapply IH.
  destruct (parse_each funding_row part) as [l'|]; simpl in E; [|done]. injection E as <-.
  specialize (IH _ eq_refl Hsub'). destruct o as [r|]; [|exact IH]. constructor; [|exact IH].
  eapply funding_row_storable; [done..| |done]. apply Hsub. by left.
Qed.

Lemma open_interest_storable symbol data r :
  answered true "/fapi/v1/openInterest" [("symbol", PStr symbol)] data →
  open_interest_row symbol data = Ok r → storable seen r.
Proof.
  intros Ha E now r' (Hs & Ht & Hty & Hv & Hx)%bind_row_spec. unfold open_interest_row, field_or in E.
  destruct data as [| | | | | |d]; try done. simpl in E.
  destruct (py_float _) as [f|] eqn:Ef; simpl in E; [|done].
  destruct (seconds_of _) as [t|] eqn:Et; simpl in E; [|done]. injection E as <-. simpl in *. injection Hs as Hs.
  eapply (observed_open_interest _ _ d); [done|]. split; [by rewrite <- Hs|by exists f| |done].
  unfold tells_time. by rewrite Ht.
Qed.

(** An event of a message tells its price, quantity, symbol, side and time. *)
Lemma parse_liquidation_storable message item e :
  In (Some message) seen → carries message item → parse_liquidation item = Ok (Some e) → storable seen (liquidation_row e).
Proof.
  intros Hin Hc E now r' (Hs & Ht & Hty & Hv & Hx)%bind_row_spec. unfold parse_liquidation in E.
  destruct item as [| | | | | |d]; try done. destruct (assoc "o" d) as [[| | | | | |order]|] eqn:Eo; try done.
  cbv zeta in E. destruct (seconds_of _) as [t|] eqn:Et; cbn -[py_float] in E; [|done].
  destruct (assoc "s" order) as [sy|] eqn:Es; cbn -[py_float] in E; [|done]. unfold float_of, key_of in E.
  destruct (assoc "p" order) as [vp|] eqn:Evp; cbn -[py_float] in E; [|done].
  destruct (py_float vp) as [price|] eqn:Ep; cbn -[py_float] in E; [|done].
  destruct (assoc "q" order) as [vq|] eqn:Evq; cbn -[py_float] in E; [|done].
  destruct (py_float vq) as [qty|] eqn:Eq; cbn -[py_float] in E; [|done].
  injection E as <-. simpl in *. injection Hs as Hs.
  eapply (observed_liquidation _ _ d order price qty); [done|]. split.
  - by exists message.
  - split; [|done]. by exists vp, vq.
  - by exists sy.
  - unfold tells_time. by rewrite Ht.
  - done.
Qed.

Lemma liquidations_storable data events : In data seen → parse_force_order_arr data = Ok events →
  Forall (λ e, storable seen (liquidation_row e)) events.
Proof.
  intros Hin. unfold parse_force_order_arr. set (payload := match data with Some (PDict d) => _ | _ => data end).
  set (items := match payload with Some (PDict d) => _ | Some (PList l) => l | _ => [] end).
  assert (∀ item, In item items → ∃ message, data = Some message ∧ carries message item) as Hitems.
  { subst items payload. intros item Hi. destruct data as [message|]; [|done]. exists message. split; [done|].
    assert (∀ v, In item (match Some v with Some (PDict d) => [PDict d] | Some (PList l) => l | _ => [] end) → in_payload v item) as Hp.
    { intros []; simpl; try done; [by constructor|]. intros [<-|[]]. constructor. }
    destruct message as [| | | | | |d]; try (apply carries_bare; [done|by apply Hp]).
    destruct (assoc "data" d) as [v|] eqn:Ed; simpl in Hi.
    - eapply carries_data; [done|by apply Hp].
    - apply carries_bare; [by intros ? [= <-]|by apply Hp]. }
  destruct (parse_each parse_liquidation items) as [l|] eqn:E; simpl; [|done]. intros [= <-].
  revert l E Hitems. generalize items as part. clear items payload.
  induction part as [|item part IH]; intros l E Hsub; simpl in E; [by injection E as <-|].
  assert (∀ i, In i part → ∃ message, data = Some message ∧ carries message i) as Hsub' by (intros i Hi; apply Hsub; by right).
  destruct (parse_liquidation item) as [o|[]] eqn:Eo; try done; try by eapply IH.
  destruct (parse_each parse_liquidation part) as [l'|]; simpl in E; [|done]. injection E as <-.
  specialize (IH _ eq_refl Hsub'). destruct o as [e|]; [|exact IH]. constructor; [|exact IH].
  destruct (Hsub item) as (message & -> & Hc); [by left|]. by eapply parse_liquidation_storable.
Qed.

(** ** What the operations keep *)

(** Trading, alerts and results are left alone; the context stays well formed. *)
Definition kept : relation (services X) := λ s s', quiet s s' ∧ (context_ok seen (context s) → context_ok seen (context s')).

#[export] Instance kept_preorder : PreOrder kept.
Proof. split; [intros s; by split|]. intros ??? [? ?] [? ?]. split; [by etrans|auto]. Qed.

Lemma kept_ext {A} (m : ST X A) : steps kept (in_store (on_ext m)).
Proof. intros s. unfold in_store, on_ext. by destruct (m _). Qed.
Lemma kept_clock_now : steps kept clock_now.
Proof. apply kept_ext. Qed.
Lemma kept_fetch futures path params weight : steps kept (fetch futures path params weight).
Proof. apply kept_ext. Qed.
Lemma kept_read {A} (f : db → A) : steps kept (in_store (X:=X) (db_read f)).
Proof. by intros s. Qed.
Lemma kept_modify f : (∀ s : services X, kept s (f s)) → steps kept (modify f).
Proof. intros Hf s. apply Hf. Qed.

(** A transaction on the market tables, rolled back or not. *)
Definition kept_tables : relation (world X) := λ w w',
  (set_market (λ _, empty_market) (w_db w') = set_market (λ _, empty_market) (w_db w) ∧
   w_closed w' = w_closed w ∧ w_trace w' = w_trace w) ∧
  (context_ok seen (tb_futures_context (market (w_db w))) → context_ok seen (tb_futures_context (market (w_db w')))).

#[export] Instance kept_tables_preorder : PreOrder kept_tables.
Proof.
  split; [intros w; by split|]. intros ??? [(? & ? & ?) ?] [(? & ? & ?) ?]. split; [split_and!; congruence|auto].
Qed.

Lemma kept_transaction {A} (m : M X A) : steps kept_tables m → steps kept (in_store (db_write m)).
Proof.
  intros Hm s. specialize (Hm (sv_world s)). unfold in_store, db_write, kept, quiet, quiet_view, context.
  destruct (w_closed (sv_world s)) eqn:Ec; simpl; [by rewrite Ec|].
  destruct (m (sv_world s)) as [[a|e] w']; destruct Hm as [(Hd & Hc & Ht) Hx]; simpl in *; split; congruence || auto.
Qed.

Lemma kept_write f : (∀ d, set_market (λ _, empty_market) (f d) = set_market (λ _, empty_market) d ∧
    (context_ok seen (tb_futures_context (market d)) → context_ok seen (tb_futures_context (market (f d))))) →
  steps kept_tables (db_modify f : M X unit).
Proof. intros Hf w. destruct (Hf (w_db w)). split; [done|auto]. Qed.

Hint Resolve kept_clock_now kept_fetch kept_read : kept.
Hint Extern 3 (steps kept (modify _)) => apply kept_modify; intros ?; split; [reflexivity|done] : kept.
Hint Extern 2 (steps kept_tables (db_read _)) => (intros w; reflexivity) : kept.

Lemma kept_server_now : steps kept server_now.
Proof. unfold server_now. kwalk. Qed.
Lemma kept_clock_sync : steps kept clock_sync.
Proof. unfold clock_sync, sync_offset. kwalk. Qed.
Lemma kept_universe_sync : steps kept universe_sync.
Proof. unfold universe_sync, universe_fetch. kwalk. Qed.
Hint Resolve kept_server_now kept_universe_sync kept_clock_sync : kept.
Lemma kept_ensure_contains symbol : steps kept (ensure_contains symbol).
Proof. unfold ensure_contains. kwalk. Qed.
Lemma kept_ensure_futures symbol : steps kept (_ensure_futures_symbol symbol).
Proof. unfold _ensure_futures_symbol, _futures_symbol_set, futures_refresh. kwalk. Qed.
Lemma kept_kfetch symbol tf limit source : steps kept (_fetch symbol tf limit source).
Proof. unfold _fetch. kwalk. Qed.
Lemma kept_store symbol tf source rows : steps kept (_store symbol tf source rows).
Proof.
  unfold _store. kwalk. apply kept_transaction. apply kept_write. intros d. by split.
Qed.
Lemma kept_read_candles symbol tf limit source : steps kept (_read_candles symbol tf limit source).
Proof. unfold _read_candles. kwalk. Qed.
Lemma kept_is_warm rows symbol tf source : steps kept (_is_warm rows symbol tf source).
Proof. unfold _is_warm, _expected_latest_closed. kwalk. Qed.
Lemma kept_needs_catchup tf l source : steps kept (_needs_catchup tf l source).
Proof. unfold _needs_catchup, _futures_symbol_set, futures_refresh, all_candles. kwalk. Qed.
Lemma kept_enqueue symbol tf limit priority source : steps kept (_enqueue symbol tf limit priority source).
Proof. intros s. unfold _enqueue. by destruct (find_in_flight _ _). Qed.
Hint Resolve kept_ensure_contains kept_ensure_futures kept_kfetch kept_store kept_read_candles kept_is_warm
  kept_needs_catchup kept_enqueue : kept.
Lemma kept_worker_step : steps kept worker_step.
Proof. unfold worker_step, run_job. kwalk. Qed.
Hint Resolve kept_worker_step : kept.
Lemma kept_await_turns n seq : steps kept (await_turns n seq).
Proof. induction n as [|n IH]; simpl; kwalk. Qed.
Hint Resolve kept_await_turns : kept.
Lemma kept_get_candles symbol tf limit source : steps kept (get_candles symbol tf limit source).
Proof. unfold get_candles, await, all_candles. kwalk. Qed.
Lemma kept_scheduler : steps kept scheduler_pass.
Proof. unfold scheduler_pass, _enqueue_closed_bar_pass, all_candles. kwalk. Qed.
Lemma kept_backfill : steps kept backfill_pass.
Proof. unfold backfill_pass, all_candles. kwalk. Qed.
Lemma kept_prune_candles days : steps kept (prune_candles days).
Proof.
  unfold prune_candles. kwalk. apply kept_transaction. kwalk. apply kept_write. intros d. by split.
Qed.
Lemma kept_prune_futures days : steps kept (prune_futures_context days).
Proof.
  unfold prune_futures_context. kwalk. apply kept_transaction. kwalk. apply kept_write. intros d. split; [done|].
  simpl. apply context_ok_sub.
Qed.
Hint Resolve kept_get_candles kept_scheduler kept_backfill kept_prune_candles kept_prune_futures : kept.
Lemma kept_feed_op op : steps kept (run_feed_op op).
Proof. destruct op; simpl; kwalk. Qed.

(** What the clock reads, and what the exchange answers, is known to what follows. *)
Lemma kept_read_clock {A} (f : Z → PM X A) :
  (∀ now, clock_read (X:=X) now → steps kept (f now)) → steps kept (clock_now ≫= f).
Proof.
  intros Hf s. unfold clock_now, time_now, in_store, on_ext, mbind, ST_bind. simpl.
  pose proof (Hf (ext_time (w_ext (sv_world s))).1) as Hf'. destruct (ext_time _) as [now x] eqn:E. simpl in *.
  etrans; [|apply Hf'; by exists (w_ext (sv_world s)); rewrite E]. by split.
Qed.
Lemma kept_answer {A} futures path params (f : pyval → PM X A) :
  (∀ data, answered (X:=X) futures path params data → steps kept (f data)) → steps kept (fetch futures path params 1 ≫= f).
Proof.
  intros Hf s. unfold fetch, in_store, on_ext, mbind, ST_bind.
  destruct (rest_get futures path params 1 (w_ext (sv_world s))) as [[data|e] x] eqn:E; simpl; [|by split].
  etrans; [|apply Hf; by exists (w_ext (sv_world s)); rewrite E]. by split.
Qed.

Lemma kept_store_context rows : Forall (storable seen) rows → steps kept (store_context rows).
Proof.
  intros Hrows. unfold store_context. destruct rows as [|r0 rows0]; [kwalk|].
  apply kept_read_clock. intros now Hnow. apply kept_transaction. apply steps_foldM; [tc_solve|].
  intros ? r Hr. apply steps_lift_bind; [tc_solve|]. intros row Hb. apply kept_write. intros d. split; [done|].
  simpl. apply upsert_context_ok. rewrite Forall_forall in Hrows. by eapply bind_row_ok; [apply Hrows|done|].
Qed.

Lemma kept_age : steps kept age_stale_rows.
Proof.
  unfold age_stale_rows. kwalk. apply kept_transaction. kwalk. apply kept_write. intros d. split; [done|].
  simpl. apply context_ok_aged.
Qed.

(** ** The pipeline *)

Definition pipeline_kept : relation (pipeline X) := λ p p', kept (pl_services p) (pl_services p').
#[export] Instance pipeline_kept_preorder : PreOrder pipeline_kept.
Proof. split; [intros p; unfold pipeline_kept; reflexivity|]. intros ???; unfold pipeline_kept. apply transitivity. Qed.

Lemma kept_in_services {A} (m : PM X A) : steps kept m → steps pipeline_kept (in_services m).
Proof. intros Hm p. unfold in_services. specialize (Hm (pl_services p)). by destruct (m (pl_services p)). Qed.
Lemma kept_pipeline_modify f : (∀ p : pipeline X, pl_services (f p) = pl_services p) → steps pipeline_kept (modify f).
Proof. intros Hf p. unfold pipeline_kept. simpl. by rewrite Hf. Qed.

Hint Resolve kept_age kept_feed_op : kept.
Hint Extern 4 (steps pipeline_kept (in_services _)) => (apply kept_in_services; kwalk) : kept.
Hint Extern 3 (steps pipeline_kept (modify _)) => (apply kept_pipeline_modify; done) : kept.

Lemma kept_last_status key value : steps pipeline_kept (set_last_status key value).
Proof. unfold set_last_status. kwalk. Qed.
Hint Resolve kept_last_status : kept.

Lemma pipeline_kept_answer {A} futures path params (f : pyval → FM X A) :
  (∀ data, answered (X:=X) futures path params data → steps pipeline_kept (f data)) →
  steps pipeline_kept (in_services (fetch futures path params 1) ≫= f).
Proof.
  intros Hf p. unfold in_services, fetch, in_store, on_ext, mbind, ST_bind.
  destruct (rest_get futures path params 1 (w_ext (sv_world (pl_services p)))) as [[data|e] x] eqn:E; simpl; [|by split].
  etrans; [|apply Hf; by exists (w_ext (sv_world (pl_services p))); rewrite E]. by split.
Qed.

Lemma kept_poll_funding : steps pipeline_kept poll_funding.
Proof.
  unfold poll_funding. apply pipeline_kept_answer. intros data Hd. apply steps_lift_bind; [tc_solve|].
  intros rows Hr. apply steps_bind; [tc_solve| |intros; kwalk].
  eapply kept_in_services, kept_store_context, funding_rows_storable; done.
Qed.

Lemma kept_poll_symbol symbol : steps pipeline_kept (poll_symbol symbol).
Proof.
  unfold poll_symbol. apply kept_in_services, kept_answer. intros data Hd.
  apply steps_lift_bind; [tc_solve|]. intros row Hr. apply kept_store_context. constructor; [|constructor].
  by eapply open_interest_storable.
Qed.
Hint Resolve kept_poll_funding kept_poll_symbol : kept.

Lemma kept_poll_symbols total clean symbols : steps pipeline_kept (poll_symbols total clean symbols).
Proof.
  revert total clean. induction symbols as [|symbol symbols IH]; intros total clean; simpl; unfold discard_symbol; kwalk; apply IH.
Qed.

Lemma kept_poll_open_interest : steps pipeline_kept poll_open_interest.
Proof. unfold poll_open_interest, poller_symbol_set. kwalk; apply kept_poll_symbols. Qed.
Hint Resolve kept_poll_open_interest : kept.

Lemma kept_liquidation_health f : steps pipeline_kept (liquidation_health f).
Proof. unfold liquidation_health, on_liquidation. kwalk. Qed.
Hint Resolve kept_liquidation_health : kept.

Lemma kept_handle_raw data : In data seen → steps pipeline_kept (_handle_raw data).
Proof.
  intros Hin. unfold _handle_raw, on_liquidation. apply steps_lift_bind; [tc_solve|]. intros events He. kwalk.
  all: apply kept_in_services, kept_store_context; apply Forall_fmap; by eapply liquidations_storable.
Qed.
Hint Resolve kept_handle_raw : kept.

Lemma pipeline_op_kept op : (∀ data, op = Liquidation (Message data) → In data seen) → steps pipeline_kept (run_pipeline_op op).
Proof.
  intros Hop. destruct op as [| | | |e|e|op]; simpl; unfold pipeline_start, poll_turn, poll_or_error, retention_turn, futures_status,
    liquidation_event, on_ticker; kwalk.
  apply kept_handle_raw, Hop. congruence.
Qed.
End Kept.

(** ** An open-interest poll that ends well *)

Section Covers.
Context {X : Type} `{Ext X, PyEnv, Rest X, FeedConfig, PipelineConfig}.

Definition observed (symbol : string) (rows : list futures_context_row) : Prop :=
  ∃ r, r ∈ rows ∧ fc_symbol r = symbol ∧ fc_type r = "open_interest" ∧ fc_freshness r = "fresh".

Lemma upsert_elem r rows : r ∈ upsert_context r rows.
Proof.
  unfold upsert_context. destruct (existsb _ rows) eqn:E; [|set_solver].
  apply existsb_exists in E as (x & Hx%list_elem_of_In & Hk). unfold update_where. apply list_elem_of_fmap.
  exists x. by rewrite Hk.
Qed.

Lemma upsert_observed symbol r rows : fc_freshness r = "fresh" → observed symbol rows → observed symbol (upsert_context r rows).
Proof.
  intros Hr (x & Hx & Hs & Ht & Hf). unfold upsert_context.
  set (p := context_key (fc_symbol r) (fc_type r) (fc_event_time r)). destruct (existsb p rows) eqn:E; [|exists x; set_solver].
  destruct (p x) eqn:Ep.
  - pose proof (proj1 (context_key_spec _ _) Ep) as Hid. unfold context_id in Hid. injection Hid as H1' H2' H3'.
    exists r. split_and!; [|congruence..]. unfold update_where. apply list_elem_of_fmap. exists x. by rewrite Ep.
  - exists x. split_and!; [|done..]. unfold update_where. apply list_elem_of_fmap. exists x. by rewrite Ep.
Qed.

Lemma poll_symbol_run symbol p r p' : poll_symbol symbol p = (r, p') →
  pl_futures p' = pl_futures p ∧
  (∀ s, observed s (context (pl_services p)) → observed s (context (pl_services p'))) ∧
  (r = Ok tt → observed symbol (context (pl_services p'))).
Proof.
  unfold poll_symbol, in_services. set (m := fetch _ _ _ _ ≫= _). destruct (m (pl_services p)) as [r1 s1] eqn:E.
  intros [= <- <-]. split; [done|]. simpl. subst m. revert E.
  unfold fetch, in_store, on_ext, mbind, ST_bind. destruct (rest_get _ _ _ _ _) as [[data|e] x]; [|by intros [= <- <-]].
  unfold lift. destruct (open_interest_row symbol data) as [row|e] eqn:Er; [|by intros [= <- <-]].
  assert (cx_symbol row = PStr symbol ∧ cx_type row = "open_interest") as [Hsy Hty].
  { revert Er. unfold open_interest_row. intros Eo.
    repeat first [done | match type of Eo with (?e ≫= _) = _ => destruct e; [simpl in Eo|done] end].
    by injection Eo as <-. }
  unfold store_context, clock_now, in_store, time_now, on_ext, mbind, ST_bind. simpl.
  destruct (ext_time x) as [now x']. simpl. unfold db_write. simpl. destruct (w_closed (sv_world (pl_services p))); [by intros [= <- <-]|].
  unfold mbind, ST_bind, bind_row, lift. rewrite Hsy. simpl. destruct (int_column (cx_event_time row)) as [t|e]; simpl; [|by intros [= <- <-]].
  intros [= <- <-]. unfold context. simpl. split.
  - intros s. by apply upsert_observed.
  - intros _. eexists. split; [apply upsert_elem|]. by rewrite Hty.
Qed.

Definition oi_status (f : FuturesContextPoller) : option string := assoc "open_interest" (fp_last_status f).
Definition asked (f : FuturesContextPoller) (symbol : string) : bool := str_in symbol (default [] (fp_futures_symbols f)).

Lemma asked_discard f symbol s :
  asked (mk_poller (delete_where (String.eqb symbol) <$> fp_futures_symbols f) (fp_futures_sync_at f) (fp_last_status f)) s = true →
  asked f s = true ∧ s ≠ symbol.
Proof.
  unfold asked. simpl. destruct (fp_futures_symbols f) as [l|]; [|done]. simpl. rewrite !str_in_spec.
  unfold delete_where. rewrite elem_of_filter_b. intros [Hs Hl]. split; [done|].
  intros ->. by rewrite String.eqb_refl in Hl.
Qed.

Lemma status_set key value f : assoc key (assoc_set key value (fp_last_status f)) = Some value.
Proof. apply assoc_set_same. Qed.

Record polled (clean clean' : bool) (symbols : list string) (p p' : pipeline X) : Prop := {
  po_asked : ∀ s, asked (pl_futures p') s = true → asked (pl_futures p) s = true;
  po_observed : ∀ s, observed s (context (pl_services p)) → observed s (context (pl_services p'));
  po_clean : clean' = true → clean = true;
  po_status : clean = true ∨ oi_status (pl_futures p) ≠ Some "ok" → clean' = true ∨ oi_status (pl_futures p') ≠ Some "ok";
  po_all : clean' = true → ∀ s, s ∈ symbols → asked (pl_futures p') s = true → observed s (context (pl_services p')) }.

Lemma poll_symbols_run symbols total clean p n clean' p' :
  poll_symbols total clean symbols p = (Ok (n, clean'), p') → polled clean clean' symbols p p'.
Proof.
  revert total clean p p'. induction symbols as [|symbol symbols IH]; intros total clean p p'; simpl.
  { intros [= <- <- <-]. split; try done. intros _ s Hs. by apply not_elem_of_nil in Hs. }
  unfold mbind, ST_bind, gets. fold (asked (pl_futures p) symbol). destruct (asked (pl_futures p) symbol) eqn:Hasked; simpl.
  2:{ intros E%IH. destruct E as [Ha Ho Hm Hc Hall]. split; try done. intros Hcl s [->|Hs]%elem_of_cons Hs'.
      - rewrite (Ha _ Hs') in Hasked. discriminate.
      - by apply Hall. }
  unfold attempt. destruct (poll_symbol symbol p) as [r p1] eqn:E1. apply poll_symbol_run in E1 as (Hf1 & Ho1 & Hok1).
  assert (∀ p2, poll_symbols total false symbols (set_last_status "open_interest" "error" p1).2 = (Ok (n, clean'), p2) →
    polled clean clean' (symbol :: symbols) p p2) as Herror.
  { intros p2 [Ha Ho Hm Hc _]%IH. assert (clean' = false) as -> by (destruct clean'; [by specialize (Hm eq_refl)|done]).
    split; try done.
    - intros s Hs. specialize (Ha s Hs). unfold asked in *. simpl in Ha. by rewrite Hf1 in Ha.
    - auto.
    - intros _. apply Hc. right. unfold oi_status. simpl. rewrite status_set. done. }
  destruct r as [[]|e].
  - intros [Ha Ho Hm Hc Hall]%IH. rewrite Hf1 in Ha, Hc. split; [done|auto|done|done|].
    intros Hcl s [->|Hs]%elem_of_cons Hs'; [by apply Ho, Hok1|by apply Hall].
  - destruct_exn e; try done; try (intros E; by apply Herror).
    + simpl. unfold discard_symbol, modify. intros [Ha Ho Hm Hc Hall]%IH. simpl in *. rewrite Hf1 in Ha, Hc.
      split; [|auto|done|done|].
      * intros s Hs. by apply (asked_discard _ symbol s), Ha.
      * intros Hcl s [->|Hs]%elem_of_cons Hs'; [|by apply Hall]. by destruct (asked_discard _ _ _ (Ha _ Hs')).
    + simpl. intros [= <- <- <-]. split; simpl; try done.
      * intros s Hs. unfold asked in *. simpl in Hs. by rewrite Hf1 in Hs.
      * intros _. right. unfold oi_status. simpl. by rewrite status_set.
Qed.
End Covers.

(** ** Properties *)

(** C22: every row of the futures context was observed, and collecting data trades
    nothing.  Over any sequence of what the pipeline does — its start, polls, stream
    events, data services and retention, with any failures — [futures_context] has one
    row for a symbol, type and event time; a row is labelled fresh or stale, was fetched
    at a time the clock read, and says what was observed: the rate of an item of an
    answer about the premium index, the open interest of the exchange's answer about
    that symbol, or the price times the quantity of an order in a message of the stream.
    (An answer without an amount or a time counts as zero, as [get] with its default does.)
    Accounts, policies, orders, alerts, the approval queue and the audit log are as
    before, and nothing was sent to the exchange. *)
Theorem futures_context_sound {X} `{Ext X, PyEnv, Rest X, FeedConfig, PipelineConfig} (ops : list pipeline_op)
    (seen : list (option pyval)) (p : pipeline X) :
  context_ok (X:=X) seen (context (pl_services p)) →
  let p' := (run_pipeline_ops ops p).2 in
  context_ok (X:=X) (seen ++ messages ops) (context (pl_services p')) ∧
  quiet_view (pl_services p') = quiet_view (pl_services p).
Proof.
  intros Hok. assert (steps (pipeline_kept (seen ++ messages ops)) (run_pipeline_ops (X:=X) ops)) as Hk.
  { apply steps_foldM; [tc_solve|]. intros ? op Hop. apply pipeline_op_kept. intros data ->.
    apply in_or_app. right. by apply in_messages, list_elem_of_In. }
  destruct (Hk p) as [Hq Hc]. split; [by apply Hc, context_ok_more|exact Hq].
Qed.

(** Old context is not called fresh.  [age_stale_rows] relabels exactly the fresh
    rows fetched more than [futures_stale_after_seconds] ago, counts them, and changes
    nothing else; so no fresh row is older when it returns.  On a closed database it
    fails and changes nothing. *)
Theorem age_stale_rows_spec {X} `{Ext X, PipelineConfig} (s : services X) :
  let now := (ext_time (w_ext (sv_world s))).1 in
  let cutoff := (now - futures_stale_after_seconds)%Z in
  let '(r, s') := age_stale_rows s in
  if w_closed (sv_world s) then r = Err RuntimeError ∧ context s' = context s
  else
    r = Ok (count_where (stale_row cutoff) (context s)) ∧
    context s' = update_where (stale_row cutoff) make_stale (context s) ∧
    Forall (λ row, fc_freshness row = "fresh" → (cutoff ≤ fc_fetched_at row)%Z) (context s').
Proof.
  unfold age_stale_rows, clock_now, in_store, time_now, on_ext, mbind, ST_bind. simpl.
  destruct (ext_time (w_ext (sv_world s))) as [now x]. simpl. unfold db_write. simpl.
  destruct (w_closed (sv_world s)); simpl; [done|]. split_and!; [done..|].
  unfold context. simpl. unfold update_where. apply Forall_fmap, Forall_true. intros row. simpl.
  unfold stale_row. destruct (String.eqb (fc_freshness row) "fresh") eqn:E; simpl.
  - destruct (fc_fetched_at row <? _)%Z eqn:Et; simpl; [done|]. intros _. by apply Z.ltb_ge in Et.
  - intros Hf. rewrite Hf in E. discriminate.
Qed.

(** An open-interest poll says "ok" only when it covered the market.  When a poll
    returns with that status, every symbol of the universe that the futures exchange
    trades, as far as the poller knows by then, has a fresh row of open interest. *)
Theorem open_interest_covers {X} `{Ext X, PyEnv, Rest X, FeedConfig, PipelineConfig} (p : pipeline X) n p' :
  poll_open_interest p = (Ok n, p') → oi_status (pl_futures p') = Some "ok" →
  ∀ symbol, In symbol (snapshot (sv_universe (pl_services p))) → asked (pl_futures p') symbol = true →
    observed symbol (context (pl_services p')).
Proof.
  intros E Hok symbol Hin%list_elem_of_In Hasked. unfold poll_open_interest in E.
  apply ST_bind_Ok in E as (l & p1 & E1 & E).
  assert (sv_universe (pl_services p1) = sv_universe (pl_services p)) as Hu.
  { revert E1. unfold poller_symbol_set, fetch, clock_now, time_now, in_services, in_store, on_ext, mbind, ST_bind, gets, lift, modify.
    destruct (ext_time _) as [now x]. simpl. destruct (fp_futures_symbols (pl_futures p)); [destruct (_ <=? _)%Z|];
      simpl; try (destruct (rest_get _ _ _ _ _) as [[data|e] x1]; simpl; [destruct (futures_symbols_of data); simpl|]);
      by intros [= _ <-]. }
  apply ST_bind_Ok in E as (symbols & p2 & E2 & E). injection E2 as <- <-. rewrite Hu in E.
  apply ST_bind_Ok in E as ([total clean] & p3 & E3 & E). apply poll_symbols_run in E3 as [_ _ _ Hc Hall].
  apply ST_bind_Ok in E as ([] & p4 & E4 & E). injection E as _ <-. destruct clean.
  - injection E4 as <-. simpl. by apply Hall.
  - injection E4 as <-. destruct (Hc (or_introl eq_refl)) as [?|Hn]; [done|]. by destruct (Hn Hok).
Qed.

(** ** Witnesses *)

#[local] Existing Instances outside_ext sample_env.
#[local] Instance pipeline_config : PipelineConfig := {| futures_stale_after_seconds := 1800; candles_retention_days := [] |}.
#[local] Instance pipeline_feed : FeedConfig := {|
  kline_intervals := ["1m"]; universe_refresh_seconds := 1800; futures_universe_ttl_seconds := 3600;
  kline_backfill_bars := 300; kline_catchup_bars := 5 |}.

(** Two traded pairs, and a spot pair the futures exchange does not know. *)
Definition pair (s : string) : pyval := PDict [("symbol", PStr s); ("status", PStr "TRADING"); ("quoteAsset", PStr "USDT")].
Definition futures_get (futures : bool) (path : string) : result pyval :=
  if String.eqb path "/api/v3/exchangeInfo" then Ok (PDict [("symbols", PList [pair "AUSDT"; pair "BUSDT"; pair "SPOTUSDT"])])
  else if String.eqb path "/fapi/v1/exchangeInfo" then Ok (PDict [("symbols", PList [pair "AUSDT"; pair "BUSDT"])])
  else if String.eqb path "/fapi/v1/openInterest" then Ok (PDict [("openInterest", PStr "12.5"); ("time", PInt 900000000000)])
  else if String.eqb path "/fapi/v1/premiumIndex" then
    Ok (PList [PDict [("symbol", PStr "AUSDT"); ("lastFundingRate", PStr "0.0001"); ("time", PInt 900000000000)];
               PDict [("symbol", PStr "BUSDT"); ("lastFundingRate", PStr "junk")]])
  else Ok (PDict [("serverTime", PInt 1000)]).
#[local] Instance futures_rest : Rest outside := {| rest_get futures path _ _ x := (futures_get futures path, x) |}.

Definition first_pipeline : pipeline outside :=
  mk_pipeline (mk_services (start empty_db) new_clock new_universe new_klines new_pa) new_poller new_cache new_liquidation_ws.

Definition force_order (price qty : Z) : option pyval :=
  Some (PDict [("E", PInt 900000000000);
               ("o", PDict [("s", PStr "AUSDT"); ("S", PStr "SELL"); ("p", PInt price); ("q", PInt qty)])]).

(** Two liquidations of a symbol in one second leave one row: the second overwrites
    the first, and its value is lost. *)
Definition two_liquidations : list pipeline_op :=
  [Start; PollTurn; Liquidation Connected; Liquidation (Message (force_order 10 3)); Liquidation (Message (force_order 11 1))].
Definition after_liquidations : pipeline outside := (run_pipeline_ops two_liquidations first_pipeline).2.

Example liquidations_overwritten :
  map (λ r, (fc_symbol r, fc_type r, fc_value r)) (context (pl_services after_liquidations))
  = [("AUSDT", "funding_rate", Some (fQ 1 10000)); ("AUSDT", "open_interest", Some (fQ 125 10));
     ("BUSDT", "open_interest", Some (fQ 125 10)); ("AUSDT", "liquidation", Some (fZ 11))]
  ∧ lw_events_written (pl_liquidation_ws after_liquidations) = 2%Z.
Proof. vm_compute. split; reflexivity. Qed.

Lemma first_context_ok : context_ok (X:=outside) [] (context (pl_services first_pipeline)).
Proof. split; constructor. Qed.

Lemma futures_context_sound_witness :
  context_ok (X:=outside) (messages two_liquidations) (context (pl_services after_liquidations)) ∧ length (context (pl_services after_liquidations)) = 4%nat.
Proof.
  split; [|vm_compute; reflexivity].
  exact (proj1 (futures_context_sound two_liquidations [] first_pipeline first_context_ok)).
Defined.

Definition started : pipeline outside := (run_pipeline_ops [Start] first_pipeline).2.
Definition after_poll : pipeline outside := (poll_open_interest started).2.

Lemma open_interest_covers_witness : observed "BUSDT" (context (pl_services after_poll)).
Proof.
  apply (open_interest_covers started 2 after_poll); vm_compute; [reflexivity..| |reflexivity].
  right. left. reflexivity.
Defined.
