(* ===== verification/Market.v ===== *)
(** [PipelineMarketFeed] of [storage/orders.py]: the market the order service sees is
    the data pipeline's, its tickers, its universe and its filters.

    An operation of the order service runs on the store, with the data services as its
    outside: it reads the ticker cache as it was when the operation began, as no message
    of the stream is taken in during a whole call, and may synchronise the universe. *)

From Stdlib Require Import ZArith String.
From S2P Require Import Prelude PyFloat PyVal Errors Sizing Monad Broker Tables Db Credentials Feed Orders Close.
From S2P Require Import AuditLog Accounts RiskPolicy OrdersSpec Pending Approve Ticker Pipeline.
Local Open Scope string_scope.
Local Open Scope list_scope.

(** ** The data services as an outside *)

Section Outside.
Context {X : Type}.

Definition on_outside {A} (m : ST X A) : PM X A := in_store (on_ext m).
Definition outside_of (s : services X) : X := w_ext (sv_world s).
Definition with_outside (x : X) (s : services X) : services X :=
  let w := sv_world s in set_world (mk_world (w_db w) (w_closed w) x (w_trace w)) s.

#[export] Instance services_ext `{Ext X} : Ext (services X) := {|
  ext_time s := let '(t, x) := ext_time (outside_of s) in (t, with_outside x s);
  ext_uuid4_hex s := let '(u, x) := ext_uuid4_hex (outside_of s) in (u, with_outside x s) |}.

#[export] Instance services_secrets `{SecretStore X} : SecretStore (services X) := {|
  encrypt a k v := on_outside (encrypt a k v);
  decrypt a k v := on_outside (decrypt a k v);
  delete_secret a k v s := with_outside (delete_secret a k v (outside_of s)) s |}.

#[export] Instance services_broker `{OrderBroker X} : OrderBroker (services X) := {|
  place_order a := on_outside (place_order a);
  place_oco a := on_outside (place_oco a);
  query_order a s c := on_outside (query_order a s c);
  query_oco a c := on_outside (query_oco a c);
  cancel_order a s c := on_outside (cancel_order a s c);
  cancel_oco a s c := on_outside (cancel_oco a s c);
  get_all_open_orders a := on_outside (get_all_open_orders a);
  cancel_all_open_orders a s := on_outside (cancel_all_open_orders a s);
  get_balance a := on_outside (get_balance a);
  get_balance_detail a := on_outside (get_balance_detail a) |}.
End Outside.

(** ** The market feed *)

Section Feed.
Context {X : Type} `{Ext X, PyEnv, Rest X, FeedConfig}.

Definition feed_price (cache : TickerCache) (symbol : string) : PM X (option float) :=
  now ← clock_now;
  mret (match get_ticker now symbol cache with Some (t, Fresh) => Some (t_last t) | _ => None end).

Definition feed_filters (symbol : string) : PM X (option SymbolFilters) :=
  u ← gets sv_universe;
  match symbol_info symbol u with
  | None => mret None
  | Some info => f ← lift (from_exchange_info str_of_other info); mret (Some f)
  end.

Definition PipelineMarketFeed (cache : TickerCache) : MarketFeed (services X) := {|
  symbol_valid := ensure_contains;
  price := feed_price cache;
  filters := feed_filters |}.

(** An operation of the order service of a pipeline. *)
Definition in_orders {A} (m : MarketFeed (services X) → M (services X) A) : FM X A := λ p,
  let s := pl_services p in
  let w := sv_world s in
  let '(r, w') := m (PipelineMarketFeed (pl_ticker_cache p)) (mk_world (w_db w) (w_closed w) s (w_trace w)) in
  let s' := w_ext w' in
  (r, set_services (set_world (mk_world (w_db w') (w_closed w') (outside_of s') (w_trace w')) s') p).
End Feed.

(** ** Without a price no order is made *)

Section NoPrice.
Context {X : Type} `{Ext X, PyEnv, SecretStore X, OrderBroker X, MarketFeed X, OrderConfig}.
(** The feed has no fresh price of any symbol. *)
Context (no_price : ∀ symbol x, (price symbol x).1 = Ok None).

Lemma price_bind {A} symbol (f : option float → M X A) : steps quiet (f None) → steps quiet (on_ext (price symbol) ≫= f).
Proof.
  intros Hf w. unfold mbind, ST_bind, on_ext. pose proof (no_price symbol (w_ext w)) as Hp.
  destruct (price symbol (w_ext w)) as [r x]. simpl in Hp. subst r. etrans; [apply wrel_ext|apply Hf].
Qed.

(** What comes after a computation that always raises is never run. *)
Lemma steps_never {A B} (m : M X A) (f : A → M X B) : (∀ w, is_ok (m w).1 = false) → steps quiet m → steps quiet (m ≫= f).
Proof.
  intros He Hm w. specialize (He w). specialize (Hm w). unfold mbind, ST_bind. by destruct (m w) as [[a|e] w'].
Qed.

Lemma gate_refuses symbol w : is_ok (market_gate symbol w).1 = false.
Proof.
  unfold market_gate, on_ext, mbind, ST_bind. destruct (symbol_valid symbol (w_ext w)) as [[[]|e] x]; simpl; [|done..].
  pose proof (no_price symbol x) as Hp. destruct (price symbol x) as [r x']. simpl in Hp. by subst r.
Qed.
Lemma preflight_refuses symbol side entry stop_loss w : is_ok (_accuracy_preflight symbol side entry stop_loss w).1 = false.
Proof.
  unfold _accuracy_preflight, on_ext, mbind, ST_bind. destruct (symbol_valid symbol (w_ext w)) as [[[]|e] x]; simpl; [|done..].
  pose proof (no_price symbol x) as Hp. destruct (price symbol x) as [r x']. simpl in Hp. by subst r.
Qed.

Ltac pricewalk := repeat first
  [ apply steps_never; [apply gate_refuses|apply (frame_market_gate quiet)]
  | apply steps_never; [apply preflight_refuses|apply (frame_preflight quiet)]
  | apply price_bind
  | solve [eauto 3 with wsteps typeclass_instances]
  | walk1 ].

Lemma quiet_direct a s sd ot q p idem actor sp : steps quiet (_execute_one_direct a s sd ot q p idem actor sp : M X _).
Proof. unfold _execute_one_direct. pricewalk. Qed.
Lemma quiet_sized a s sd e sl rp idem ot actor : steps quiet (_execute_one_sized a s sd e sl rp idem ot actor : M X _).
Proof. unfold _execute_one_sized. pricewalk. Qed.
Lemma quiet_oco a s sd q p sp sl idem actor : steps quiet (_execute_oco_direct a s sd q p sp sl idem actor : M X _).
Proof. unfold _execute_oco_direct. pricewalk. Qed.
Hint Resolve quiet_direct quiet_sized quiet_oco quiet_resolve_targets quiet_list_accounts : wsteps.

Lemma quiet_place_order a s sd ot q p sp idem actor : steps quiet (service_place_order a s sd ot q p sp idem actor : M X _).
Proof. unfold service_place_order. pricewalk. Qed.
Lemma quiet_place_oco a s sd q p sp sl idem actor : steps quiet (place_oco_order a s sd q p sp sl idem actor : M X _).
Proof. unfold place_oco_order. pricewalk. Qed.
Lemma quiet_execute a b c d e f g h i j : steps quiet (execute_on_accounts a b c d e f g h i j : M X _).
Proof. unfold execute_on_accounts. pricewalk. Qed.

Lemma quiet_sell_one account actor nonce sold bal : steps quiet (_sell_one account actor nonce sold bal : M X _).
Proof. unfold _sell_one. pricewalk. Qed.
Hint Resolve quiet_sell_one quiet_cancel_orphan quiet_cancel_target : wsteps.
Lemma quiet_close_one account actor : steps quiet (_close_one account actor : M X _).
Proof. unfold _close_one. pricewalk. Qed.
Hint Resolve quiet_close_one : wsteps.
Lemma quiet_close_all a actor : steps quiet (close_all_positions a actor : M X _).
Proof. unfold close_all_positions. pricewalk. Qed.

Lemma quiet_pending (f : list pending_row → list pending_row) :
  steps quiet (db_modify (set_pending_orders f) : M X unit).
Proof. by apply quiet_modify. Qed.
Hint Resolve quiet_pending quiet_execute : wsteps.
Lemma quiet_transition i from f : steps quiet (transition i from f : M X _).
Proof. unfold transition, cas, not_matched. pricewalk. Qed.
Hint Resolve quiet_transition : wsteps.
Lemma quiet_fail i st code : steps quiet (fail_pending_execution i st code : M X _).
Proof. unfold fail_pending_execution. pricewalk. Qed.
Lemma quiet_complete i e : steps quiet (complete_pending_execution i e : M X _).
Proof. unfold complete_pending_execution. pricewalk. Qed.
Lemma quiet_claim i : steps quiet (approve_and_claim_pending_execution i : M X _).
Proof. unfold approve_and_claim_pending_execution, cas. pricewalk. Qed.
Hint Resolve quiet_fail quiet_complete quiet_claim : wsteps.
Lemma quiet_settle i b : steps quiet (settle i b : M X _).
Proof. unfold settle. pricewalk. Qed.
Hint Resolve quiet_settle : wsteps.
Lemma quiet_approve has actor i : steps quiet (approve_handler has actor i : M X _).
Proof.
  unfold approve_handler, _pending_order, fill_entry, _current_market_price, _fill_pending_entry. pricewalk.
Qed.
End NoPrice.

(** The pipeline's feed without a fresh ticker. *)
Section Stale.
Context {X : Type} `{Ext X, PyEnv, Rest X, FeedConfig}.

(** The stream is not connected, or silent for too long at any time the clock tells. *)
Definition stale_stream (cache : TickerCache) : Prop :=
  ∀ x : X, is_fresh ticker_stale_after (ext_time x).1 (tc_health cache) = false.

Lemma stale_no_price cache : stale_stream cache →
  ∀ symbol x, (@price _ (PipelineMarketFeed cache) symbol x).1 = Ok None.
Proof.
  intros Hs symbol s. cbn [price PipelineMarketFeed]. unfold feed_price, clock_now, time_now, in_store, on_ext, mbind, ST_bind.
  specialize (Hs (w_ext (sv_world s))). destruct (ext_time (w_ext (sv_world s))) as [now x]. simpl in *.
  unfold get_ticker, freshness_for. destruct (assoc symbol (tc_data cache)); [|done].
  by rewrite Hs, andb_false_r.
Qed.

Lemma disconnected_stale cache : h_connected (tc_health cache) = false → stale_stream cache.
Proof. intros Hc x. unfold is_fresh. by rewrite Hc. Qed.
End Stale.
