(* ===== verification/Worker.v ===== *)
(** [pa/worker.py]: the background worker that recomputes analyses when bars close.

    The symbols of a pass are processed one after another, where the code lets up to
    [pa_worker_concurrency] wait for each other's I/O. *)

From Stdlib Require Import ZArith String.
From S2P Require Import Prelude PyFloat PyVal Errors Monad Swings Broker Tables Db Sample Feed Klines.
From S2P Require Import History Engine Alarms AlarmsSpec Screener.
Local Open Scope string_scope.
Local Open Scope list_scope.

(** What [_process] returns; an exception it raises counts as a failure. *)
Inductive outcome := Processed | Insufficient | Transient.
Definition settled (o : outcome) : bool := match o with Transient => false | _ => true end.
Definition succeeded (o : outcome) : bool := match o with Processed => true | _ => false end.

Section Worker.
Context {X : Type} `{Ext X, PyEnv, Rest X, FeedConfig}.
Context (has_pipeline : bool).
(** [engine.analyze] *)
Context (analyze : string → string → Z → PM X analysis).

Definition _process (symbol tf : string) : PM X outcome :=
  r ← attempt (_load_candles has_pipeline symbol tf PA_LOOKBACK);
  match r with
  | Err _ => mret Transient
  | Ok candles =>
      match last candles with
      | None => mret Transient
      | Some c =>
          fresh ← freshness has_pipeline tf (Some (c_open_time c));
          if negb fresh then mret Transient
          else
            r ← attempt (analyze symbol tf PA_LOOKBACK);
            mret (match r with
                  | Ok _ => Processed
                  | Err (RasatError STALE_DATA) => Insufficient
                  | Err _ => Transient
                  end)
      end
  end.

(** [gather(..., return_exceptions=True)] *)
Definition process_all (tf : string) (symbols : list string) : PM X (list outcome) :=
  mapM (λ symbol, r ← attempt (_process symbol tf); mret (match r with Ok o => o | Err _ => Transient end)) symbols.

Definition marker (tf : string) (s : services X) : option Z := assoc tf (pa_last_processed (sv_pa s)).
Definition set_marker (tf : string) (bar : Z) (s : services X) : services X :=
  let p := sv_pa s in
  set_pa (mk_pa (pa_alarm_used p) (pa_scan_used p) (pa_scan_deferred p) (assoc_set tf bar (pa_last_processed p))) s.

(** One timeframe of a pass, to the symbols processed so far. *)
Definition check_timeframe (now : Z) (processed : nat) (tf : string) : PM X nat :=
  period ← lift (period_of tf);
  let bar := latest_closed now period in
  m ← gets (marker tf);
  if bool_decide (m = Some bar) then mret processed
  else
    u ← gets sv_universe;
    match sorted_symbols (snapshot u) with
    | [] => mret processed
    | symbols =>
        outcomes ← process_all tf symbols;
        (if forallb settled outcomes then modify (set_marker tf bar) else mret tt);;
        mret (processed + count_where succeeded outcomes)%nat
    end.

Definition check_and_process : PM X nat :=
  now ← _now has_pipeline;
  foldM (check_timeframe now) 0%nat kline_intervals.
End Worker.

(** ** What a pass does *)

Section WorkerSpec.
Context {X : Type} `{Ext X, PyEnv, Rest X, FeedConfig, Notifier X}.
Context (has_pipeline : bool) (alarm_budget : nat).

Abbreviation analyze := (engine_analyze has_pipeline alarm_budget (S alarm_budget)).

(** The markers and the intervals are the worker's own. *)
Definition markers (s : services X) : list (string * Z) := pa_last_processed (sv_pa s).
Definition unmarked : relation (services X) := λ s s', proposing s s' ∧ markers s' = markers s.

#[export] Instance unmarked_preorder : PreOrder unmarked.
Proof. split; [intros s; by split|]. intros ??? [??] [??]. split; [by etrans|congruence]. Qed.

Lemma quiet_unmarked (s s' : services X) : quiet s s' → unmarked s s'.
Proof.
  intros Hq. split; [by apply quiet_proposing|]. unfold quiet, quiet_view in Hq. unfold markers.
  assert (sv_pa s' = sv_pa s) as -> by congruence. done.
Qed.

Lemma trigger_unmarked alert_id key payload cooldown : steps unmarked (_maybe_trigger (X:=X) alert_id key payload cooldown).
Proof.
  intros s. split; [apply proposing_maybe_trigger|].
  pose proof (maybe_trigger_run alert_id key payload cooldown s) as Hr.
  destruct (_maybe_trigger alert_id key payload cooldown s) as [r s']. destruct Hr as [Hp _]. unfold markers. simpl. by rewrite Hp.
Qed.

Lemma engine_unmarked symbol tf n : steps unmarked (analyze symbol tf n).
Proof.
  apply (steps_engine _ _ unmarked quiet_unmarked trigger_unmarked).
  intros s. split; [|done]. split; [reflexivity|by split].
Qed.

Lemma process_unmarked symbol tf : steps unmarked (_process has_pipeline analyze symbol tf).
Proof.
  unfold _process. apply steps_bind; [tc_solve| |].
  { apply steps_attempt. apply (steps_mono quiet); [apply quiet_unmarked|auto with quiet]. }
  intros [candles|e]; [|apply steps_ret; tc_solve]. destruct (last candles) as [c|]; [|apply steps_ret; tc_solve].
  apply steps_bind; [tc_solve|apply (steps_mono quiet); [apply quiet_unmarked|auto with quiet]|].
  intros fresh. destruct (negb fresh); [apply steps_ret; tc_solve|].
  apply steps_bind; [tc_solve|apply steps_attempt, engine_unmarked|]. intros r. apply steps_ret; tc_solve.
Qed.

Lemma process_all_unmarked tf symbols : steps unmarked (process_all has_pipeline analyze tf symbols).
Proof.
  apply steps_mapM; [tc_solve|]. intros symbol _.
  apply steps_bind; [tc_solve|apply steps_attempt, process_unmarked|]. intros r. apply steps_ret; tc_solve.
Qed.

(** All symbols of the universe were processed, and no one has to be tried again. *)
Definition completed (tf : string) (s0 s1 : services X) : Prop :=
  ∃ outcomes, process_all has_pipeline analyze tf (sorted_symbols (snapshot (sv_universe s0))) s0 = (Ok outcomes, s1) ∧
    length outcomes = length (snapshot (sv_universe s0)) ∧ Forall (λ o, settled o = true) outcomes.

Lemma mapM_length {S A B} (f : A → ST S B) l s bs s' : mapM f l s = (Ok bs, s') → length bs = length l.
Proof.
  revert s bs s'. induction l as [|a l IH]; intros s bs s'; simpl; [by intros [= <- _]|].
  intros (b & s1 & _ & Hr)%ST_bind_Ok. apply ST_bind_Ok in Hr as (bs' & s2 & E & Hr). injection Hr as <- _.
  simpl. f_equal. by eapply IH.
Qed.

Record checked (now : Z) (tf : string) (s s' : services X) : Prop := {
  ch_proposing : proposing s s';
  ch_others : ∀ tf', tf' ≠ tf → marker tf' s' = marker tf' s;
  ch_moved : marker tf s' = marker tf s ∨
    ∃ period s1, period_of tf = Ok period ∧ marker tf s' = Some (latest_closed now period) ∧ completed tf s s1 }.

Lemma check_timeframe_checked now n tf s : checked now tf s (check_timeframe has_pipeline analyze now n tf s).2.
Proof.
  unfold check_timeframe. unfold mbind at 1, ST_bind at 1, lift. destruct (period_of tf) as [period|e] eqn:Ep.
  2:{ split; [reflexivity|done|by left]. }
  unfold mbind at 1, ST_bind at 1, gets at 1. destruct (bool_decide _); [by split; [reflexivity|done|left]|].
  unfold mbind at 1, ST_bind at 1, gets at 1.
  destruct (sorted_symbols (snapshot (sv_universe s))) as [|symbol symbols] eqn:Es; [by split; [reflexivity|done|left]|].
  rewrite <- Es. unfold mbind at 1, ST_bind at 1.
  pose proof (process_all_unmarked tf (sorted_symbols (snapshot (sv_universe s))) s) as [Hprop Hm].
  destruct (process_all _ _ _ _ s) as [[outcomes|e] s1] eqn:Ea; simpl in *.
  2:{ split; [done| |left]; intros; unfold marker; unfold markers in Hm; by rewrite Hm. }
  unfold mbind, ST_bind. destruct (forallb settled outcomes) eqn:Ef; simpl.
  - split; simpl.
    + destruct Hprop as (? & ? & ?). by split.
    + intros tf' Hne. unfold marker. simpl. rewrite assoc_set_other by congruence. unfold markers in Hm. by rewrite Hm.
    + right. exists period, s1. split_and!; [done|unfold marker; simpl; apply assoc_set_same|].
      exists outcomes. split_and!; [done| |].
      * apply mapM_length in Ea. rewrite Ea. by rewrite (Permutation_length (sorted_symbols_perm _)).
      * apply Forall_forall. intros o Ho%list_elem_of_In. by apply (proj1 (forallb_forall _ _) Ef).
  - split; [done| |left]; intros; unfold marker; unfold markers in Hm; by rewrite Hm.
Qed.

(** The markers of a pass, timeframe by timeframe. *)
Lemma check_loop now n tfs s :
  let s' := (foldM (check_timeframe has_pipeline analyze now) n tfs s).2 in
  proposing s s' ∧
  ∀ tf, marker tf s' = marker tf s ∨
    In tf tfs ∧ ∃ period s0 s1, period_of tf = Ok period ∧ marker tf s' = Some (latest_closed now period) ∧ completed tf s0 s1.
Proof.
  revert n s. induction tfs as [|tf tfs IH]; intros n s; simpl; [split; [reflexivity|by left]|].
  unfold mbind, ST_bind. pose proof (check_timeframe_checked now n tf s) as [Hp Ho Hm].
  destruct (check_timeframe _ _ now n tf s) as [[n1|e] s1]; simpl in *.
  - specialize (IH n1 s1) as [Hp' Hm']. split; [by etrans|]. intros tf'.
    destruct (Hm' tf') as [E | (Hin & Hc)]; [|right; auto]. rewrite E.
    destruct (decide (tf' = tf)) as [->|Hne]; [|left; by apply Ho].
    destruct Hm as [?|(period & s2 & ? & ? & ?)]; [by left|]. right. split; [by left|]. eauto 10.
  - split; [done|]. intros tf'. destruct (decide (tf' = tf)) as [->|Hne]; [|left; by apply Ho].
    destruct Hm as [?|(period & s2 & ? & ? & ?)]; [by left|]. right. split; [by left|]. eauto 10.
Qed.

Lemma check_settled now n tfs s :
  Forall (λ tf, ∃ period, period_of tf = Ok period ∧ marker tf s = Some (latest_closed now period)) tfs →
  foldM (check_timeframe has_pipeline analyze now) n tfs s = (Ok n, s).
Proof.
  induction 1 as [|tf tfs (period & Hp & Hm) _ IH]; [done|]. simpl.
  erewrite ST_bind_run; [exact IH|]. unfold check_timeframe, mbind, ST_bind, lift, gets. rewrite Hp, Hm.
  by rewrite bool_decide_eq_true_2.
Qed.
End WorkerSpec.

(** The worker settles a bar once.  A pass moves the marker of a timeframe only to
    its latest closed bar, and only after every symbol of the universe was processed
    with success or for good too short; the analyses of a pass, and the alerts they
    evaluate, only propose orders.  And when every timeframe is marked with its latest
    closed bar, a pass computes nothing and changes nothing. *)
Theorem worker_settles_once {X} `{Ext X, PyEnv, Rest X, FeedConfig, Notifier X} has_pipeline alarm_budget (s : services X) :
  let analyze := engine_analyze has_pipeline alarm_budget (S alarm_budget) in
  match _now has_pipeline s with
  | (Ok now, s1) =>
      let '(r, s') := check_and_process has_pipeline analyze s in
      proposing s s' ∧
      (∀ tf, marker tf s' = marker tf s ∨
        In tf kline_intervals ∧ ∃ period s0 s2, period_of tf = Ok period ∧
          marker tf s' = Some (latest_closed now period) ∧ completed has_pipeline alarm_budget tf s0 s2) ∧
      (Forall (λ tf, ∃ period, period_of tf = Ok period ∧ marker tf s = Some (latest_closed now period)) kline_intervals →
        r = Ok 0%nat ∧ s' = s1)
  | (Err _, _) => False
  end.
Proof.
  intros analyze. assert (steps unmarked (_now (X:=X) has_pipeline)) as Hn
    by (apply (steps_mono quiet); [apply quiet_unmarked|auto with quiet]).
  specialize (Hn s). unfold check_and_process. unfold mbind at 1, ST_bind at 1.
  assert (∃ now s1, _now has_pipeline s = (Ok now, s1)) as (now & s1 & E).
  { unfold _now, server_now, clock_now, time_now, in_store, on_ext, mbind, ST_bind, gets.
    destruct has_pipeline; simpl.
    - destruct (ck_offset (sv_clock s)); simpl; [|destruct (ext_time _); by eauto].
      destruct (ext_time _) as [t x]; simpl. destruct (_ <? _)%Z; simpl; destruct (ext_time x); by eauto.
    - destruct (ext_time _); by eauto. }
  rewrite E in *. simpl in Hn. destruct Hn as [Hp1 Hm1]. pose proof (check_loop has_pipeline alarm_budget now 0 kline_intervals s1) as Hloop.
  pose proof (check_settled has_pipeline alarm_budget now 0 kline_intervals s1) as Hset. fold analyze in Hloop, Hset.
  destruct (foldM _ 0 kline_intervals s1) as [r s'] eqn:Ef. destruct Hloop as [Hp2 Hm2]. simpl in Hp2, Hm2.
  assert (∀ tf, marker tf s1 = marker tf s) as Hsame by (intros tf; unfold marker; unfold markers in Hm1; by rewrite Hm1).
  split; [by etrans|]. split.
  - intros tf. rewrite <- Hsame. apply Hm2.
  - intros Hall. cut ((r, s') = (Ok 0%nat, s1)); [by intros [= -> ->]|]. apply Hset.
    eapply Forall_impl; [exact Hall|]. intros tf (period & Hper & Hmk). exists period. by rewrite Hsame.
Qed.

(** ** A run *)

#[local] Existing Instances outside_ext sample_env.
#[local] Instance worker_rest : Rest outside := {| rest_get _ _ _ _ x := (Err TimeoutError, x) |}.
#[local] Instance worker_config : FeedConfig := {|
  kline_intervals := ["1m"; "1h"]; universe_refresh_seconds := 1800; futures_universe_ttl_seconds := 3600;
  kline_backfill_bars := 300; kline_catchup_bars := 5 |}.
#[local] Instance worker_notifier : Notifier outside := {|
  notify_command := None; shlex_split s := Some [s]; popen _ x := x |}.

Definition with_universe (s : services outside) : services outside := set_universe (mk_universe ["BTCUSDT"] [] U_ok 0) s.
Definition one_pass (s : services outside) : result nat * services outside :=
  check_and_process false (engine_analyze false 3 4) s.

(** The minute bar is settled and recomputed only once; the hour has no candles. *)
Example worker_run :
  let '(r1, s1) := one_pass (with_universe alarm_services) in
  let '(r2, s2) := one_pass s1 in
  (r1, markers s1, r2, markers s2) = (Ok 1%nat, [("1m", 900%Z)], Ok 0%nat, [("1m", 900%Z)]).
Proof. vm_compute. reflexivity. Qed.
