(* ===== verification/Handlers.v ===== *)
(** [daemon/handlers.py]: what the daemon does for every tool.

    A handler reads its parameters ([decode]) and calls the services ([execute]).  The
    services of the context are those [daemon/main.py] puts there: all of them, the
    order service only with a pipeline.  Annotations and the screener, made on first
    use, keep no state of their own but the counters of [pa_state].  The order service
    sees the market of the pipeline, see [in_orders] of file [Market]. *)

From Stdlib Require Import ZArith String.
From S2P Require Import Prelude PyFloat PyVal Errors Schema Tools Risk Sizing Monad Server.
From S2P Require Import Swings OrderBlocks Liquidity Broker Tables Db Sample Feed Klines History Engine.
From S2P Require Import AuditLog Credentials Accounts RiskPolicy Orders Close Pending OrdersSpec Approve.
From S2P Require Import Alarms AlarmsSpec Screener Annotations Ticker Pipeline Market.
Local Open Scope string_scope.
Local Open Scope list_scope.

(** ** Parameters *)

Abbreviation params := (list (string * pyval)).

(** [params[key]] and [params.get(key, default)]. *)
Definition param (key : string) (p : params) : result pyval :=
  match assoc key p with Some v => Ok v | None => Err KeyError end.
Definition param_or (key : string) (default_ : pyval) (p : params) : pyval := default default_ (assoc key p).

(** The types the schemas admit; nothing else reaches a handler, see
    [arguments_decoded]. *)
Definition as_str (v : pyval) : result string := match v with PStr s => Ok s | _ => Err TypeError end.
Definition as_int (v : pyval) : result Z := match v with PInt z => Ok z | _ => Err TypeError end.
Definition as_bool (v : pyval) : result bool := match v with PBool b => Ok b | _ => Err TypeError end.
Definition as_opt {A} (f : pyval → result A) (v : pyval) : result (option A) :=
  match v with PNone => Ok None | v => x ← f v; Ok (Some x) end.

(** A call of a tool, with the arguments its handler passes on. *)
Inductive call :=
| Ping | GetReadiness | ListAccounts | GetTotalExposure | GetUnprotectedPositions | ListAlerts
| GetCandles (symbol timeframe limit : pyval) (source : string)
| GetTicker (symbol : pyval)
| GetSymbolInfo (symbol : pyval)
| CalculatePositionSize (symbol account_balance risk_pct entry stop_loss : pyval) (side : string) (fee_rate : pyval)
| ExecuteOnAccounts (account_ids tags symbol side entry stop_loss risk_pct idempotency_key order_type : pyval)
| PlaceOrder (account_id symbol side order_type quantity price stop_price idempotency_key : pyval)
| PlaceOcoOrder (account_id symbol side quantity price stop_price stop_limit_price idempotency_key : pyval)
| CloseAllPositions (account_id : pyval)
| GetAccountBalance (account_id : pyval)
| GetOpenOrders (account_id : pyval)
| GetAuditLog (limit : pyval)
| AddAccount (label api_key api_secret tags market : pyval)
| RemoveAccount (account_id : pyval)
| EnableRealTrading (account_id : pyval)
| DisableRealTrading (account_id : pyval)
| SetRiskPolicy (account_id : pyval) (args : set_policy_args)
| OverrideRiskPolicy (account_id reason scope idempotency_key expires_at : pyval)
| GetRiskPolicy (account_id : pyval)
| GetMarketStructure (symbol timeframe : string) (lookback : Z)
| GetLiquidityZones (symbol timeframe : string) (include_mitigated : bool) (lookback : Z)
| GetOrderBlocks (symbol timeframe : string) (include_mitigated : bool) (lookback : Z)
| GetFullAnalysis (symbol timeframe : string) (include_mitigated : bool) (lookback : Z)
| AnnotateChart (symbol timeframe annotations : pyval) (created_by : pyval)
| GetChartAnnotations (symbol timeframe : string)
| ClearAnnotations (symbol timeframe : string)
| ScanMarket (filters : pyval) (combine sort_by : string) (limit : Z) (cursor : option Z) (timeframe : string)
| CreateAlert (symbol timeframe condition cooldown note order_spec : pyval)
| CreateCompositeAlert (clauses : pyval) (combine : string) (cooldown note : pyval)
| DeleteAlert (alert_id : pyval)
| GetTriggeredAlerts (alert_id : option string) (limit : Z) (cursor : option Z)
| GetPendingOrders (status : option string) (limit : Z)
| ApprovePendingOrder (order_id : string)
| RejectPendingOrder (order_id : string) (reason : option string).

Definition decode_window (p : params) : result (string * string * Z) :=
  symbol ← param "symbol" p; symbol ← as_str symbol;
  timeframe ← param "timeframe" p; timeframe ← as_str timeframe;
  lookback ← as_int (param_or "lookback" (PInt 200) p);
  Ok (symbol, timeframe, lookback).

Definition decode_analysis (f : string → string → bool → Z → call) (p : params) : result call :=
  '(symbol, timeframe, lookback) ← decode_window p;
  mitigated ← as_bool (param_or "include_mitigated" (PBool false) p);
  Ok (f symbol timeframe mitigated lookback).

Definition decode_chart (f : string → string → call) (p : params) : result call :=
  symbol ← param "symbol" p; symbol ← as_str symbol;
  timeframe ← param "timeframe" p; timeframe ← as_str timeframe;
  Ok (f symbol timeframe).

(** [params.get(key)] *)
Definition param_get (p : params) (key : string) : pyval := param_or key PNone p.

Definition candles_call (p : params) : result call :=
  source ← as_str (param_or "source" (PStr "spot") p);
  Ok (GetCandles (param_get p "symbol") (param_get p "timeframe") (param_or "limit" (PInt 300) p) source).

Definition calculate_position_size_call (p : params) : result call :=
  side ← as_str (param_or "side" (PStr "BUY") p);
  Ok (CalculatePositionSize (param_get p "symbol") (param_get p "account_balance") (param_get p "risk_pct") (param_get p "entry")
        (param_get p "stop_loss") side (param_or "fee_rate" (PFloat (fQ 1 1000)) p)).

Definition execute_on_accounts_call (p : params) : result call :=
  Ok (ExecuteOnAccounts (param_get p "account_ids") (param_get p "tags") (param_get p "symbol") (param_or "side" (PStr "BUY") p)
        (param_get p "entry") (param_get p "stop_loss") (param_get p "risk_pct") (param_get p "idempotency_key")
        (param_or "order_type" (PStr "MARKET") p)).

Definition place_order_call (p : params) : result call :=
  Ok (PlaceOrder (param_get p "account_id") (param_get p "symbol") (param_get p "side") (param_or "order_type" (PStr "MARKET") p)
        (param_get p "quantity") (param_get p "price") (param_get p "stop_price") (param_get p "idempotency_key")).

Definition place_oco_order_call (p : params) : result call :=
  Ok (PlaceOcoOrder (param_get p "account_id") (param_get p "symbol") (param_get p "side") (param_get p "quantity") (param_get p "price")
        (param_get p "stop_price") (param_get p "stop_limit_price") (param_get p "idempotency_key")).

Definition add_account_call (p : params) : result call :=
  Ok (AddAccount (param_get p "label") (param_get p "api_key") (param_get p "api_secret") (param_get p "tags") (param_or "market" (PStr "spot") p)).

Definition set_risk_policy_call (p : params) : result call :=
  let flag key := param_or key (PBool false) p in
  Ok (SetRiskPolicy (param_get p "account_id")
        (mk_set_policy (param_get p "max_notional_per_order") (param_get p "max_aggregate_exposure") (param_get p "allowed_symbols")
           (flag "clear_max_notional") (flag "clear_max_exposure") (flag "clear_allowed_symbols"))).

Definition override_risk_policy_call (p : params) : result call :=
  Ok (OverrideRiskPolicy (param_get p "account_id") (param_get p "reason") (param_or "scope" (PStr "next_order") p)
        (param_get p "idempotency_key") (param_get p "expires_at")).

Definition annotate_chart_call (p : params) : result call :=
  symbol ← param "symbol" p;
  timeframe ← param "timeframe" p;
  annotations ← param "annotations" p;
  Ok (AnnotateChart symbol timeframe annotations (param_or "created_by" (PStr "agent") p)).

Definition scan_market_call (p : params) : result call :=
  combine ← as_str (param_or "combine" (PStr "AND") p);
  sort_by ← as_str (param_or "sort_by" (PStr "symbol") p);
  limit ← as_int (param_or "limit" (PInt 50) p);
  cursor ← as_opt as_int (param_get p "cursor");
  timeframe ← as_str (param_or "timeframe" (PStr "1h") p);
  Ok (ScanMarket (param_get p "filters") combine sort_by limit cursor timeframe).

Definition create_alert_call (p : params) : result call :=
  symbol ← param "symbol" p;
  timeframe ← param "timeframe" p;
  condition ← param "condition" p;
  Ok (CreateAlert symbol timeframe condition (param_or "cooldown_seconds" (PInt 300) p) (param_get p "note") (param_get p "order_spec")).

Definition create_composite_alert_call (p : params) : result call :=
  clauses ← param "clauses" p;
  combine ← as_str (param_or "combine" (PStr "AND") p);
  Ok (CreateCompositeAlert clauses combine (param_or "cooldown_seconds" (PInt 300) p) (param_get p "note")).

Definition delete_alert_call (p : params) : result call :=
  alert_id ← param "alert_id" p; Ok (DeleteAlert alert_id).

Definition get_triggered_alerts_call (p : params) : result call :=
  alert_id ← as_opt as_str (param_get p "alert_id");
  limit ← as_int (param_or "limit" (PInt 50) p);
  cursor ← as_opt as_int (param_get p "cursor");
  Ok (GetTriggeredAlerts alert_id limit cursor).

Definition get_pending_orders_call (p : params) : result call :=
  status ← as_opt as_str (param_get p "status");
  limit ← as_int (param_or "limit" (PInt 50) p);
  Ok (GetPendingOrders status limit).

Definition approve_pending_order_call (p : params) : result call :=
  i ← param "order_id" p; i ← as_str i; Ok (ApprovePendingOrder i).

Definition reject_pending_order_call (p : params) : result call :=
  i ← param "order_id" p; i ← as_str i;
  reason ← as_opt as_str (param_get p "reason");
  Ok (RejectPendingOrder i reason).

Ltac unfold_calls :=
  unfold candles_call, calculate_position_size_call, execute_on_accounts_call, place_order_call, place_oco_order_call, add_account_call,
    set_risk_policy_call, override_risk_policy_call, annotate_chart_call, scan_market_call, create_alert_call, create_composite_alert_call,
    delete_alert_call, get_triggered_alerts_call, get_pending_orders_call, approve_pending_order_call, reject_pending_order_call, param_get in *.

Definition decode (h : handler) (p : params) : result call :=
  match h with
  | ping_handler => Ok Ping
  | readiness_handler => Ok GetReadiness
  | list_accounts_handler => Ok ListAccounts
  | get_total_exposure_handler => Ok GetTotalExposure
  | get_unprotected_positions_handler => Ok GetUnprotectedPositions
  | list_alerts_handler => Ok ListAlerts
  | candles_handler => candles_call p
  | ticker_handler => Ok (GetTicker (param_get p "symbol"))
  | get_symbol_info_handler => Ok (GetSymbolInfo (param_get p "symbol"))
  | calculate_position_size_handler => calculate_position_size_call p
  | execute_on_accounts_handler => execute_on_accounts_call p
  | place_order_handler => place_order_call p
  | place_oco_order_handler => place_oco_order_call p
  | close_all_positions_handler => Ok (CloseAllPositions (param_get p "account_id"))
  | get_account_balance_handler => Ok (GetAccountBalance (param_get p "account_id"))
  | get_open_orders_handler => Ok (GetOpenOrders (param_get p "account_id"))
  | get_audit_log_handler => Ok (GetAuditLog (param_or "limit" (PInt 50) p))
  | add_account_handler => add_account_call p
  | remove_account_handler => Ok (RemoveAccount (param_get p "account_id"))
  | enable_real_trading_handler => Ok (EnableRealTrading (param_get p "account_id"))
  | disable_real_trading_handler => Ok (DisableRealTrading (param_get p "account_id"))
  | set_risk_policy_handler => set_risk_policy_call p
  | override_risk_policy_handler => override_risk_policy_call p
  | get_risk_policy_handler => Ok (GetRiskPolicy (param_get p "account_id"))
  | get_market_structure_handler =>
      '(symbol, timeframe, lookback) ← decode_window p; Ok (GetMarketStructure symbol timeframe lookback)
  | get_liquidity_zones_handler => decode_analysis GetLiquidityZones p
  | get_order_blocks_handler => decode_analysis GetOrderBlocks p
  | get_full_analysis_handler => decode_analysis GetFullAnalysis p
  | annotate_chart_handler => annotate_chart_call p
  | get_chart_annotations_handler => decode_chart GetChartAnnotations p
  | clear_annotations_handler => decode_chart ClearAnnotations p
  | scan_market_handler => scan_market_call p
  | create_alert_handler => create_alert_call p
  | create_composite_alert_handler => create_composite_alert_call p
  | delete_alert_handler => delete_alert_call p
  | get_triggered_alerts_handler => get_triggered_alerts_call p
  | get_pending_orders_handler => get_pending_orders_call p
  | approve_pending_order_handler => approve_pending_order_call p
  | reject_pending_order_handler => reject_pending_order_call p
  end.

(** ** Results *)

(** Data of a tool, by tool. *)
Inductive tool_data :=
| D_pong (state : string) (ready : bool)
| D_readiness (readiness : Readiness.t) (futures : option (list (string * string)))
| D_candles (rows : list candle_row)
| D_ticker (ticker : TickerUpdate * freshness_label)
| D_symbol_info (filters : SymbolFilters)
| D_sized (size : sized)
| D_bulk (r : bulk_result)
| D_order (r : exec_result)
| D_close (r : close_summary)
| D_exposure (r : exposure_view)
| D_balance (r : balance_breakdown)
| D_open_orders (r : list open_order_view)
| D_unprotected (r : unprotected_view)
| D_audit (r : bool * list (Z * broken_reason) * list audit_row)
| D_account (r : public_account)
| D_accounts (r : list public_account)
| D_removed (r : string * bool)
| D_switched (r : list bool)
| D_policy (r : policy)
| D_policy_set (r : set_policy_result)
| D_override (r : override_row)
| D_structure (r : Z * string * structure)
| D_zones (r : Z * string * list liquidity_zone * score_result)
| D_blocks (r : Z * string * list zone * list zone)
| D_analysis (r : full_analysis)
| D_annotated (ids : list Z)
| D_annotations (r : list annotation_row)
| D_count (n : nat)
| D_scan (r : scan_result)
| D_alert (r : alert_summary)
| D_alerts (r : list alert_summary)
| D_triggered (r : list triggered_row * option Z)
| D_pending (r : list pending_row)
| D_approved (r : string * bulk_result)
| D_status (r : pending_status).

(** [Meta], without its time and notes. *)
Record meta := mk_meta { m_source : string; m_fresh : bool; m_algo_version : option string }.

Definition fresh_from (source : string) : meta := mk_meta source true None.

(** ** The handlers *)

Section Handlers.
Context {X : Type} `{Ext X, PyEnv, SecretStore X, OrderBroker X, OrderConfig}.
Context `{Rest X, FeedConfig, PipelineConfig, Notifier X}.
(** Whether the daemon runs a pipeline, the budgets of the alarms and of the
    screener, and the readiness of the moment. *)
Context (has_pipeline : bool) (alarm_budget scan_budget : nat) (readiness : Readiness.t).

Definition actor : string := "mcp-agent".

Definition in_db {A} (m : M X A) : FM X A := in_services (in_store m).

Definition _require_pipeline : FM X unit := if has_pipeline then mret tt else raise_ PIPELINE_UNAVAILABLE.
(** Without a pipeline there is no order service, and none can be made. *)
Definition _require_order_service : FM X unit := _require_pipeline.

Definition reply (source : string) {A} (f : A → tool_data) (m : FM X A) : FM X (tool_data * meta) :=
  a ← m; mret (f a, fresh_from source).

(** [isinstance(v, str) and v] *)
Definition nonempty_text (v : pyval) : FM X string :=
  match v with
  | PStr s => if Str.empty s then raise_ INVALID_REQUEST else mret s
  | _ => raise_ INVALID_REQUEST
  end.
(** [isinstance(v, int)]: a bool is one. *)
Definition integer (v : pyval) : FM X Z :=
  match v with
  | PInt z => mret z
  | PBool b => mret (if b then 1 else 0)%Z
  | _ => raise_ INVALID_REQUEST
  end.
(** [isinstance(v, (int, float)) and not isinstance(v, bool)] *)
Definition is_number (v : pyval) : bool := match v with PInt _ | PFloat _ => true | _ => false end.

Definition _require_symbol_filters (symbol : string) : FM X params :=
  _require_pipeline;;
  info ← in_services (u ← gets sv_universe; mret (symbol_info symbol u));
  match info with None => raise_ INVALID_SYMBOL | Some info => mret info end.

Definition ticker_of (symbol : string) : FM X (option (TickerUpdate * freshness_label)) :=
  now ← in_services clock_now;
  c ← gets pl_ticker_cache;
  mret (get_ticker now symbol c).

Definition label_string (f : freshness_label) : string := match f with Fresh => "fresh" | Stale => "stale" end.
Definition is_fresh_label (f : freshness_label) : bool := match f with Fresh => true | Stale => false end.

Definition candles_handler_of (symbol timeframe limit : pyval) (source : string) : FM X (tool_data * meta) :=
  _require_pipeline;;
  symbol ← nonempty_text symbol;
  timeframe ← nonempty_text timeframe;
  limit ← integer limit;
  rows ← in_services (get_candles symbol timeframe limit source);
  fresh ← in_services (klines_freshness_for timeframe rows);
  mret (D_candles rows, mk_meta ("binance-rest-" +:+ source) fresh None).

Definition ticker_handler_of (symbol : pyval) : FM X (tool_data * meta) :=
  _require_pipeline;;
  symbol ← nonempty_text symbol;
  known ← in_services (ensure_contains symbol);
  if negb known then raise_ INVALID_SYMBOL
  else
    ticker ← ticker_of symbol;
    match ticker with
    | None => raise_ STALE_DATA
    | Some t => mret (D_ticker t, mk_meta "binance-ws-miniticker" (is_fresh_label t.2) None)
    end.

Definition symbol_info_handler_of (symbol : pyval) : FM X (tool_data * meta) :=
  _require_pipeline;;
  symbol ← nonempty_text symbol;
  info ← _require_symbol_filters symbol;
  filters ← lift (from_exchange_info str_of_other info);
  u ← in_services (gets sv_universe);
  mret (D_symbol_info filters,
        mk_meta "binance-rest-exchangeinfo" (match un_status u with U_ok => true | _ => false end) None).

Definition position_size_handler_of (symbol account_balance risk_pct entry stop_loss : pyval) (side : string)
    (fee_rate : pyval) : FM X (tool_data * meta) :=
  _require_pipeline;;
  symbol ← nonempty_text symbol;
  if negb (forallb is_number [account_balance; risk_pct; entry; stop_loss]) then raise_ INVALID_REQUEST
  else
    universe ← in_services (u ← gets sv_universe; mret (snapshot u));
    lift (Accuracy.check_symbol_valid (PStr symbol) (Some universe));;
    ticker ← ticker_of symbol;
    lift (Accuracy.check_price_fresh
      (Some (match ticker with Some t => label_string t.2 | None => "stale" end)));;
    info ← _require_symbol_filters symbol;
    balance ← lift (py_float account_balance);
    risk ← lift (py_float risk_pct);
    e ← lift (py_float entry);
    stop ← lift (py_float stop_loss);
    filters ← lift (from_exchange_info str_of_other info);
    fee ← lift (py_float fee_rate);
    size ← lift (calculate_position_size (PStr symbol) (PFloat balance) (PFloat risk) (PFloat e) (PFloat stop)
                   filters (Some side) (PFloat fee));
    mret (D_sized size, fresh_from "daemon-position-sizing").

Definition disable_handler_of (account_id : pyval) : FM X (list bool) :=
  in_db (
    if py_eq account_id (PStr "all") then
      accounts ← list_accounts;
      mapM (λ a, disable_real_trading (PStr (pub_account_id a)) actor) accounts
    else b ← disable_real_trading account_id actor; mret [b]).

(** [_pa_meta]: freshness by the clock of the host. *)
Definition pa_reply {A} (timeframe : string) (as_of : A → Z * string) (f : A → tool_data) (m : PM X A)
    : FM X (tool_data * meta) :=
  a ← in_services m;
  now ← in_services clock_now;
  fresh ← lift (Engine.freshness_for timeframe (Some (as_of a).1) now);
  mret (f a, mk_meta "pa-engine" fresh (Some (as_of a).2)).

(** [alarm_service.on_analysis_updated] behind the engine of a handler. *)
Definition updated (symbol timeframe : string) (r : analysis) : PM X unit :=
  Alarms.on_analysis_updated has_pipeline alarm_budget (engine_analyze has_pipeline alarm_budget alarm_budget)
    symbol timeframe r;; mret tt.

Definition pending_status_of (s : string) : option pending_status :=
  assoc s [("awaiting_approval", P_awaiting_approval); ("approved", P_approved); ("executing", P_executing);
           ("executed", P_executed); ("rejected", P_rejected); ("reconcile_required", P_reconcile_required);
           ("expired", P_expired)].

Definition pending_handler_of (status : option string) (limit : Z) : FM X (list pending_row) :=
  match status with
  | None => in_db (get_pending_orders None limit)
  | Some s =>
      match pending_status_of s with
      | None => raise_ INVALID_REQUEST
      | Some st => in_db (get_pending_orders (Some st) limit)
      end
  end.

Definition execute (c : call) : FM X (tool_data * meta) :=
  match c with
  | Ping => reply "daemon" id (mret (D_pong (Readiness.state readiness) (Readiness.is_ready readiness)))
  | GetReadiness =>
      status ← (if has_pipeline then s ← futures_status; mret (Some s) else mret None);
      mret (D_readiness readiness status, fresh_from "daemon")
  | ListAccounts => reply "sqlite-accounts" D_accounts (in_db list_accounts)
  | AddAccount label key secret tags market =>
      reply "sqlite-accounts" D_account (in_db (add_account label key secret tags market actor))
  | RemoveAccount i => reply "sqlite-accounts" D_removed (in_db (remove_account i actor))
  | EnableRealTrading i => reply "sqlite-accounts" (λ b, D_switched [b]) (in_db (enable_real_trading i actor))
  | DisableRealTrading i => reply "sqlite-accounts" D_switched (disable_handler_of i)
  | SetRiskPolicy i args => reply "sqlite-risk-policy" D_policy_set (in_db (set_risk_policy i args actor))
  | OverrideRiskPolicy i reason scope key expires_at =>
      reply "sqlite-risk-policy" D_override
        (in_db (create_override i reason scope key actor expires_at DEFAULT_OVERRIDE_TTL_SECONDS))
  | GetRiskPolicy i => reply "sqlite-risk-policy" D_policy (in_db (get_policy i))
  | GetAuditLog limit => reply "sqlite-audit" D_audit (in_db (get_audit_log limit))
  | GetCandles symbol timeframe limit source => candles_handler_of symbol timeframe limit source
  | GetTicker symbol => ticker_handler_of symbol
  | GetSymbolInfo symbol => symbol_info_handler_of symbol
  | CalculatePositionSize symbol balance risk entry stop side fee =>
      position_size_handler_of symbol balance risk entry stop side fee
  | ExecuteOnAccounts ids tags symbol side entry stop risk key order_type =>
      reply "sqlite-orders" D_bulk (_require_order_service;;
        in_orders (λ _, execute_on_accounts ids tags symbol side entry stop risk key order_type actor))
  | PlaceOrder i symbol side order_type quantity price stop key =>
      reply "sqlite-orders" D_order (_require_order_service;;
        in_orders (λ _, service_place_order i symbol side order_type quantity price stop key actor))
  | PlaceOcoOrder i symbol side quantity price stop stop_limit key =>
      reply "sqlite-orders" D_order (_require_order_service;;
        in_orders (λ _, place_oco_order i symbol side quantity price stop stop_limit key actor))
  | CloseAllPositions i =>
      reply "sqlite-orders" D_close (_require_order_service;; in_orders (λ _, close_all_positions i actor))
  | GetTotalExposure => reply "sqlite-orders" D_exposure (_require_order_service;; in_orders (λ _, get_total_exposure))
  | GetAccountBalance i => reply "binance" D_balance (_require_order_service;; in_orders (λ _, get_account_balance i))
  | GetOpenOrders i => reply "binance" D_open_orders (_require_order_service;; in_orders (λ _, get_open_orders i))
  | GetUnprotectedPositions =>
      reply "binance" D_unprotected (_require_order_service;; in_orders (λ _, find_unprotected_positions))
  | GetMarketStructure symbol tf n =>
      pa_reply tf fst D_structure (get_market_structure has_pipeline updated symbol tf n)
  | GetLiquidityZones symbol tf m n =>
      pa_reply tf (λ r, r.1.1) D_zones (get_liquidity_zones has_pipeline updated symbol tf m n)
  | GetOrderBlocks symbol tf m n =>
      pa_reply tf (λ r, r.1.1) D_blocks (get_order_blocks has_pipeline updated symbol tf m n)
  | GetFullAnalysis symbol tf m n =>
      pa_reply tf (λ r, (fa_as_of r, fa_algo_version r)) D_analysis (get_full_analysis has_pipeline updated symbol tf m n)
  | AnnotateChart symbol tf annotations by_ =>
      reply "sqlite-annotations" D_annotated (in_db (annotate symbol tf annotations (text_of by_)))
  | GetChartAnnotations symbol tf => reply "sqlite-annotations" D_annotations (in_db (get_annotations symbol tf))
  | ClearAnnotations symbol tf => reply "sqlite-annotations" D_count (in_db (clear symbol tf))
  | ScanMarket filters combine sort_by limit cursor tf =>
      r ← in_services (scan has_pipeline scan_budget (engine_analyze has_pipeline alarm_budget (S alarm_budget))
                         filters combine sort_by limit cursor tf true);
      mret (D_scan r, mk_meta "pa-screener" (sn_fresh r) None)
  | CreateAlert symbol tf condition cooldown note spec =>
      reply "alarm-engine" D_alert (in_services (create_alert symbol tf condition cooldown note spec))
  | CreateCompositeAlert clauses combine cooldown note =>
      reply "alarm-engine" D_alert (in_services (create_composite_alert clauses combine cooldown note))
  | ListAlerts => reply "alarm-engine" D_alerts (in_services list_alerts)
  | DeleteAlert i => reply "alarm-engine" D_count (in_services (delete_alert i))
  | GetTriggeredAlerts i limit cursor =>
      reply "alarm-engine" D_triggered (in_services (get_triggered_alerts i limit cursor))
  | GetPendingOrders status limit => reply "alarm-engine" D_pending (pending_handler_of status limit)
  | ApprovePendingOrder i => reply "alarm-engine" D_approved (in_orders (λ _, approve_handler has_pipeline actor i))
  | RejectPendingOrder i reason => reply "alarm-engine" D_status (in_db (reject_pending_order i reason))
  end.

Definition run_handler (h : handler) (p : params) : FM X (tool_data * meta) :=
  c ← lift (decode h p); execute c.
End Handlers.

(** ** Every call that conforms to its schema is understood *)

(** What a handler reads with [params[key]] although its schema does not require it. *)
Definition unguarded (h : handler) : list string :=
  match h with
  | create_alert_handler => ["symbol"; "timeframe"; "condition"]
  | create_composite_alert_handler => ["clauses"]
  | delete_alert_handler => ["alert_id"]
  | approve_pending_order_handler | reject_pending_order_handler => ["order_id"]
  | _ => []
  end.

(** The fields of an accepted object. *)
Record fields_of (props : list (string * schema)) (req : list string) (p : params) : Prop := {
  fo_typed : ∀ k sub v, assoc k props = Some sub → assoc k p = Some v → conforms sub v;
  fo_required : ∀ k, In k req → ∃ v, assoc k p = Some v }.

Lemma object_fields ty enum lim props req closed items p : ty = Some TObject →
  conforms (Schema ty enum lim props req closed items) (PDict p) → fields_of props req p.
Proof.
  intros -> Hc. inversion Hc as [|? ? ? ? ? ? ? _ _ Ht Hr| | | | |]; subst. split.
  - intros k sub v Hk. apply Ht. by apply assoc_elem.
  - intros k Hk. by apply Hr, list_elem_of_In.
Qed.

Lemma string_value enum lim props req closed items v :
  conforms (Schema (Some TString) enum lim props req closed items) v → ∃ s, v = PStr s.
Proof. intros Hc. inversion Hc; subst; eauto. Qed.
Lemma integer_value enum lim props req closed items v :
  conforms (Schema (Some TInteger) enum lim props req closed items) v → ∃ z, v = PInt z.
Proof. intros Hc. inversion Hc as [| | | |? ? ? ? ? ? ? x _ Hx| | ]; subst; destruct v; eauto; done. Qed.
Lemma boolean_value enum lim props req closed items v :
  conforms (Schema (Some TBoolean) enum lim props req closed items) v → ∃ b, v = PBool b.
Proof. intros Hc. inversion Hc; subst; eauto. Qed.

Definition type_is (ty : schema_type) (s : schema) : Prop := match s with Schema t _ _ _ _ _ _ => t = Some ty end.

Section Fields.
Context (props : list (string * schema)) (req : list string) (p : params) (Hf : fields_of props req p).

Lemma string_field k sub : assoc k props = Some sub → type_is TString sub → ∀ v, assoc k p = Some v → ∃ s, v = PStr s.
Proof.
  intros Hk Ht v Hv. pose proof (fo_typed _ _ _ Hf k sub v Hk Hv) as Hc. destruct sub; simpl in Ht; subst. by eapply string_value.
Qed.
Lemma integer_field k sub : assoc k props = Some sub → type_is TInteger sub → ∀ v, assoc k p = Some v → ∃ z, v = PInt z.
Proof.
  intros Hk Ht v Hv. pose proof (fo_typed _ _ _ Hf k sub v Hk Hv) as Hc. destruct sub; simpl in Ht; subst. by eapply integer_value.
Qed.
Lemma boolean_field k sub : assoc k props = Some sub → type_is TBoolean sub → ∀ v, assoc k p = Some v → ∃ b, v = PBool b.
Proof.
  intros Hk Ht v Hv. pose proof (fo_typed _ _ _ Hf k sub v Hk Hv) as Hc. destruct sub; simpl in Ht; subst. by eapply boolean_value.
Qed.

Lemma str_or_default k sub d : assoc k props = Some sub → type_is TString sub → ∃ s, as_str (param_or k (PStr d) p) = Ok s.
Proof.
  intros Hk Ht. unfold param_or. destruct (assoc k p) as [v|] eqn:E; simpl; [|eauto].
  destruct (string_field k sub Hk Ht v E) as [s ->]. simpl. eauto.
Qed.
Lemma int_or_default k sub d : assoc k props = Some sub → type_is TInteger sub → ∃ z, as_int (param_or k (PInt d) p) = Ok z.
Proof.
  intros Hk Ht. unfold param_or. destruct (assoc k p) as [v|] eqn:E; simpl; [|eauto].
  destruct (integer_field k sub Hk Ht v E) as [s ->]. simpl. eauto.
Qed.
Lemma bool_or_default k sub d : assoc k props = Some sub → type_is TBoolean sub → ∃ b, as_bool (param_or k (PBool d) p) = Ok b.
Proof.
  intros Hk Ht. unfold param_or. destruct (assoc k p) as [v|] eqn:E; simpl; [|eauto].
  destruct (boolean_field k sub Hk Ht v E) as [s ->]. simpl. eauto.
Qed.
Lemma str_or_none k sub : assoc k props = Some sub → type_is TString sub → ∃ o, as_opt as_str (param_or k PNone p) = Ok o.
Proof.
  intros Hk Ht. unfold param_or. destruct (assoc k p) as [v|] eqn:E; simpl; [|eauto].
  destruct (string_field k sub Hk Ht v E) as [s ->]. simpl. eauto.
Qed.
Lemma int_or_none k sub : assoc k props = Some sub → type_is TInteger sub → ∃ o, as_opt as_int (param_or k PNone p) = Ok o.
Proof.
  intros Hk Ht. unfold param_or. destruct (assoc k p) as [v|] eqn:E; simpl; [|eauto].
  destruct (integer_field k sub Hk Ht v E) as [s ->]. simpl. eauto.
Qed.
Lemma required_field k : In k req → ∃ v, param k p = Ok v.
Proof. intros Hk. unfold param. destruct (fo_required _ _ _ Hf k Hk) as [v ->]. eauto. Qed.
Lemma required_str k sub : In k req → assoc k props = Some sub → type_is TString sub → ∃ s, param k p = Ok (PStr s).
Proof.
  intros Hk Hs Ht. unfold param. destruct (fo_required _ _ _ Hf k Hk) as [v Hv]. rewrite Hv.
  destruct (string_field k sub Hs Ht v Hv) as [s ->]. eauto.
Qed.

Lemma window_decoded symbol timeframe lookback :
  In "symbol" req → In "timeframe" req →
  assoc "symbol" props = Some symbol → type_is TString symbol →
  assoc "timeframe" props = Some timeframe → type_is TString timeframe →
  assoc "lookback" props = Some lookback → type_is TInteger lookback →
  ∃ w, decode_window p = Ok w.
Proof.
  intros H1 H2 H3 H4 H5 H6 H7 H8. unfold decode_window. destruct (required_str "symbol" symbol H1 H3 H4) as [s ->].
  destruct (required_str "timeframe" timeframe H2 H5 H6) as [t ->]. simpl.
  destruct (int_or_default "lookback" lookback 200 H7 H8) as [n ->]. simpl. eauto.
Qed.
End Fields.

(** The spec of the tool a handler serves. *)
Definition spec_of (h : handler) : ToolSpec :=
  match h with
  | ping_handler => ping_tool | readiness_handler => get_readiness_tool | candles_handler => get_candles_tool
  | ticker_handler => get_ticker_tool | get_symbol_info_handler => get_symbol_info_tool
  | calculate_position_size_handler => calculate_position_size_tool
  | execute_on_accounts_handler => execute_on_accounts_tool | place_order_handler => place_order_tool
  | place_oco_order_handler => place_oco_order_tool | close_all_positions_handler => close_all_positions_tool
  | get_total_exposure_handler => get_total_exposure_tool | get_account_balance_handler => get_account_balance_tool
  | get_open_orders_handler => get_open_orders_tool
  | get_unprotected_positions_handler => get_unprotected_positions_tool | get_audit_log_handler => get_audit_log_tool
  | add_account_handler => add_account_tool | list_accounts_handler => list_accounts_tool
  | remove_account_handler => remove_account_tool | get_market_structure_handler => get_market_structure_tool
  | get_liquidity_zones_handler => get_liquidity_zones_tool | get_order_blocks_handler => get_order_blocks_tool
  | get_full_analysis_handler => get_full_analysis_tool | annotate_chart_handler => annotate_chart_tool
  | get_chart_annotations_handler => get_chart_annotations_tool | clear_annotations_handler => clear_annotations_tool
  | scan_market_handler => scan_market_tool | create_alert_handler => create_alert_tool
  | create_composite_alert_handler => create_composite_alert_tool | list_alerts_handler => list_alerts_tool
  | delete_alert_handler => delete_alert_tool | get_triggered_alerts_handler => get_triggered_alerts_tool
  | get_pending_orders_handler => get_pending_orders_tool | approve_pending_order_handler => approve_pending_order_tool
  | reject_pending_order_handler => reject_pending_order_tool | enable_real_trading_handler => enable_real_trading_tool
  | disable_real_trading_handler => disable_real_trading_tool | set_risk_policy_handler => set_risk_policy_tool
  | override_risk_policy_handler => override_risk_policy_tool | get_risk_policy_handler => get_risk_policy_tool
  end.

Lemma dispatcher_specs : Forall (λ nh : string * handler, assoc nh.1 registry = Some (spec_of nh.2)) dispatcher.
Proof. vm_compute. repeat constructor. Qed.

Lemma handler_spec tool h spec : assoc tool dispatcher = Some h → assoc tool registry = Some spec → spec = spec_of h.
Proof.
  intros Hh%assoc_elem Hs. pose proof (proj1 (Forall_forall _ _) dispatcher_specs _ Hh) as E. simpl in E. congruence.
Qed.

(** A parameter the schema does not require: given, or missing. *)
Lemma param_cases k p : (∃ v, param k p = Ok v ∧ assoc k p = Some v) ∨ param k p = Err KeyError ∧ assoc k p = None.
Proof. unfold param. destruct (assoc k p); eauto. Qed.

Definition understood (h : handler) (p : params) : Prop :=
  (∃ c, decode h p = Ok c) ∨ (decode h p = Err KeyError ∧ ∃ key, In key (unguarded h) ∧ assoc key p = None).

Ltac known := left; eexists; reflexivity.

Section Decode.
Context (h : handler) (props : list (string * schema)) (req : list string) (p : params) (Hf : fields_of props req p).

Lemma decode_chart_ok f : In "symbol" req → In "timeframe" req →
  assoc "symbol" props = Some a_string → assoc "timeframe" props = Some a_string → ∃ c, decode_chart f p = Ok c.
Proof.
  intros H1 H2 H3 H4. unfold decode_chart. destruct (required_str props req p Hf "symbol" a_string H1 H3 eq_refl) as [s ->].
  destruct (required_str props req p Hf "timeframe" a_string H2 H4 eq_refl) as [t ->]. simpl. eauto.
Qed.

Lemma decode_window_ok lim : In "symbol" req → In "timeframe" req →
  assoc "symbol" props = Some a_string → assoc "timeframe" props = Some a_string →
  assoc "lookback" props = Some (an_integer lim) → ∃ w, decode_window p = Ok w.
Proof. intros H1 H2 H3 H4 H5. by eapply (window_decoded props req p Hf). Qed.

Lemma decode_analysis_ok f lim : In "symbol" req → In "timeframe" req →
  assoc "symbol" props = Some a_string → assoc "timeframe" props = Some a_string →
  assoc "lookback" props = Some (an_integer lim) → assoc "include_mitigated" props = Some a_boolean →
  ∃ c, decode_analysis f p = Ok c.
Proof.
  intros H1 H2 H3 H4 H5 H6. unfold decode_analysis. destruct (decode_window_ok lim H1 H2 H3 H4 H5) as [[[s t] n] ->]. simpl.
  destruct (bool_or_default props req p Hf "include_mitigated" a_boolean false H6 eq_refl) as [b ->]. simpl. eauto.
Qed.

(** [order_id], given as a text or missing. *)
Lemma order_id_cases sub : assoc "order_id" props = Some sub → type_is TString sub →
  (∃ i, param "order_id" p = Ok (PStr i)) ∨ param "order_id" p = Err KeyError ∧ assoc "order_id" p = None.
Proof.
  intros Hs Ht. destruct (param_cases "order_id" p) as [(v & -> & Hv) | ?]; [|by right].
  destruct (string_field props req p Hf _ _ Hs Ht v Hv) as [s ->]. eauto.
Qed.
End Decode.

Lemma decode_understood h p : conforms (input_schema (spec_of h)) (PDict p) → understood h p.
Proof.
  intros Hc. unfold understood.
  assert (∃ props req, fields_of props req p ∧
    match input_schema (spec_of h) with Schema _ _ _ props' req' _ _ => props = props' ∧ req = req' end) as (props & req & Hf & Hs).
  { destruct (input_schema (spec_of h)) as [ty enum lim props req closed items] eqn:E. exists props, req. split; [|done].
    eapply object_fields; [|exact Hc]. by destruct h; vm_compute in E; injection E as <-. }
  destruct h; simpl in Hs; destruct Hs as [-> ->]; try known; simpl decode; unfold_calls;
    pose proof (str_or_default _ _ _ Hf) as Str; pose proof (int_or_default _ _ _ Hf) as Int;
    pose proof (str_or_none _ _ _ Hf) as OStr; pose proof (int_or_none _ _ _ Hf) as OInt.
  - destruct (Str "source" _ "spot" eq_refl eq_refl) as [s ->]. known.
  - destruct (Str "side" _ "BUY" eq_refl eq_refl) as [s ->]. known.
  - edestruct (decode_window_ok _ _ _ Hf) as [[[s t] n] ->]; [by left|by right; left|reflexivity..|]. known.
  - left. eapply (decode_analysis_ok _ _ _ Hf); [by left|by right; left|reflexivity..].
  - left. eapply (decode_analysis_ok _ _ _ Hf); [by left|by right; left|reflexivity..].
  - left. eapply (decode_analysis_ok _ _ _ Hf); [by left|by right; left|reflexivity..].
  - destruct (required_field _ _ _ Hf "symbol") as [s ->]; [by left|]. destruct (required_field _ _ _ Hf "timeframe") as [t ->]; [by right; left|].
    destruct (required_field _ _ _ Hf "annotations") as [a ->]; [by right; right; left|]. known.
  - left. eapply (decode_chart_ok _ _ _ Hf); [by left|by right; left|reflexivity..].
  - left. eapply (decode_chart_ok _ _ _ Hf); [by left|by right; left|reflexivity..].
  - destruct (Str "combine" _ "AND" eq_refl eq_refl) as [c ->]. destruct (Str "sort_by" _ "symbol" eq_refl eq_refl) as [b ->].
    destruct (Int "limit" _ 50%Z eq_refl eq_refl) as [l ->]. destruct (OInt "cursor" _ eq_refl eq_refl) as [o ->].
    destruct (Str "timeframe" _ "1h" eq_refl eq_refl) as [t ->]. known.
  - destruct (param_cases "symbol" p) as [(s & -> & _) | [-> Hn]]; [|right; split; [done|exists "symbol"; simpl; auto]].
    destruct (param_cases "timeframe" p) as [(t & -> & _) | [-> Hn]]; [|right; split; [done|exists "timeframe"; simpl; auto]].
    destruct (param_cases "condition" p) as [(c & -> & _) | [-> Hn]]; [|right; split; [done|exists "condition"; simpl; auto]].
    known.
  - destruct (param_cases "clauses" p) as [(c & -> & _) | [-> Hn]]; [|right; split; [done|exists "clauses"; simpl; auto]].
    destruct (Str "combine" _ "AND" eq_refl eq_refl) as [b Hb]. simpl. rewrite Hb. known.
  - destruct (param_cases "alert_id" p) as [(c & -> & _) | [-> Hn]]; [known|right; split; [done|exists "alert_id"; simpl; auto]].
  - destruct (OStr "alert_id" _ eq_refl eq_refl) as [i ->]. destruct (Int "limit" _ 50%Z eq_refl eq_refl) as [l ->].
    destruct (OInt "cursor" _ eq_refl eq_refl) as [o ->]. known.
  - destruct (OStr "status" _ eq_refl eq_refl) as [i ->]. destruct (Int "limit" _ 50%Z eq_refl eq_refl) as [l ->]. known.
  - destruct (order_id_cases _ _ _ Hf _ eq_refl eq_refl) as [[i ->] | [-> Hn]]; [known|right; split; [done|exists "order_id"; simpl; auto]].
  - destruct (order_id_cases _ _ _ Hf _ eq_refl eq_refl) as [[i ->] | [-> Hn]]; [|right; split; [done|exists "order_id"; simpl; auto]].
    destruct (OStr "reason" _ eq_refl eq_refl) as [o ->]. known.
Qed.

(** C31: every call that conforms to its schema is understood.  For each tool of the
    dispatcher, parameters its schema accepts have the types the handler reads them
    with: the handler gets all its arguments, or a parameter is missing that the
    schema leaves optional and the handler reads as if it were required, which the
    server answers with [INVALID_REQUEST]. *)
Theorem arguments_decoded tool h spec p :
  assoc tool dispatcher = Some h → assoc tool registry = Some spec →
  conforms (input_schema spec) (PDict p) → understood h p.
Proof. intros Hh Hs. rewrite (handler_spec tool h spec Hh Hs). apply decode_understood. Qed.

Definition sample_window : params := [("symbol", PStr "BTCUSDT"); ("timeframe", PStr "1h"); ("lookback", PInt 20)].

Lemma sample_window_conforms : conforms (input_schema get_market_structure_tool) (PDict sample_window).
Proof. apply validate_params_iff. vm_compute. by eexists. Qed.

Lemma arguments_decoded_witness :
  understood get_market_structure_handler sample_window ∧
  decode get_market_structure_handler sample_window = Ok (GetMarketStructure "BTCUSDT" "1h" 20).
Proof.
  split; [|reflexivity].
  apply (arguments_decoded "get_market_structure" get_market_structure_handler get_market_structure_tool);
    [reflexivity|reflexivity|exact sample_window_conforms].
Defined.
