(* ===== verification/HandlersSpec.v ===== *)
(** What a request can change.  The handlers of the daemon are sorted into those that
    order, those that administer accounts and policies, and the rest; only the first
    ever submit to the exchange or cancel there, and the rest leave every table that
    trading rests on as it was. *)

From Stdlib Require Import ZArith String.
From S2P Require Import Prelude PyFloat PyVal Errors Schema Tools Risk Sizing Monad Server.
From S2P Require Import Swings OrderBlocks Liquidity Broker Tables Db Sample Feed Klines History Engine.
From S2P Require Import AuditLog Credentials Accounts RiskPolicy Orders Close Pending OrdersSpec Approve.
From S2P Require Import Alarms AlarmsSpec Screener Annotations Ticker Pipeline Market Handlers.
Local Open Scope string_scope.
Local Open Scope list_scope.

(** ** Relations on the world of the pipeline *)

Definition on_store {X} (R : relation (world X)) : relation (services X) :=
  λ s s', R (sv_world s) (sv_world s').
Definition on_world {X} (R : relation (world X)) : relation (pipeline X) :=
  λ p p', on_store R (pl_services p) (pl_services p').

#[export] Instance on_store_preorder {X} (R : relation (world X)) `{!PreOrder R} : PreOrder (on_store R).
Proof. unfold on_store. split; [intros s; reflexivity|intros x y z ??; by etrans]. Qed.
#[export] Instance on_world_preorder {X} (R : relation (world X)) `{!PreOrder R} : PreOrder (on_world R).
Proof. unfold on_world. split; [intros s; reflexivity|intros x y z ??; by etrans]. Qed.

(** The tables trading rests on stay, and the exchange is left alone: nothing is
    submitted and nothing is cancelled. *)
Definition untraded {X} : relation (world X) := λ w w',
  trading_view (w_db w') = trading_view (w_db w) ∧ same_effects w w'.

#[export] Instance untraded_wrel {X} : WRel (untraded (X:=X)).
Proof.
  unfold untraded. split; simpl.
  - split; [by intros w|]. intros ??? [? H1] [? H2]. split; [congruence|by etrans].
  - done.
  - intros w x c Hc. split; [done|]. exact (wrel_query (R := same_effects) w x c Hc).
  - intros w w' [_ ?]. done.
Qed.

(** Administration: no order record, and the exchange is left alone. *)
Definition administered {X} : relation (world X) := λ w w', OrdersSpec.quiet w w' ∧ same_effects w w'.

#[export] Instance administered_wrel {X} : WRel (administered (X:=X)).
Proof.
  unfold administered. split; simpl.
  - split; [intros w; split; reflexivity|]. intros x y z [? ?] [? ?]. split; by etrans.
  - done.
  - intros w x c Hc. split; [exact (wrel_query (R := OrdersSpec.quiet) w x c Hc)|].
    exact (wrel_query (R := same_effects) w x c Hc).
  - intros w w' [[_ Hs] He]. by split; [split|].
Qed.

#[export] Instance administered_frame {X} : OrderFrame (administered (X:=X)).
Proof. split; [done|]. intros i f w Hf. split; [split; [by apply okeys_update|done]|done]. Qed.

Section Steps.
Context {X : Type} `{Ext X, PyEnv, SecretStore X, OrderBroker X, MarketFeed X, OrderConfig}.
Context `{Rest X, FeedConfig, PipelineConfig, Notifier X}.

Lemma in_store_steps {A} R (m : M X A) : steps R m → steps (on_store R) (in_store m).
Proof. intros Hm s. unfold in_store, on_store. specialize (Hm (sv_world s)). by destruct (m (sv_world s)). Qed.
Lemma in_services_steps {A} R (m : PM X A) : steps (on_store R) m → steps (on_world R) (in_services m).
Proof. intros Hm p. unfold in_services, on_world. specialize (Hm (pl_services p)). by destruct (m (pl_services p)). Qed.
Lemma in_db_steps {A} R (m : M X A) : steps R m → steps (on_world R) (in_db m).
Proof. intros Hm. by apply in_services_steps, in_store_steps. Qed.

Lemma proposing_untraded (s s' : services X) : proposing s s' → on_store untraded s s'.
Proof. intros ([Ht _ _] & Htr & _). split; [exact Ht|]. unfold same_effects. by rewrite Htr. Qed.
Lemma quiet_untraded (s s' : services X) : AlarmsSpec.quiet s s' → on_store untraded s s'.
Proof. intros Hq. by apply proposing_untraded, quiet_proposing. Qed.

Lemma from_proposing {A} (m : PM X A) : steps proposing m → steps (on_store untraded) m.
Proof. apply steps_mono, proposing_untraded. Qed.
Lemma from_quiet {A} (m : PM X A) : steps AlarmsSpec.quiet m → steps (on_store untraded) m.
Proof. apply steps_mono, quiet_untraded. Qed.

Lemma untraded_modify (f : db → db) :
  (∀ d, trading_view (f d) = trading_view d) → steps untraded (db_modify f : M X unit).
Proof. intros Hf w. split; [apply Hf|done]. Qed.
End Steps.

(** ** The services behind the handlers *)

Create HintDb untraded.

Ltac swalk := repeat first
  [ solve [auto with untraded nocore]
  | apply from_quiet; solve [auto with quiet nocore]
  | pwalk1 ].

(** Operations of the order service. *)
Section OrderService.
Context {X : Type} `{Ext X, PyEnv, Rest X, FeedConfig}.

Lemma in_orders_untraded {A} (m : MarketFeed (services X) → M (services X) A) :
  (∀ feed, steps untraded (m feed)) → steps (on_world untraded) (in_orders m).
Proof.
  intros Hm p. unfold in_orders, on_world, on_store. cbv zeta.
  match goal with |- context [m ?feed ?w] => specialize (Hm feed w); destruct (m feed w) as [r w'] end. exact Hm.
Qed.
Lemma in_orders_quiet {A} (m : MarketFeed (services X) → M (services X) A) p :
  steps OrdersSpec.quiet (m (PipelineMarketFeed (pl_ticker_cache p))) →
  on_world OrdersSpec.quiet p (in_orders m p).2.
Proof.
  intros Hm. unfold in_orders, on_world, on_store. cbv zeta.
  match goal with |- context [m ?feed ?w] => specialize (Hm w); destruct (m feed w) as [r w'] end. exact Hm.
Qed.
End OrderService.

Section Services.
Context {X : Type} `{Ext X, PyEnv, SecretStore X, OrderBroker X, MarketFeed X, OrderConfig}.
Context `{Rest X, FeedConfig, PipelineConfig, Notifier X}.
Context (has_pipeline : bool) (alarm_budget scan_budget : nat) (readiness : Readiness.t).

Lemma untraded_read {A} (f : db → A) : steps (on_store (X:=X) untraded) (in_store (db_read f)).
Proof. apply in_store_steps. walk. Qed.
Lemma untraded_state (f : services X → services X) : (∀ s, sv_world (f s) = sv_world s) → steps (on_store untraded) (modify f).
Proof. intros Hf s. unfold modify, on_store. simpl. rewrite Hf. reflexivity. Qed.
Hint Resolve untraded_read : untraded.
Hint Extern 3 (steps (on_store untraded) (modify _)) => (apply untraded_state; reflexivity) : untraded.

(** Analyses evaluate alerts, and those only propose. *)
Lemma untraded_updated symbol tf r : steps (on_store (X:=X) untraded) (updated has_pipeline alarm_budget symbol tf r).
Proof.
  apply from_proposing. unfold updated. apply steps_bind; [tc_solve| |intros; apply steps_ret; tc_solve].
  apply (steps_updated _ _ proposing quiet_proposing proposing_maybe_trigger);
    [intros s; split; [reflexivity|by split]|apply proposing_engine].
Qed.
Lemma untraded_analyze symbol tf n :
  steps (on_store (X:=X) untraded) (Engine.analyze has_pipeline (updated has_pipeline alarm_budget) symbol tf n).
Proof. apply (steps_analyze _ (on_store untraded) quiet_untraded), untraded_updated. Qed.
Hint Resolve untraded_analyze : untraded.

Lemma untraded_merged symbol tf : steps (on_store (X:=X) untraded) (merged_liquidity symbol tf).
Proof. unfold merged_liquidity, _read_history. swalk. Qed.
Lemma untraded_blocks key symbol tf : steps (on_store (X:=X) untraded) (merged_blocks key symbol tf).
Proof. unfold merged_blocks, _read_history. swalk. Qed.
Hint Resolve untraded_merged untraded_blocks : untraded.

Lemma untraded_structure symbol tf n :
  steps (on_store (X:=X) untraded) (get_market_structure has_pipeline (updated has_pipeline alarm_budget) symbol tf n).
Proof. unfold get_market_structure. swalk. Qed.
Lemma untraded_zones symbol tf m n :
  steps (on_store (X:=X) untraded) (get_liquidity_zones has_pipeline (updated has_pipeline alarm_budget) symbol tf m n).
Proof. unfold get_liquidity_zones. swalk. Qed.
Lemma untraded_order_blocks symbol tf m n :
  steps (on_store (X:=X) untraded) (get_order_blocks has_pipeline (updated has_pipeline alarm_budget) symbol tf m n).
Proof. unfold get_order_blocks, blocks_of. swalk. Qed.
Lemma untraded_full symbol tf m n :
  steps (on_store (X:=X) untraded) (get_full_analysis has_pipeline (updated has_pipeline alarm_budget) symbol tf m n).
Proof. unfold get_full_analysis, blocks_of. swalk. Qed.

Lemma untraded_candidates : steps (on_store (X:=X) untraded) (_candidate_symbols has_pipeline).
Proof. intros s. destruct (candidates_same has_pipeline s) as (l & -> & _). reflexivity. Qed.
Lemma untraded_scan_loop root key tf fresh acc symbols :
  steps (on_store (X:=X) untraded)
    (foldM (scan_symbol has_pipeline scan_budget (engine_analyze has_pipeline alarm_budget (S alarm_budget))
              root key tf fresh) acc symbols).
Proof.
  apply from_proposing. eapply steps_mono; [|apply (scan_loop_scanning has_pipeline scan_budget alarm_budget)].
  by intros s s' [Hp _].
Qed.
Hint Resolve untraded_candidates untraded_scan_loop : untraded.
Lemma untraded_scan filters combine sort_by limit cursor tf fresh :
  steps (on_store (X:=X) untraded)
    (scan has_pipeline scan_budget (engine_analyze has_pipeline alarm_budget (S alarm_budget))
       filters combine sort_by limit cursor tf fresh).
Proof. unfold scan, begin_scan. swalk. Qed.

(** Alerts. *)
Lemma untraded_alarm_op op : steps (on_store (X:=X) untraded) (run_alarm_op has_pipeline alarm_budget op).
Proof. apply from_proposing, run_alarm_op_proposes. Qed.
Lemma attempted {A} R (m : PM X A) : steps R (_ ← attempt m; mret tt) → steps R m.
Proof.
  intros Hm s. specialize (Hm s). unfold attempt, mbind, ST_bind in Hm. by destruct (m s).
Qed.
Lemma untraded_create symbol tf condition cooldown note spec :
  steps (on_store (X:=X) untraded) (create_alert symbol tf condition cooldown note spec).
Proof. apply attempted. exact (untraded_alarm_op (AlarmsSpec.CreateAlert symbol tf condition cooldown note spec)). Qed.
Lemma untraded_create_composite clauses combine cooldown note :
  steps (on_store (X:=X) untraded) (create_composite_alert clauses combine cooldown note).
Proof. apply attempted. exact (untraded_alarm_op (AlarmsSpec.CreateComposite clauses combine cooldown note)). Qed.
Lemma untraded_delete i : steps (on_store (X:=X) untraded) (delete_alert i).
Proof. apply attempted. exact (untraded_alarm_op (AlarmsSpec.DeleteAlert i)). Qed.
End Services.
#[export] Hint Resolve untraded_read untraded_structure untraded_zones untraded_order_blocks untraded_full
  untraded_scan untraded_create untraded_create_composite untraded_delete : untraded.

(** Loops with several accumulators. *)
Ltac split_accumulators := repeat match goal with b : (_ * _)%type |- _ => destruct b end.
Ltac uwalk := walk; split_accumulators; walk.

(** The services of the accounts, policies and orders. *)
Section Stores.
Context {X : Type} `{Ext X, PyEnv, SecretStore X, OrderBroker X, MarketFeed X, OrderConfig}.

Lemma untraded_list : steps (untraded (X:=X)) list_accounts.
Proof. unfold list_accounts. uwalk. Qed.
Lemma untraded_get_policy i : steps (untraded (X:=X)) (get_policy i).
Proof. unfold get_policy. uwalk. Qed.
Lemma untraded_audit_log limit : steps (untraded (X:=X)) (get_audit_log limit).
Proof. unfold get_audit_log, verify, tail. uwalk. Qed.
Lemma untraded_holdings i : steps (untraded (X:=X)) (_exposure_by_symbol i).
Proof. unfold _exposure_by_symbol, broker_balance. uwalk. Qed.
Hint Resolve untraded_list untraded_holdings : wsteps.
Lemma untraded_exposure : steps (untraded (X:=X)) get_total_exposure.
Proof. unfold get_total_exposure. uwalk. Qed.
Lemma untraded_balance i : steps (untraded (X:=X)) (get_account_balance i).
Proof. unfold get_account_balance, get_account, _account_balance_breakdown. uwalk. Qed.
Lemma untraded_open_orders i : steps (untraded (X:=X)) (get_open_orders i).
Proof. unfold get_open_orders, get_account. uwalk. Qed.
Lemma untraded_scan_asset account symbols found d : steps (untraded (X:=X)) (scan_asset account symbols found d).
Proof. unfold scan_asset. uwalk. Qed.
Hint Resolve untraded_scan_asset : wsteps.
Lemma untraded_scan_account acc account : steps (untraded (X:=X)) (scan_account acc account).
Proof. unfold scan_account. uwalk. Qed.
Hint Resolve untraded_scan_account : wsteps.
Lemma untraded_unprotected : steps (untraded (X:=X)) find_unprotected_positions.
Proof. unfold find_unprotected_positions. uwalk. Qed.
Lemma untraded_annotate symbol tf annotations by_ : steps (untraded (X:=X)) (annotate symbol tf annotations by_).
Proof. unfold annotate, insert_annotation. uwalk. Qed.
Lemma untraded_annotations symbol tf : steps (untraded (X:=X)) (get_annotations symbol tf).
Proof. unfold get_annotations. uwalk. Qed.
Lemma untraded_clear symbol tf : steps (untraded (X:=X)) (clear symbol tf).
Proof. unfold clear. uwalk. Qed.
Lemma untraded_get_pending st limit : steps (untraded (X:=X)) (get_pending_orders st limit).
Proof. unfold get_pending_orders. uwalk. Qed.
Lemma untraded_reject i reason : steps (untraded (X:=X)) (reject_pending_order i reason).
Proof. unfold reject_pending_order, transition, cas, not_matched. uwalk. Qed.
Lemma approve_untraded actor i : steps (untraded (X:=X)) (approve_handler false actor i).
Proof. unfold approve_handler, _pending_order, fill_entry, _current_market_price, _fill_pending_entry. cbn [negb]. uwalk. Qed.
End Stores.
#[export] Hint Resolve untraded_list untraded_get_policy untraded_audit_log untraded_exposure untraded_balance
  untraded_open_orders untraded_unprotected untraded_annotate untraded_annotations untraded_clear
  untraded_get_pending untraded_reject : wsteps.

Lemma orders_quiet_modify {X} (f : db → db) : (∀ d, OrdersSpec.okeys (f d) = OrdersSpec.okeys d) →
  steps OrdersSpec.quiet (db_modify f : M X unit).
Proof. intros Hf w. split; [apply Hf|done]. Qed.
Lemma administered_modify {X} (f : db → db) : (∀ d, OrdersSpec.okeys (f d) = OrdersSpec.okeys d) →
  steps administered (db_modify f : M X unit).
Proof. intros Hf w. split; [split; [apply Hf|done]|done]. Qed.

Ltac oqwalk := repeat first [ progress uwalk | apply (frame_audit OrdersSpec.quiet) | by apply orders_quiet_modify ].
Ltac adwalk := repeat first [ progress uwalk | apply (frame_audit administered) | by apply administered_modify ].


(** Administration makes no order. *)
Section Administration.
Context {X : Type} `{Ext X, PyEnv, SecretStore X}.

Lemma calm_add_account label key secret tags market actor :
  steps (administered (X:=X)) (add_account label key secret tags market actor).
Proof. unfold add_account, encrypt_pair, insert_account, delete_both. adwalk. Qed.
Lemma calm_remove_account i actor : steps (administered (X:=X)) (remove_account i actor).
Proof. unfold remove_account, _remove, delete_both. adwalk. Qed.
Lemma calm_enable i actor : steps (administered (X:=X)) (enable_real_trading i actor).
Proof. unfold enable_real_trading. adwalk. Qed.
Lemma calm_disable i actor : steps (administered (X:=X)) (disable_real_trading i actor).
Proof. unfold disable_real_trading. adwalk. Qed.
Lemma calm_upsert a b c d e f g h : steps (administered (X:=X)) (upsert_policy a b c d e f g h).
Proof. unfold upsert_policy. adwalk. Qed.
Hint Resolve calm_upsert : wsteps.
Lemma calm_set_policy i args actor : steps (administered (X:=X)) (set_risk_policy i args actor).
Proof. unfold set_risk_policy, _reconcile_stale_overrides, close_overrides. adwalk. Qed.
Lemma calm_override a b c d e f g : steps (administered (X:=X)) (create_override a b c d e f g).
Proof. unfold create_override, insert_override. adwalk. Qed.
Lemma calm_disable_all i : steps (on_world (X:=X) administered) (disable_handler_of i).
Proof. apply in_db_steps. unfold disable_handler_of, list_accounts. walk; apply calm_disable. Qed.
End Administration.
#[export] Hint Resolve calm_add_account calm_remove_account calm_enable calm_disable_all calm_set_policy
  calm_override : wsteps.

(** ** The handlers, sorted *)

Definition orders (c : call) : bool :=
  match c with
  | ExecuteOnAccounts _ _ _ _ _ _ _ _ _ | PlaceOrder _ _ _ _ _ _ _ _ | PlaceOcoOrder _ _ _ _ _ _ _ _
  | CloseAllPositions _ | ApprovePendingOrder _ => true
  | _ => false
  end.
Definition administers (c : call) : bool :=
  match c with
  | AddAccount _ _ _ _ _ | RemoveAccount _ | EnableRealTrading _ | DisableRealTrading _ | SetRiskPolicy _ _
  | OverrideRiskPolicy _ _ _ _ _ => true
  | _ => false
  end.

Definition ordering_tools : list string :=
  ["execute_on_accounts"; "place_order"; "place_oco_order"; "close_all_positions"; "approve_pending_order"].
Definition administration_tools : list string :=
  ["add_account"; "remove_account"; "enable_real_trading"; "disable_real_trading"; "set_risk_policy";
   "override_risk_policy"].

Section Effects.
Context {X : Type} `{Ext X, PyEnv, SecretStore X, OrderBroker X, OrderConfig}.
Context `{Rest X, FeedConfig, PipelineConfig, Notifier X}.
Context (has_pipeline : bool) (alarm_budget scan_budget : nat) (readiness : Readiness.t).

Lemma reply_steps R `{!PreOrder R} {A} source (f : A → tool_data) (m : FM X A) : steps R m → steps R (reply source f m).
Proof. intros Hm. unfold reply. apply steps_bind; [tc_solve|done|]. intros. apply steps_ret. tc_solve. Qed.

Lemma require_pipeline_steps R `{!PreOrder R} : steps R (_require_pipeline (X:=X) has_pipeline).
Proof. unfold _require_pipeline. pwalk. Qed.

Lemma required_steps R `{!PreOrder R} {A} (m : FM X A) :
  steps R m → steps R (_require_order_service has_pipeline;; m).
Proof. intros Hm. unfold _require_order_service. apply steps_bind; [tc_solve|apply require_pipeline_steps; tc_solve|by intros]. Qed.

Lemma pa_reply_steps {A} tf as_of (f : A → tool_data) (m : PM X A) :
  steps (on_store untraded) m → steps (on_world untraded) (pa_reply tf as_of f m).
Proof.
  intros Hm. unfold pa_reply. apply steps_bind; [tc_solve|by apply in_services_steps|intros a].
  apply steps_bind; [tc_solve|apply in_services_steps; swalk|intros now]. pwalk.
Qed.

Lemma untraded_contains symbol : steps (on_store (X:=X) untraded) (ensure_contains symbol).
Proof. apply from_quiet, quiet_ensure_contains. Qed.
Lemma untraded_freshness tf rows : steps (on_store (X:=X) untraded) (klines_freshness_for tf rows).
Proof. unfold klines_freshness_for. swalk. Qed.
Hint Resolve untraded_contains untraded_freshness : untraded.

Lemma world_modify {R : relation (world X)} `{!PreOrder R} (f : pipeline X → pipeline X) :
  (∀ p, pl_services (f p) = pl_services p) → steps (on_world R) (modify f).
Proof. intros Hf p. unfold on_world, on_store. simpl. rewrite Hf. reflexivity. Qed.

Ltac fwalk1 :=
  match goal with
  | |- steps _ (in_services _) => apply in_services_steps; solve [swalk]
  | |- steps _ (in_db _) => apply in_db_steps; solve [walk]
  | |- steps _ (reply _ _ _) => apply reply_steps; [tc_solve|]
  | |- steps _ (_require_pipeline _) => apply require_pipeline_steps; tc_solve
  | |- steps _ (modify _) => apply world_modify; reflexivity
  | _ => pwalk1
  end.
Ltac fwalk := repeat fwalk1.

(** A call that neither orders nor administers. *)
Lemma execute_untraded c : orders c = false → administers c = false →
  steps (on_world untraded) (execute has_pipeline alarm_budget scan_budget readiness c).
Proof.
  intros Ho Ha. destruct c; try discriminate; unfold execute;
    try (apply pa_reply_steps; solve [auto with untraded nocore]);
    try (apply reply_steps; [tc_solve|apply required_steps; [tc_solve|apply in_orders_untraded; intros feed; solve [walk]]]);
    unfold candles_handler_of, ticker_handler_of, symbol_info_handler_of, position_size_handler_of,
      pending_handler_of, _require_symbol_filters, ticker_of, nonempty_text, integer,
      futures_status, set_last_status, set_futures; fwalk.
Qed.

(** Administration makes no order and leaves the exchange alone. *)
Lemma execute_administration c : administers c = true →
  steps (on_world administered) (execute has_pipeline alarm_budget scan_budget readiness c).
Proof.
  intros Ha. destruct c; try discriminate; unfold execute; (apply reply_steps; [tc_solve|]);
    first [solve [auto with wsteps] | apply in_db_steps; solve [auto with wsteps]].
Qed.

(** Without a pipeline nothing can be ordered. *)
Lemma execute_without_pipeline c : has_pipeline = false → orders c = true →
  steps (on_world untraded) (execute has_pipeline alarm_budget scan_budget readiness c).
Proof.
  intros -> Ho. destruct c; try discriminate; unfold execute; (apply reply_steps; [tc_solve|]);
    try (intros p; reflexivity). apply in_orders_untraded. intros feed. apply approve_untraded.
Qed.

(** Without a fresh ticker nothing is ordered. *)
Lemma reply_at (R : relation (pipeline X)) `{!PreOrder R} {A} source (f : A → tool_data) (m : FM X A) p :
  R p (m p).2 → R p (reply source f m p).2.
Proof. unfold reply, mbind, ST_bind. by destruct (m p) as [[a|e] p']. Qed.
Lemma required_at (R : relation (pipeline X)) `{!PreOrder R} {A} (m : FM X A) p :
  R p (m p).2 → R p ((_require_order_service has_pipeline;; m) p).2.
Proof.
  intros Hm. unfold _require_order_service, _require_pipeline. destruct has_pipeline; [exact Hm|]. simpl. reflexivity.
Qed.

Lemma execute_stale c p : stale_stream (pl_ticker_cache p) → orders c = true →
  on_world OrdersSpec.quiet p (execute has_pipeline alarm_budget scan_budget readiness c p).2.
Proof.
  intros Hs Ho. pose proof (stale_no_price _ Hs) as Hnone.
  destruct c; try discriminate; unfold execute; (apply reply_at; [tc_solve|]).
  - apply required_at; [tc_solve|]. apply in_orders_quiet, (quiet_execute Hnone).
  - apply required_at; [tc_solve|]. apply in_orders_quiet, (quiet_place_order Hnone).
  - apply required_at; [tc_solve|]. apply in_orders_quiet, (quiet_place_oco Hnone).
  - apply required_at; [tc_solve|]. apply in_orders_quiet, (quiet_close_all Hnone).
  - apply in_orders_quiet, (quiet_approve Hnone).
Qed.

Lemma execute_quiet c p : stale_stream (pl_ticker_cache p) →
  on_world OrdersSpec.quiet p (execute has_pipeline alarm_budget scan_budget readiness c p).2.
Proof.
  intros Hs. destruct (orders c) eqn:Eo; [exact (execute_stale c p Hs Eo)|].
  destruct (administers c) eqn:Ea; [exact (proj1 (execute_administration c Ea p))|].
  destruct (execute_untraded c Eo Ea p) as [Ht Hsub]. split; [|by apply effects_submissions].
  unfold trading_view in Ht. unfold okeys. congruence.
Qed.

Lemma run_quiet h params p : stale_stream (pl_ticker_cache p) →
  on_world OrdersSpec.quiet p (run_handler has_pipeline alarm_budget scan_budget readiness h params p).2.
Proof.
  intros Hs. unfold run_handler, lift. destruct (decode h params) as [c|e].
  - exact (execute_quiet c p Hs).
  - unfold on_world. simpl. reflexivity.
Qed.
End Effects.

(** What the tool of a handler is sorted as. *)
Definition ordering_handler (h : handler) : bool := str_in (name (spec_of h)) ordering_tools.
Definition administration_handler (h : handler) : bool := str_in (name (spec_of h)) administration_tools.

Lemma decode_sorted h p c : decode h p = Ok c →
  orders c = ordering_handler h ∧ administers c = administration_handler h.
Proof.
  assert (∀ (f : string → string → bool → Z → call) q c',
    decode_analysis f q = Ok c' → ∃ a b d e, c' = f a b d e) as Ha.
  { intros f q c'. unfold decode_analysis. intros Hd. inv_res. destruct x as [[? ?] ?]. inv_res. eauto. }
  assert (∀ (f : string → string → call) q c', decode_chart f q = Ok c' → ∃ a b, c' = f a b) as Hc.
  { intros f q c'. unfold decode_chart. intros Hd. inv_res. eauto. }
  unfold decode. intros Hd. destruct h; unfold_calls.
  all: first [ apply Ha in Hd as (? & ? & ? & ? & ->) | apply Hc in Hd as (? & ? & ->) | idtac ].
  all: inv_res; try by split.
  destruct x as [[? ?] ?]. inv_res. by split.
Qed.

(** The tools of the dispatcher, and the names of their handlers' specs. *)
Lemma dispatcher_names : forallb (λ nh : string * handler,
  String.eqb (name (spec_of nh.2)) nh.1 &&
  negb (allowed_before_ready (spec_of nh.2) && (ordering_handler nh.2 || administration_handler nh.2))) dispatcher = true.
Proof. vm_compute. reflexivity. Qed.

Lemma dispatched tool h : assoc tool dispatcher = Some h →
  name (spec_of h) = tool ∧
  (allowed_before_ready (spec_of h) = true → ordering_handler h || administration_handler h = false).
Proof.
  intros Hh%assoc_elem%list_elem_of_In. pose proof (proj1 (forallb_forall _ _) dispatcher_names _ Hh) as Hd.
  simpl in Hd. apply andb_true_iff in Hd as [Hn Hg]. split; [by apply String.eqb_eq|].
  intros Hb. rewrite Hb in Hg. by apply negb_true_iff in Hg.
Qed.

Section Requests.
Context {X : Type} `{Ext X, PyEnv, SecretStore X, OrderBroker X, OrderConfig}.
Context `{Rest X, FeedConfig, PipelineConfig, Notifier X}.
Context (has_pipeline : bool) (alarm_budget scan_budget : nat) (readiness : Readiness.t).
Let run := run_handler has_pipeline alarm_budget scan_budget readiness.

(** What a handler does, by the name of its tool. *)
Lemma handler_effects h p (s : pipeline X) :
  let w := sv_world (pl_services s) in
  let w' := sv_world (pl_services (run h p s).2) in
  untraded w w' ∨
  (ordering_handler h = true ∧ has_pipeline = true) ∨
  (administration_handler h = true ∧ administered w w').
Proof.
  simpl. subst run. unfold run_handler. unfold lift. unfold mbind, ST_bind.
  destruct (decode h p) as [c|e] eqn:Ed; [|left; simpl; reflexivity].
  destruct (decode_sorted h p c Ed) as [<- <-].
  destruct (orders c) eqn:Eo.
  { destruct has_pipeline eqn:Ep; [by right; left|].
    left. rewrite <-Ep. by apply (execute_without_pipeline has_pipeline alarm_budget scan_budget readiness c Ep Eo). }
  destruct (administers c) eqn:Ea.
  - right. right. split; [done|]. by apply (execute_administration has_pipeline alarm_budget scan_budget readiness c Ea).
  - left. by apply (execute_untraded has_pipeline alarm_budget scan_budget readiness c Eo Ea).
Qed.
End Requests.

(** What one request comes to. *)
Lemma request_effects {X}
    `{Ext X, PyEnv, SecretStore X, OrderBroker X, OrderConfig, Rest X, FeedConfig, PipelineConfig, Notifier X}
    json_loads token has_pipeline alarm_budget scan_budget readiness req (s : pipeline X) :
  let s' := (serve_rpc json_loads (run_handler has_pipeline alarm_budget scan_budget readiness) token
               readiness req s).2 in
  let w := sv_world (pl_services s) in
  let w' := sv_world (pl_services s') in
  untraded w w' ∨
  ∃ tool params spec,
    authorized token (authorization req) ∧ Readiness.is_ready readiness = true ∧
    admit_request json_loads true (raw req) = Ok (tool, params) ∧
    assoc tool registry = Some spec ∧ conforms (input_schema spec) (PDict params) ∧
    (tool ∈ ordering_tools ∧ has_pipeline = true ∨ tool ∈ administration_tools ∧ administered w w').
Proof.
  simpl. pose proof (serve_rpc_cases json_loads (run_handler has_pipeline alarm_budget scan_budget readiness)
    token readiness req s) as Hcases.
  destruct (serve_rpc _ _ _ _ _ s) as [r s']. simpl.
  destruct Hcases as [(c & status & _ & ->)|[[_ ->]|(tool & params & spec & Hau & Hadm & Hspec & Hready & Hconf & -> & _)]];
    [left; reflexivity..|].
  unfold dispatch. destruct (assoc tool dispatcher) as [h|] eqn:Eh; [|left; simpl; reflexivity].
  destruct (dispatched tool h Eh) as [Hname Hgate]. rewrite (handler_spec tool h spec Eh Hspec) in Hready.
  destruct (handler_effects has_pipeline alarm_budget scan_budget readiness h params s) as [Hu|Hother]; [by left|].
  assert (Readiness.is_ready readiness = true) as Hr.
  { destruct Hready as [|Hb]; [done|]. specialize (Hgate Hb). apply orb_false_iff in Hgate as [Ho Ha].
    destruct Hother as [[? _]|[? _]]; congruence. }
  right. exists tool, params, spec. rewrite Hr in Hadm.
  refine (conj Hau (conj Hr (conj Hadm (conj Hspec (conj Hconf _))))).
  unfold ordering_handler, administration_handler in Hother. rewrite Hname in Hother.
  destruct Hother as [[Ht Hp]|[Ht Hs]]; [left|right]; apply str_in_spec in Ht; (split; [exact Ht|assumption]).
Qed.

(** C3: what a request can change.  Whatever is sent to the daemon, and whatever the
    exchange, the clock and the services answer, one of three things holds.  The
    tables trading rests on (accounts, policies, overrides, orders, the audit log, the
    reconciliations) are as they were, and the exchange was left alone: nothing was
    submitted and nothing cancelled.  Or an order was
    asked for: the request was authorized, the daemon was ready and has a pipeline,
    the tool is one of the five that order, and its parameters conform to its schema.
    Or, under the same gates, an administration tool ran, which left the exchange alone
    too and made no order record. *)
Theorem requests_trade_only_by_order {X}
    `{Ext X, PyEnv, SecretStore X, OrderBroker X, OrderConfig, Rest X, FeedConfig, PipelineConfig, Notifier X}
    json_loads token has_pipeline alarm_budget scan_budget readiness req (s : pipeline X) :
  let s' := (serve_rpc json_loads (run_handler has_pipeline alarm_budget scan_budget readiness) token
               readiness req s).2 in
  let w := sv_world (pl_services s) in
  let w' := sv_world (pl_services s') in
  untraded w w' ∨
  ∃ tool params spec,
    authorized token (authorization req) ∧ Readiness.is_ready readiness = true ∧
    admit_request json_loads true (raw req) = Ok (tool, params) ∧
    assoc tool registry = Some spec ∧ conforms (input_schema spec) (PDict params) ∧
    (tool ∈ ordering_tools ∧ has_pipeline = true ∨ tool ∈ administration_tools ∧ administered w w').
Proof. apply request_effects. Qed.

(** C4: no order on a stale price.  While the ticker stream is disconnected, or silent by
    any reading of the clock for longer than prices stay fresh, no request whatsoever
    makes an order record or submits an order: not a placed, sized or OCO order, not an
    approval, not the sales of a closed account. *)
Theorem no_orders_on_stale_prices {X}
    `{Ext X, PyEnv, SecretStore X, OrderBroker X, OrderConfig, Rest X, FeedConfig, PipelineConfig, Notifier X}
    json_loads token has_pipeline alarm_budget scan_budget readiness req (p : pipeline X) :
  stale_stream (pl_ticker_cache p) →
  let p' := (serve_rpc json_loads (run_handler has_pipeline alarm_budget scan_budget readiness) token
               readiness req p).2 in
  OrdersSpec.quiet (sv_world (pl_services p)) (sv_world (pl_services p')).
Proof.
  intros Hstale. simpl. pose proof (serve_rpc_cases json_loads (run_handler has_pipeline alarm_budget scan_budget readiness)
    token readiness req p) as Hcases.
  destruct (serve_rpc _ _ _ _ _ p) as [r p']. simpl.
  destruct Hcases as [(c & status & _ & ->)|[[_ ->]|(tool & params & spec & _ & _ & _ & _ & _ & -> & _)]]; [reflexivity..|].
  unfold dispatch. destruct (assoc tool dispatcher) as [h|]; [|simpl; reflexivity].
  exact (run_quiet has_pipeline alarm_budget scan_budget readiness h params p Hstale).
Qed.

(** ** A sample daemon that is asked to buy *)

#[local] Existing Instances outside_ext sample_env plain_store filling_broker fee_config
  futures_rest pipeline_feed pipeline_config no_notifier.

Definition limit (kind : string) (fields : list (string * pyval)) : pyval := PDict (("filterType", PStr kind) :: fields).
Definition btc_info : list (string * pyval) :=
  [("symbol", PStr "BTCUSDT"); ("baseAsset", PStr "BTC"); ("quoteAsset", PStr "USDT"); ("status", PStr "TRADING");
   ("filters", PList [
     limit "LOT_SIZE" [("stepSize", PInt 1); ("minQty", PInt 1); ("maxQty", PInt 1000)];
     limit "NOTIONAL" [("minNotional", PInt 10)];
     limit "PRICE_FILTER" [("tickSize", PInt 1); ("minPrice", PInt 1); ("maxPrice", PInt 100000)]])].

(** A pipeline with a real account, whose stream last told a price of 100. *)
Definition trading_pipeline (h : health) : pipeline outside :=
  mk_pipeline
    (mk_services real_world new_clock (mk_universe ["BTCUSDT"] [("BTCUSDT", btc_info)] U_unknown 0) new_klines new_pa)
    new_poller
    (mk_cache [("BTCUSDT", mk_ticker "BTCUSDT" (fZ 100) (fZ 100) (fZ 100) (fZ 100) (fZ 1) (fZ 100) fzero fzero)] h)
    new_liquidation_ws.

Definition buy_request : request := mk_request (Some "Bearer token") "buy".
Definition buy_body (raw : string) : option pyval :=
  if String.eqb raw "buy" then Some (PDict [("tool", PStr "place_order"); ("params", PDict
    [("account_id", PStr "acc"); ("symbol", PStr "BTCUSDT"); ("side", PStr "BUY"); ("order_type", PStr "MARKET");
     ("quantity", PInt 2); ("idempotency_key", PStr "k")])])
  else None.
Definition ready : Readiness.t := Readiness.run ["migrating"; "warming_up"; "ready"] Readiness.init.
Definition asked_to_buy (h : health) :=
  serve_rpc buy_body (run_handler true 1 1 ready) "token" ready buy_request (trading_pipeline h).

Definition buy_outcome (h : health) :=
  let '(r, p) := asked_to_buy h in
  let w := sv_world (pl_services p) in
  (match r with Ok (ErrorResponse c _) => Some c | _ => None end, map o_status (Db.orders (w_db w)), length (submissions (w_trace w))).

(** The clock says 1000: a price of ten seconds ago is bought at; after a silence of
    a hundred, or without a connection, nothing is sent. *)
Example bought_only_fresh :
  buy_outcome (mk_health true 990) = (None, [FILLED], 1%nat) ∧
  buy_outcome (mk_health true 900) = (Some STALE_DATA, [], 0%nat) ∧
  buy_outcome (mk_health false 990) = (Some STALE_DATA, [], 0%nat).
Proof. vm_compute. done. Qed.

Lemma no_orders_on_stale_prices_witness :
  stale_stream (X:=outside) (pl_ticker_cache (trading_pipeline (mk_health false 990))) ∧
  OrdersSpec.quiet (sv_world (pl_services (trading_pipeline (mk_health false 990))))
    (sv_world (pl_services (asked_to_buy (mk_health false 990)).2)).
Proof.
  assert (stale_stream (X:=outside) (pl_ticker_cache (trading_pipeline (mk_health false 990)))) as Hs
    by (apply disconnected_stale; reflexivity).
  split; [exact Hs|].
  exact (no_orders_on_stale_prices buy_body "token" true 1 1 ready buy_request (trading_pipeline (mk_health false 990)) Hs).
Defined.
