(* ===== verification/Startup.v ===== *)
(** [daemon/main.py]: [DaemonRunner], from taking the lock to leaving it.

    A start takes the lock, migrates the file, recovers what a crash left behind,
    starts the data pipeline and the server, and only then is ready; a start that
    fails stops what it had started; one whose writer cannot open the database waits in
    its migrations for ever.  The steps of [acquire] are those of file [Lock],
    here without a rival between them.  Tasks, the HTTP server and the sessions are
    parts that run or do not; stopping one may raise, which is logged. *)

From Stdlib Require Import ZArith String.
From S2P Require Import Prelude PyFloat PyVal Errors Schema Tools Risk Sizing Monad Server.
From S2P Require Import Swings Broker Tables Db Sample Feed Klines History Engine AuditLog EmergencyLog Credentials.
From S2P Require Import Accounts RiskPolicy Orders Close Pending OrdersSpec Approve Alarms AlarmsSpec Screener.
From S2P Require Import Migrations Lock Ticker Pipeline Market Worker Handlers HandlersSpec.
Local Open Scope string_scope.
Local Open Scope list_scope.

(** ** The runner *)

Inductive part := Store | Data | PaWorker | BrokerSession | Site.
#[export] Instance part_eq_dec : EqDecision part.
Proof. solve_decision. Defined.

(** Whether an operation comes to its end, or waits for ever where it is. *)
Inductive progress := Returns | Hangs.

Inductive event := LockTaken | Up (p : part) | Down (p : part) | LockLeft.

Record runner (X : Type) := mk_runner {
  rn_lock : daemon;                (* [lock_mgr], [lock_info] *)
  rn_shared : shared;
  rn_readiness : Readiness.t;
  rn_running : list part;
  rn_disk : disk;                  (* the schema of the database file *)
  rn_log : list log_line;          (* [emergency_stop.log] *)
  rn_pipeline : pipeline X;        (* the services and their world *)
  rn_stopped : bool;               (* [_shutdown_complete] *)
  rn_events : list event }.
Arguments mk_runner {X}.
Arguments rn_lock {X}.
Arguments rn_shared {X}.
Arguments rn_readiness {X}.
Arguments rn_running {X}.
Arguments rn_disk {X}.
Arguments rn_log {X}.
Arguments rn_pipeline {X}.
Arguments rn_stopped {X}.
Arguments rn_events {X}.

Abbreviation RM X := (ST (runner X)).

Definition runner_world {X} (r : runner X) : world X := sv_world (pl_services (rn_pipeline r)).

Definition set_lock_state {X} (ds : daemon * shared) (r : runner X) : runner X :=
  mk_runner ds.1 ds.2 (rn_readiness r) (rn_running r) (rn_disk r) (rn_log r) (rn_pipeline r) (rn_stopped r) (rn_events r).
Definition set_readiness {X} (rd : Readiness.t) (r : runner X) : runner X :=
  mk_runner (rn_lock r) (rn_shared r) rd (rn_running r) (rn_disk r) (rn_log r) (rn_pipeline r) (rn_stopped r) (rn_events r).
Definition set_running {X} (l : list part) (e : event) (r : runner X) : runner X :=
  mk_runner (rn_lock r) (rn_shared r) (rn_readiness r) l (rn_disk r) (rn_log r) (rn_pipeline r) (rn_stopped r)
    (rn_events r ++ [e]).
Definition set_disk {X} (d : disk) (r : runner X) : runner X :=
  mk_runner (rn_lock r) (rn_shared r) (rn_readiness r) (rn_running r) d (rn_log r) (rn_pipeline r) (rn_stopped r) (rn_events r).
Definition set_pipeline {X} (p : pipeline X) (r : runner X) : runner X :=
  mk_runner (rn_lock r) (rn_shared r) (rn_readiness r) (rn_running r) (rn_disk r) (rn_log r) p (rn_stopped r) (rn_events r).
Definition set_stopped {X} (r : runner X) : runner X :=
  mk_runner (rn_lock r) (rn_shared r) (rn_readiness r) (rn_running r) (rn_disk r) (rn_log r) (rn_pipeline r) true (rn_events r).

Definition in_pipeline {X A} (m : FM X A) : RM X A := λ r,
  let '(a, p) := m (rn_pipeline r) in (a, set_pipeline p r).
Definition on_disk {X A} (m : ST disk A) : RM X A := λ r,
  let '(a, d) := m (rn_disk r) in (a, set_disk d r).

(** [Database.stop]: whatever comes after it finds the database closed. *)
Definition close_world {X} (w : world X) : world X := mk_world (w_db w) true (w_ext w) (w_trace w).
Definition close_store {X} (p : pipeline X) : pipeline X :=
  set_services (set_world (close_world (sv_world (pl_services p))) (pl_services p)) p.

Section Runner.
Context {X : Type} `{Ext X, PyEnv, SecretStore X, OrderBroker X, OrderConfig}.
Context `{Rest X, FeedConfig, PipelineConfig, Notifier X}.
(** The configuration; [int(time.time())] when a version is recorded; whether the
    writer can open the database file; whether the
    port can be bound; and whether stopping a part goes without an exception. *)
Context (pipeline_enabled : bool) (time : Z → Z) (db_opens site_binds : bool) (stops : part → bool).
Context (str_other : pyval → string).

Definition start_part (p : part) : RM X unit := modify (λ r : runner X, set_running (rn_running r ++ [p]) (Up p) r).

(** [readiness.set_state] and [lock_mgr.update_state]; [ReadinessError] is an
    exception of its own. *)
Definition announce (state : string) : RM X unit := λ r,
  match Readiness.set_state state (rn_readiness r) with
  | Err _ => (Err RuntimeError, r)
  | Ok rd => (Ok tt, set_lock_state (update_state state (rn_lock r) (rn_shared r)) (set_readiness rd r))
  end.

(** [lock_mgr.acquire()], which raises [LockHeldError]. *)
Definition take_lock : RM X unit := λ r,
  let '(d, sh) := turns str_other 10 (rn_lock r) (rn_shared r) in
  let r := set_lock_state (d, sh) r in
  if is_held d then (Ok tt, set_running (rn_running r) LockTaken r) else (Err RuntimeError, r).

(** A writer that cannot open the file ends its task and answers no write (file
    [Writer], [failed_connect_hangs]): the first write of the migrations is awaited for ever. *)
Definition _run_migrations : RM X progress :=
  start_part Store;;
  announce "migrating";;
  if negb db_opens then mret Hangs
  else
    on_disk (run_migrations time MIGRATIONS);;
    in_pipeline (in_db (reconcile_overrides None));;
    log ← gets (rn_log (X:=X));
    attempt (in_pipeline (in_db (reconcile_emergency_log log)));;
    announce "warming_up";;
    mret Returns.

Definition _start_pipeline : RM X unit :=
  start_part Data;;
  in_pipeline pipeline_start.

Definition _startup_sequence : RM X progress :=
  p ← _run_migrations;
  match p with
  | Hangs => mret Hangs
  | Returns => (if pipeline_enabled then _start_pipeline else mret tt);; mret Returns
  end.

Definition STALE_AFTER : Z := 300.

(** The worker, the broker and the two recoveries need the pipeline. *)
Definition _start_http : RM X unit :=
  (if pipeline_enabled then
     start_part PaWorker;;
     start_part BrokerSession;;
     attempt (in_pipeline (in_orders (λ _, reconcile_open_orders)));;
     attempt (in_pipeline (in_db (reconcile_pending_executions STALE_AFTER)));;
     mret tt
   else mret tt);;
  (if site_binds then start_part Site else throw OperationalError).

(** ** Shutdown *)

Definition shutdown_order : list part := [PaWorker; Site; BrokerSession; Data; Store].

Definition without (p : part) (l : list part) : list part := List.filter (λ q, negb (bool_decide (q = p))) l.

Definition stop_one (p : part) (r : runner X) : runner X :=
  if bool_decide (p ∈ rn_running r) then
    let r := if bool_decide (p = Store) then set_pipeline (close_store (rn_pipeline r)) r else r in
    if stops p then set_running (without p (rn_running r)) (Down p) r else r
  else r.
Definition stop_part (p : part) : RM X unit := modify (stop_one p).

(** [lock_mgr.release()]: nothing without a lock of one's own. *)
Definition leave_lock : RM X unit := modify (λ r : runner X,
  if is_held (rn_lock r) then
    set_running (rn_running r) LockLeft (set_lock_state (release str_other (rn_lock r) (rn_shared r)) r)
  else r).

Definition stop : RM X unit :=
  stopped ← gets (rn_stopped (X:=X));
  if (stopped : bool) then mret tt
  else
    foldM (λ (_ : unit) p, stop_part p) tt shutdown_order;;
    leave_lock;;
    modify set_stopped.

(** ** Start *)

Definition start : RM X progress :=
  take_lock;;
  r ← attempt (
    p ← _startup_sequence;
    match p with
    | Hangs => mret Hangs
    | Returns => _start_http;; mret Returns
    end);
  match r with
  | Err e => stop;; throw e
  | Ok Hangs => mret Hangs
  | Ok Returns => announce "ready";; mret Returns
  end.
End Runner.

(** ** What the parts of a start leave alone *)

(** What a started daemon runs. *)
Definition parts (pipeline_enabled : bool) : list part := if pipeline_enabled then [Store; Data; PaWorker; BrokerSession; Site] else [Store; Site].

Section Booting.
Context {X : Type} `{Ext X, PyEnv, SecretStore X, OrderBroker X, OrderConfig}.
Context `{Rest X, FeedConfig, PipelineConfig, Notifier X}.
Context (pipeline_enabled : bool) (time : Z → Z) (db_opens site_binds : bool) (stops : part → bool).
Context (str_other : pyval → string).

(** The lock file is this daemon's own, and says so. *)
Definition owns_lock (r : runner X) : Prop :=
  is_held (rn_lock r) = true ∧ read_lock str_other (rn_shared r) = Some (d_info (rn_lock r)).

(** Until the start is done: no order record appears and nothing is submitted, the
    lock stays, nothing is stopped, and the daemon is not ready. *)
Record booting (r r' : runner X) : Prop := {
  bo_quiet : OrdersSpec.quiet (runner_world r) (runner_world r');
  bo_lock : owns_lock r → owns_lock r';
  bo_token : lk_token (d_info (rn_lock r')) = lk_token (d_info (rn_lock r));
  bo_stopped : rn_stopped r' = rn_stopped r;
  bo_ready : Readiness.is_ready (rn_readiness r) = false → Readiness.is_ready (rn_readiness r') = false;
  bo_running : rn_running r `sublist_of` rn_running r' }.

#[export] Instance booting_preorder : PreOrder booting.
Proof.
  split; [intros r; by split|]. intros r1 r2 r3 [? ? ? ? ? ?] [? ? ? ? ? ?].
  split; [by etrans|auto|congruence|congruence|auto|by etrans].
Qed.

Lemma start_part_booting p : steps booting (start_part (X:=X) p).
Proof. intros r. split; simpl; [reflexivity|done|done|done|done|]. by apply sublist_inserts_r. Qed.

Lemma announce_owns state r r' : announce state r = (Ok tt, r') → owns_lock r → owns_lock r'.
Proof.
  unfold announce, owns_lock. destruct (Readiness.set_state _ _); [|done]. intros [= <-] [Hh Hr]. simpl.
  unfold update_state, is_held in *. simpl. split; [done|]. unfold read_lock. cbn [fs_lock]. by rewrite from_to_dict.
Qed.

Lemma announce_booting state : state ≠ "ready" → steps booting (announce (X:=X) state).
Proof.
  intros Hne r. destruct (announce state r) as [[[]|e] r'] eqn:E; simpl.
  - pose proof (announce_owns state r r' E) as Hown. unfold announce in E.
    destruct (Readiness.set_state state (rn_readiness r)) as [rd|] eqn:Es; [|done]. injection E as <-.
    split; simpl; [reflexivity|done|done|done| |done].
    intros _. apply Readiness.set_state_step in Es as (_ & -> & _). unfold Readiness.is_ready. simpl.
    by apply String.eqb_neq.
  - unfold announce in E. destruct (Readiness.set_state _ _); [done|]. injection E as _ <-. reflexivity.
Qed.

Lemma on_disk_booting {A} (m : ST disk A) : steps booting (on_disk (X:=X) m).
Proof. intros r. unfold on_disk. destruct (m (rn_disk r)). split; simpl; try done; reflexivity. Qed.

Lemma in_pipeline_booting {A} (m : FM X A) :
  steps (on_world OrdersSpec.quiet) m → steps booting (in_pipeline m).
Proof.
  intros Hm r. specialize (Hm (rn_pipeline r)). unfold in_pipeline. destruct (m (rn_pipeline r)) as [a p].
  split; simpl; try done.
Qed.

(** The recoveries of the start. *)
Lemma overrides_quiet now : steps (OrdersSpec.quiet (X:=X)) (reconcile_overrides now).
Proof.
  unfold reconcile_overrides, now_or, close_overrides.
  oqwalk.
Qed.
Lemma line_quiet existing n line : steps (OrdersSpec.quiet (X:=X)) (reconcile_line existing n line).
Proof. unfold reconcile_line, append_in_connection, insert_audit, insert_reconciled. oqwalk. Qed.
Lemma emergency_quiet log : steps (OrdersSpec.quiet (X:=X)) (reconcile_emergency_log log).
Proof. unfold reconcile_emergency_log. oqwalk. apply line_quiet. Qed.
Lemma recover_quiet now n s rec : steps (OrdersSpec.quiet (X:=X)) (recover_one now n s rec).
Proof.
  unfold recover_one, complete_pending_execution, fail_pending_execution, transition, cas, not_matched. oqwalk.
Qed.
Lemma executions_quiet n : steps (OrdersSpec.quiet (X:=X)) (reconcile_pending_executions n).
Proof. unfold reconcile_pending_executions. oqwalk. apply recover_quiet. Qed.
Lemma services_quiet {A} (m : PM X A) : steps AlarmsSpec.quiet m → steps (on_store OrdersSpec.quiet) m.
Proof.
  apply steps_mono. intros s s' Hq. pose proof (quiet_proposing s s' Hq) as ([Ht _ _] & Htr & _).
  split; [|by rewrite Htr]. unfold trading_view in Ht. unfold okeys. congruence.
Qed.
Lemma pipeline_start_quiet : steps (on_world OrdersSpec.quiet) (pipeline_start (X:=X)).
Proof.
  unfold pipeline_start. apply steps_bind; [tc_solve|apply steps_attempt, in_services_steps, services_quiet, quiet_universe_sync|intros _].
  apply steps_bind; [tc_solve|apply in_services_steps, services_quiet|intros _; apply steps_ret; tc_solve].
  unfold clock_sync, sync_offset.
  repeat first [ apply quiet_fetch | apply quiet_clock_now | apply quiet_services_modify; reflexivity | pwalk1 ].
Qed.

Lemma start_quiet {A} (m : M X A) : steps OrdersSpec.quiet m → steps booting (in_pipeline (in_db m)).
Proof. intros Hm. by apply in_pipeline_booting, in_db_steps. Qed.

Ltac bwalk := repeat first
  [ apply start_part_booting | apply announce_booting; done | apply on_disk_booting
  | apply start_quiet; first [apply overrides_quiet | apply emergency_quiet | apply executions_quiet]
  | apply in_pipeline_booting; intros p; apply in_orders_quiet, quiet_reconcile_open_orders
  | apply in_pipeline_booting, pipeline_start_quiet
  | pwalk1 ].

Definition body : RM X progress :=
  p ← _startup_sequence pipeline_enabled time db_opens;
  match p with
  | Hangs => mret Hangs
  | Returns => _start_http pipeline_enabled site_binds;; mret Returns
  end.

Lemma body_booting : steps booting body.
Proof. unfold body, _startup_sequence, _run_migrations, _start_pipeline, _start_http. bwalk. Qed.

(** The store is started first, so whatever happens then it runs. *)
Lemma store_first {A B} (m : RM X A) (f : A → RM X B) :
  (∀ r, Store ∈ rn_running (m r).2) → (∀ a, steps booting (f a)) → ∀ r, Store ∈ rn_running ((m ≫= f) r).2.
Proof.
  intros Hm Hf r. specialize (Hm r). unfold mbind, ST_bind. destruct (m r) as [[a|e] r1]; [|done]. simpl in *.
  eapply elem_of_submseteq; [exact Hm|]. apply sublist_submseteq, (bo_running _ _ (Hf a r1)).
Qed.

Lemma body_store r : Store ∈ rn_running (body r).2.
Proof.
  revert r. unfold body, _startup_sequence, _run_migrations, _start_pipeline, _start_http.
  do 2 (apply store_first; [|intros; bwalk]). apply store_first; [|intros; bwalk].
  intros r. simpl. apply elem_of_app. right. by left.
Qed.

(** ** A start that succeeds *)

Lemma wp_in_pipeline {A} (m : FM X A) Q r : (∀ a p, Q a (set_pipeline p r)) → wp (in_pipeline m) Q r.
Proof. intros HQ. unfold wp, in_pipeline. destruct (m (rn_pipeline r)). apply HQ. Qed.
Lemma wp_on_disk {A} (m : ST disk A) Q (r : runner X) : (∀ a d, Q a (set_disk d r)) → wp (on_disk m) Q r.
Proof. intros HQ. unfold wp, on_disk. destruct (m (rn_disk r)). apply HQ. Qed.

(** What [a], run from [r], leaves running and where readiness stands. *)
Definition stage (running : list part) (readiness : Readiness.t) (r : runner X) : Prop :=
  rn_running r = running ∧ rn_readiness r = readiness.

Definition warming : Readiness.t := Readiness.mk "warming_up" false ["starting"; "migrating"; "warming_up"].

(** How far the body of a start got: to its end, or to the first write of the
    migrations. *)
Definition arrived (p : progress) (r : runner X) : Prop :=
  match p with
  | Returns => db_opens = true ∧ stage (parts pipeline_enabled) warming r
  | Hangs => db_opens = false ∧ stage [Store] (Readiness.mk "migrating" false ["starting"; "migrating"]) r
  end.

Lemma body_ok p r r' : stage [] Readiness.init r → body r = (Ok p, r') → arrived p r'.
Proof.
  intros [Hrun Hready].
  assert (wp body (λ a r', ∀ p, a = Ok p → arrived p r') r) as Hwp; [|unfold wp in Hwp; intros E; rewrite E in Hwp; auto].
  unfold body, _startup_sequence, _run_migrations, _start_pipeline, _start_http.
  assert (∀ A (m : FM X A) (Q : result A → runner X → Prop) l rd r, stage l rd r →
    (∀ a r', stage l rd r' → Q a r') → wp (in_pipeline m) Q r) as Hpipe.
  { intros A m Q l rd r0 Hst HQ. apply wp_in_pipeline. intros a q. by apply HQ. }
  do 2 apply wp_bind. apply wp_bind, wp_modify. apply wp_bind.
  unfold wp at 1, announce. simpl rn_readiness. rewrite Hready. simpl. destruct db_opens eqn:Eopen; cbn [negb].
  2:{ do 3 apply wp_ret. intros q [= <-]. split; [done|]. split; [simpl; by rewrite Hrun|reflexivity]. }
  apply wp_bind, wp_on_disk. intros [l|e] d; [|done].
  apply wp_bind. eapply Hpipe; [by split; [simpl; by rewrite Hrun|reflexivity]|]. intros [n|e] r1 [Hr1 Hd1]; [|done].
  apply wp_bind, wp_gets, wp_bind, wp_attempt. eapply Hpipe; [by split|]. intros a2 r2 [Hr2 Hd2]. apply wp_bind.
  unfold wp at 1, announce. rewrite Hd2. simpl. apply wp_ret, wp_bind. destruct pipeline_enabled eqn:Epipe.
  - apply wp_bind, wp_modify. eapply (Hpipe _ _ _ [Store; Data] warming); [split; simpl; [by rewrite Hr2|done]|].
    intros [[]|e] r3 [Hr3 Hd3]; [|done]. apply wp_ret, wp_bind, wp_bind, wp_bind, wp_modify, wp_bind, wp_modify.
    apply wp_bind, wp_attempt. eapply (Hpipe _ _ _ [Store; Data; PaWorker; BrokerSession] warming); [split; simpl; [by rewrite Hr3|done]|].
    intros a4 r4 [Hr4 Hd4]. apply wp_bind, wp_attempt. eapply Hpipe; [by split|]. intros a5 r5 [Hr5 Hd5]. apply wp_ret.
    destruct site_binds; [|done]. apply wp_modify, wp_ret. intros q [= <-]. split; [done|]. unfold stage.
    rewrite Epipe. simpl. by rewrite Hr5.
  - apply wp_ret, wp_ret, wp_bind, wp_bind, wp_ret. destruct site_binds; [|done]. apply wp_modify, wp_ret.
    intros q [= <-]. split; [done|]. unfold stage. rewrite Epipe. simpl. by rewrite Hr2.
Qed.
End Booting.

(** ** A stop *)

Section Stopping.
Context {X : Type} (stops : part → bool) (str_other : pyval → string).

Notation stop_one := (stop_one (X:=X) stops).
Definition stop_all (ps : list part) (r : runner X) : runner X := foldl (λ r p, stop_one p r) r ps.

Lemma stop_parts_run ps r : foldM (λ (_ : unit) p, stop_part stops p) tt ps r = (Ok tt, stop_all ps r).
Proof. revert r. induction ps as [|p ps IH]; intros r; [done|]. apply IH. Qed.

(** What stopping a list of parts leaves of the runner. *)
Record stopped_from (ps : list part) (r r' : runner X) : Prop := {
  st_running : rn_running r' = List.filter (λ q, negb (bool_decide (q ∈ ps) && stops q)) (rn_running r);
  st_events : NoDup ps →
    rn_events r' = rn_events r ++ map Down (List.filter (λ p, bool_decide (p ∈ rn_running r) && stops p) ps);
  st_rest : (rn_lock r', rn_shared r', rn_readiness r', rn_stopped r') = (rn_lock r, rn_shared r, rn_readiness r, rn_stopped r);
  st_quiet : OrdersSpec.quiet (runner_world r) (runner_world r');
  st_closed : w_closed (runner_world r) = true ∨ Store ∈ ps ∧ Store ∈ rn_running r → w_closed (runner_world r') = true }.

Lemma elem_of_without p q l : q ∈ without p l ↔ q ∈ l ∧ q ≠ p.
Proof.
  unfold without. rewrite !list_elem_of_In, List.filter_In, negb_true_iff, bool_decide_eq_false. done.
Qed.

(** One part: stopped, or still running because stopping it failed, or not running. *)
Lemma stop_one_cases p r :
  (rn_lock (stop_one p r), rn_shared (stop_one p r), rn_readiness (stop_one p r), rn_stopped (stop_one p r))
  = (rn_lock r, rn_shared r, rn_readiness r, rn_stopped r) ∧
  OrdersSpec.quiet (runner_world r) (runner_world (stop_one p r)) ∧
  (w_closed (runner_world r) = true ∨ p = Store ∧ Store ∈ rn_running r → w_closed (runner_world (stop_one p r)) = true) ∧
  (if bool_decide (p ∈ rn_running r) && stops p
   then rn_running (stop_one p r) = without p (rn_running r) ∧ rn_events (stop_one p r) = rn_events r ++ [Down p]
   else rn_running (stop_one p r) = rn_running r ∧ rn_events (stop_one p r) = rn_events r).
Proof.
  unfold Startup.stop_one. destruct (decide (p ∈ rn_running r)) as [Hp|Hp].
  - rewrite bool_decide_eq_true_2 by done. simpl.
    destruct (decide (p = Store)) as [->|Hne];
      [rewrite bool_decide_eq_true_2 by done|rewrite bool_decide_eq_false_2 by done]; destruct (stops _); simpl;
      (split; [done|split; [done|split; [naive_solver|done]]]).
  - rewrite bool_decide_eq_false_2 by done. simpl. split; [done|]. split; [reflexivity|]. split; [naive_solver|done].
Qed.

Lemma filter_filter_b {A} (f g : A → bool) l : List.filter f (List.filter g l) = List.filter (λ x, g x && f x) l.
Proof. induction l as [|x l IH]; [done|]. simpl. destruct (g x); simpl; [destruct (f x)|]; by rewrite ?IH. Qed.

Lemma filter_ext_elem {A} (f g : A → bool) l : (∀ x, x ∈ l → f x = g x) → List.filter f l = List.filter g l.
Proof. intros Hfg. apply List.filter_ext_in. intros x Hx. apply Hfg. by apply list_elem_of_In. Qed.

Lemma filter_all_b {A} (f : A → bool) l : (∀ x, x ∈ l → f x = true) → List.filter f l = l.
Proof.
  intros Hf. induction l as [|x l IH]; [done|]. simpl. rewrite Hf by left. f_equal. apply IH. intros y Hy. apply Hf. by right.
Qed.

Lemma stop_all_from ps r : stopped_from ps r (stop_all ps r).
Proof.
  revert r. induction ps as [|p ps IH]; intros r.
  { split; simpl; [|by rewrite app_nil_r|done|reflexivity|intros [?|[?%elem_of_nil _]]; done].
    symmetry. by apply filter_all_b. }
  destruct (IH (stop_one p r)) as [Hr He Hs Hqt Hc]. change (stop_all (p :: ps) r) with (stop_all ps (stop_one p r)).
  destruct (stop_one_cases p r) as (Hs1 & Hq1 & Hc1 & Hrun). split.
  - rewrite Hr. clear -Hrun. destruct (bool_decide (p ∈ rn_running r) && stops p) eqn:Eb; destruct Hrun as [-> _].
    + unfold without. rewrite filter_filter_b. apply filter_ext_elem. intros q Hq.
      apply andb_true_iff in Eb as [_ Hst].
      destruct (decide (q = p)) as [->|Hne].
      * rewrite Hst, (bool_decide_eq_true_2 (p = p)) by done. simpl.
        by rewrite bool_decide_eq_true_2 by left.
      * rewrite (bool_decide_eq_false_2 (q = p)) by done. simpl.
        by rewrite (bool_decide_ext (q ∈ p :: ps) (q ∈ ps)) by set_solver.
    + apply filter_ext_elem. intros q Hq. destruct (decide (q = p)) as [->|Hne].
      * rewrite (bool_decide_eq_true_2 (p ∈ rn_running r)) in Eb by done. simpl in Eb. by rewrite Eb, !andb_false_r.
      * by rewrite (bool_decide_ext (q ∈ p :: ps) (q ∈ ps)) by set_solver.
  - intros [Hn Hnd]%NoDup_cons. rewrite (He Hnd).
    assert (List.filter (λ q, bool_decide (q ∈ rn_running (stop_one p r)) && stops q) ps
            = List.filter (λ q, bool_decide (q ∈ rn_running r) && stops q) ps) as ->.
    { apply filter_ext_elem. intros q Hq. f_equal. apply bool_decide_ext.
      destruct (bool_decide (p ∈ rn_running r) && stops p); destruct Hrun as [-> _]; [|done].
      rewrite elem_of_without. assert (q ≠ p) by (intros ->; done). tauto. }
    simpl. destruct (bool_decide (p ∈ rn_running r) && stops p); destruct Hrun as [_ ->]; [|done].
    simpl. by rewrite <-app_assoc.
  - congruence.
  - by etrans.
  - intros Hpre. apply Hc. destruct Hpre as [Hw | [[Heq|Hin]%elem_of_cons Hst]].
    + left. apply Hc1. by left.
    + left. apply Hc1. right. by split; [symmetry|].
    + destruct (decide (p = Store)) as [->|Hne]; [left; apply Hc1; right; by split|]. right. split; [done|].
      destruct (bool_decide (p ∈ rn_running r) && stops p); destruct Hrun as [-> _]; [|done].
      rewrite elem_of_without. done.
Qed.
End Stopping.

Section Shutdown.
Context {X : Type} (stops : part → bool) (str_other : pyval → string).
Notation stop := (stop (X:=X) stops str_other).

Lemma in_shutdown_order p : p ∈ shutdown_order.
Proof. apply list_elem_of_In. destruct p; simpl; auto 10. Qed.
Lemma shutdown_order_nodup : NoDup shutdown_order.
Proof. apply (bool_decide_eq_true_1 (NoDup shutdown_order)). reflexivity. Qed.

(** What a stop of a running daemon comes to. *)
Record stopped_spec (r r' : runner X) : Prop := {
  sp_stopped : rn_stopped r' = true;
  sp_running : rn_running r' = List.filter (λ p, negb (stops p)) (rn_running r);
  sp_events : rn_events r' = rn_events r
    ++ map Down (List.filter (λ p, bool_decide (p ∈ rn_running r) && stops p) shutdown_order)
    ++ (if is_held (rn_lock r) then [LockLeft] else []);
  sp_lock : owns_lock str_other r → fs_lock (rn_shared r') = None;
  sp_left : is_held (rn_lock r') = false ∨ rn_lock r' = rn_lock r;
  sp_closed : Store ∈ rn_running r → w_closed (runner_world r') = true;
  sp_quiet : OrdersSpec.quiet (runner_world r) (runner_world r');
  sp_readiness : rn_readiness r' = rn_readiness r }.

Lemma stop_run r : rn_stopped r = false → ∃ r', stop r = (Ok tt, r') ∧ stopped_spec r r'.
Proof.
  intros Hns. unfold Startup.stop, gets. unfold mbind at 1, ST_bind at 1. rewrite Hns.
  erewrite ST_bind_run by apply stop_parts_run. unfold leave_lock. erewrite ST_bind_run by reflexivity.
  eexists. split; [reflexivity|].
  pose proof (stop_all_from (X:=X) stops shutdown_order r) as [Hr He Hs Hq Hc].
  specialize (He shutdown_order_nodup).
  remember (stop_all stops shutdown_order r) as r1 eqn:E1. clear E1. injection Hs as Hlock Hsh Hrd Hst.
  assert (rn_running r1 = List.filter (λ p, negb (stops p)) (rn_running r)) as Hrun.
  { rewrite Hr. apply filter_ext_elem. intros q _. by rewrite bool_decide_eq_true_2 by apply in_shutdown_order. }
  assert (Store ∈ rn_running r → w_closed (runner_world r1) = true) as Hclosed
    by (intros Hin; apply Hc; right; split; [apply in_shutdown_order|done]).
  destruct (is_held (rn_lock r1)) eqn:Eh;
    (split; simpl; [done|exact Hrun| | | |exact Hclosed|exact Hq|exact Hrd]);
    rewrite Hlock in Eh.
  - by rewrite He, Eh, <-app_assoc.
  - intros [_ Hown]. unfold owns. rewrite Hlock, Hsh, Hown, Z.eqb_refl, String.eqb_refl. done.
  - by left.
  - by rewrite He, Eh, app_nil_r.
  - intros [Hh _]. congruence.
  - by right.
Qed.

(** A daemon that is stopped stays so. *)
Lemma stop_again r : rn_stopped r = true → stop r = (Ok tt, r).
Proof. intros Hs. unfold Startup.stop, gets, mbind, ST_bind. by rewrite Hs. Qed.
End Shutdown.

(** A shutdown goes in order, once.  The parts that run are stopped one after
    another, the worker first, then the server, the broker's session, the data pipeline
    and the store; the lock is left after all of them, whichever of them fail to stop,
    and the file is gone if it was this daemon's own.  What still runs afterwards is
    what failed to stop; no order is recorded or sent; and a second stop does nothing. *)
Theorem shutdown_in_order {X} (stops : part → bool) str_other (r : runner X) :
  rn_stopped r = false → owns_lock str_other r →
  let '(a, r') := stop stops str_other r in
  a = Ok tt ∧
  rn_events r' = rn_events r
    ++ map Down (List.filter (λ p, bool_decide (p ∈ rn_running r) && stops p) [PaWorker; Site; BrokerSession; Data; Store])
    ++ [LockLeft] ∧
  fs_lock (rn_shared r') = None ∧
  (∀ p, p ∈ rn_running r' ↔ p ∈ rn_running r ∧ stops p = false) ∧
  (Store ∈ rn_running r → w_closed (runner_world r') = true) ∧
  OrdersSpec.quiet (runner_world r) (runner_world r') ∧
  stop stops str_other r' = (Ok tt, r').
Proof.
  intros Hns Hown. destruct (stop_run stops str_other r Hns) as (r' & -> & [Hs Hr He Hl _ Hc Hq _]).
  destruct (Hown) as [Hheld _]. rewrite Hheld in He. split; [done|]. split; [exact He|]. split; [by apply Hl|].
  split; [|split; [done|split; [done|by apply stop_again]]].
  intros p. rewrite Hr, !list_elem_of_In, List.filter_In, negb_true_iff. done.
Qed.

Section Starting.
Context {X : Type} `{Ext X, PyEnv, SecretStore X, OrderBroker X, OrderConfig}.
Context `{Rest X, FeedConfig, PipelineConfig, Notifier X}.
Context (pipeline_enabled : bool) (time : Z → Z) (db_opens site_binds : bool) (stops : part → bool).
Context (str_other : pyval → string).
Notation start := (start (X:=X) pipeline_enabled time db_opens site_binds stops str_other).
Notation body := (body (X:=X) pipeline_enabled time db_opens site_binds).

(** A runner just made. *)
Definition new_runner (info : LockInfo) (r : runner X) : Prop :=
  rn_lock r = mk_daemon info (Reading max_retries) ∧ rn_readiness r = Readiness.init ∧ rn_running r = [] ∧
  rn_stopped r = false ∧ rn_events r = [].

(** Taking the lock: refused, with nothing touched, by a live owner; else held. *)
Lemma take_lock_run info r : new_runner info r →
  let '(a, r1) := take_lock str_other r in
  lk_token (d_info (rn_lock r1)) = lk_token info ∧
  rn_pipeline r1 = rn_pipeline r ∧ rn_readiness r1 = Readiness.init ∧ rn_running r1 = [] ∧ rn_stopped r1 = false ∧
  match a with
  | Ok _ => owns_lock str_other r1 ∧ rn_events r1 = [LockTaken]
  | Err _ => rn_shared r1 = rn_shared r ∧ rn_events r1 = [] ∧
      ∃ i, read_lock str_other (rn_shared r) = Some i ∧ owner_alive i (rn_shared r) = true
  end.
Proof.
  intros (Hl & Hrd & Hrun & Hst & He). unfold take_lock. rewrite Hl.
  pose proof (acquire_alone str_other info (rn_shared r)) as Halone.
  assert (∀ d sh, turns str_other 10 (mk_daemon info (Reading max_retries)) (rn_shared r) = (d, sh) → d_info d = info) as Hinfo.
  { assert (∀ n d sh, d_info (turns str_other n d sh).1 = d_info d) as Hkeep.
    { induction n as [|n IH]; intros d sh; [done|]. simpl.
      destruct (acquire_step str_other d sh) as [d1 sh1] eqn:Es. rewrite IH. unfold acquire_step in Es.
      repeat (case_match; simplify_eq/=; try done). }
    intros d sh E. specialize (Hkeep 10%nat (mk_daemon info (Reading max_retries)) (rn_shared r)). by rewrite E in Hkeep. }
  destruct (turns str_other 10 _ (rn_shared r)) as [d sh]. specialize (Hinfo d sh eq_refl). destruct Halone as [Halone _].
  assert (is_held d = true ∧ read_lock str_other sh = Some info ∨
    is_held d = false ∧ sh = rn_shared r ∧ ∃ i, read_lock str_other (rn_shared r) = Some i ∧ owner_alive i (rn_shared r) = true) as [[Hh Hr]|(Hh & -> & Ha)].
  { unfold is_held. destruct (read_lock str_other (rn_shared r)) as [i|] eqn:Er.
    - destruct (owner_alive i (rn_shared r)) eqn:Ea; destruct Halone as [-> ?]; [right|by left]. eauto.
    - destruct Halone as [-> ?]. by left. }
  - rewrite Hh. simpl. rewrite Hrun, He. rewrite Hinfo. do 5 (split; [done|]). split; [|done]. split; [done|]. simpl. by rewrite Hinfo.
  - rewrite Hh. simpl. rewrite Hinfo. do 5 (split; [done|]). done.
Qed.

Lemma start_run info r : new_runner info r →
  let '(a, r') := start r in
  OrdersSpec.quiet (runner_world r) (runner_world r') ∧
  match a with
  | Ok Returns =>
      db_opens = true ∧
      Readiness.history (rn_readiness r') = ["starting"; "migrating"; "warming_up"; "ready"] ∧
      Readiness.is_ready (rn_readiness r') = true ∧
      rn_running r' = parts pipeline_enabled ∧ owns_lock str_other r' ∧ rn_stopped r' = false ∧
      lk_token (d_info (rn_lock r')) = lk_token info
  | Ok Hangs =>
      db_opens = false ∧ Readiness.history (rn_readiness r') = ["starting"; "migrating"] ∧
      Readiness.is_ready (rn_readiness r') = false ∧ rn_running r' = [Store] ∧ owns_lock str_other r'
  | Err _ =>
      Readiness.is_ready (rn_readiness r') = false ∧
      (rn_pipeline r' = rn_pipeline r ∧ rn_shared r' = rn_shared r ∧ rn_running r' = [] ∧
       (∃ i, read_lock str_other (rn_shared r) = Some i ∧ owner_alive i (rn_shared r) = true) ∨
       fs_lock (rn_shared r') = None ∧ w_closed (runner_world r') = true ∧
       Forall (λ p, stops p = false) (rn_running r') ∧ last (rn_events r') = Some LockLeft)
  end.
Proof.
  intros Hnew. pose proof (take_lock_run info r Hnew) as Htake.
  unfold Startup.start. unfold mbind at 1, ST_bind at 1. destruct (take_lock str_other r) as [[[]|e] r1].
  2:{ destruct Htake as (_ & Hp & Hrd & Hrun & _ & Hsh & _ & Ha). unfold runner_world. rewrite Hp. split; [reflexivity|].
      rewrite Hrd. split; [done|]. left. done. }
  destruct Htake as (Htk & Hp & Hrd & Hrun & Hst & Hown & _).
  pose proof (body_booting pipeline_enabled time db_opens site_binds str_other r1) as [Hq Hl Htok Hs Hr Hsub].
  change (p ← _startup_sequence pipeline_enabled time db_opens;
    match p with Hangs => mret Hangs | Returns => _start_http pipeline_enabled site_binds;; mret Returns end) with body.
  assert (runner_world r1 = runner_world r) as Hw by (unfold runner_world; by rewrite Hp).
  rewrite <-Hw. unfold attempt. unfold mbind, ST_bind.
  destruct (body r1) as [[[|]|e] r2] eqn:Eb; simpl in Hq, Hl, Htok, Hs, Hr, Hsub.
  - destruct (body_ok _ _ _ _ Returns r1 r2 (conj Hrun Hrd) Eb) as [Hopen [Hrun2 Hrd2]].
    assert (∃ r3, announce "ready" r2 = (Ok tt, r3) ∧
      rn_readiness r3 = Readiness.mk "ready" true ["starting"; "migrating"; "warming_up"; "ready"] ∧
      rn_running r3 = parts pipeline_enabled ∧ rn_pipeline r3 = rn_pipeline r2 ∧ rn_stopped r3 = rn_stopped r2 ∧
      lk_token (d_info (rn_lock r3)) = lk_token (d_info (rn_lock r2)))
      as (r3 & Ea & Hrd3 & Hrun3 & Hp3 & Hs3 & Htk3).
    { unfold announce. rewrite Hrd2. simpl. eexists. split; [reflexivity|]. simpl. by rewrite Hrun2. }
    pose proof (announce_owns str_other _ _ _ Ea (Hl Hown)) as Hown3. rewrite Ea. cbv beta iota. cbn [mret ST_ret].
    unfold runner_world at 2. rewrite Hp3. split; [exact Hq|]. rewrite Hrd3. do 5 (split; [done|]). split; congruence.
  - destruct (body_ok _ _ _ _ Hangs r1 r2 (conj Hrun Hrd) Eb) as [Hopen [Hrun2 Hrd2]].
    split; [exact Hq|]. rewrite Hrd2. do 4 (split; [done|]). by apply Hl.
  - assert (rn_stopped r2 = false) as Hs2 by congruence.
    destruct (stop_run stops str_other r2 Hs2) as (r3 & -> & [_ Hrun3 He3 Hl3 _ Hc3 Hq3 Hrd3]).
    cbn [throw]. split; [by etrans|].
    rewrite Hrd3. split; [apply Hr; by rewrite Hrd|]. right. split; [by apply Hl3, Hl|].
    destruct (Hl Hown) as [Hh _]. rewrite Hh in He3. split; [|split].
    + apply Hc3. pose proof (body_store pipeline_enabled time db_opens site_binds str_other r1) as Hstore. by rewrite Eb in Hstore.
    + rewrite Hrun3. apply Forall_forall. intros p Hin%list_elem_of_In. apply List.filter_In in Hin as [_ Hin].
      by apply negb_true_iff.
    + rewrite He3, app_assoc. apply last_snoc.
Qed.
End Starting.


(** ** The life of a daemon *)

Inductive life_op :=
| Request (q : request)
| DataTurn (op : pipeline_op)
| AlarmTurn
| WorkerTurn.

Section Life.
Context {X : Type} `{Ext X, PyEnv, SecretStore X, OrderBroker X, OrderConfig}.
Context `{Rest X, FeedConfig, PipelineConfig, Notifier X}.
Context (pipeline_enabled : bool) (time : Z → Z) (db_opens site_binds : bool) (stops : part → bool).
Context (str_other : pyval → string) (json_loads : string → option pyval) (alarm_budget scan_budget : nat).

Notation engine := (engine_analyze pipeline_enabled alarm_budget (S alarm_budget)).

(** What happens while the daemon runs; what it raises stays where it happened. *)
Definition run_life_op (op : life_op) : RM X unit :=
  match op with
  | Request q =>
      rd ← gets (rn_readiness (X:=X));
      token ← gets (λ r : runner X, lk_token (d_info (rn_lock r)));
      attempt (in_pipeline (serve_rpc json_loads (run_handler pipeline_enabled alarm_budget scan_budget rd) token rd q));;
      mret tt
  | DataTurn op => attempt (in_pipeline (run_pipeline_op op));; mret tt
  | AlarmTurn => attempt (in_pipeline (in_services (alarm_eval_pass pipeline_enabled alarm_budget (S alarm_budget))));; mret tt
  | WorkerTurn => attempt (in_pipeline (in_services (check_and_process pipeline_enabled engine)));; mret tt
  end.

(** [run_daemon]: the main loop ends when a stop is asked for. *)
Definition run_daemon (ops : list life_op) : RM X progress :=
  p ← start pipeline_enabled time db_opens site_binds stops str_other;
  match p with
  | Hangs => mret Hangs
  | Returns =>
      foldM (λ _ op, run_life_op op) tt ops;;
      stop stops str_other;;
      mret Returns
  end.

(** Nothing is submitted. *)
Definition sends_nothing : relation (runner X) := λ r r',
  same_submissions (runner_world r) (runner_world r') ∧
  lk_token (d_info (rn_lock r')) = lk_token (d_info (rn_lock r)).

#[export] Instance sends_nothing_preorder : PreOrder sends_nothing.
Proof.
  split; [intros r; split; reflexivity|]. intros r1 r2 r3 [? ?] [? ?]. split; [by etrans|congruence].
Qed.

Lemma in_pipeline_sends {A} (m : FM X A) :
  steps (on_world same_submissions) m → steps sends_nothing (in_pipeline m).
Proof.
  intros Hm r. specialize (Hm (rn_pipeline r)). unfold in_pipeline. destruct (m (rn_pipeline r)) as [a p]. by split.
Qed.
Lemma services_send {A} (m : PM X A) : steps proposing m → steps (on_world same_submissions) (in_services m).
Proof.
  intros Hm. apply in_services_steps. eapply steps_mono; [|apply (from_proposing m Hm)]. intros s s' [_ He]. by apply effects_submissions.
Qed.

Lemma data_sends op : steps (on_world same_submissions) (run_pipeline_op (X:=X) op).
Proof.
  eapply steps_mono; [|apply (pipeline_op_kept (messages [op])); intros data ->; by left]. intros p p' [Hq _].
  destruct (quiet_proposing _ _ Hq) as (_ & Htr & _). unfold on_world, on_store, same_submissions. by rewrite Htr.
Qed.
Lemma alarm_turn_proposes : steps proposing (alarm_eval_pass (X:=X) pipeline_enabled alarm_budget (S alarm_budget)).
Proof. apply attempted. exact (run_alarm_op_proposes pipeline_enabled alarm_budget AlarmPass). Qed.
Lemma worker_turn_proposes : steps proposing (check_and_process (X:=X) pipeline_enabled engine).
Proof.
  unfold check_and_process. apply steps_bind; [tc_solve|apply (steps_mono AlarmsSpec.quiet); [apply quiet_proposing|auto with quiet]|].
  intros now s. apply check_loop.
Qed.

Lemma turn_sends op : (∀ q, op ≠ Request q) → steps sends_nothing (run_life_op op).
Proof.
  intros Hne. destruct op as [q| | |]; [by destruct (Hne q)|..]; unfold run_life_op;
    (apply steps_bind; [tc_solve| |intros; apply steps_ret; tc_solve]); apply steps_attempt, in_pipeline_sends.
  - apply data_sends.
  - apply services_send, alarm_turn_proposes.
  - apply services_send, worker_turn_proposes.
Qed.

(** An authorized, conforming call of an ordering tool. *)
Definition orders_asked (token : string) (op : life_op) : Prop :=
  ∃ q tool params, op = Request q ∧ authorized token (authorization q) ∧
    admit_request json_loads true (raw q) = Ok (tool, params) ∧ tool ∈ ordering_tools.

Lemma request_sends q (r : runner X) :
  let r' := (run_life_op (Request q) r).2 in
  sends_nothing r r' ∨
  pipeline_enabled = true ∧ orders_asked (lk_token (d_info (rn_lock r))) (Request q) ∧
  lk_token (d_info (rn_lock r')) = lk_token (d_info (rn_lock r)).
Proof.
  simpl. unfold gets, attempt, in_pipeline, mbind, ST_bind.
  pose proof (request_effects json_loads (lk_token (d_info (rn_lock r))) pipeline_enabled alarm_budget scan_budget
    (rn_readiness r) q (rn_pipeline r)) as Heff. simpl in Heff.
  destruct (serve_rpc _ _ _ _ _ (rn_pipeline r)) as [a p]. simpl in *.
  destruct Heff as [[_ Hs%effects_submissions]|(tool & params & spec & Hau & _ & Hadm & _ & _ & [[Ht Hp]|[_ [[_ Hs] _]]])];
    [by left| |by left]. right. split; [done|]. split; [|done]. exists q, tool, params. done.
Qed.

Lemma ops_send ops (r : runner X) :
  let '(a, r') := foldM (λ (_ : unit) op, run_life_op op) tt ops r in
  a = Ok tt ∧
  (sends_nothing r r' ∨
   pipeline_enabled = true ∧ ∃ op, op ∈ ops ∧ orders_asked (lk_token (d_info (rn_lock r))) op).
Proof.
  revert r. induction ops as [|op ops IH]; intros r; [split; [done|left; reflexivity]|].
  cbn [foldM]. unfold mbind, ST_bind.
  assert (let '(a, r1) := run_life_op op r in
    a = Ok tt ∧ (sends_nothing r r1 ∨ pipeline_enabled = true ∧ orders_asked (lk_token (d_info (rn_lock r))) op)) as Hone.
  { pose proof (turn_sends op) as Hturn.
    assert (∀ A (m : RM X A) r, ((_ ← attempt m; mret tt) r).1 = Ok tt) as Hok
      by (intros A m r0; unfold attempt, mbind, ST_bind; by destruct (m r0)).
    destruct (run_life_op op r) as [a r1] eqn:E.
    assert (a = Ok tt) as -> by (apply (f_equal fst) in E; simpl in E; rewrite <-E; destruct op; unfold run_life_op; simpl; try apply Hok;
      unfold gets, mbind, ST_bind, attempt; by destruct (in_pipeline _ r)).
    split; [done|]. destruct op as [q| | |].
    - pose proof (request_sends q r) as Hq. rewrite E in Hq. destruct Hq as [?|(? & ? & _)]; auto.
    - specialize (Hturn ltac:(done) r). rewrite E in Hturn. by left.
    - specialize (Hturn ltac:(done) r). rewrite E in Hturn. by left.
    - specialize (Hturn ltac:(done) r). rewrite E in Hturn. by left. }
  destruct (run_life_op op r) as [a r1]. destruct Hone as [-> Hone].
  specialize (IH r1). destruct (foldM _ tt ops r1) as [a r']. destruct IH as [-> IH]. split; [done|].
  destruct Hone as [Hs|[Hp Ho]]; [|right; split; [done|exists op; split; [by left|done]]].
  destruct IH as [Hs'|(Hp & op' & Hin & Ho)]; [left; by etrans|]. right. split; [done|]. exists op'. split; [by right|].
  destruct Hs as [_ Htk]. by rewrite Htk in Ho.
Qed.
End Life.

(** C5: orders come from requests alone.  Over the whole life of a daemon — its start with
    the recoveries after a crash, any sequence of requests, data turns, alarm and
    worker passes, and its shutdown — nothing is submitted to the exchange, unless an
    authorized request called one of the ordering tools with parameters that conform,
    on a daemon that runs a pipeline. *)
Theorem life_orders_only_by_request {X}
    `{Ext X, PyEnv, SecretStore X, OrderBroker X, OrderConfig, Rest X, FeedConfig, PipelineConfig, Notifier X}
    pipeline_enabled time db_opens site_binds stops str_other json_loads alarm_budget scan_budget info ops (r : runner X) :
  new_runner info r →
  let r' := (run_daemon pipeline_enabled time db_opens site_binds stops str_other json_loads alarm_budget scan_budget ops r).2 in
  submissions (w_trace (runner_world r')) = submissions (w_trace (runner_world r)) ∨
  pipeline_enabled = true ∧
  ∃ op, op ∈ ops ∧ orders_asked json_loads (lk_token info) op.
Proof.
  intros Hnew. unfold run_daemon. pose proof (start_run pipeline_enabled time db_opens site_binds stops str_other info r Hnew) as Hstart.
  unfold mbind at 1, ST_bind at 1. destruct (start _ _ _ _ _ _ r) as [[[]|e] r1]; destruct Hstart as [[_ Hq] Hrest]; [|by left..].
  destruct Hrest as (_ & _ & _ & _ & _ & Hns & Htk).
  pose proof (ops_send pipeline_enabled json_loads alarm_budget scan_budget ops r1) as Hops.
  unfold mbind, ST_bind. destruct (foldM _ tt ops r1) as [a r2]. destruct Hops as [-> Hops].
  destruct Hops as [[Hs _]|(Hp & op & Hin & Ho)]; [|right; split; [done|]; exists op; by rewrite <-Htk].
  left. assert (∃ r3, stop stops str_other r2 = (Ok tt, r3) ∧ OrdersSpec.quiet (runner_world r2) (runner_world r3))
    as (r3 & -> & [_ Hq2]).
  { destruct (rn_stopped r2) eqn:Es; [rewrite stop_again by done; by exists r2|].
    destruct (stop_run stops str_other r2 Es) as (r3 & -> & Hsp). exists r3. split; [done|apply (sp_quiet _ _ _ _ Hsp)]. }
  unfold same_submissions in Hs. simpl. congruence.
Qed.

(** ** A sample daemon *)

#[local] Existing Instances outside_ext sample_env plain_store filling_broker btc_market fee_config
  futures_rest pipeline_feed pipeline_config no_notifier.

Definition sample_info : LockInfo := mk_lock LOCK_VERSION 42 fzero "nonce" "token" "starting" 8751 fzero.
Definition sample_runner : runner outside :=
  mk_runner (mk_daemon sample_info (Reading max_retries)) (mk_shared None 0 [(42%Z, fzero)]) Readiness.init []
    (mk_disk (mk_file [] [] []) []) [] first_pipeline false [].
Definition sample_start : RM outside progress := start true (λ v, v) true true (λ _, true) (λ _, "").
(** The port is taken. *)
Definition failing_start : RM outside progress := start true (λ v, v) true false (λ _, true) (λ _, "").
(** The file is no database. *)
Definition hanging_start : RM outside progress := start true (λ v, v) false true (λ _, true) (λ _, "").

Example sample_started :
  let '(a, r) := sample_start sample_runner in
  a = Ok Returns ∧ Readiness.state (rn_readiness r) = "ready" ∧
  rn_events r = [LockTaken; Up Store; Up Data; Up PaWorker; Up BrokerSession; Up Site] ∧
  (lk_state <$> read_lock (λ _, "") (rn_shared r)) = Some "ready".
Proof. vm_compute. done. Qed.

Example sample_failed :
  let '(a, r) := failing_start sample_runner in
  a = Err OperationalError ∧ fs_lock (rn_shared r) = None ∧
  rn_events r = [LockTaken; Up Store; Up Data; Up PaWorker; Up BrokerSession;
                 Down PaWorker; Down BrokerSession; Down Data; Down Store; LockLeft].
Proof. vm_compute. done. Qed.

Example sample_hangs :
  let '(a, r) := hanging_start sample_runner in
  a = Ok Hangs ∧ (lk_state <$> read_lock (λ _, "") (rn_shared r)) = Some "migrating" ∧
  rn_events r = [LockTaken; Up Store].
Proof. vm_compute. done. Qed.

Lemma sample_new : new_runner sample_info sample_runner.
Proof. by repeat split. Qed.


Definition running_sample : runner outside := (sample_start sample_runner).2.
Lemma running_sample_owns : rn_stopped running_sample = false ∧ owns_lock (λ _, "") running_sample.
Proof. vm_compute. by repeat split. Qed.

Lemma shutdown_in_order_witness :
  owns_lock (λ _, "") running_sample ∧ fs_lock (rn_shared (stop (λ _, true) (λ _, "") running_sample).2) = None.
Proof.
  destruct running_sample_owns as [Hs Ho]. split; [exact Ho|].
  pose proof (shutdown_in_order (λ _, true) (λ _, "") running_sample Hs Ho) as Ht.
  destruct (stop _ _ running_sample) as [a r']. exact (proj1 (proj2 (proj2 Ht))).
Defined.

Definition sample_turns : list life_op := [DataTurn PollTurn; AlarmTurn; WorkerTurn].

Lemma life_orders_only_by_request_witness :
  new_runner sample_info sample_runner ∧
  (submissions (w_trace (runner_world (run_daemon true (λ v, v) true true (λ _, true) (λ _, "") (λ _, None) 1 1 sample_turns sample_runner).2))
     = submissions (w_trace (runner_world sample_runner)) ∨
   true = true ∧ ∃ op, op ∈ sample_turns ∧ orders_asked (λ _, None) (lk_token sample_info) op).
Proof.
  split; [exact sample_new|].
  exact (life_orders_only_by_request true (λ v, v) true true (λ _, true) (λ _, "") (λ _, None) 1 1 sample_info sample_turns
    sample_runner sample_new).
Defined.
