(* ===== verification/Launcher.v ===== *)
(** [adapter/launcher.py]: how the adapter finds a daemon or starts one.

    What the adapter sees of the world while it waits is given: the answers of the
    health probes in their order, the lock files [_wait_for_lock] reads, and the states
    [_wait_until_ready] is told, each list up to the deadline. *)

From Stdlib Require Import ZArith String.
From S2P Require Import Prelude PyFloat PyVal Errors Monad Lock.
Local Open Scope string_scope.
Local Open Scope list_scope.

(** [lock_probe_retries] of the configuration. *)
Class LauncherConfig := { lock_probe_retries : nat }.

Record view := mk_view {
  vw_shared : shared;              (* the lock file and the processes *)
  vw_probes : list bool;           (* whether the next health probes answer *)
  vw_spawned : nat }.              (* daemons started *)

Section Launcher.
Context `{LauncherConfig} (str_other : pyval → string).
Context (polls : list shared) (states : list (option string)).

Definition reread : ST view (option LockInfo) := gets (λ v, read_lock str_other (vw_shared v)).
Definition is_alive (lock : LockInfo) : ST view bool := gets (λ v, owner_alive lock (vw_shared v)).
Definition remove_lock : ST view unit := modify (λ v, mk_view (unlink (vw_shared v)) (vw_probes v) (vw_spawned v)).
Definition _spawn_daemon : ST view unit := modify (λ v, mk_view (vw_shared v) (vw_probes v) (S (vw_spawned v))).

(** A probe beyond those given does not answer. *)
Definition _http_probe_ok : ST view bool := λ v,
  match vw_probes v with
  | [] => (Ok false, v)
  | b :: l => (Ok b, mk_view (vw_shared v) l (vw_spawned v))
  end.

Definition _cleanup_stale_lock : ST view unit :=
  lock ← reread;
  match lock with
  | None => mret tt
  | Some lock => alive ← is_alive lock; if (alive : bool) then mret tt else remove_lock
  end.

Definition seen_lock (sh : shared) : option LockInfo :=
  match read_lock str_other sh with
  | Some lock => if owner_alive lock sh then Some lock else None
  | None => None
  end.
Definition _wait_for_lock : result LockInfo :=
  match list_find (λ sh, is_Some (seen_lock sh)) polls with
  | Some (_, sh) => match seen_lock sh with Some lock => Ok lock | None => raise TIMEOUT end
  | None => raise TIMEOUT
  end.

Definition _wait_until_ready : result unit :=
  reject_if (negb (existsb (λ s, match s with Some s => String.eqb s "ready" | None => false end) states)) NOT_READY.

Definition replace_daemon : ST view LockInfo := _spawn_daemon;; lift _wait_for_lock.

Fixpoint probe_again (n : nat) : ST view bool :=
  match n with
  | O => mret false
  | S n => ok ← _http_probe_ok; if (ok : bool) then mret true else probe_again n
  end.

Definition find_daemon : ST view LockInfo :=
  _cleanup_stale_lock;;
  lock ← reread;
  match lock with
  | None => replace_daemon
  | Some lock =>
      alive ← is_alive lock;
      if negb alive then
        again ← reread;
        (match again with Some _ => remove_lock | None => mret tt end);;
        replace_daemon
      else
        ok ← _http_probe_ok;
        if (ok : bool) then mret lock
        else
          ok ← probe_again (lock_probe_retries `max` 1);
          if (ok : bool) then mret lock
          else remove_lock;; replace_daemon
  end.

Definition ensure_daemon : ST view string :=
  lock ← find_daemon;
  lift _wait_until_ready;;
  mret (lk_token lock).

(** ** What it comes to *)

Lemma probe_again_run n v :
  probe_again n v = (Ok (existsb id (take n (vw_probes v))),
    mk_view (vw_shared v)
      (match list_find (λ b, b = true) (take n (vw_probes v)) with
       | Some (i, _) => drop (S i) (vw_probes v)
       | None => drop n (vw_probes v)
       end) (vw_spawned v)).
Proof.
  revert v. induction n as [|n IH]; intros [sh ps k]; [done|]. cbn [probe_again]. unfold _http_probe_ok. simpl.
  unfold mbind, ST_bind. destruct ps as [|b ps]; simpl.
  - rewrite IH. simpl. rewrite take_nil. simpl. by rewrite drop_nil.
  - destruct b; simpl; [done|]. rewrite IH. simpl.
    destruct (list_find (λ b : bool, b = true) (take n ps)) as [[i b]|]; done.
Qed.

Lemma seen_live lock sh : seen_lock sh = Some lock → read_lock str_other sh = Some lock ∧ owner_alive lock sh = true.
Proof.
  unfold seen_lock. destruct (read_lock str_other sh) as [i|]; [|done]. destruct (owner_alive i sh) eqn:E; [|done].
  by intros [= <-].
Qed.

(** The clean-up leaves the lock of a live process, or none that can be read. *)
Lemma cleanup_run v :
  ∃ v1, _cleanup_stale_lock v = (Ok tt, v1) ∧ fs_procs (vw_shared v1) = fs_procs (vw_shared v) ∧
    vw_probes v1 = vw_probes v ∧ vw_spawned v1 = vw_spawned v ∧
    match seen_lock (vw_shared v) with Some _ => v1 = v | None => read_lock str_other (vw_shared v1) = None end.
Proof.
  unfold _cleanup_stale_lock, seen_lock, reread, is_alive, remove_lock, gets, modify, mbind, ST_bind.
  destruct (read_lock str_other (vw_shared v)) as [lock|] eqn:Er; [|by exists v].
  destruct (owner_alive lock (vw_shared v)); eexists; split; reflexivity || done.
Qed.

Lemma find_daemon_run v :
  let '(r, v') := find_daemon v in
  let answered := existsb id (take (S (lock_probe_retries `max` 1)) (vw_probes v)) in
  fs_procs (vw_shared v') = fs_procs (vw_shared v) ∧
  match seen_lock (vw_shared v) with
  | Some lock =>
      if answered then vw_shared v' = vw_shared v ∧ vw_spawned v' = vw_spawned v ∧ r = Ok lock
      else fs_lock (vw_shared v') = None ∧ vw_spawned v' = S (vw_spawned v) ∧ r = _wait_for_lock
  | None => read_lock str_other (vw_shared v') = None ∧ vw_spawned v' = S (vw_spawned v) ∧ r = _wait_for_lock
  end.
Proof.
  unfold find_daemon. destruct (cleanup_run v) as (v1 & Hrun & Hprocs & _ & Hk & Hcase).
  erewrite ST_bind_run by exact Hrun. erewrite ST_bind_run by reflexivity.
  destruct (seen_lock (vw_shared v)) as [lock|] eqn:Es.
  - subst v1. destruct (seen_live lock _ Es) as [-> Ha]. erewrite ST_bind_run by reflexivity. rewrite Ha. cbn [negb].
    destruct v as [sh [|b ps] k]; erewrite ST_bind_run by reflexivity; simpl.
    + erewrite ST_bind_run by apply probe_again_run. simpl. rewrite take_nil. done.
    + destruct b; simpl; [done|]. erewrite ST_bind_run by apply probe_again_run. simpl.
      by destruct (existsb id _).
  - rewrite Hcase. unfold replace_daemon. erewrite ST_bind_run by reflexivity. simpl. by rewrite Hk.
Qed.

(** A daemon that answers is kept, any other is replaced, by one.  With the lock of
    a live process that answers one of the probes, the adapter touches nothing and
    starts nothing.  In every other case it starts exactly one daemon, with no
    readable lock left, and takes the first live lock that appears.  It fails with [TIMEOUT]
    when none appears and with [NOT_READY] when the daemon does not become ready. *)
Theorem ensure_daemon_spec (v : view) :
  let '(r, v') := ensure_daemon v in
  let answered := existsb id (take (S (lock_probe_retries `max` 1)) (vw_probes v)) in
  fs_procs (vw_shared v') = fs_procs (vw_shared v) ∧
  match seen_lock (vw_shared v) with
  | Some lock =>
      if answered then
        vw_shared v' = vw_shared v ∧ vw_spawned v' = vw_spawned v ∧
        r = (_ ← _wait_until_ready; Ok (lk_token lock))
      else
        fs_lock (vw_shared v') = None ∧ vw_spawned v' = S (vw_spawned v) ∧
        r = (lock ← _wait_for_lock; _ ← _wait_until_ready; Ok (lk_token lock))
  | None =>
      read_lock str_other (vw_shared v') = None ∧ vw_spawned v' = S (vw_spawned v) ∧
      r = (lock ← _wait_for_lock; _ ← _wait_until_ready; Ok (lk_token lock))
  end.
Proof.
  pose proof (find_daemon_run v) as Hrun. unfold ensure_daemon, mbind, ST_bind.
  destruct (find_daemon v) as [r v']. cbv zeta in *. destruct Hrun as [Hp Hrun].
  destruct (seen_lock (vw_shared v)) as [lock|]; [destruct (existsb id _)|]; destruct Hrun as (H1 & H2 & ->);
    try destruct _wait_for_lock; simpl; try destruct _wait_until_ready; done.
Qed.
End Launcher.

(** A daemon binds its port last, after the migrations, the universe and the
    recoveries.  Until then its probes fail: an adapter that comes then takes its lock
    away and starts a second daemon. *)
#[local] Instance default_config : LauncherConfig := {| lock_probe_retries := 5 |}.

Definition starting_info : LockInfo := mk_lock LOCK_VERSION 42 fzero "nonce" "token" "warming_up" 8751 fzero.
Definition while_starting : view :=
  mk_view (mk_shared (Some (0, Some (to_dict starting_info))) 1 [(42%Z, fzero)]) (repeat false 6 ++ [true]) 0.

Example starting_daemon_replaced :
  let '(r, v) := ensure_daemon (λ _, "") [] [Some "ready"] while_starting in
  owner_alive starting_info (vw_shared v) = true ∧ fs_lock (vw_shared v) = None ∧ vw_spawned v = 1.
Proof. vm_compute. done. Qed.
