(* ===== verification/Adapter.v ===== *)
(** [envelope.py], [adapter/transport.py], [adapter/main.py], and the health page of
    [daemon/server.py]: what an agent sees of a tool call.

    A call of the agent becomes a request to the daemon and its reply the result of the
    call.  Bodies of replies are their decoded values; texts for people and times are
    parameters. *)

From Stdlib Require Import ZArith String.
From S2P Require Import Prelude PyFloat PyVal Errors Schema Tools Monad Server Broker Tables Db Sample Feed Klines.
From S2P Require Import Credentials Orders OrdersSpec Alarms AlarmsSpec Ticker Pipeline Market Handlers HandlersSpec.
From S2P Require Import Lock Launcher Server.
Local Open Scope string_scope.
Local Open Scope list_scope.

(** ** [envelope.py] *)

Definition FRESHNESS_FRESH : string := "fresh".
Definition SOURCE_DAEMON : string := "daemon".

Record Meta := mk_Meta {
  as_of : string;
  source : string;
  freshness : string;
  algo_version : option string;
  extra : list (string * pyval) }.

(** [Meta(as_of=...)] *)
Definition meta_at (iso : string) : Meta := mk_Meta iso SOURCE_DAEMON FRESHNESS_FRESH None [].

Definition meta_to_dict (m : Meta) : pyval :=
  PDict (update
    ([("as_of", PStr (as_of m)); ("source", PStr (source m)); ("freshness", PStr (freshness m))]
     ++ match algo_version m with Some v => [("algo_version", PStr v)] | None => [] end)
    (extra m)).

Definition code_name (c : ErrorCode) : string :=
  match c with
  | INTERNAL_ERROR => "INTERNAL_ERROR" | INVALID_REQUEST => "INVALID_REQUEST" | UNAUTHORIZED => "UNAUTHORIZED"
  | NOT_READY => "NOT_READY" | TOOL_NOT_FOUND => "TOOL_NOT_FOUND" | INVALID_SYMBOL => "INVALID_SYMBOL"
  | STALE_DATA => "STALE_DATA" | RATE_LIMITED => "RATE_LIMITED" | TIMEOUT => "TIMEOUT"
  | INSUFFICIENT_BALANCE => "INSUFFICIENT_BALANCE" | PIPELINE_UNAVAILABLE => "PIPELINE_UNAVAILABLE"
  | ACCOUNT_NOT_FOUND => "ACCOUNT_NOT_FOUND" | ACCOUNT_EXISTS => "ACCOUNT_EXISTS" | ACCOUNT_IN_USE => "ACCOUNT_IN_USE"
  | ACCOUNT_NO_CREDENTIALS => "ACCOUNT_NO_CREDENTIALS"
  | CREDENTIAL_STORE_UNAVAILABLE => "CREDENTIAL_STORE_UNAVAILABLE"
  | CREDENTIAL_DECRYPT_FAILED => "CREDENTIAL_DECRYPT_FAILED" | RISK_LIMIT_EXCEEDED => "RISK_LIMIT_EXCEEDED"
  | SYMBOL_NOT_ALLOWED => "SYMBOL_NOT_ALLOWED" | OVERRIDE_NOT_AVAILABLE => "OVERRIDE_NOT_AVAILABLE"
  | TRADING_NOT_ENABLED => "TRADING_NOT_ENABLED" | FILTER_VIOLATION => "FILTER_VIOLATION"
  | ORDER_REJECTED => "ORDER_REJECTED" | ORDER_EXPIRED => "ORDER_EXPIRED" | ORDER_UNKNOWN => "ORDER_UNKNOWN"
  | ORDER_RECONCILE_REQUIRED => "ORDER_RECONCILE_REQUIRED" | ORDER_NOT_FOUND => "ORDER_NOT_FOUND"
  | NOT_IMPLEMENTED => "NOT_IMPLEMENTED" | NOT_FOUND => "NOT_FOUND"
  end.
Lemma code_name_inj c c' : code_name c = code_name c' → c = c'.
Proof. destruct c, c'; (reflexivity || discriminate). Qed.

(** [if v is not None: d[key] = v], and [if request_id: d["request_id"] = request_id]. *)
Definition unless_none (key : string) (v : pyval) : list (string * pyval) :=
  match v with PNone => [] | _ => [(key, v)] end.
Definition echoed (id : pyval) : list (string * pyval) := if truthy id then [("request_id", id)] else [].

Definition ok_response (data : pyval) (m : Meta) (request_id : pyval) : pyval :=
  PDict ([("ok", PBool true)] ++ unless_none "data" data ++ [("meta", meta_to_dict m)] ++ echoed request_id).

Definition error_response (code message : string) (details : pyval) (m : Meta) (request_id : pyval) : pyval :=
  PDict ([("ok", PBool false);
          ("error", PDict ([("code", PStr code); ("message", PStr message)] ++ unless_none "details" details));
          ("meta", meta_to_dict m)] ++ echoed request_id).

(** What a reader of an envelope looks for. *)
Definition envelope_get (key : string) (v : pyval) : pyval :=
  match v with PDict d => default PNone (assoc key d) | _ => PNone end.
Definition envelope_ok (v : pyval) : bool := match envelope_get "ok" v with PBool b => b | _ => false end.
Definition error_code_of (v : pyval) : pyval := envelope_get "code" (envelope_get "error" v).

Lemma envelope_of_ok data m id :
  envelope_ok (ok_response data m id) = true ∧ envelope_get "data" (ok_response data m id) = data ∧
  envelope_get "meta" (ok_response data m id) = meta_to_dict m ∧
  envelope_get "request_id" (ok_response data m id) = (if truthy id then id else PNone).
Proof.
  unfold envelope_ok, envelope_get, ok_response, echoed, unless_none.
  destruct data, (truthy id); simpl; repeat split; done.
Qed.
Lemma envelope_of_error c msg details m id :
  envelope_ok (error_response (code_name c) msg details m id) = false ∧
  error_code_of (error_response (code_name c) msg details m id) = PStr (code_name c).
Proof. done. Qed.

Definition error_response_from_exc (iso message : string) (details : pyval) (e : pyexn) (request_id : pyval) : pyval :=
  match e with
  | RasatError c => error_response (code_name c) message details (meta_at iso) request_id
  | _ => error_response "INTERNAL_ERROR" message PNone (meta_at iso) request_id
  end.

(** ** The wire *)

(** [await resp.json()]: a value, another content type ([aiohttp.ContentTypeError]), or
    a text that is no JSON ([ValueError]). *)
Inductive body := Json (v : pyval) | NotJson | BadJson.
(** What an HTTP exchange comes to for the client. *)
Inductive exchange :=
| Answered (status : Z) (b : body)
| Unreachable                                (* [aiohttp.ClientError] *)
| TimedOut.

Definition read_json (b : body) : result pyval :=
  match b with Json v => Ok v | NotJson => Err ClientError | BadJson => Err ValueError end.

(** [except aiohttp.ClientError: raise DaemonUnavailableError(...)] *)
Definition or_unavailable {A} (r : result A) : result A :=
  match r with Err ClientError => raise INTERNAL_ERROR | _ => r end.

(** ** [DaemonClient] *)

Definition health_call (x : exchange) : result pyval :=
  or_unavailable match x with
  | Answered status b =>
      if (status =? 401)%Z then raise UNAUTHORIZED
      else if (400 <=? status)%Z then Err ClientError
      else read_json b
  | Unreachable => Err ClientError
  | TimedOut => Err TimeoutError
  end.

Definition rpc_payload (tool : string) (params : list (string * pyval)) : list (string * pyval) :=
  [("tool", PStr tool); ("params", PDict params)] ++
  flat_map (λ key, match assoc key params with Some v => [(key, v)] | None => [] end) ["request_id"; "idempotency_key"].

Definition bearer (token : string) : string := "Bearer " ++ token.

Definition call_tool (x : exchange) : result pyval :=
  or_unavailable match x with
  | Answered status b =>
      body ← read_json b;
      match body with
      | PDict _ =>
          Ok (if (status =? 401)%Z
              then PDict [("ok", PBool false);
                          ("error", PDict [("code", PStr (code_name UNAUTHORIZED)); ("message", PStr "invalid token")])]
              else body)
      | _ => raise INTERNAL_ERROR
      end
  | Unreachable => Err ClientError
  | TimedOut => Err TimeoutError
  end.

(** ** The adapter *)

Record CallToolResult := mk_call_result { text : pyval; isError : bool }.

Definition _envelope_to_result (envelope : pyval) : CallToolResult := mk_call_result envelope (negb (envelope_ok envelope)).

Definition _error_result (code message : string) : CallToolResult :=
  _envelope_to_result (PDict [("ok", PBool false); ("error", PDict [("code", PStr code); ("message", PStr message)])]).

(** [_call_tool], given what its request comes to; [message] is the text of the error.
    Its first handler is for the [DaemonUnavailableError] of the launcher; the one the
    client raises is another class, and goes with the rest. *)
Definition _call_tool (message : pyexn → string) (x : exchange) : CallToolResult :=
  match call_tool x with
  | Ok envelope => _envelope_to_result envelope
  | Err e => _error_result (code_name INTERNAL_ERROR) (message e)
  end.

Definition build_mcp_tools : list (string * schema) := map (λ kv : string * ToolSpec, (name kv.2, input_schema kv.2)) registry.

(** ** The probes of [adapter/launcher.py] *)

Definition probe_ok (x : exchange) : bool :=
  match health_call x with Ok h => match h with PDict _ => envelope_ok h | _ => false end | Err _ => false end.

(** [health.get("data", {}).get("state")]: a state that is no text is not ["ready"]. *)
Definition probe_state (x : exchange) : option string :=
  match health_call x with
  | Ok h => match envelope_get "state" (envelope_get "data" h) with PStr s => Some s | _ => None end
  | Err _ => None
  end.

(** ** What the daemon answers *)

Section Daemon.
Context {S D : Type}.
Context (json_loads : string → option pyval) (json_dumps : pyval → string).
Context (run_handler : handler → list (string * pyval) → ST S D) (token : string).
(** How data is rendered, with its meta; the times of the answers and their texts. *)
Context (to_json : D → pyval) (meta_of : D → Meta) (iso : string) (message : pyexn → string).

(** The answer of the server to a reply of file [Server]; what escapes its middleware
    is answered by aiohttp with a page of text. *)
Definition http_answer (r : result (response D)) : exchange :=
  match r with
  | Ok (OkResponse data id) => Answered 200 (Json (ok_response (to_json data) (meta_of data) (default PNone id)))
  | Ok (ErrorResponse c status) =>
      Answered status (Json (error_response_from_exc iso (message (RasatError c)) PNone (RasatError c) PNone))
  | Err _ => Answered 500 NotJson
  end.

(** [GET /health] behind [auth_middleware]. *)
Definition health_data (readiness : Readiness.t) (pid version : pyval) (port : Z) (started_at uptime : pyval) : pyval :=
  PDict [("state", PStr (Readiness.state readiness)); ("ready", PBool (Readiness.is_ready readiness)); ("pid", pid);
         ("version", version); ("port", PInt port); ("started_at", started_at); ("uptime_s", uptime)].

Definition health_handler (readiness : Readiness.t) (pid version : pyval) (port : Z) (started_at uptime : pyval)
    (authorization : option string) : exchange :=
  match _verify_token token authorization with
  | Ok true => Answered 200 (Json (ok_response (health_data readiness pid version port started_at uptime) (meta_at iso) PNone))
  | Ok false => Answered 401 (Json (error_response (code_name UNAUTHORIZED) (message (RasatError UNAUTHORIZED)) PNone (meta_at iso) PNone))
  | Err _ => Answered 500 NotJson
  end.

(** One tool call of the agent, from the adapter to the daemon and back. *)
Definition agent_call (readiness : Readiness.t) (client_token tool : string) (arguments : list (string * pyval)) (s : S)
    : CallToolResult * S :=
  let req := mk_request (Some (bearer client_token)) (json_dumps (PDict (rpc_payload tool arguments))) in
  let '(r, s') := serve_rpc json_loads run_handler token readiness req s in
  (_call_tool message (http_answer r), s').
End Daemon.

(** ** What the agent is told *)

Definition told (c : ErrorCode) (r : CallToolResult) : Prop :=
  isError r = true ∧ error_code_of (text r) = PStr (code_name c).

(** The code that stands for what a handler raised. *)
Definition code_told (e : pyexn) : ErrorCode :=
  match e with RasatError c => c | KeyError => INVALID_REQUEST | _ => INTERNAL_ERROR end.

Lemma verify_bearer token client_token : is_ascii token = true → is_ascii client_token = true →
  client_token ≠ "" → _verify_token token (Some (bearer client_token)) = Ok (String.eqb client_token token).
Proof.
  intros Ha Hc Hne. unfold _verify_token.
  assert (Str.empty (bearer client_token) = false) as -> by reflexivity.
  assert (partition_space (bearer client_token) = ("Bearer", client_token)) as -> by reflexivity.
  assert (Str.empty client_token = false) as -> by (by apply String.eqb_neq).
  unfold compare_digest. by rewrite Hc, Ha.
Qed.

(** A key set to the value it has. *)
Lemma assoc_set_own {A} k (v : A) d : assoc k d = Some v → assoc_set k v d = d.
Proof.
  induction d as [|[k' v'] d IH]; simpl; [done|]. destruct (String.eqb_spec k' k) as [->|]; [by intros [= ->]|].
  intros Hd. by rewrite IH.
Qed.

(** The fields the adapter copies to the top are texts in every schema. *)
Definition wire_text (key : string) (s : schema) : bool :=
  match s with
  | Schema (Some TObject) None _ props _ _ _ =>
      match assoc key props with Some (Schema (Some TString) _ _ _ _ _ _) => true | _ => false end
  | _ => false
  end.
Lemma registry_wire_text :
  forallb (λ ns : string * ToolSpec, forallb (λ key, wire_text key (input_schema ns.2)) TRANSPORT_FIELDS) registry = true.
Proof. vm_compute. reflexivity. Qed.

Lemma assoc_registry_in tool spec : assoc tool registry = Some spec → In (tool, spec) registry.
Proof. intros Hs. by apply list_elem_of_In, assoc_elem. Qed.

Lemma wire_texts tool spec p key v : assoc tool registry = Some spec → conforms (input_schema spec) (PDict p) →
  In key TRANSPORT_FIELDS → assoc key p = Some v → ∃ s, v = PStr s.
Proof.
  intros Hs Hc Hkey Hv.
  pose proof (proj1 (forallb_forall _ _) registry_wire_text _ (assoc_registry_in _ _ Hs)) as Hall.
  pose proof (proj1 (forallb_forall _ _) Hall _ Hkey) as Hw. clear Hall. unfold wire_text in Hw. cbn [snd] in Hw. destruct (input_schema spec) as [[[]|] [] lim props req closed items]; try done.
  destruct (assoc key props) as [[[[]|] e l ps rs cl its]|] eqn:Ek; try done.
  inversion Hc as [|? ? ? ? ? ? ? _ _ Hf _ | | | | |]; subst.
  specialize (Hf key _ v (assoc_elem _ _ _ Ek) Hv). inversion Hf; subst; eauto.
Qed.

(** ** The payload and the gates of the endpoint *)

Section Payload.
Context (tool : string) (params : list (string * pyval)).

Lemma payload_field key : In key TRANSPORT_FIELDS → assoc key (rpc_payload tool params) = assoc key params.
Proof.
  unfold rpc_payload. simpl. intros [<-|[<-|[]]];
    destruct (assoc "request_id" params) eqn:E1, (assoc "idempotency_key" params) eqn:E2; reflexivity.
Qed.

Lemma merge_own key merged : In key TRANSPORT_FIELDS → merged = params →
  (∀ v, assoc key params = Some v → v = PNone ∨ py_eq v v = true) →
  merge_field (rpc_payload tool params) key merged params = Ok params.
Proof.
  intros Hkey -> Hself. unfold merge_field. rewrite payload_field by done.
  destruct (assoc key params) as [v|] eqn:Ev; [|done]. simpl.
  destruct (Hself v eq_refl) as [->|Heq]; [done|]. rewrite Heq, andb_false_r, (assoc_set_own _ _ _ Ev).
  by destruct v.
Qed.

Lemma merge_payload : (∀ key v, In key TRANSPORT_FIELDS → assoc key params = Some v → v = PNone ∨ py_eq v v = true) →
  _merge_transport_fields (rpc_payload tool params) params = Ok params.
Proof.
  intros Hself. unfold _merge_transport_fields. rewrite merge_own; [|by left|done|intros v; by apply Hself; left].
  simpl. apply merge_own; [by right; left|done|]. intros v. by apply Hself; right; left.
Qed.

(** Merged, the arguments are themselves or refused. *)
Lemma merge_own_keeps key p : In key TRANSPORT_FIELDS → merge_field (rpc_payload tool params) key params params = Ok p → p = params.
Proof.
  intros Hkey. unfold merge_field. rewrite payload_field by done.
  destruct (assoc key params) as [v|] eqn:Ev; [|by intros [= <-]]. simpl. rewrite (assoc_set_own _ _ _ Ev).
  destruct v; try (by intros [= <-]); (destruct (py_eq _ _); simpl; [by intros [= <-]|done]).
Qed.
Lemma merge_keeps p : _merge_transport_fields (rpc_payload tool params) params = Ok p → p = params.
Proof.
  unfold _merge_transport_fields. intros (q & Hq & Hp)%res_bind_Ok. apply merge_own_keeps in Hq as ->; [|by left].
  by apply merge_own_keeps in Hp; [|by right; left].
Qed.

Lemma payload_params : params_of (rpc_payload tool params) = Ok params.
Proof. unfold params_of. simpl. by destruct params. Qed.
End Payload.

Section Call.
Context {S D : Type}.
Context (json_loads : string → option pyval) (json_dumps : pyval → string).
Context (run_handler : handler → list (string * pyval) → ST S D) (token : string).
Context (to_json : D → pyval) (meta_of : D → Meta) (iso : string) (message : pyexn → string).
Context (readiness : Readiness.t) (tool : string) (arguments : list (string * pyval)).

(** The daemon reads what the adapter wrote. *)
Definition carried : Prop :=
  let payload := PDict (rpc_payload tool arguments) in
  json_loads (json_dumps payload) = Some payload ∧ (Z.of_nat (String.length (json_dumps payload)) ≤ MAX_BODY_BYTES)%Z.

Lemma admit_payload ready : carried → tool ≠ "" →
  admit_request json_loads ready (json_dumps (PDict (rpc_payload tool arguments))) =
  match assoc tool registry with
  | None => raise TOOL_NOT_FOUND
  | Some spec =>
      if negb (allowed_before_ready spec) && negb ready then raise NOT_READY
      else params ← _merge_transport_fields (rpc_payload tool arguments) arguments;
           _ ← validate_params (PDict params) (input_schema spec); Ok (tool, params)
  end.
Proof.
  intros [Hl Hz] Hne. unfold admit_request. rewrite Hl.
  assert ((MAX_BODY_BYTES <? Z.of_nat (String.length (json_dumps (PDict (rpc_payload tool arguments)))))%Z = false) as ->
    by (apply Z.ltb_ge; lia).
  assert (Str.empty tool = false) as Ht by (by apply String.eqb_neq).
  unfold reject_if, raise_if, mbind, res_bind. cbv iota beta.
  assert (assoc "tool" (rpc_payload tool arguments) = Some (PStr tool)) as -> by reflexivity.
  rewrite Ht, payload_params. cbv iota beta.
  destruct (assoc tool registry) as [spec|]; [|done]. destruct (negb _ && negb ready); done.
Qed.
(** What the endpoint makes of the request of the adapter. *)
Lemma call_run client_token (s : S) : carried → tool ≠ "" →
  is_ascii token = true → is_ascii client_token = true → client_token ≠ "" →
  agent_call json_loads json_dumps run_handler token to_json meta_of iso message readiness client_token tool arguments s =
  if negb (String.eqb client_token token) then (_call_tool message (http_answer to_json meta_of iso message (Ok (ErrorResponse UNAUTHORIZED 401))), s)
  else
    let '(r, s') := rpc_handler json_loads run_handler (Readiness.is_ready readiness)
                      (json_dumps (PDict (rpc_payload tool arguments))) s in
    (_call_tool message (http_answer to_json meta_of iso message (Ok (middleware_reply r))), s').
Proof.
  intros Hc Hne Ha Hac Hnc. unfold agent_call, serve_rpc, auth_middleware, lift, mbind, ST_bind. cbn [authorization raw].
  rewrite verify_bearer by done. destruct (String.eqb client_token token); simpl; [|done].
  unfold error_middleware, attempt, mbind, ST_bind. by destruct (rpc_handler _ _ _ _ s).
Qed.

Lemma told_error c status : (status = 401%Z → c = UNAUTHORIZED) →
  told c (_call_tool message (http_answer to_json meta_of iso message (Ok (ErrorResponse c status)))).
Proof.
  intros Hst. unfold told, _call_tool, call_tool. simpl. destruct (Z.eqb_spec status 401) as [->|]; simpl; [|done].
  by rewrite Hst.
Qed.

Lemma status_401 c : http_status_for c = 401%Z → c = UNAUTHORIZED.
Proof. by destruct c. Qed.

Lemma told_reply e :
  told (match e with RasatError c => c | _ => INTERNAL_ERROR end)
    (_call_tool message (http_answer to_json meta_of iso message (Ok (middleware_reply (Err e))))).
Proof. destruct e; apply told_error; (apply status_401 || done). Qed.

Lemma shown_data data id :
  let res := _call_tool message (http_answer to_json meta_of iso message (Ok (OkResponse data id))) in
  isError res = false ∧ envelope_get "data" (text res) = to_json data ∧
  envelope_get "meta" (text res) = meta_to_dict (meta_of data).
Proof.
  assert (_call_tool message (http_answer to_json meta_of iso message (Ok (OkResponse data id)))
    = _envelope_to_result (ok_response (to_json data) (meta_of data) (default PNone id))) as -> by reflexivity.
  destruct (envelope_of_ok (to_json data) (meta_of data) (default PNone id)) as (Hok & Hdata & Hmeta & _).
  unfold _envelope_to_result. cbn [isError text]. rewrite Hok, Hdata, Hmeta. done.
Qed.

Lemma admitted_unchanged spec : assoc tool registry = Some spec → is_ok (validate_params (PDict arguments) (input_schema spec)) = true →
  _merge_transport_fields (rpc_payload tool arguments) arguments = Ok arguments.
Proof.
  intros Hs Hv. apply merge_payload. intros key v Hkey Hkv. right.
  assert (conforms (input_schema spec) (PDict arguments)) as Hc.
  { apply validate_params_iff. by destruct (validate_params _ _) as [[]|]. }
  destruct (wire_texts _ _ _ _ _ Hs Hc Hkey Hkv) as [t ->]. apply String.eqb_refl.
Qed.

(** C7: the agent sees what the daemon did.  The call of a tool, with the token of the
    daemon, runs exactly that tool with exactly the arguments of the agent: the fields
    the adapter copies to the top of the body never conflict with them.  The agent is
    shown the data and no error exactly when the handler answered, and the code of what
    it raised otherwise.  A call that is refused, for the tool, the readiness or the
    arguments, changes nothing, and the agent is told an error. *)
Theorem agent_sees_the_daemon (s : S) :
  carried → tool ≠ "" → is_ascii token = true → token ≠ "" →
  let '(res, s') := agent_call json_loads json_dumps run_handler token to_json meta_of iso message readiness token tool arguments s in
  match assoc tool registry with
  | None => s' = s ∧ told TOOL_NOT_FOUND res
  | Some spec =>
      if negb (allowed_before_ready spec) && negb (Readiness.is_ready readiness) then s' = s ∧ told NOT_READY res
      else if negb (is_ok (validate_params (PDict arguments) (input_schema spec))) then s' = s ∧ ∃ c, told c res
      else
        let '(r, s'') := dispatch run_handler tool arguments s in
        s' = s'' ∧
        match r with
        | Ok data =>
            isError res = false ∧ envelope_get "data" (text res) = to_json data ∧
            envelope_get "meta" (text res) = meta_to_dict (meta_of data)
        | Err e => told (code_told e) res
        end
  end.
Proof.
  intros Hc Hne Ha Hnt. rewrite call_run by done. rewrite String.eqb_refl. cbn [negb].
  pose proof (admit_payload (Readiness.is_ready readiness) Hc Hne) as Hadm.
  set (raw := json_dumps _) in *. clearbody raw.
  destruct (assoc tool registry) as [spec|] eqn:Es;
    [|rewrite (rpc_handler_rejected json_loads run_handler _ _ _ s Hadm); split; [done|apply told_reply]].
  destruct (negb (allowed_before_ready spec) && negb (Readiness.is_ready readiness));
    [rewrite (rpc_handler_rejected json_loads run_handler _ _ _ s Hadm); split; [done|apply told_reply]|].
  destruct (is_ok (validate_params (PDict arguments) (input_schema spec))) eqn:Ev; cbn [negb].
  - rewrite (admitted_unchanged spec Es Ev) in Hadm. cbn [mbind res_bind] in Hadm.
    destruct (validate_params (PDict arguments) (input_schema spec)) as [u|] eqn:Eu; [|done].

    rewrite (rpc_handler_admitted json_loads run_handler _ _ _ _ s Hadm). destruct (dispatch run_handler tool arguments s) as [r s'']. simpl.
    split; [done|]. destruct r as [data|e]; simpl.
    + apply shown_data.
    + destruct e; apply told_error; (apply status_401 || done).
  - assert (∃ e, admit_request json_loads (Readiness.is_ready readiness) raw = Err e) as [e He].
    { rewrite Hadm. unfold mbind, res_bind.
      destruct (_merge_transport_fields (rpc_payload tool arguments) arguments) as [p|e] eqn:Em; [|by exists e].
      apply merge_keeps in Em as ->.
      destruct (validate_params _ _) as [|e]; [done|by exists e]. }
    rewrite (rpc_handler_rejected json_loads run_handler _ _ _ s He). split; [done|]. eexists. apply told_reply.
Qed.
End Call.

(** With another token nothing happens, and the agent is told so. *)
Lemma stranger_refused {S D} json_loads json_dumps (run_handler : handler → list (string * pyval) → ST S D) token
    to_json meta_of iso message readiness tool arguments client_token (s : S) :
  carried json_loads json_dumps tool arguments → tool ≠ "" →
  is_ascii token = true → is_ascii client_token = true → client_token ≠ "" → client_token ≠ token →
  let '(res, s') := agent_call json_loads json_dumps run_handler token to_json meta_of iso message readiness client_token tool arguments s in
  s' = s ∧ told UNAUTHORIZED res.
Proof.
  intros Hc Hne Ha Hac Hnc Hd. rewrite call_run by done.
  assert (String.eqb client_token token = false) as -> by (by apply String.eqb_neq). cbn [negb].
  split; [done|]. by apply told_error.
Qed.

(** ** The probes of the launcher *)

(** The daemon answers a probe, and tells its state, exactly when it is asked with its
    own token. *)
Lemma probe_tells_the_owner token iso message readiness pid version port started_at uptime client_token :
  is_ascii token = true → is_ascii client_token = true → client_token ≠ "" →
  let x := health_handler token iso message readiness pid version port started_at uptime (Some (bearer client_token)) in
  probe_ok x = String.eqb client_token token ∧
  probe_state x = (if String.eqb client_token token then Some (Readiness.state readiness) else None).
Proof.
  intros Ha Hac Hne. simpl. unfold health_handler. rewrite verify_bearer by done.
  by destruct (String.eqb client_token token).
Qed.

(** So an adapter keeps the daemon whose live lock it reads and that answers with the
    token of that lock, whatever its state: it touches nothing and starts nothing. *)
Lemma own_daemon_kept `{LauncherConfig} str_other polls sh lock probes spawned iso message readiness pid version port started_at uptime :
  seen_lock str_other sh = Some lock → is_ascii (lk_token lock) = true → lk_token lock ≠ "" →
  let answer := probe_ok (health_handler (lk_token lock) iso message readiness pid version port started_at uptime
                            (Some (bearer (lk_token lock)))) in
  let '(r, v) := find_daemon str_other polls (mk_view sh (answer :: probes) spawned) in
  r = Ok lock ∧ vw_shared v = sh ∧ vw_spawned v = spawned.
Proof.
  intros Hs Ha Hne. cbv zeta.
  destruct (probe_tells_the_owner (lk_token lock) iso message readiness pid version port started_at uptime (lk_token lock) Ha Ha Hne) as [-> _].
  rewrite String.eqb_refl.
  pose proof (find_daemon_run str_other polls (mk_view sh (true :: probes) spawned)) as Hrun.
  destruct (find_daemon _ _ _) as [r v]. cbv zeta in Hrun. simpl vw_shared in Hrun. rewrite Hs in Hrun. simpl in Hrun.
  destruct Hrun as (_ & Hsh & Hk & ->). done.
Qed.

(** ** A sample agent *)

#[local] Existing Instances outside_ext sample_env plain_store filling_broker fee_config
  futures_rest pipeline_feed pipeline_config no_notifier.

Definition buy_arguments : list (string * pyval) :=
  [("account_id", PStr "acc"); ("symbol", PStr "BTCUSDT"); ("side", PStr "BUY"); ("order_type", PStr "MARKET");
   ("quantity", PInt 2); ("idempotency_key", PStr "k")].
Definition one_text (_ : pyval) : string := "body".
Definition one_body (_ : string) : option pyval := Some (PDict (rpc_payload "place_order" buy_arguments)).
Definition sample_call (token : string) (h : health) :=
  agent_call one_body one_text (run_handler true 1 1 ready) "token" (λ _, PStr "an order") (λ _, meta_at "now") "now" (λ _, "")
    ready token "place_order" buy_arguments (trading_pipeline h).

(** Bought; refused for its price; refused for the token. *)
Example sample_calls :
  (let '(r, p) := sample_call "token" (mk_health true 990) in
   isError r = false ∧ envelope_get "data" (text r) = PStr "an order" ∧ length (submissions (w_trace (sv_world (pl_services p)))) = 1%nat) ∧
  told STALE_DATA (sample_call "token" (mk_health true 900)).1 ∧
  told UNAUTHORIZED (sample_call "other" (mk_health true 990)).1.
Proof. vm_compute. done. Qed.

Lemma agent_sees_the_daemon_witness :
  carried one_body one_text "place_order" buy_arguments ∧
  (sample_call "token" (mk_health true 990)).2 = (dispatch (run_handler true 1 1 ready) "place_order" buy_arguments (trading_pipeline (mk_health true 990))).2.
Proof.
  assert (carried one_body one_text "place_order" buy_arguments) as Hc by (split; [reflexivity|vm_compute; discriminate]).
  split; [exact Hc|].
  assert ("place_order" ≠ "" ∧ is_ascii "token" = true ∧ "token" ≠ "") as (Hne & Ha & Hnt) by (by repeat split).
  pose proof (agent_sees_the_daemon one_body one_text (run_handler true 1 1 ready) "token" (λ _, PStr "an order") (λ _, meta_at "now") "now"
    (λ _, "") ready "place_order" buy_arguments (trading_pipeline (mk_health true 990)) Hc Hne Ha Hnt) as Ht.
  fold (sample_call "token" (mk_health true 990)) in Ht. destruct (sample_call "token" (mk_health true 990)) as [res p'].
  assert (assoc "place_order" registry = Some place_order_tool) as Hr by reflexivity. rewrite Hr in Ht.
  assert (negb (allowed_before_ready place_order_tool) && negb (Readiness.is_ready ready) = false) as Hg by reflexivity. rewrite Hg in Ht.
  assert (negb (is_ok (validate_params (PDict buy_arguments) (input_schema place_order_tool))) = false) as Hv by (vm_compute; reflexivity).
  rewrite Hv in Ht. destruct (dispatch _ _ _ _) as [r p'']. exact (proj1 Ht).
Defined.
