(* ===== verification/Config.v ===== *)
(** [config.py] and the command lines of [daemon/main.py], [adapter/main.py] and
    [emergency_stop.py]: where the settings of the components come from.

    A data directory is a [Path], or the text a command line left in its place. *)

From Stdlib Require Import ZArith String.
From stdpp Require Import pretty.
From S2P Require Import Prelude PyFloat PyVal Errors Monad Feed Ticker Pipeline Launcher RateLimit.
Local Open Scope string_scope.
Local Open Scope list_scope.

(** ** [config.py] *)

Inductive location := IsPath (p : string) | IsStr (s : string).

Definition DEFAULT_PORT : Z := 8751.
Definition DEFAULT_CANDLES_RETENTION_DAYS : list (string * Z) :=
  [("15m", 90%Z); ("1h", 180%Z); ("4h", 365%Z); ("1d", 730%Z)].

Record Config := mk_config {
  data_dir : location;
  host : string;
  port : Z;
  pipeline_enabled : bool;
  rate_limit_max_weight : Z;
  rest_spot_base : string;
  rest_futures_base : string;
  ws_spot_base : string;
  ws_futures_base : string;
  cf_kline_intervals : list string;
  cf_universe_refresh_seconds : Z;
  futures_poll_seconds : Z;
  liquidation_poll_seconds : Z;
  cf_futures_universe_ttl_seconds : Z;
  cf_kline_backfill_bars : Z;
  cf_kline_catchup_bars : Z;
  kline_workers : Z;
  cf_candles_retention_days : list (string * Z);
  ready_timeout_seconds : Z;
  cf_lock_probe_retries : Z;
  lock_probe_delay : float;
  rate_limit_window_seconds : Z;
  http_timeout_seconds : Z;
  alarm_eval_seconds : Z;
  alarm_compute_budget : Z;
  alarm_notify_command : option string;
  pa_check_seconds : Z;
  pa_worker_concurrency : Z;
  cf_futures_stale_after_seconds : Z }.

(** [Config(data_dir=..., port=..., ...)]: the five settings that are ever given. *)
Definition new_config (dir : location) (p : Z) (enabled : bool) (weight : Z) (notify : option string) : Config :=
  mk_config dir "127.0.0.1" p enabled weight
    "https://api.binance.com" "https://fapi.binance.com" "wss://stream.binance.com:9443" "wss://fstream.binance.com"
    ["15m"; "1h"; "4h"; "1d"] 1800 300 60 3600 300 5 8 DEFAULT_CANDLES_RETENTION_DAYS
    120 5 (fQ 4 10) 60 20 30 8 notify 20 4 1800.

Inductive setting := SetDataDir (d : location) | SetPort (p : Z) | SetPipelineEnabled (b : bool).

(** [kwargs.update(overrides)] *)
Definition override (c : Config) (o : setting) : Config :=
  let make dir p enabled := new_config dir p enabled (rate_limit_max_weight c) (alarm_notify_command c) in
  match o with
  | SetDataDir d => make d (port c) (pipeline_enabled c)
  | SetPort p => make (data_dir c) p (pipeline_enabled c)
  | SetPipelineEnabled b => make (data_dir c) (port c) b
  end.

Section Config.
(** The directory of the user, and [a / b] of paths. *)
Context (home : string) (path_join : string → string → string).

Definition DEFAULT_DATA_DIR : string := path_join home ".rasattrading".

(** [self.data_dir / name]: two texts cannot be divided. *)
Definition in_dir (d : location) (n : string) : result location :=
  match d with IsPath p => Ok (IsPath (path_join p n)) | IsStr _ => Err TypeError end.

Definition db_path (c : Config) : result location := in_dir (data_dir c) "rasattrading.db".
Definition lock_path (c : Config) : result location := in_dir (data_dir c) "daemon.lock".
Definition log_dir (c : Config) : result location := in_dir (data_dir c) "logs".
Definition daemon_log_path (c : Config) : result location := d ← log_dir c; in_dir d "daemon.log".
Definition ws_all_miniticker_url (c : Config) : string := ws_spot_base c ++ "/stream?streams=!miniTicker@arr".
Definition ws_force_order_url (c : Config) : string := ws_futures_base c ++ "/ws/!forceOrder@arr".

Definition env_get (env : list (string * string)) (key default_ : string) : string := default default_ (assoc key env).
Definition env_int (env : list (string * string)) (key default_ : string) : result Z := py_int (PStr (env_get env key default_)).

(** [cls( **kwargs)]; the environment is read first, whatever overrides it. *)
Definition from_env (env : list (string * string)) (overrides : list setting) : result Config :=
  let dir := IsPath (env_get env "RASATTRADING_DATA_DIR" DEFAULT_DATA_DIR) in
  p ← env_int env "RASATTRADING_PORT" "8751";
  let enabled := negb (str_in (Str.lower (env_get env "RASATTRADING_PIPELINE_ENABLED" "1")) ["0"; "false"; "no"]) in
  weight ← env_int env "RASATTRADING_RATE_LIMIT_WEIGHT" "6000";
  let notify := assoc "RASATTRADING_ALARM_NOTIFY_COMMAND" env in
  Ok (foldl override (new_config dir p enabled weight notify) overrides).

(** ** The command lines *)

Record arguments := mk_arguments {
  arg_data_dir : option string;
  arg_port : option Z;
  arg_no_pipeline : bool }.

(** [overrides] of the two [main]s: an empty directory and port 0 count as not given. *)
Definition main_overrides (a : arguments) : list setting :=
  (match arg_data_dir a with Some d => if Str.empty d then [] else [SetDataDir (IsStr d)] | None => [] end) ++
  (match arg_port a with Some p => if (p =? 0)%Z then [] else [SetPort p] | None => [] end) ++
  (if arg_no_pipeline a then [SetPipelineEnabled false] else []).
Definition main_config (env : list (string * string)) (a : arguments) : result Config := from_env env (main_overrides a).

(** The emergency stop makes a [Path] of its directory, and a configuration of that alone. *)
Definition emergency_config (env : list (string * string)) (dir : option string) : result Config :=
  cfg ← from_env env (match dir with Some d => if Str.empty d then [] else [SetDataDir (IsPath d)] | None => [] end);
  Ok (new_config (data_dir cfg) DEFAULT_PORT true 6000 None).

(** The environment [_spawn_daemon] gives the daemon it starts. *)
Definition spawn_env (c : Config) (env : list (string * string)) : list (string * string) :=
  let dir := match data_dir c with IsPath p => p | IsStr s => s end in
  assoc_set "RASATTRADING_PIPELINE_ENABLED" (if pipeline_enabled c then "1" else "0")
    (assoc_set "RASATTRADING_PORT" (pretty (port c))
      (assoc_set "RASATTRADING_DATA_DIR" dir env)).
End Config.

(** ** The settings of the components *)

Definition config_feed (c : Config) : FeedConfig := {|
  kline_intervals := cf_kline_intervals c;
  universe_refresh_seconds := cf_universe_refresh_seconds c;
  futures_universe_ttl_seconds := cf_futures_universe_ttl_seconds c;
  kline_backfill_bars := cf_kline_backfill_bars c;
  kline_catchup_bars := cf_kline_catchup_bars c |}.
Definition config_pipeline (c : Config) : PipelineConfig := {|
  futures_stale_after_seconds := cf_futures_stale_after_seconds c;
  candles_retention_days := cf_candles_retention_days c |}.
Definition config_launcher (c : Config) : LauncherConfig := {| lock_probe_retries := Z.to_nat (cf_lock_probe_retries c) |}.

(** ** A port in an environment *)

(** A port is read back from its digits. *)
Definition reads_back (p : Z) : bool :=
  match py_int (C:=ErrorCode) (PStr (pretty p)) with Ok z => (z =? p)%Z | Err _ => false end.
Fixpoint all_read_back (n : nat) (p : Z) : bool :=
  match n with O => true | S n' => reads_back p && all_read_back n' (p + 1) end.
Lemma all_read_back_spec n from p : all_read_back n from = true → (from ≤ p < from + Z.of_nat n)%Z → reads_back p = true.
Proof.
  revert from. induction n as [|n IH]; intros from Hall Hp; [lia|]. simpl in Hall. apply andb_true_iff in Hall as [Hf Hn].
  destruct (decide (p = from)) as [->|]; [done|]. apply (IH (from + 1)%Z Hn). lia.
Qed.
Lemma ports_read_back : all_read_back (Z.to_nat 65536) 0 = true.
Proof. vm_compute. reflexivity. Qed.
Lemma port_read (p : Z) : (0 ≤ p < 65536)%Z → py_int (C:=ErrorCode) (PStr (pretty p)) = Ok p.
Proof.
  intros Hp. assert (reads_back p = true) as Hr.
  { apply (all_read_back_spec (Z.to_nat 65536) 0); [exact ports_read_back|]. rewrite Z2Nat.id; lia. }
  unfold reads_back in Hr. destruct (py_int (PStr (pretty p))) as [z|]; [|done]. f_equal. by apply Z.eqb_eq.
Qed.

(** ** What the settings come to *)

Section Settings.
Context (home : string) (path_join : string → string → string).

Lemma from_env_shape env overrides c : from_env home path_join env overrides = Ok c →
  ∃ weight, env_int env "RASATTRADING_RATE_LIMIT_WEIGHT" "6000" = Ok weight ∧
  c = new_config (data_dir c) (port c) (pipeline_enabled c) weight (assoc "RASATTRADING_ALARM_NOTIFY_COMMAND" env).
Proof.
  unfold from_env. intros Hf. inv_res. eexists. split; [eassumption|].
  set (c0 := new_config _ _ _ _ _).
  assert (∀ c1, (c1 = new_config (data_dir c1) (port c1) (pipeline_enabled c1) x0 (assoc "RASATTRADING_ALARM_NOTIFY_COMMAND" env)) →
    foldl override c1 overrides = new_config (data_dir (foldl override c1 overrides)) (port (foldl override c1 overrides))
      (pipeline_enabled (foldl override c1 overrides)) x0 (assoc "RASATTRADING_ALARM_NOTIFY_COMMAND" env)) as Hfold.
  { induction overrides as [|o l IH]; intros c1 Hc1; [done|]. simpl. apply IH. rewrite Hc1. by destruct o. }
  by apply Hfold.
Qed.

Lemma spawn_env_get c env d : data_dir c = IsPath d →
  assoc "RASATTRADING_DATA_DIR" (spawn_env c env) = Some d ∧
  assoc "RASATTRADING_PORT" (spawn_env c env) = Some (pretty (port c)) ∧
  assoc "RASATTRADING_PIPELINE_ENABLED" (spawn_env c env) = Some (if pipeline_enabled c then "1" else "0") ∧
  ∀ key, key ≠ "RASATTRADING_DATA_DIR" ∧ key ≠ "RASATTRADING_PORT" ∧ key ≠ "RASATTRADING_PIPELINE_ENABLED" →
    assoc key (spawn_env c env) = assoc key env.
Proof.
  intros Hd. unfold spawn_env. rewrite Hd. split; [|split; [|split]].
  - rewrite assoc_set_other, assoc_set_other by discriminate. apply assoc_set_same.
  - rewrite assoc_set_other by discriminate. apply assoc_set_same.
  - apply assoc_set_same.
  - intros key (? & ? & ?). by rewrite !assoc_set_other by done.
Qed.

(** The daemon an adapter starts has the settings of the adapter: the same directory, and
    so the same lock, the same port, and all the others. *)
Theorem spawned_daemon_agrees env overrides c d :
  from_env home path_join env overrides = Ok c → data_dir c = IsPath d → (0 ≤ port c < 65536)%Z →
  from_env home path_join (spawn_env c env) [] = Ok c.
Proof.
  intros (weight & Hw & Hc)%from_env_shape Hd Hp.
  destruct (spawn_env_get c env d Hd) as (H1 & H2 & H3 & Hrest).
  unfold from_env, env_int, env_get in *. rewrite H1, H2, H3, !Hrest by (split; [|split]; discriminate).
  cbn [default from_option id]. rewrite port_read by done. unfold mbind, res_bind. rewrite Hw. simpl foldl.
  rewrite Hc. simpl. rewrite Hd. by destruct (pipeline_enabled c).
Qed.

(** [--data-dir] of the daemon and of the adapter breaks every path made from it. *)
Theorem data_dir_option_breaks env a c d :
  arg_data_dir a = Some d → d ≠ "" → main_config home path_join env a = Ok c →
  lock_path path_join c = Err TypeError ∧ db_path path_join c = Err TypeError ∧ log_dir path_join c = Err TypeError.
Proof.
  intros Ha Hd. unfold main_config, main_overrides. rewrite Ha.
  assert (Str.empty d = false) as -> by (by apply String.eqb_neq). intros Hf.
  assert (data_dir c = IsStr d) as Hdir.
  { unfold from_env in Hf. inv_res. simpl.
    by destruct (arg_port a) as [p|], (arg_no_pipeline a); simpl; try destruct (p =? 0)%Z. }
  unfold lock_path, db_path, log_dir. by rewrite Hdir.
Qed.
End Settings.

(** The directory of the environment works; the emergency stop reads both. *)
Definition joined_path (a b : string) : string := a ++ "/" ++ b.
Definition sample_env_vars : list (string * string) := [("RASATTRADING_DATA_DIR", "/data"); ("RASATTRADING_PORT", "9000"); ("RASATTRADING_PIPELINE_ENABLED", "No")].

Example sample_configs :
  (c ← main_config "/home/me" joined_path sample_env_vars (mk_arguments None (Some 0%Z) false);
   l ← lock_path joined_path c; Ok (l, port c, pipeline_enabled c)) = Ok (IsPath "/data/daemon.lock", 9000%Z, false) ∧
  (c ← main_config "/home/me" joined_path sample_env_vars (mk_arguments (Some "/mine") None false); lock_path joined_path c) = Err TypeError ∧
  (c ← emergency_config "/home/me" joined_path sample_env_vars (Some "/mine"); lock_path joined_path c) = Ok (IsPath "/mine/daemon.lock").
Proof. vm_compute. done. Qed.

Lemma spawned_daemon_agrees_witness :
  (c ← from_env "/home/me" joined_path sample_env_vars []; from_env "/home/me" joined_path (spawn_env c sample_env_vars) [])
  = from_env "/home/me" joined_path sample_env_vars [].
Proof.
  destruct (from_env "/home/me" joined_path sample_env_vars []) as [c|e] eqn:Ec; [|reflexivity].
  apply (spawned_daemon_agrees _ _ _ [] c "/data"); [exact Ec|..]; vm_compute in Ec; injection Ec as <-; [reflexivity|split; [discriminate|reflexivity]].
Defined.
